(** * STAG-GCN (trafficdl/model/traffic_flow_prediction/STAGGCN.py)

    A shallow embedding of the STAGGCN model classes and of the tensor
    operations they call.  Tensor entries are real numbers (the rounding of
    floating point is not modelled); a tensor is its shape together with its
    entries in row-major order.  Python exceptions are values of [result];
    the random number generator that drives dropout is threaded as state.
    The operations of torch and the layers of torch.nn and torch_geometric
    follow their documentation; the classes of STAGGCN.py follow the file,
    one module per class. *)

From Stdlib Require Import String DecimalString Reals Lra Lia Arith PeanoNat Bool List.
Import ListNotations.

(** ** Exceptions and results *)

Inductive exception : Type :=
| RuntimeError
| IndexError
| KeyError
| AttributeError
| UnboundLocalError
| AssertionError
| ZeroDivisionError
| ValueError
| TypeError.

Inductive result (A : Type) : Type :=
| Ok (a : A)
| Raise (e : exception).

Arguments Ok {A} a.
Arguments Raise {A} e.

Definition rbind {A B : Type} (r : result A) (k : A -> result B) : result B :=
  match r with
  | Ok a => k a
  | Raise e => Raise e
  end.

Definition rmap {A B : Type} (f : A -> B) (r : result A) : result B :=
  rbind r (fun a => Ok (f a)).

(** ** The random number generator

    The default generator of torch, as far as dropout sees it: the sequence
    of uniform samples fixed by the seed, and how many of them were drawn. *)

Record Generator : Type := mkGenerator {
  stream : nat -> R;
  consumed : nat
}.

Definition advance (g : Generator) (n : nat) : Generator :=
  mkGenerator (stream g) (consumed g + n).

(** Computations that may raise and that draw random numbers. *)
Definition M (A : Type) : Type := Generator -> result A * Generator.

Definition ret {A : Type} (a : A) : M A := fun g => (Ok a, g).

Definition bind {A B : Type} (m : M A) (k : A -> M B) : M B :=
  fun g =>
    match m g with
    | (Ok a, g') => k a g'
    | (Raise e, g') => (Raise e, g')
    end.

Definition lift {A : Type} (r : result A) : M A := fun g => (r, g).

Declare Scope monad_scope.
Delimit Scope monad_scope with monad.
Notation "x <- m ;; k" := (bind m (fun x => k))
  (at level 61, m at next level, right associativity) : monad_scope.
Notation "x <~ r ;; k" := (bind (lift r) (fun x => k))
  (at level 61, r at next level, right associativity) : monad_scope.
Notation "' ( x , y ) <- m ;; k" := (bind m (fun p => let '(x, y) := p in k))
  (at level 61, x name, y name, m at next level, right associativity) : monad_scope.

(** ** Tensors *)

Record tensor : Type := Tensor {
  shape : list nat;
  data : list R
}.

Definition numel (s : list nat) : nat := fold_right Nat.mul 1 s.

Definition tabulate (n : nat) (f : nat -> R) : list R := map f (seq 0 n).

(** The tensor of shape [s] whose entry at flat index [i] is [f i]. *)
Definition build (s : list nat) (f : nat -> R) : tensor :=
  Tensor s (tabulate (numel s) f).

Definition get (t : tensor) (i : nat) : R := nth i (data t) 0%R.

Definition Rsum (n : nat) (f : nat -> R) : R :=
  fold_right Rplus 0%R (tabulate n f).

(** [t.shape[k]], with Python's [IndexError]. *)
Definition size (t : tensor) (k : nat) : result nat :=
  match nth_error (shape t) k with
  | Some d => Ok d
  | None => Raise IndexError
  end.

(** Coordinates of a flat index in a row-major layout, and back. *)
Fixpoint unravel (s : list nat) (i : nat) : list nat :=
  match s with
  | [] => []
  | d :: s' => (i / numel s') mod d :: unravel s' i
  end.

Fixpoint ravel (s : list nat) (c : list nat) : nat :=
  match s, c with
  | d :: s', x :: c' => x * numel s' + ravel s' c'
  | _, _ => 0
  end.

(** *** reshape

    A requested dimension is [Some d], or [None] for Python's [-1]. *)

Definition known (dims : list (option nat)) : nat :=
  numel (flat_map (fun d => match d with Some n => [n] | None => [] end) dims).

Definition unknowns (dims : list (option nat)) : nat :=
  length (filter (fun d => match d with Some _ => false | None => true end) dims).

Definition fill (q : nat) (dims : list (option nat)) : list nat :=
  map (fun d => match d with Some n => n | None => q end) dims.

Definition infer_shape (n : nat) (dims : list (option nat)) : result (list nat) :=
  match unknowns dims with
  | 0 => if known dims =? n then Ok (fill 0 dims) else Raise RuntimeError
  | 1 => if known dims =? 0 then Raise RuntimeError
         else if n mod known dims =? 0 then Ok (fill (n / known dims) dims)
         else Raise RuntimeError
  | _ => Raise RuntimeError
  end.

(** [torch.reshape(t, dims)]: the entries in their logical order under the
    new shape. *)
Definition reshape (t : tensor) (dims : list (option nat)) : result tensor :=
  rbind (infer_shape (numel (shape t)) dims)
        (fun s => Ok (build s (get t))).

(** *** permute *)

Fixpoint index_of (a : nat) (l : list nat) : nat :=
  match l with
  | [] => 0
  | x :: l' => if x =? a then 0 else S (index_of a l')
  end.

Definition is_permutation (perm : list nat) (n : nat) : bool :=
  (length perm =? n) && forallb (fun a => existsb (Nat.eqb a) perm) (seq 0 n).

(** [t.permute(perm)]: output dimension [k] is input dimension [perm[k]]. *)
Definition permute (t : tensor) (perm : list nat) : result tensor :=
  let s := shape t in
  if is_permutation perm (length s) then
    let s' := map (fun p => nth p s 0) perm in
    Ok (build s' (fun i =>
          let c' := unravel s' i in
          let c := map (fun a => nth (index_of a perm) c' 0) (seq 0 (length s)) in
          get t (ravel s c)))
  else Raise RuntimeError.

(** *** indexing and slicing *)

(** Selecting index [k] along dimension [d]; [x[:, :, :, 0]] is
    [select x 3 0]. *)
Definition select (t : tensor) (d k : nat) : result tensor :=
  let s := shape t in
  match nth_error s d with
  | None => Raise IndexError
  | Some n =>
    if k <? n then
      let inner := numel (skipn (S d) s) in
      Ok (build (firstn d s ++ skipn (S d) s)
                (fun i => get t ((i / inner * n + k) * inner + i mod inner)))
    else Raise IndexError
  end.

(** [t[..., :k]] *)
Definition narrow_last (t : tensor) (k : nat) : result tensor :=
  match rev (shape t) with
  | [] => Raise IndexError
  | n :: lead =>
    let m := Nat.min k n in
    Ok (build (rev lead ++ [m]) (fun i => get t (i / m * n + i mod m)))
  end.

(** [t[:, :, :-c]]: Python reads [:-0] as [:0], the empty slice. *)
Definition chomp_last3 (t : tensor) (c : nat) : result tensor :=
  match shape t with
  | d0 :: d1 :: n :: rest =>
    let m := if c =? 0 then 0 else n - c in
    let inner := numel rest in
    Ok (build (d0 :: d1 :: m :: rest)
              (fun i => get t ((i / (m * inner) * n + i / inner mod m) * inner
                               + i mod inner)))
  | _ => Raise IndexError
  end.

Fixpoint list_eq_nat (a b : list nat) : bool :=
  match a, b with
  | [], [] => true
  | x :: a', y :: b' => (x =? y) && list_eq_nat a' b'
  | _, _ => false
  end.

(** [t.unsqueeze(d)] *)
Definition unsqueeze (t : tensor) (d : nat) : result tensor :=
  if d <=? length (shape t) then
    Ok (build (firstn d (shape t) ++ 1 :: skipn d (shape t)) (get t))
  else Raise IndexError.

(** [torch.cat((a, b), dim=d)] *)
Definition cat (a b : tensor) (d : nat) : result tensor :=
  let sa := shape a in
  let sb := shape b in
  match nth_error sa d, nth_error sb d with
  | Some na, Some nb =>
    if (length sa =? length sb)
       && list_eq_nat (firstn d sa) (firstn d sb)
       && list_eq_nat (skipn (S d) sa) (skipn (S d) sb)
    then
      let inner := numel (skipn (S d) sa) in
      let ia := na * inner in
      let ib := nb * inner in
      Ok (build (firstn d sa ++ (na + nb) :: skipn (S d) sa)
                (fun i =>
                   let o := i / (ia + ib) in
                   let r := i mod (ia + ib) in
                   if r <? ia then get a (o * ia + r)
                   else get b (o * ib + (r - ia))))
    else Raise RuntimeError
  | _, _ => Raise IndexError
  end.

(** *** element-wise operations *)

Definition pointwise (f : R -> R) (t : tensor) : tensor :=
  build (shape t) (fun i => f (get t i)).

Definition relu_R (x : R) : R := Rmax 0 x.

Definition leaky_relu_R (slope x : R) : R :=
  if Rle_dec 0 x then x else (slope * x)%R.

Definition sigmoid_R (x : R) : R := (1 / (1 + exp (- x)))%R.

(** [F.relu], [F.leaky_relu] (slope 0.01), [torch.tanh], [torch.sigmoid]
    and [1 - t]. *)
Definition relu : tensor -> tensor := pointwise relu_R.
Definition leaky_relu : tensor -> tensor := pointwise (leaky_relu_R 0.01).
Definition tanh : tensor -> tensor := pointwise Rtrigo_def.tanh.
Definition sigmoid : tensor -> tensor := pointwise sigmoid_R.
Definition one_minus : tensor -> tensor := pointwise (fun v => (1 - v)%R).

(** Broadcasting, on shapes read from the last dimension. *)
Fixpoint broadcast_rev (ra rb : list nat) : result (list nat) :=
  match ra, rb with
  | [], _ => Ok rb
  | _, [] => Ok ra
  | a :: ra', b :: rb' =>
    rbind (broadcast_rev ra' rb')
          (fun r => if a =? b then Ok (a :: r)
                    else if a =? 1 then Ok (b :: r)
                    else if b =? 1 then Ok (a :: r)
                    else Raise RuntimeError)
  end.

Definition broadcast_shapes (sa sb : list nat) : result (list nat) :=
  rmap (@rev nat) (broadcast_rev (rev sa) (rev sb)).

(** The flat index read in an operand of reversed shape [ra] for the flat
    index [i] of the result of reversed shape [ro]. *)
Fixpoint bindex (ra ro : list nat) (i : nat) : nat :=
  match ra, ro with
  | a :: ra', o :: ro' =>
    bindex ra' ro' (i / o) * a + (if a =? 1 then 0 else i mod o)
  | _, _ => 0
  end.

Definition binary (f : R -> R -> R) (a b : tensor) : result tensor :=
  rbind (broadcast_shapes (shape a) (shape b))
        (fun s => Ok (build s (fun i =>
                        f (get a (bindex (rev (shape a)) (rev s) i))
                          (get b (bindex (rev (shape b)) (rev s) i))))).

Definition add : tensor -> tensor -> result tensor := binary Rplus.
Definition mul : tensor -> tensor -> result tensor := binary Rmult.

(** *** linear algebra *)

(** [F.linear(x, weight, bias)] *)
Definition linear (x weight bias : tensor) : result tensor :=
  match shape weight, rev (shape x) with
  | [o; n], d :: lead =>
    if (d =? n) && list_eq_nat (shape bias) [o] then
      Ok (build (rev lead ++ [o])
                (fun i => (get bias (i mod o)
                           + Rsum n (fun k => get x (i / o * n + k)
                                              * get weight (i mod o * n + k)))%R))
    else Raise RuntimeError
  | _, _ => Raise RuntimeError
  end.

(** [torch.mm(a, b)] *)
Definition mm (a b : tensor) : result tensor :=
  match shape a, shape b with
  | [n; k], [k'; m] =>
    if k =? k' then
      Ok (build [n; m]
                (fun i => Rsum k (fun j => get a (i / m * k + j)
                                           * get b (j * m + i mod m))%R))
    else Raise RuntimeError
  | _, _ => Raise RuntimeError
  end.

(** [a.matmul(b)] for a matrix [a], which is what the model passes (the
    learned adjacency): a vector, a matrix or a batch of matrices [b]. *)
Definition matmul (a b : tensor) : result tensor :=
  match shape a, rev (shape b) with
  | [n; k], [k'] =>
    if k =? k' then
      Ok (build [n] (fun i => Rsum k (fun j => get a (i * k + j) * get b j)%R))
    else Raise RuntimeError
  | [n; k], m :: k' :: batch =>
    if k =? k' then
      Ok (build (rev batch ++ [n; m])
                (fun i => Rsum k (fun j =>
                            get a (i / m mod n * k + j)
                            * get b ((i / (n * m) * k + j) * m + i mod m))%R))
    else Raise RuntimeError
  | _, _ => Raise RuntimeError
  end.

(** [F.softmax(t, dim=d)] *)
Definition softmax (t : tensor) (d : nat) : result tensor :=
  let s := shape t in
  match nth_error s d with
  | None => Raise IndexError
  | Some n =>
    let inner := numel (skipn (S d) s) in
    Ok (build s (fun i =>
                   (exp (get t i)
                    / Rsum n (fun k => exp (get t ((i / (n * inner) * n + k) * inner
                                                   + i mod inner))))%R))
  end.

(** *** dropout

    [F.dropout(x, p, training)]: in training mode every entry is kept with
    probability [1 - p] and scaled by [1 / (1 - p)]; one sample is drawn per
    entry. *)
Definition dropout (x : tensor) (p : R) (training : bool) : M tensor :=
  fun g =>
    if Rle_dec 0 p then
      if Rle_dec p 1 then
        if training then
          (Ok (build (shape x)
                     (fun i => if Rlt_dec (stream g (consumed g + i)) (1 - p)
                               then (get x i / (1 - p))%R else 0%R)),
           advance g (numel (shape x)))
        else (Ok x, g)
      else (Raise ValueError, g)
    else (Raise ValueError, g).

(** *** convolution *)

(** [F.conv1d(x, weight, bias, stride, padding, dilation)] on a batch
    [(N, C_in, L)], zero padded on both sides. *)
Definition conv1d (x weight bias : tensor) (stride padding dilation : nat)
  : result tensor :=
  match shape x, shape weight with
  | [n; c; l], [co; ci; k] =>
    if (c =? ci) && list_eq_nat (shape bias) [co]
       && (1 <=? k) && (1 <=? stride) && (1 <=? dilation)
       && (dilation * (k - 1) + 1 <=? l + 2 * padding)
    then
      let lout := (l + 2 * padding - dilation * (k - 1) - 1) / stride + 1 in
      Ok (build [n; co; lout]
                (fun i =>
                   let t := i mod lout in
                   let o := i / lout mod co in
                   let b := i / lout / co in
                   (get bias o
                    + Rsum ci (fun ch =>
                        Rsum k (fun j =>
                          let pos := (t * stride + j * dilation)%nat in
                          get weight ((o * ci + ch) * k + j)
                          * (if ((padding <=? pos)%nat && (pos - padding <? l)%nat)%bool
                             then get x ((b * c + ch) * l + (pos - padding))
                             else 0))))%R))
    else Raise RuntimeError
  | _, _ => Raise RuntimeError
  end.

(** The weight that [weight_norm] recomputes before every forward:
    [g * v / ||v||], the norm taken over each output channel. *)
Definition normed_weight (g v : tensor) : tensor :=
  let per := numel (tl (shape v)) in
  build (shape v)
        (fun i => (get g (i / per) * get v i
                   / sqrt (Rsum per (fun j => Rsqr (get v (i / per * per + j)))))%R).

(** ** Parameters

    The values of the parameters are those of a state dict: a flat list of
    entries under each parameter's name. *)

Definition state_dict : Type := string -> list R.

Definition sub (prefix name : string) : string := (prefix ++ "." ++ name)%string.

(** [nn.Parameter] of a given shape holding the entries stored under [name]. *)
Definition parameter (sd : state_dict) (name : string) (s : list nat) : tensor :=
  build s (fun i => nth i (sd name) 0%R).

(** The flag [training] of [nn.Module], which [train()] and [eval()] set on
    every submodule, is taken by the constructors, so that both modes are
    covered. *)

(** ** Layers of [torch.nn] *)

Module Linear.
Record t : Type := mk {
  in_features : nat;
  out_features : nat;
  weight : tensor;
  bias : tensor
}.

Definition init (sd : state_dict) (name : string) (in_features out_features : nat) : t :=
  mk in_features out_features
     (parameter sd (sub name "weight") [out_features; in_features])
     (parameter sd (sub name "bias") [out_features]).

Definition forward (self : t) (x : tensor) : result tensor :=
  linear x (weight self) (bias self).
End Linear.

Module Dropout.
Record t : Type := mk {
  p : R;
  training : bool
}.

Definition forward (self : t) (x : tensor) : M tensor :=
  dropout x (p self) (training self).
End Dropout.

Module Conv1d.
(** [weight_g] is present when the layer is wrapped in [weight_norm];
    [weight] is then the direction [weight_v]. *)
Record t : Type := mk {
  in_channels : nat;
  out_channels : nat;
  kernel_size : nat;
  stride : nat;
  padding : nat;
  dilation : nat;
  weight : tensor;
  weight_g : option tensor;
  bias : tensor
}.

Definition init (sd : state_dict) (name : string)
           (in_channels out_channels kernel_size stride padding dilation : nat) : t :=
  mk in_channels out_channels kernel_size stride padding dilation
     (parameter sd (sub name "weight") [out_channels; in_channels; kernel_size])
     None
     (parameter sd (sub name "bias") [out_channels]).

(** [weight_norm(nn.Conv1d(...))] *)
Definition weight_norm (sd : state_dict) (name : string) (c : t) : t :=
  mk (in_channels c) (out_channels c) (kernel_size c)
     (stride c) (padding c) (dilation c)
     (parameter sd (sub name "weight_v")
                [out_channels c; in_channels c; kernel_size c])
     (Some (parameter sd (sub name "weight_g") [out_channels c; 1; 1]))
     (bias c).

Definition effective_weight (self : t) : tensor :=
  match weight_g self with
  | Some g => normed_weight g (weight self)
  | None => weight self
  end.

Definition forward (self : t) (x : tensor) : result tensor :=
  conv1d x (effective_weight self) (bias self)
         (stride self) (padding self) (dilation self).
End Conv1d.

Module MultiheadAttention.
Record t : Type := mk {
  embed_dim : nat;
  num_heads : nat;
  in_proj_weight : tensor;
  in_proj_bias : tensor;
  out_proj : Linear.t
}.

(** [head_dim = embed_dim // num_heads] and the assertion
    [head_dim * num_heads == embed_dim].  What torch checks besides is not
    modelled: it refuses [embed_dim = 0], and its later versions raise
    ValueError instead of dividing by [num_heads = 0]. *)
Definition init (sd : state_dict) (name : string) (embed_dim num_heads : nat)
  : result t :=
  if num_heads =? 0 then Raise ZeroDivisionError
  else if embed_dim / num_heads * num_heads =? embed_dim then
    Ok (mk embed_dim num_heads
           (parameter sd (sub name "in_proj_weight") [3 * embed_dim; embed_dim])
           (parameter sd (sub name "in_proj_bias") [3 * embed_dim])
           (Linear.init sd (sub name "out_proj") embed_dim embed_dim))
  else Raise AssertionError.

(** [nn.MultiheadAttention.forward] as PyTorch documents it: scaled
    dot-product attention over inputs [(L, B, E)] and [(S, B, E)]; the result
    is the output [(L, B, E)] and the attention weights averaged over the
    heads [(B, L, S)]. *)
Definition forward (self : t) (query key value : tensor) : result (tensor * tensor) :=
  match shape query, shape key, shape value with
  | [L; B; E], [Sk; Bk; Ek], [Sv; Bv; Ev] =>
    if (E =? embed_dim self) && (Ek =? E) && (Ev =? E)
       && (Bk =? B) && (Bv =? B) && (Sv =? Sk)
    then
      let h := num_heads self in
      let hd := E / h in
      let proj (off : nat) (x : tensor) (pos b e : nat) : R :=
        (get (in_proj_bias self) (off + e)
         + Rsum E (fun j => get x ((pos * B + b) * E + j)
                            * get (in_proj_weight self) ((off + e) * E + j)))%R in
      let q (l b e : nat) : R := (proj 0%nat query l b e / sqrt (INR hd))%R in
      let k (s b e : nat) : R := proj E key s b e in
      let v (s b e : nat) : R := proj (2 * E) value s b e in
      let score (b i l s : nat) : R :=
        Rsum hd (fun c => q l b (i * hd + c)%nat * k s b (i * hd + c)%nat)%R in
      let attn (b i l s : nat) : R :=
        (exp (score b i l s) / Rsum Sk (fun s' => exp (score b i l s')))%R in
      let ctx (l b e : nat) : R :=
        Rsum Sk (fun s => attn b (e / hd)%nat l s * v s b e)%R in
      let W := Linear.weight (out_proj self) in
      let c := Linear.bias (out_proj self) in
      Ok (build [L; B; E]
                (fun i => (get c (i mod E)
                           + Rsum E (fun j => ctx (i / E / B)%nat (i / E mod B)%nat j
                                              * get W (i mod E * E + j)))%R),
          build [B; L; Sk]
                (fun i => (Rsum h (fun hh => attn (i / Sk / L)%nat hh (i / Sk mod L)%nat (i mod Sk)%nat)
                           / INR h)%R))
    else Raise AssertionError
  | _, _, _ => Raise AssertionError
  end.
End MultiheadAttention.

(** ** Graph attention of [torch_geometric] *)

Inductive device : Type :=
| cpu
| cuda (index : nat).

(** An edge index: where it is stored, and its (source, target) pairs. *)
Record EdgeIndex : Type := mkEdgeIndex {
  ei_device : device;
  edges : list (nat * nat)
}.

(** [edge_index.to(device)] *)
Definition to (e : EdgeIndex) (d : device) : EdgeIndex := mkEdgeIndex d (edges e).

Definition Rsum_list (l : list R) : R := fold_right Rplus 0%R l.

Module GATConv.
Record t : Type := mk {
  in_channels : nat;
  out_channels : nat;
  heads : nat;
  concat : bool;
  lin : tensor;
  att_l : tensor;
  att_r : tensor;
  bias : tensor
}.

Definition init (sd : state_dict) (name : string)
           (in_channels out_channels heads : nat) (concat : bool) : t :=
  mk in_channels out_channels heads concat
     (parameter sd (sub name "lin.weight") [heads * out_channels; in_channels])
     (parameter sd (sub name "att_l") [1; heads; out_channels])
     (parameter sd (sub name "att_r") [1; heads; out_channels])
     (parameter sd (sub name "bias")
                [if concat then heads * out_channels else out_channels]).

(** [GATConv.forward] as torch_geometric documents it: attention over the
    edges into each node, self loops replaced by one loop per node; the
    heads are averaged unless [concat].  Features of another width fail in
    the linear map (RuntimeError); an edge that names a node beyond the rows
    of [x] fails when the rows are gathered (IndexError). *)
Definition forward (self : t) (x : tensor) (edge_index : EdgeIndex) : result tensor :=
  match shape x with
  | [n; f] =>
    if (f =? in_channels self)
       && forallb (fun e => (fst e <? n) && (snd e <? n)) (edges edge_index)
    then
      let H := heads self in
      let C := out_channels self in
      let xl (j h c : nat) : R :=
        Rsum f (fun k => get x (j * f + k) * get (lin self) ((h * C + c) * f + k))%R in
      let al (j h : nat) : R := Rsum C (fun c => xl j h c * get (att_l self) (h * C + c))%R in
      let ar (i h : nat) : R := Rsum C (fun c => xl i h c * get (att_r self) (h * C + c))%R in
      let es := (filter (fun e => negb (fst e =? snd e)) (edges edge_index)
                 ++ map (fun i => (i, i)) (seq 0 n))%list in
      let into (i : nat) := filter (fun e => snd e =? i) es in
      let e (j i h : nat) : R := exp (leaky_relu_R 0.2 (al j h + ar i h))%R in
      let alpha (j i h : nat) : R :=
        (e j i h / Rsum_list (map (fun e' => e (fst e') i h) (into i)))%R in
      let out (i h c : nat) : R :=
        Rsum_list (map (fun e' => alpha (fst e') i h * xl (fst e') h c)%R (into i)) in
      Ok (if concat self then
            build [n; H * C]
                  (fun i => (out (i / (H * C))%nat (i mod (H * C) / C)%nat (i mod C)%nat
                             + get (bias self) (i mod (H * C)))%R)
          else
            build [n; C]
                  (fun i => (Rsum H (fun h => out (i / C)%nat h (i mod C)%nat) / INR H
                             + get (bias self) (i mod C))%R))
    else if f =? in_channels self then Raise IndexError
    else Raise RuntimeError
  | _ => Raise AssertionError
  end.
End GATConv.

(** ** The model classes of STAGGCN.py *)

Notation "x <-- r ;; k" := (rbind r (fun x => k))
  (at level 61, r at next level, right associativity) : monad_scope.

Open Scope monad_scope.

(** [l[i]] and [l[-1]] on a Python list. *)
Definition getitem {A : Type} (l : list A) (i : nat) : result A :=
  match nth_error l i with
  | Some a => Ok a
  | None => Raise IndexError
  end.

Definition last_item {A : Type} (l : list A) : result A := getitem (rev l) 0.

(** Reading an attribute, [None] being one that was never assigned (or the
    value [None] itself, which has no attributes). *)
Definition attr {A : Type} (a : option A) : result A :=
  match a with
  | Some v => Ok v
  | None => Raise AttributeError
  end.

Definition string_of_nat (n : nat) : string :=
  DecimalString.NilEmpty.string_of_uint (Nat.to_uint n).

Module Chomp1d.
Record t : Type := mk { chomp_size : nat }.

Definition forward (self : t) (x : tensor) : result tensor :=
  chomp_last3 x (chomp_size self).
End Chomp1d.

Module TemporalBlock.
Record t : Type := mk {
  conv1 : Conv1d.t;
  chomp1 : Chomp1d.t;
  dropout1 : Dropout.t;
  conv2 : Conv1d.t;
  chomp2 : Chomp1d.t;
  dropout2 : Dropout.t;
  downsample : option Conv1d.t
}.

(** [init_weights] only redraws the values of parameters, which are those
    of the state dict here.  The constructor cannot fail here; torch's
    [weight_norm] refuses a convolution with no output channel. *)
Definition init (sd : state_dict) (name : string)
           (n_inputs n_outputs kernel_size stride dilation padding : nat)
           (dropout : R) (training : bool) : t :=
  mk (Conv1d.weight_norm sd (sub name "conv1")
        (Conv1d.init sd (sub name "conv1") n_inputs n_outputs kernel_size
                     stride padding dilation))
     (Chomp1d.mk padding)
     (Dropout.mk dropout training)
     (Conv1d.weight_norm sd (sub name "conv2")
        (Conv1d.init sd (sub name "conv2") n_outputs n_outputs kernel_size
                     stride padding dilation))
     (Chomp1d.mk padding)
     (Dropout.mk dropout training)
     (if n_inputs =? n_outputs then None
      else Some (Conv1d.init sd (sub name "downsample") n_inputs n_outputs 1 1 0 1)).

(** [self.net]: conv1, chomp1, relu1, dropout1, conv2, chomp2, relu2,
    dropout2. *)
Definition net (self : t) (x : tensor) : M tensor :=
  out <~ Conv1d.forward (conv1 self) x ;;
  out <~ Chomp1d.forward (chomp1 self) out ;;
  out <- Dropout.forward (dropout1 self) (relu out) ;;
  out <~ Conv1d.forward (conv2 self) out ;;
  out <~ Chomp1d.forward (chomp2 self) out ;;
  Dropout.forward (dropout2 self) (relu out).

Definition forward (self : t) (x : tensor) : M tensor :=
  out <- net self x ;;
  res <~ match downsample self with
         | None => Ok x
         | Some d => Conv1d.forward d x
         end ;;
  s <~ add out res ;;
  ret (relu s).
End TemporalBlock.

Module TemporalConvNet.
Record t : Type := mk { network : list TemporalBlock.t }.

Definition init (sd : state_dict) (name : string) (num_inputs : nat)
           (num_channels : list nat) (kernel_size : nat) (dropout : R)
           (training : bool) : t :=
  let num_levels := length num_channels in
  mk (map (fun i =>
             let dilation_size := 2 ^ i in
             let in_channels :=
               if i =? 0 then num_inputs else nth (i - 1) num_channels 0 in
             let out_channels := nth i num_channels 0 in
             TemporalBlock.init sd (sub (sub name "network") (string_of_nat i))
                                in_channels out_channels kernel_size 1
                                dilation_size ((kernel_size - 1) * dilation_size)
                                dropout training)
          (seq 0 num_levels)).

Fixpoint sequential (layers : list TemporalBlock.t) (x : tensor) : M tensor :=
  match layers with
  | [] => ret x
  | b :: rest => y <- TemporalBlock.forward b x ;; sequential rest y
  end.

Definition forward (self : t) (x : tensor) : M tensor :=
  sequential (network self) x.
End TemporalConvNet.

(** [F.softmax(F.relu(torch.mm(source_embed, target_embed)), dim=1)], the
    learned adjacency of [LearnedGCN.forward] and of both graph branches of
    [STCell.forward]. *)
Definition learned_matrix (source_embed target_embed : tensor) : result tensor :=
  m <-- mm source_embed target_embed ;;
  softmax (relu m) 1.

Module LearnedGCN.
Record t : Type := mk {
  node_num : nat;
  in_feature : nat;
  out_feature : nat;
  source_embed : tensor;
  target_embed : tensor;
  linear : Linear.t
}.

(** The parameters are those of the state dict.  The call of
    [reset_parameters] that ends [__init__] (line 209) is not part of [init]:
    it is [reset_parameters] below, and raises for [node_num = 0]. *)
Definition init (sd : state_dict) (name : string)
           (node_num in_feature out_feature : nat) : t :=
  mk node_num in_feature out_feature
     (parameter sd (sub name "source_embed") [node_num; 10])
     (parameter sd (sub name "target_embed") [10; node_num])
     (Linear.init sd (sub name "linear") in_feature out_feature).

Definition forward (self : t) (input : tensor) : result tensor :=
  learned_matrix <-- learned_matrix (source_embed self) (target_embed self) ;;
  output <-- matmul learned_matrix input ;;
  Linear.forward (linear self) output.
End LearnedGCN.

Module STCell.
(** The attributes that [__init__] creates under [choice[0] == 1],
    [choice[1] == 1] and [choice[2] == 1]. *)
Record tcn_layers : Type := mk_tcn {
  self_atten : MultiheadAttention.t;
  tcn : TemporalConvNet.t;
  tlinear : Linear.t
}.

Record sp_layers : Type := mk_sp {
  sp_origin : Linear.t;
  sp_gconv1 : GATConv.t;
  sp_gconv2 : GATConv.t;
  sp_gconv3 : GATConv.t;
  sp_gconv4 : GATConv.t;
  sp_source_embed : tensor;
  sp_target_embed : tensor;
  sp_linear_1 : Linear.t;
  sp_linear_2 : Linear.t;
  sp_linear_3 : Linear.t;
  sp_linear_4 : Linear.t
}.

Record dtw_layers : Type := mk_dtw {
  dtw_origin : Linear.t;
  dtw_gconv1 : GATConv.t;
  dtw_gconv2 : GATConv.t;
  dtw_gconv3 : GATConv.t;
  dtw_gconv4 : GATConv.t;
  dtw_source_embed : tensor;
  dtw_target_embed : tensor;
  dtw_linear_1 : Linear.t;
  dtw_linear_2 : Linear.t;
  dtw_linear_3 : Linear.t;
  dtw_linear_4 : Linear.t
}.

Record t : Type := mk {
  node_num : nat;
  seq_len : nat;
  graph_dim : nat;
  tcn_dim : list nat;
  output_dim : nat;
  choice : list nat;
  seq_linear : Linear.t;
  tcn_attrs : option tcn_layers;
  sp_attrs : option sp_layers;
  dtw_attrs : option dtw_layers
}.

(** [__init__], without its prints. *)
Definition init (sd : state_dict) (name : string) (node_num seq_len graph_dim : nat)
           (tcn_dim : list nat) (choice : list nat) (atten_head : nat)
           (training : bool) : result t :=
  let output_dim := list_sum choice * graph_dim in
  let seq_linear := Linear.init sd (sub name "seq_linear") seq_len seq_len in
  c0 <-- getitem choice 0 ;;
  tcn_attrs <-- (if c0 =? 1 then
                   self_atten <-- MultiheadAttention.init
                                    sd (sub name "self_atten") node_num atten_head ;;
                   let tcn := TemporalConvNet.init sd (sub name "tcn") 1 tcn_dim
                                                   2 0.2 training in
                   d <-- last_item tcn_dim ;;
                   Ok (Some (mk_tcn self_atten tcn
                               (Linear.init sd (sub name "tlinear")
                                            (d * seq_len) graph_dim)))
                 else Ok None) ;;
  c1 <-- getitem choice 1 ;;
  let sp_attrs :=
    if c1 =? 1 then
      Some (mk_sp
              (Linear.init sd (sub name "sp_origin") seq_len graph_dim)
              (GATConv.init sd (sub name "sp_gconv1") seq_len graph_dim 3 false)
              (GATConv.init sd (sub name "sp_gconv2") graph_dim graph_dim 3 false)
              (GATConv.init sd (sub name "sp_gconv3") graph_dim graph_dim 3 false)
              (GATConv.init sd (sub name "sp_gconv4") graph_dim graph_dim 1 false)
              (parameter sd (sub name "sp_source_embed") [node_num; 12])
              (parameter sd (sub name "sp_target_embed") [12; node_num])
              (Linear.init sd (sub name "sp_linear_1") seq_len graph_dim)
              (Linear.init sd (sub name "sp_linear_2") graph_dim graph_dim)
              (Linear.init sd (sub name "sp_linear_3") graph_dim graph_dim)
              (Linear.init sd (sub name "sp_linear_4") graph_dim graph_dim))
    else None in
  c2 <-- getitem choice 2 ;;
  let dtw_attrs :=
    if c2 =? 1 then
      Some (mk_dtw
              (Linear.init sd (sub name "dtw_origin") seq_len graph_dim)
              (GATConv.init sd (sub name "dtw_gconv1") seq_len graph_dim 3 false)
              (GATConv.init sd (sub name "dtw_gconv2") graph_dim graph_dim 3 false)
              (GATConv.init sd (sub name "dtw_gconv3") graph_dim graph_dim 3 false)
              (GATConv.init sd (sub name "dtw_gconv4") graph_dim graph_dim 3 false)
              (parameter sd (sub name "dtw_source_embed") [node_num; 12])
              (parameter sd (sub name "dtw_target_embed") [12; node_num])
              (Linear.init sd (sub name "dtw_linear_1") seq_len graph_dim)
              (Linear.init sd (sub name "dtw_linear_2") graph_dim graph_dim)
              (Linear.init sd (sub name "dtw_linear_3") graph_dim graph_dim)
              (Linear.init sd (sub name "dtw_linear_4") graph_dim graph_dim))
    else None in
  Ok (mk node_num seq_len graph_dim tcn_dim output_dim choice seq_linear
         tcn_attrs sp_attrs dtw_attrs).

(** Lines 289-298: self-attention over the time axis, then the TCN. *)
Definition temporal (self : t) (x : tensor) : M tensor :=
  a <~ attr (tcn_attrs self) ;;
  r <~ reshape x [None; Some (node_num self); Some (seq_len self)] ;;
  atten_input <~ permute r [2; 0; 1] ;;
  o <~ MultiheadAttention.forward (self_atten a) atten_input atten_input atten_input ;;
  let atten_output := fst o in
  s <~ add atten_output atten_input ;;
  let atten_output := tanh s in
  p <~ permute atten_output [1; 2; 0] ;;
  atten_output <~ reshape p [None; Some (seq_len self)] ;;
  tcn_input <~ unsqueeze atten_output 1 ;;
  tcn_output <- TemporalConvNet.forward (tcn a) tcn_input ;;
  n <~ size tcn_output 0 ;;
  d <~ last_item (tcn_dim self) ;;
  tcn_output <~ reshape tcn_output [Some n; Some (d * seq_len self)] ;;
  tcn_output <~ Linear.forward (tlinear a) tcn_output ;;
  lift (reshape tcn_output [None; Some (node_num self); Some (graph_dim self)]).

(** Lines 304-338, on the input after [x = self.seq_linear(x) + x]. *)
Definition spatial (self : t) (x : tensor) (edge_index : EdgeIndex) : M tensor :=
  a <~ attr (sp_attrs self) ;;
  sp_learned_matrix <~ learned_matrix (sp_source_embed a) (sp_target_embed a) ;;

  sp_gout_1 <~ GATConv.forward (sp_gconv1 a) x edge_index ;;
  adp_input_1 <~ reshape x [None; Some (node_num self); Some (seq_len self)] ;;
  d <- dropout adp_input_1 0.1 true ;;
  m <~ matmul sp_learned_matrix d ;;
  sp_adp_1 <~ Linear.forward (sp_linear_1 a) m ;;
  sp_adp_1 <~ reshape sp_adp_1 [None; Some (graph_dim self)] ;;
  sp_origin <~ Linear.forward (sp_origin a) x ;;
  l <~ mul (tanh sp_gout_1) (sigmoid sp_adp_1) ;;
  r <~ mul sp_origin (one_minus (sigmoid sp_adp_1)) ;;
  sp_output_1 <~ add l r ;;

  sp_gout_2 <~ GATConv.forward (sp_gconv2 a) (tanh sp_output_1) edge_index ;;
  adp_input_2 <~ reshape (tanh sp_output_1)
                         [None; Some (node_num self); Some (graph_dim self)] ;;
  d <- dropout adp_input_2 0.1 true ;;
  m <~ matmul sp_learned_matrix d ;;
  sp_adp_2 <~ Linear.forward (sp_linear_2 a) m ;;
  sp_adp_2 <~ reshape sp_adp_2 [None; Some (graph_dim self)] ;;
  l <~ mul (leaky_relu sp_gout_2) (sigmoid sp_adp_2) ;;
  r <~ mul sp_output_1 (one_minus (sigmoid sp_adp_2)) ;;
  sp_output_2 <~ add l r ;;

  sp_gout_3 <~ GATConv.forward (sp_gconv3 a) (relu sp_output_2) edge_index ;;
  adp_input_3 <~ reshape (relu sp_output_2)
                         [None; Some (node_num self); Some (graph_dim self)] ;;
  d <- dropout adp_input_3 0.1 true ;;
  m <~ matmul sp_learned_matrix d ;;
  sp_adp_3 <~ Linear.forward (sp_linear_3 a) m ;;
  sp_adp_3 <~ reshape sp_adp_3 [None; Some (graph_dim self)] ;;
  l <~ mul (relu sp_gout_3) (sigmoid sp_adp_3) ;;
  r <~ mul sp_output_2 (one_minus (sigmoid sp_adp_3)) ;;
  sp_output_3 <~ add l r ;;

  sp_gout_4 <~ GATConv.forward (sp_gconv4 a) (relu sp_output_3) edge_index ;;
  adp_input_4 <~ reshape (relu sp_output_3)
                         [None; Some (node_num self); Some (graph_dim self)] ;;
  d <- dropout adp_input_4 0.1 true ;;
  m <~ matmul sp_learned_matrix d ;;
  sp_adp_4 <~ Linear.forward (sp_linear_4 a) m ;;
  sp_adp_4 <~ reshape sp_adp_4 [None; Some (graph_dim self)] ;;
  l <~ mul (relu sp_gout_4) (sigmoid sp_adp_4) ;;
  r <~ mul sp_output_3 (one_minus (sigmoid sp_adp_4)) ;;
  sp_output_4 <~ add l r ;;

  lift (reshape sp_output_4 [None; Some (node_num self); Some (graph_dim self)]).

(** Lines 345-381, on the input after [x = self.seq_linear(x) + x]. *)
Definition semantic (self : t) (x : tensor) (dtw_edge_index : EdgeIndex) : M tensor :=
  a <~ attr (dtw_attrs self) ;;
  dtw_learned_matrix <~ learned_matrix (dtw_source_embed a) (dtw_target_embed a) ;;

  dtw_gout_1 <~ GATConv.forward (dtw_gconv1 a) x dtw_edge_index ;;
  adp_input_1 <~ reshape x [None; Some (node_num self); Some (seq_len self)] ;;
  d <- dropout adp_input_1 0.1 true ;;
  m <~ matmul dtw_learned_matrix d ;;
  dtw_adp_1 <~ Linear.forward (dtw_linear_1 a) m ;;
  dtw_adp_1 <~ reshape dtw_adp_1 [None; Some (graph_dim self)] ;;
  dtw_origin <~ Linear.forward (dtw_origin a) x ;;
  l <~ mul (tanh dtw_gout_1) (sigmoid dtw_adp_1) ;;
  r <~ mul dtw_origin (one_minus (sigmoid dtw_adp_1)) ;;
  dtw_output_1 <~ add l r ;;

  dtw_gout_2 <~ GATConv.forward (dtw_gconv2 a) (tanh dtw_output_1) dtw_edge_index ;;
  adp_input_2 <~ reshape (tanh dtw_output_1)
                         [None; Some (node_num self); Some (graph_dim self)] ;;
  d <- dropout adp_input_2 0.1 true ;;
  m <~ matmul dtw_learned_matrix d ;;
  dtw_adp_2 <~ Linear.forward (dtw_linear_2 a) m ;;
  dtw_adp_2 <~ reshape dtw_adp_2 [None; Some (graph_dim self)] ;;
  l <~ mul (leaky_relu dtw_gout_2) (sigmoid dtw_adp_2) ;;
  r <~ mul dtw_output_1 (one_minus (sigmoid dtw_adp_2)) ;;
  dtw_output_2 <~ add l r ;;

  dtw_gout_3 <~ GATConv.forward (dtw_gconv3 a) (relu dtw_output_2) dtw_edge_index ;;
  adp_input_3 <~ reshape (relu dtw_output_2)
                         [None; Some (node_num self); Some (graph_dim self)] ;;
  d <- dropout adp_input_3 0.1 true ;;
  m <~ matmul dtw_learned_matrix d ;;
  dtw_adp_3 <~ Linear.forward (dtw_linear_3 a) m ;;
  dtw_adp_3 <~ reshape dtw_adp_3 [None; Some (graph_dim self)] ;;
  l <~ mul (relu dtw_gout_3) (sigmoid dtw_adp_3) ;;
  r <~ mul dtw_output_2 (one_minus (sigmoid dtw_adp_3)) ;;
  dtw_output_3 <~ add l r ;;

  dtw_gout_4 <~ GATConv.forward (dtw_gconv4 a) (relu dtw_output_3) dtw_edge_index ;;
  adp_input_4 <~ reshape (relu dtw_output_3)
                         [None; Some (node_num self); Some (graph_dim self)] ;;
  d <- dropout adp_input_4 0.1 true ;;
  m <~ matmul dtw_learned_matrix d ;;
  dtw_adp_4 <~ Linear.forward (dtw_linear_4 a) m ;;
  dtw_adp_4 <~ reshape dtw_adp_4 [None; Some (graph_dim self)] ;;
  l <~ mul (relu dtw_gout_4) (sigmoid dtw_adp_4) ;;
  r <~ mul dtw_output_3 (one_minus (sigmoid dtw_adp_4)) ;;
  dtw_output_4 <~ add l r ;;

  lift (reshape dtw_output_4 [None; Some (node_num self); Some (graph_dim self)]).

(** [x = self.seq_linear(x) + x] (lines 302 and 343). *)
Definition residual (self : t) (x : tensor) : result tensor :=
  s <-- Linear.forward (seq_linear self) x ;;
  add s x.

(** [output_list[i] = v] *)
Definition setitem {A : Type} (l : list A) (i : nat) (v : A) : list A :=
  firstn i l ++ v :: skipn (S i) l.

(** Lines 286-383: the outputs of the enabled branches, [None] standing
    for the placeholder [0] of a branch that did not run. *)
Definition branches (self : t) (x : tensor) (edge_index dtw_edge_index : EdgeIndex)
  : M (list (option tensor)) :=
  let output_list := [None; None; None] in
  c0 <~ getitem (choice self) 0 ;;
  output_list <- (if c0 =? 1 then
                    tcn_output <- temporal self x ;;
                    ret (setitem output_list 0 (Some tcn_output))
                  else ret output_list) ;;
  c1 <~ getitem (choice self) 1 ;;
  xo <- (if c1 =? 1 then
           x <~ residual self x ;;
           sp_output <- spatial self x edge_index ;;
           ret (x, setitem output_list 1 (Some sp_output))
         else ret (x, output_list)) ;;
  let x := fst xo in
  let output_list := snd xo in
  c2 <~ getitem (choice self) 2 ;;
  (if c2 =? 1 then
     x <~ residual self x ;;
     dtw_output <- semantic self x dtw_edge_index ;;
     ret (setitem output_list 2 (Some dtw_output))
   else ret output_list).

(** One turn of the loop of lines 386-391 on [(step, cell_output)];
    [cell_output] is [None] while the variable is unbound.  An enabled
    index below 3 always holds a tensor. *)
Definition concat_step (self : t) (output_list : list (option tensor))
           (st : nat * option tensor) (i : nat) : result (nat * option tensor) :=
  let (step, cell_output) := st in
  c <-- getitem (choice self) i ;;
  if (c =? 1) && (step =? 0) then
    o <-- getitem output_list i ;;
    match o with
    | Some v => Ok (step + 1, Some v)
    | None => Raise TypeError
    end
  else if c =? 1 then
    match cell_output with
    | None => Raise UnboundLocalError
    | Some acc =>
      o <-- getitem output_list i ;;
      match o with
      | Some v => r <-- cat acc v 2 ;; Ok (step, Some r)
      | None => Raise TypeError
      end
    end
  else Ok st.

Fixpoint concat_loop (self : t) (output_list : list (option tensor))
         (st : nat * option tensor) (range : list nat) : result (nat * option tensor) :=
  match range with
  | [] => Ok st
  | i :: rest =>
    st' <-- concat_step self output_list st i ;;
    concat_loop self output_list st' rest
  end.

(** Lines 385-396. *)
Definition concat (self : t) (output_list : list (option tensor)) : result tensor :=
  st <-- concat_loop self output_list (0, None) (seq 0 (length (choice self))) ;;
  match snd st with
  | None => Raise UnboundLocalError
  | Some cell_output => reshape cell_output [None; Some (output_dim self)]
  end.

Definition forward (self : t) (x : tensor) (edge_index dtw_edge_index : EdgeIndex)
  : M tensor :=
  output_list <- branches self x edge_index dtw_edge_index ;;
  lift (concat self output_list).
End STCell.

Module STAGGCNModel.
Record t : Type := mk {
  node_num : nat;
  seq_len : nat;
  pred_len : nat;
  graph_dim : nat;
  output_dim : nat;
  STCell : STCell.t;
  output_linear : Linear.t
}.

Definition init (sd : state_dict) (name : string)
           (node_num seq_len pred_len graph_dim : nat) (tcn_dim : list nat)
           (atten_head : nat) (choice : list nat) (training : bool) : result t :=
  let output_dim := list_sum choice * graph_dim in
  cell <-- STCell.init sd (sub name "STCell") node_num seq_len graph_dim tcn_dim
                       choice atten_head training ;;
  Ok (mk node_num seq_len pred_len graph_dim output_dim cell
         (Linear.init sd (sub name "output_linear") output_dim pred_len)).

Definition forward (self : t) (x : tensor) (edge_index dtw_edge_index : EdgeIndex)
  : M tensor :=
  st_output <- STCell.forward (STCell self) x edge_index dtw_edge_index ;;
  let output := st_output in
  lift (Linear.forward (output_linear self) output).
End STAGGCNModel.

Module STAGGCN.
(** The scaler of the dataset, known by its method [inverse_transform]. *)
Record Scaler : Type := mkScaler {
  inverse_transform : tensor -> tensor
}.

(** The keys of [config] and of [data_feature] that [__init__] reads;
    [None] is an absent key. *)
Record Config : Type := mkConfig {
  cfg_device : option device;
  cfg_input_window : option nat;
  cfg_output_window : option nat;
  cfg_graph_dim : option nat;
  cfg_tcn_dim : option (list nat);
  cfg_atten_head : option nat;
  cfg_choice : option (list nat);
  cfg_batch_size : option nat
}.

Record DataFeature : Type := mkDataFeature {
  df_scaler : option Scaler;
  df_num_nodes : option nat;
  df_feature_dim : option nat;
  df_output_dim : option nat;
  df_edge_index : option EdgeIndex;
  df_dtw_edge_index : option EdgeIndex
}.

Record Batch : Type := mkBatch {
  X : tensor;
  y : tensor
}.

(** [d.get(key, default)] and [d[key]] *)
Definition get_default {A : Type} (v : option A) (default : A) : A :=
  match v with
  | Some a => a
  | None => default
  end.

Definition item {A : Type} (v : option A) : result A :=
  match v with
  | Some a => Ok a
  | None => Raise KeyError
  end.

Record t : Type := mk {
  _scaler : option Scaler;
  num_nodes : nat;
  feature_dim : nat;
  output_dim : nat;
  edge_index : EdgeIndex;
  dtw_edge_index : EdgeIndex;
  device_ : device;
  input_window : nat;
  output_window : nat;
  graph_dim : nat;
  tcn_dim : list nat;
  atten_head : nat;
  choice : list nat;
  batch_size : nat;
  model : STAGGCNModel.t
}.

(** [adj_mx] and the logger are stored and never read; they are left out. *)
Definition init (sd : state_dict) (training : bool)
           (config : Config) (data_feature : DataFeature) : result t :=
  let _scaler := df_scaler data_feature in
  let num_nodes := get_default (df_num_nodes data_feature) 1 in
  let feature_dim := get_default (df_feature_dim data_feature) 1 in
  let output_dim := get_default (df_output_dim data_feature) 1 in
  let edge_index := get_default (df_edge_index data_feature) (mkEdgeIndex cpu []) in
  let dtw_edge_index :=
    get_default (df_dtw_edge_index data_feature) (mkEdgeIndex cpu []) in
  let device := get_default (cfg_device config) cpu in
  let input_window := get_default (cfg_input_window config) 1 in
  let output_window := get_default (cfg_output_window config) 1 in
  graph_dim <-- item (cfg_graph_dim config) ;;
  tcn_dim <-- item (cfg_tcn_dim config) ;;
  atten_head <-- item (cfg_atten_head config) ;;
  choice <-- item (cfg_choice config) ;;
  batch_size <-- item (cfg_batch_size config) ;;
  model <-- STAGGCNModel.init sd "model" num_nodes input_window output_window
                              graph_dim tcn_dim atten_head choice training ;;
  Ok (mk _scaler num_nodes feature_dim output_dim edge_index dtw_edge_index
         device input_window output_window graph_dim tcn_dim atten_head choice
         batch_size model).

Definition set_edge_index (self : t) (e : EdgeIndex) : t :=
  mk (_scaler self) (num_nodes self) (feature_dim self) (output_dim self)
     e (dtw_edge_index self) (device_ self) (input_window self)
     (output_window self) (graph_dim self) (tcn_dim self) (atten_head self)
     (choice self) (batch_size self) (model self).

Definition set_dtw_edge_index (self : t) (e : EdgeIndex) : t :=
  mk (_scaler self) (num_nodes self) (feature_dim self) (output_dim self)
     (edge_index self) e (device_ self) (input_window self)
     (output_window self) (graph_dim self) (tcn_dim self) (atten_head self)
     (choice self) (batch_size self) (model self).

(** Lines 68-70: channel 0 of the input as [(batch * node_num, seq_len)]. *)
Definition input_of (batch : Batch) : result tensor :=
  let x := X batch in
  x <-- select x 3 0 ;;
  x <-- permute x [0; 2; 1] ;;
  n <-- size x 2 ;;
  reshape x [None; Some n].

(** A method returns its result, the object as the call left it, and the
    generator.  A tensor carries no device here, so [x.to(self.device)] is
    [x]; the edge indices record theirs. *)
Definition forward (self : t) (batch : Batch) (g : Generator)
  : result tensor * t * Generator :=
  match input_of batch with
  | Raise e => (Raise e, self, g)
  | Ok x =>
    let self := set_edge_index self (to (edge_index self) (device_ self)) in
    let self := set_dtw_edge_index self (to (dtw_edge_index self) (device_ self)) in
    match STAGGCNModel.forward (model self) x (edge_index self)
                               (dtw_edge_index self) g with
    | (Raise e, g') => (Raise e, self, g')
    | (Ok outputs, g') =>
      (reshape outputs [Some (batch_size self); Some (output_window self);
                        Some (num_nodes self); Some 1],
       self, g')
    end
  end.

Definition predict (self : t) (batch : Batch) (g : Generator)
  : result tensor * t * Generator :=
  forward self batch g.

Section Loss.
(** [loss.masked_mae_torch(preds, labels, null_val)] of
    trafficdl/model/loss.py, taken as a parameter. *)
Variable masked_mae_torch : tensor -> tensor -> R -> result tensor.

Definition calculate_loss (self : t) (batch : Batch) (g : Generator)
  : result tensor * t * Generator :=
  let y_true := y batch in
  match predict self batch g with
  | (Raise e, self, g) => (Raise e, self, g)
  | (Ok y_predicted, self, g) =>
    (scaler <-- attr (_scaler self) ;;
     t <-- narrow_last y_true (output_dim self) ;;
     let y_true := inverse_transform scaler t in
     p <-- narrow_last y_predicted (output_dim self) ;;
     let y_predicted := inverse_transform scaler p in
     masked_mae_torch y_predicted y_true 0,
     self, g)
  end.
End Loss.
End STAGGCN.

(** ** Vocabulary of the statements *)

(** A matrix with non-negative entries whose rows sum to one. *)
Definition row_stochastic (A : tensor) : Prop :=
  exists n m,
    shape A = [n; m]
    /\ (forall i j, i < n -> j < m -> (0 <= get A (i * m + j))%R)
    /\ (forall i, i < n -> Rsum m (fun j => get A (i * m + j)) = 1%R).

(** Two batches of sequences [(N, C, L)] that agree at every time [s <= t]. *)
Definition agree_upto (t : nat) (x x' : tensor) : Prop :=
  shape x = shape x'
  /\ forall n c l, shape x = [n; c; l] ->
       forall r s, r < n * c -> s <= t -> s < l ->
         get x (r * l + s) = get x' (r * l + s).

(** [op] runs without error on every input of shape [s_in], its output has
    shape [s_out], and, from the same state of the generator, the output up
    to a time [t] is fixed by the input up to [t]. *)
Definition causal_op (op : tensor -> M tensor) (s_in s_out : list nat) : Prop :=
  forall x g, shape x = s_in ->
    exists y g',
      op x g = (Ok y, g') /\ shape y = s_out
      /\ forall x' t, agree_upto t x x' ->
           exists y', op x' g = (Ok y', g') /\ agree_upto t y y'.

(** The number of input channels of block [i] of a [TemporalConvNet]. *)
Definition channels_before (num_inputs : nat) (num_channels : list nat) (i : nat) : nat :=
  if i =? 0 then num_inputs else nth (i - 1) num_channels 0.

(** [torch.cat] along dimension 2 of a list of tensors, left to right. *)
Definition cat_all (ts : list tensor) : result tensor :=
  match ts with
  | [] => Raise UnboundLocalError
  | t :: rest => fold_left (fun acc v => a <-- acc ;; cat a v 2) rest (Ok t)
  end.

(** The outputs of the branches whose flag is 1, in the order of the flags. *)
Fixpoint enabled (choice : list nat) (output_list : list (option tensor)) : list tensor :=
  match choice, output_list with
  | c :: choice', o :: rest =>
    (if c =? 1 then match o with Some t => [t] | None => [] end else [])
      ++ enabled choice' rest
  | _, _ => []
  end.

(** An entry of [output_list]: a tensor of shape [s] under a flag 1, the
    placeholder otherwise. *)
Definition slot (s : list nat) (c : nat) (o : option tensor) : Prop :=
  if c =? 1 then exists t, o = Some t /\ shape t = s else o = None.

(** Three flags 0 or 1, one of them set. *)
Definition flags (choice : list nat) : Prop :=
  exists c0 c1 c2,
    choice = [c0; c1; c2] /\ c0 <= 1 /\ c1 <= 1 /\ c2 <= 1 /\ 1 <= c0 + c1 + c2.

(** The edges stay within the first [n] nodes. *)
Definition edges_within (n : nat) (e : EdgeIndex) : Prop :=
  forall j i, In (j, i) (edges e) -> j < n /\ i < n.

(** A model with three flags, positive sizes, and edges among its nodes. *)
Definition sensible (self : STAGGCN.t) : Prop :=
  flags (STAGGCN.choice self)
  /\ 1 <= STAGGCN.num_nodes self
  /\ 1 <= STAGGCN.input_window self
  /\ 1 <= STAGGCN.graph_dim self
  /\ edges_within (STAGGCN.num_nodes self) (STAGGCN.edge_index self)
  /\ edges_within (STAGGCN.num_nodes self) (STAGGCN.dtw_edge_index self).

(** What [branches] is said to do when both graph branches are enabled: the
    temporal branch on [x0] under its flag, the spatial branch on
    [x1 = seq_linear(x0) + x0], the semantic branch on
    [x2 = seq_linear(x1) + x1]. *)
Definition branches_both (cell : STCell.t) (c0 : nat) (x0 : tensor)
           (e de : EdgeIndex) : M (list (option tensor)) :=
  output_list <- (if c0 =? 1 then
                    tcn_output <- STCell.temporal cell x0 ;;
                    ret (STCell.setitem [None; None; None] 0 (Some tcn_output))
                  else ret [None; None; None]) ;;
  s0 <~ Linear.forward (STCell.seq_linear cell) x0 ;;
  x1 <~ add s0 x0 ;;
  sp_output <- STCell.spatial cell x1 e ;;
  s1 <~ Linear.forward (STCell.seq_linear cell) x1 ;;
  x2 <~ add s1 x1 ;;
  dtw_output <- STCell.semantic cell x2 de ;;
  ret (STCell.setitem (STCell.setitem output_list 1 (Some sp_output))
                      2 (Some dtw_output)).

(** ** A small instance

    Two nodes, two input steps, one output step, all three branches, every
    parameter entry 1 (missing entries 0), and batches of one and of two
    samples with two feature channels. *)

Definition example_sd : state_dict := fun _ => [1%R].

Definition example_config : STAGGCN.Config :=
  STAGGCN.mkConfig None (Some 2) (Some 1) (Some 1) (Some [1]) (Some 1)
                   (Some [1; 1; 1]) (Some 1).

Definition example_scaler : STAGGCN.Scaler :=
  STAGGCN.mkScaler (pointwise (fun v => (v * 2 + 1)%R)).

Definition example_data_feature : STAGGCN.DataFeature :=
  STAGGCN.mkDataFeature (Some example_scaler) (Some 2) (Some 2) (Some 1)
                        (Some (mkEdgeIndex cpu [(0, 1)]))
                        (Some (mkEdgeIndex cpu [(1, 0)])).

Definition example_batch : STAGGCN.Batch :=
  STAGGCN.mkBatch (Tensor [1; 2; 2; 2] [1; 2; 3; 4; 5; 6; 7; 8]%R)
                  (Tensor [1; 1; 2; 1] [1; 2]%R).

(** The same channel 0, another channel 1 and another ground truth. *)
Definition example_batch' : STAGGCN.Batch :=
  STAGGCN.mkBatch (Tensor [1; 2; 2; 2] [1; 20; 3; 40; 5; 60; 7; 80]%R)
                  (Tensor [1; 1; 2; 1] [0; 0]%R).

(** A batch whose ground truth has two channels. *)
Definition example_batch_of_channels : STAGGCN.Batch :=
  STAGGCN.mkBatch (Tensor [1; 2; 2; 2] [1; 2; 3; 4; 5; 6; 7; 8]%R)
                  (Tensor [1; 1; 2; 2] [1; 10; 2; 20]%R).

Definition example_batch_of_two : STAGGCN.Batch :=
  STAGGCN.mkBatch (Tensor [2; 2; 2; 2] (tabulate 16 INR))
                  (Tensor [2; 1; 2; 1] [1; 2; 3; 4]%R).

Definition example_generator : Generator := mkGenerator (fun _ => 0.5%R) 0.

(** A masked mean absolute error: the labels equal to [null_val] do not
    count. *)
Definition example_masked_mae (preds labels : tensor) (null_val : R) : result tensor :=
  let n := numel (shape labels) in
  let mask (i : nat) : R := if Req_dec_T (get labels i) null_val then 0%R else 1%R in
  Ok (build [] (fun _ =>
                  (Rsum n (fun i => Rabs (get preds i - get labels i) * mask i)
                   / Rsum n mask)%R)).

(** ** Further vocabulary *)

(** Every entry of [t] lies in [[lo, hi]]. *)
Definition within (lo hi : R) (t : tensor) : Prop :=
  forall i, i < numel (shape t) -> (lo <= get t i <= hi)%R.

(** What the constructors ask of the configuration: three flags at least,
    and, for the temporal branch, a number of heads that divides the number
    of nodes and a non-empty list of channels. *)
Definition constructible (num_nodes : nat) (tcn_dim : list nat)
           (atten_head : nat) (choice : list nat) : Prop :=
  3 <= length choice
  /\ (nth 0 choice 0 = 1 ->
      atten_head <> 0 /\ num_nodes mod atten_head = 0 /\ tcn_dim <> []).

(** [op] runs without error on every input of shape [s_in], its output has
    shape [s_out], and it draws [k] random numbers. *)
Definition draws_op (op : tensor -> M tensor) (s_in s_out : list nat) (k : nat)
  : Prop :=
  forall x g, shape x = s_in ->
    exists y, op x g = (Ok y, advance g k) /\ shape y = s_out.

(** The random numbers that a [TemporalConvNet] draws on [n] sequences of
    length [l]: two dropouts in every block, in training mode only. *)
Definition tcn_samples (training : bool) (n l : nat) (num_channels : list nat)
  : nat :=
  if training then list_sum (map (fun c => 2 * (n * c * l)) num_channels) else 0.

(** Those of a graph branch: one dropout of the input of each of its four
    layers, in both modes. *)
Definition graph_samples (B N W gd : nat) : nat := B * N * W + 3 * (B * N * gd).

Definition samples (training : bool) (choice : list nat) (B N W gd : nat)
           (tcn_dim : list nat) : nat :=
  (if nth 0 choice 0 =? 1 then tcn_samples training (B * N) W tcn_dim else 0)
  + (if nth 1 choice 0 =? 1 then graph_samples B N W gd else 0)
  + (if nth 2 choice 0 =? 1 then graph_samples B N W gd else 0).

(** A computation that returns the same result from every state of the
    generator and leaves the generator as it was. *)
Definition ignores_generator {A : Type} (m : M A) : Prop :=
  exists r, forall g, m g = (r, g).

(** The small instance with the temporal branch alone. *)
Definition example_temporal_config : STAGGCN.Config :=
  STAGGCN.mkConfig None (Some 2) (Some 1) (Some 1) (Some [1]) (Some 1)
                   (Some [1; 0; 0]) (Some 1).

(** Two tensors of the same shape that agree from the flat index [k] on.
    For row-major tensors [(B * N, D)] or [(B, N, D)] and [k = N * D] these
    are the rows of all samples but the first. *)
Definition agree_from (k : nat) (x x' : tensor) : Prop :=
  shape x = shape x'
  /\ forall i, k <= i -> i < numel (shape x) -> get x i = get x' i.

(** Two entries of [output_list] that agree from the flat index [k] on. *)
Definition slot_agree (k : nat) (o o' : option tensor) : Prop :=
  match o, o' with
  | Some t, Some t' => agree_from k t t'
  | None, None => True
  | _, _ => False
  end.

(** The small instance for batches of two samples. *)
Definition example_config_of_two : STAGGCN.Config :=
  STAGGCN.mkConfig None (Some 2) (Some 1) (Some 1) (Some [1]) (Some 1)
                   (Some [1; 1; 1]) (Some 2).

(** Two batches of sequences [(N, C, L)] that agree at every time [s] with
    [a <= s <= b]. *)
Definition agree_window (a b : nat) (x x' : tensor) : Prop :=
  shape x = shape x'
  /\ forall n c l, shape x = [n; c; l] ->
       forall r s, r < n * c -> a <= s -> s <= b -> s < l ->
         get x (r * l + s) = get x' (r * l + s).

(** [op] runs without error on every input of shape [s_in], its output has
    shape [s_out], and, from the same state of the generator, the output at
    the times from [a] to [b] is fixed by the input at the times from
    [a - R] to [b]: every output looks back [R] steps at most. *)
Definition local_op (op : tensor -> M tensor) (s_in s_out : list nat) (R : nat)
  : Prop :=
  forall x g, shape x = s_in ->
    exists y g',
      op x g = (Ok y, g') /\ shape y = s_out
      /\ forall x', shape x' = s_in ->
           exists y',
             op x' g = (Ok y', g') /\ shape y' = s_out
             /\ forall a b, agree_window (a - R) b x x' -> agree_window a b y y'.

(** How far back a [TemporalConvNet] of [levels] blocks looks. *)
Definition receptive (kernel_size levels : nat) : nat :=
  list_sum (map (fun i => 2 * ((kernel_size - 1) * 2 ^ i)) (seq 0 levels)).

(** A flag counts as set when it is 1, and only then. *)
Definition on (c : nat) : nat := if c =? 1 then 1 else 0.

(** The small instance with a flag set to 2. *)
Definition example_config_with_a_2 : STAGGCN.Config :=
  STAGGCN.mkConfig None (Some 2) (Some 1) (Some 1) (Some [1]) (Some 1)
                   (Some [1; 2; 0]) (Some 1).

(** [t.uniform_(lo, hi)]: every entry redrawn between [lo] and [hi], one
    sample of the generator for each. *)
Definition uniform_ (t : tensor) (lo hi : R) : M tensor :=
  fun g =>
    (Ok (build (shape t)
               (fun i => (lo + (hi - lo) * stream g (consumed g + i))%R)),
     advance g (numel (shape t))).

(** [LearnedGCN.reset_parameters] (lines 211-214), which [__init__] calls on
    the freshly allocated embeddings; [1. / math.sqrt(0)] raises. *)
Definition reset_parameters (self : LearnedGCN.t) : M LearnedGCN.t :=
  n <~ size (LearnedGCN.source_embed self) 0 ;;
  stdv <~ (if n =? 0 then Raise ZeroDivisionError
           else Ok (1 / sqrt (INR n))%R) ;;
  source_embed <- uniform_ (LearnedGCN.source_embed self) (- stdv) stdv ;;
  target_embed <- uniform_ (LearnedGCN.target_embed self) (- stdv) stdv ;;
  ret (LearnedGCN.mk (LearnedGCN.node_num self) (LearnedGCN.in_feature self)
                     (LearnedGCN.out_feature self) source_embed target_embed
                     (LearnedGCN.linear self)).

(** The sizes of a configuration, all positive: the constructors of torch
    refuse some sizes 0. *)
Definition positive_sizes (config : STAGGCN.Config)
           (data_feature : STAGGCN.DataFeature) : Prop :=
  1 <= STAGGCN.get_default (STAGGCN.df_num_nodes data_feature) 1
  /\ 1 <= STAGGCN.get_default (STAGGCN.cfg_input_window config) 1
  /\ 1 <= STAGGCN.get_default (STAGGCN.cfg_output_window config) 1
  /\ (forall graph_dim,
        STAGGCN.cfg_graph_dim config = Some graph_dim -> 1 <= graph_dim)
  /\ (forall tcn_dim,
        STAGGCN.cfg_tcn_dim config = Some tcn_dim ->
        Forall (fun c => 1 <= c) tcn_dim).

(** Two tensors of the same shape that agree at the flat indices that
    satisfy [P]. *)
Definition agree_on (P : nat -> Prop) (x x' : tensor) : Prop :=
  shape x = shape x'
  /\ forall i, P i -> i < numel (shape x) -> get x i = get x' i.

(** The flat indices of sample [b] in a row-major tensor whose samples hold
    [K] entries each, such as [(B * N, D)] and [(B, N, D)] with
    [K = N * D]. *)
Definition blk (b K : nat) (i : nat) : Prop := b * K <= i /\ i < (b + 1) * K.

(** The flat indices of sample [b] in a tensor [(L, B, E)], the layout of
    [nn.MultiheadAttention]. *)
Definition mid (b B E : nat) (i : nat) : Prop := (i / E) mod B = b.

(** Two batches of sequences [(n, C, L)] that agree on the rows of sample
    [b], the rows from [b * N] to [(b + 1) * N - 1]. *)
Definition agree_rows (b N : nat) (x x' : tensor) : Prop :=
  shape x = shape x'
  /\ forall n c l, shape x = [n; c; l] ->
       forall r s, r < n * c -> b * N <= r / c -> r / c < (b + 1) * N -> s < l ->
         get x (r * l + s) = get x' (r * l + s).

(** [op] runs without error on every input of shape [s_in], its output has
    shape [s_out], and, from the same state of the generator, the rows of a
    sample in the output are fixed by the rows of that sample in the
    input. *)
Definition rowwise_op (op : tensor -> M tensor) (s_in s_out : list nat) (N : nat)
  : Prop :=
  forall x g, shape x = s_in ->
    exists y g',
      op x g = (Ok y, g') /\ shape y = s_out
      /\ forall x', shape x' = s_in ->
           exists y',
             op x' g = (Ok y', g') /\ shape y' = s_out
             /\ forall b, agree_rows b N x x' -> agree_rows b N y y'.

(** Two entries of [output_list] that agree on the flat indices in [P]. *)
Definition slot_share (P : nat -> Prop) (o o' : option tensor) : Prop :=
  match o, o' with
  | Some t, Some t' => agree_on P t t'
  | None, None => True
  | _, _ => False
  end.

(** A second batch of two samples: sample 0 is another one, sample 1 is the
    one of [example_batch_of_two] in channel 0. *)
Definition example_batch_of_two' : STAGGCN.Batch :=
  STAGGCN.mkBatch
    (Tensor [2; 2; 2; 2]
            (tabulate 16 (fun i => if i <? 8 then (100 - INR i)%R
                                   else if Nat.even i then INR i else 0%R)))
    (Tensor [2; 1; 2; 1] [1; 2; 3; 4]%R).




(** ** Lists of entries *)

Lemma length_tabulate (n : nat) (f : nat -> R) : length (tabulate n f) = n.
Proof. unfold tabulate. now rewrite length_map, length_seq. Qed.

Lemma nth_tabulate (n : nat) (f : nat -> R) (i : nat) :
  i < n -> nth i (tabulate n f) 0%R = f i.
Proof.
  intros Hi. unfold tabulate.
  rewrite (nth_indep _ 0%R (f 0)) by now rewrite length_map, length_seq.
  rewrite (map_nth f (seq 0 n) 0 i).
  now rewrite seq_nth.
Qed.

Lemma tabulate_ext (n : nat) (f h : nat -> R) :
  (forall i, i < n -> f i = h i) -> tabulate n f = tabulate n h.
Proof.
  intros H. unfold tabulate. apply map_ext_in.
  intros i Hi. apply in_seq in Hi. apply H. lia.
Qed.

Lemma get_build (s : list nat) (f : nat -> R) (i : nat) :
  i < numel s -> get (build s f) i = f i.
Proof. intros Hi. unfold get, build. simpl. now apply nth_tabulate. Qed.

Lemma build_ext (s : list nat) (f h : nat -> R) :
  (forall i, i < numel s -> f i = h i) -> build s f = build s h.
Proof. intros H. unfold build. f_equal. now apply tabulate_ext. Qed.

Lemma numel_app (a b : list nat) : numel (a ++ b) = numel a * numel b.
Proof.
  induction a as [|d a IH]; simpl.
  - lia.
  - rewrite IH. lia.
Qed.

(** ** The operations on small inputs *)

Example permute_transposes :
  rmap data (permute (Tensor [2; 3] [1; 2; 3; 4; 5; 6]%R) [1; 0])
  = Ok [1; 4; 2; 5; 3; 6]%R.
Proof. vm_compute. reflexivity. Qed.

Example permute_cycles :
  rmap data (permute (Tensor [2; 1; 3] [1; 2; 3; 4; 5; 6]%R) [2; 0; 1])
  = Ok [1; 4; 2; 5; 3; 6]%R
  /\ rmap shape (permute (Tensor [2; 1; 3] [1; 2; 3; 4; 5; 6]%R) [2; 0; 1])
     = Ok [3; 2; 1].
Proof. split; vm_compute; reflexivity. Qed.

Example select_channel_0 :
  rmap data (select (Tensor [1; 2; 2; 2] [1; 2; 3; 4; 5; 6; 7; 8]%R) 3 0)
  = Ok [1; 3; 5; 7]%R.
Proof. vm_compute. reflexivity. Qed.

Example narrow_last_keeps_a_prefix :
  rmap data (narrow_last (Tensor [2; 3] [1; 2; 3; 4; 5; 6]%R) 2)
  = Ok [1; 2; 4; 5]%R.
Proof. vm_compute. reflexivity. Qed.

Example chomp_drops_the_end :
  rmap data (chomp_last3 (Tensor [1; 2; 3] [1; 2; 3; 4; 5; 6]%R) 1)
  = Ok [1; 2; 4; 5]%R.
Proof. vm_compute. reflexivity. Qed.

Example chomp_by_zero_is_empty :
  rmap shape (chomp_last3 (Tensor [1; 2; 3] [1; 2; 3; 4; 5; 6]%R) 0)
  = Ok [1; 2; 0].
Proof. reflexivity. Qed.

Example cat_along_the_last_dimension :
  rmap data (cat (Tensor [1; 2; 2] [1; 2; 3; 4]%R) (Tensor [1; 2; 1] [5; 6]%R) 2)
  = Ok [1; 2; 5; 3; 4; 6]%R.
Proof. vm_compute. reflexivity. Qed.

Example reshape_infers_one_dimension :
  rmap shape (reshape (Tensor [2; 3] [1; 2; 3; 4; 5; 6]%R) [None; Some 2])
  = Ok [3; 2]
  /\ reshape (Tensor [2; 3] [1; 2; 3; 4; 5; 6]%R) [None; Some 4]
     = Raise RuntimeError.
Proof. split; reflexivity. Qed.

Example broadcast_of_a_row :
  broadcast_shapes [2; 3] [3] = Ok [2; 3]
  /\ map (bindex (rev [3]) (rev [2; 3])) (seq 0 6) = [0; 1; 2; 0; 1; 2]
  /\ broadcast_shapes [2; 3] [2] = Raise RuntimeError.
Proof. repeat split; reflexivity. Qed.

Example conv1d_pads_on_both_sides :
  rmap shape (conv1d (Tensor [1; 1; 4] [1; 2; 3; 4]%R) (Tensor [1; 1; 2] [1; 1]%R)
                     (Tensor [1] [0%R]) 1 2 2)
  = Ok [1; 1; 6].
Proof. reflexivity. Qed.

(** ** [predict] and [calculate_loss] *)

(** C1: [predict] returns what [forward] returns, on every batch and from
    every state of the object and of the generator. *)
Theorem predict_delegates_to_forward :
  forall (self : STAGGCN.t) (batch : STAGGCN.Batch) (g : Generator),
    STAGGCN.predict self batch g = STAGGCN.forward self batch g.
Proof. intros. unfold STAGGCN.predict. reflexivity. Qed.

Lemma reshape_all_known (t y : tensor) (dims : list (option nat)) :
  unknowns dims = 0 -> reshape t dims = Ok y -> shape y = fill 0 dims.
Proof.
  intros Hu H. unfold reshape, infer_shape in H. rewrite Hu in H.
  destruct (known dims =? numel (shape t)); simpl in H; [|discriminate].
  now inversion H.
Qed.

Lemma forward_keeps_attributes (self self' : STAGGCN.t) (batch : STAGGCN.Batch)
      (g g' : Generator) (r : result tensor) :
  STAGGCN.forward self batch g = (r, self', g') ->
  STAGGCN._scaler self' = STAGGCN._scaler self
  /\ STAGGCN.output_dim self' = STAGGCN.output_dim self
  /\ STAGGCN.model self' = STAGGCN.model self.
Proof.
  unfold STAGGCN.forward. intros H.
  destruct (STAGGCN.input_of batch) as [x|e].
  - destruct (STAGGCNModel.forward _ _ _ _ g) as [[o|e] g1];
      inversion H; subst; auto.
  - inversion H; subst; auto.
Qed.

Lemma forward_result_shape (self self' : STAGGCN.t) (batch : STAGGCN.Batch)
      (g g' : Generator) (p : tensor) :
  STAGGCN.forward self batch g = (Ok p, self', g') ->
  shape p = [STAGGCN.batch_size self; STAGGCN.output_window self;
             STAGGCN.num_nodes self; 1].
Proof.
  unfold STAGGCN.forward. intros H.
  destruct (STAGGCN.input_of batch) as [x|e]; [|discriminate].
  destruct (STAGGCNModel.forward _ _ _ _ g) as [[o|e] g1]; [|discriminate].
  inversion H as [[Hr Hs Hg]].
  apply reshape_all_known in Hr; [|reflexivity].
  exact Hr.
Qed.

(** [t[..., :k]] entry by entry: row [r] of the result holds the first
    [min k n] of the [n] entries of row [r] of [t]. *)
Lemma narrow_last_get (t : tensor) (lead : list nat) (n k : nat) :
  shape t = lead ++ [n] ->
  exists t',
    narrow_last t k = Ok t'
    /\ shape t' = lead ++ [Nat.min k n]
    /\ forall r c, r < numel lead -> c < Nat.min k n ->
         get t' (r * Nat.min k n + c) = get t (r * n + c).
Proof.
  intros Ht. unfold narrow_last. rewrite Ht, rev_app_distr. cbn [rev app].
  rewrite rev_involutive.
  eexists. split; [reflexivity|]. split; [reflexivity|].
  intros r c Hr Hc.
  assert (Hd : (r * Nat.min k n + c) / Nat.min k n = r).
  { rewrite Nat.div_add_l, Nat.div_small by lia. lia. }
  assert (Hm : (r * Nat.min k n + c) mod Nat.min k n = c).
  { rewrite Nat.add_comm, Nat.Div0.mod_add. apply Nat.mod_small. exact Hc. }
  rewrite get_build.
  - now rewrite Hd, Hm.
  - rewrite numel_app. cbn [numel fold_right]. rewrite Nat.mul_1_r.
    apply Nat.lt_le_trans with (r * Nat.min k n + Nat.min k n); [lia|].
    replace (r * Nat.min k n + Nat.min k n) with (S r * Nat.min k n)
      by (cbn [Nat.mul]; lia).
    apply Nat.mul_le_mono_r. exact Hr.
Qed.

(** C2: [calculate_loss] hands to [loss.masked_mae_torch], with null value 0,
    the prediction and the ground truth cut to their first [output_dim]
    channels and passed through the scaler's [inverse_transform].  The cut
    is stated entry by entry: of the [F] channels of [batch['y']] the first
    [min output_dim F] are kept, row by row, and of the single channel of
    the prediction the first [min output_dim 1].  When [predict] raises, so
    does [calculate_loss]; without a scaler it raises AttributeError; and its
    result is a scalar whenever that of [masked_mae_torch] is. *)
Theorem calculate_loss_is_masked_mae :
  forall (masked_mae_torch : tensor -> tensor -> R -> result tensor)
         (self : STAGGCN.t) (batch : STAGGCN.Batch) (g : Generator),
    (forall p self' g' scaler lead F,
        STAGGCN.predict self batch g = (Ok p, self', g') ->
        STAGGCN._scaler self = Some scaler ->
        shape (STAGGCN.y batch) = lead ++ [F] ->
        exists y_true y_predicted,
          shape y_true = lead ++ [Nat.min (STAGGCN.output_dim self) F]
          /\ (forall r c,
                r < numel lead -> c < Nat.min (STAGGCN.output_dim self) F ->
                get y_true (r * Nat.min (STAGGCN.output_dim self) F + c)
                = get (STAGGCN.y batch) (r * F + c))
          /\ shape y_predicted
             = [STAGGCN.batch_size self; STAGGCN.output_window self;
                STAGGCN.num_nodes self; Nat.min (STAGGCN.output_dim self) 1]
          /\ (forall r c,
                r < STAGGCN.batch_size self * STAGGCN.output_window self
                    * STAGGCN.num_nodes self ->
                c < Nat.min (STAGGCN.output_dim self) 1 ->
                get y_predicted (r * Nat.min (STAGGCN.output_dim self) 1 + c)
                = get p (r * 1 + c))
          /\ STAGGCN.calculate_loss masked_mae_torch self batch g
             = (masked_mae_torch (STAGGCN.inverse_transform scaler y_predicted)
                                 (STAGGCN.inverse_transform scaler y_true) 0%R,
                self', g'))
    /\ (forall e self' g',
           STAGGCN.predict self batch g = (Raise e, self', g') ->
           STAGGCN.calculate_loss masked_mae_torch self batch g
           = (Raise e, self', g'))
    /\ (forall p self' g',
           STAGGCN.predict self batch g = (Ok p, self', g') ->
           STAGGCN._scaler self = None ->
           STAGGCN.calculate_loss masked_mae_torch self batch g
           = (Raise AttributeError, self', g'))
    /\ ((forall a b v t, masked_mae_torch a b v = Ok t -> shape t = []) ->
        forall res self' g',
          STAGGCN.calculate_loss masked_mae_torch self batch g
          = (Ok res, self', g') ->
          shape res = []).
Proof.
  intros mae self batch g. split; [|split; [|split]].
  - intros p self' g' scaler lead F Hp Hs Hy.
    unfold STAGGCN.calculate_loss. rewrite Hp.
    unfold STAGGCN.predict in Hp.
    destruct (forward_keeps_attributes _ _ _ _ _ _ Hp) as (Hsc & Hod & _).
    pose proof (forward_result_shape _ _ _ _ _ _ Hp) as Hshape.
    rewrite Hsc, Hs, Hod. cbn [attr rbind].
    destruct (narrow_last_get (STAGGCN.y batch) lead F (STAGGCN.output_dim self) Hy)
      as (y_true & Et & St & Gt).
    destruct (narrow_last_get p
                [STAGGCN.batch_size self; STAGGCN.output_window self;
                 STAGGCN.num_nodes self] 1 (STAGGCN.output_dim self) Hshape)
      as (y_predicted & Ep & Sp & Gp).
    rewrite Et, Ep. cbn [rbind].
    exists y_true, y_predicted.
    split; [exact St|]. split; [exact Gt|]. split; [exact Sp|].
    split; [|reflexivity].
    intros r c Hr Hc. apply Gp; [|exact Hc].
    cbn [numel fold_right]. lia.
  - intros e self' g' Hp. unfold STAGGCN.calculate_loss. now rewrite Hp.
  - intros p self' g' Hp Hs. unfold STAGGCN.calculate_loss. rewrite Hp.
    unfold STAGGCN.predict in Hp.
    destruct (forward_keeps_attributes _ _ _ _ _ _ Hp) as (Hsc & _).
    rewrite Hsc, Hs. reflexivity.
  - intros Hscalar res self' g'. unfold STAGGCN.calculate_loss.
    destruct (STAGGCN.predict self batch g) as [[[p|e] self1] g1];
      [|discriminate].
    destruct (attr (STAGGCN._scaler self1)) as [scaler|]; [|discriminate].
    cbn [rbind].
    destruct (narrow_last (STAGGCN.y batch) _) as [t|]; [|discriminate].
    cbn [rbind].
    destruct (narrow_last p _) as [q|]; [|discriminate].
    cbn [rbind]. intros H. inversion H as [[Hres Hself Hg]].
    exact (Hscalar _ _ _ _ Hres).
Qed.

(** ** What [forward] reads of the batch, and what it leaves behind *)

Lemma select_channel_ext (x x' : tensor) (B W N F k : nat) :
  shape x = [B; W; N; F] -> shape x' = [B; W; N; F] ->
  (forall i, i < B * W * N -> get x (i * F + k) = get x' (i * F + k)) ->
  select x 3 k = select x' 3 k.
Proof.
  intros Hx Hx' Hagree. unfold select. rewrite Hx, Hx'.
  cbn [nth_error skipn firstn app numel fold_right].
  destruct (k <? F); [|reflexivity].
  f_equal. apply build_ext. cbn [numel fold_right]. intros i Hi.
  rewrite Nat.div_1_r, Nat.mod_1_r, Nat.mul_1_r, Nat.add_0_r.
  apply Hagree. lia.
Qed.

(** C8: two batches whose inputs have the same shape and agree on feature
    channel 0 give the same run of [forward] (the same result, object and
    generator), whatever the other channels and the ground truth hold. *)
Theorem forward_reads_channel_0_only :
  forall (self : STAGGCN.t) (b1 b2 : STAGGCN.Batch) (g : Generator)
         (B W N F : nat),
    shape (STAGGCN.X b1) = [B; W; N; F] ->
    shape (STAGGCN.X b2) = [B; W; N; F] ->
    (forall i, i < B * W * N ->
               get (STAGGCN.X b1) (i * F) = get (STAGGCN.X b2) (i * F)) ->
    STAGGCN.forward self b1 g = STAGGCN.forward self b2 g.
Proof.
  intros self b1 b2 g B W N F H1 H2 Hagree.
  assert (Hin : STAGGCN.input_of b1 = STAGGCN.input_of b2).
  { unfold STAGGCN.input_of.
    rewrite (select_channel_ext _ _ B W N F 0 H1 H2); [reflexivity|].
    intros i Hi. rewrite !Nat.add_0_r. now apply Hagree. }
  unfold STAGGCN.forward. now rewrite Hin.
Qed.


(** ** Sums *)

Lemma Rsum_ext (n : nat) (f h : nat -> R) :
  (forall i, i < n -> f i = h i) -> Rsum n f = Rsum n h.
Proof. intros H. unfold Rsum. f_equal. now apply tabulate_ext. Qed.

Lemma Rsum_list_scale (l : list nat) (f : nat -> R) (c : R) :
  Rsum_list (map (fun i => f i * c)%R l) = (Rsum_list (map f l) * c)%R.
Proof.
  induction l as [|a l IH]; simpl.
  - lra.
  - rewrite IH. lra.
Qed.

Lemma Rsum_div (n : nat) (f : nat -> R) (c : R) :
  Rsum n (fun i => f i / c)%R = (Rsum n f / c)%R.
Proof. unfold Rsum, tabulate, Rdiv. apply Rsum_list_scale. Qed.

Lemma Rsum_list_pos (l : list nat) (f : nat -> R) :
  l <> [] -> (forall i, In i l -> (0 < f i)%R) ->
  (0 < Rsum_list (map f l))%R.
Proof.
  induction l as [|a l IH]; intros Hne Hpos; [congruence|].
  simpl. destruct l as [|b l].
  - simpl. specialize (Hpos a (or_introl eq_refl)). lra.
  - assert (0 < Rsum_list (map f (b :: l)))%R.
    { apply IH; [discriminate|]. intros i Hi. apply Hpos. now right. }
    specialize (Hpos a (or_introl eq_refl)). lra.
Qed.

Lemma Rsum_pos (n : nat) (f : nat -> R) :
  0 < n -> (forall i, i < n -> (0 < f i)%R) -> (0 < Rsum n f)%R.
Proof.
  intros Hn Hpos. unfold Rsum, tabulate. apply Rsum_list_pos.
  - destruct n; [lia|]. discriminate.
  - intros i Hi. apply in_seq in Hi. apply Hpos. lia.
Qed.

(** ** The learned adjacency *)

Lemma div_mod_row (i j m : nat) :
  j < m -> (i * m + j) / m = i /\ (i * m + j) mod m = j.
Proof.
  intros Hj. split.
  - rewrite Nat.div_add_l by lia. rewrite Nat.div_small by lia. lia.
  - rewrite Nat.add_comm, Nat.Div0.mod_add. now apply Nat.mod_small.
Qed.

Lemma index_in_matrix (i j n m : nat) : i < n -> j < m -> i * m + j < n * m.
Proof. intros. nia. Qed.

Lemma softmax_rows (t : tensor) (n m : nat) :
  shape t = [n; m] ->
  exists A,
    softmax t 1 = Ok A /\ shape A = [n; m]
    /\ forall i j, i < n -> j < m ->
         get A (i * m + j)
         = (exp (get t (i * m + j)) / Rsum m (fun k => exp (get t (i * m + k))))%R.
Proof.
  intros Hs. unfold softmax. rewrite Hs.
  cbn [nth_error skipn numel fold_right].
  eexists. split; [reflexivity|]. split; [reflexivity|].
  intros i j Hi Hj.
  rewrite get_build by (cbn [numel fold_right]; pose proof (index_in_matrix i j n m Hi Hj); lia).
  f_equal. apply Rsum_ext. intros k Hk.
  rewrite !Nat.mul_1_r, Nat.mod_1_r, Nat.add_0_r.
  destruct (div_mod_row i j m Hj) as [Hd _]. now rewrite Hd.
Qed.

(** Over the real numbers of this embedding the learned adjacency is
    computed without error and is row-stochastic.  The code computes in
    float32, which rounds, and overflows for embeddings of magnitude 1e20:
    its rows then sum to 1 up to rounding only, or are NaN. *)
Lemma learned_matrix_row_stochastic (source target : tensor) (n r : nat) :
  shape source = [n; r] -> shape target = [r; n] ->
  exists A, learned_matrix source target = Ok A
            /\ shape A = [n; n] /\ row_stochastic A.
Proof.
  intros Hs Ht. unfold learned_matrix, mm. rewrite Hs, Ht, Nat.eqb_refl.
  cbn [rbind].
  destruct (softmax_rows (relu (build [n; n]
              (fun i => Rsum r (fun j => get source (i / n * r + j)
                                         * get target (j * n + i mod n))%R)))
              n n eq_refl) as (A & HA & HsA & Hget).
  exists A. split; [exact HA|]. split; [exact HsA|].
  exists n, n. split; [exact HsA|].
  assert (Hden : forall i, i < n ->
            (0 < Rsum n (fun k => exp (get (relu (build [n; n]
               (fun i0 => Rsum r (fun j => get source (i0 / n * r + j)
                                   * get target (j * n + i0 mod n))%R)))
               (i * n + k))))%R).
  { intros i Hi. apply Rsum_pos; [lia|]. intros k _. apply exp_pos. }
  split.
  - intros i j Hi Hj. rewrite Hget by assumption.
    apply Rlt_le. apply Rdiv_lt_0_compat; [apply exp_pos | now apply Hden].
  - intros i Hi.
    rewrite (Rsum_ext n _ _ (fun j Hj => Hget i j Hi Hj)).
    rewrite Rsum_div. apply Rdiv_diag.
    apply Rgt_not_eq. now apply Hden.
Qed.

(** ** Element-wise operations on equal shapes *)

Lemma numel_rev (s : list nat) : numel (rev s) = numel s.
Proof.
  induction s as [|d s IH]; [reflexivity|].
  simpl. rewrite numel_app, IH. simpl. lia.
Qed.

Lemma broadcast_rev_same (l : list nat) : broadcast_rev l l = Ok l.
Proof.
  induction l as [|a l IH]; [reflexivity|].
  simpl. rewrite IH. simpl. now rewrite Nat.eqb_refl.
Qed.

Lemma broadcast_shapes_same (s : list nat) : broadcast_shapes s s = Ok s.
Proof.
  unfold broadcast_shapes. rewrite broadcast_rev_same. simpl.
  now rewrite rev_involutive.
Qed.

Lemma bindex_same (l : list nat) :
  forall i, i < numel l -> bindex l l i = i.
Proof.
  induction l as [|a l IH]; intros i Hi.
  - simpl in *. lia.
  - cbn [bindex]. cbn [numel fold_right] in Hi. fold (numel l) in Hi.
    assert (Ha : a <> 0) by (intros ->; lia).
    rewrite IH by (apply Nat.Div0.div_lt_upper_bound; lia).
    destruct (a =? 1) eqn:E.
    + apply Nat.eqb_eq in E. subst a. rewrite Nat.div_1_r. lia.
    + pose proof (Nat.div_mod_eq i a). lia.
Qed.

Lemma binary_same_shape (f : R -> R -> R) (a b : tensor) (s : list nat) :
  shape a = s -> shape b = s ->
  exists y, binary f a b = Ok y /\ shape y = s
            /\ forall i, i < numel s -> get y i = f (get a i) (get b i).
Proof.
  intros Ha Hb. unfold binary. rewrite Ha, Hb, broadcast_shapes_same.
  cbn [rbind]. eexists. split; [reflexivity|]. split; [reflexivity|].
  intros i Hi. rewrite get_build by exact Hi.
  rewrite bindex_same by now rewrite numel_rev. reflexivity.
Qed.

Lemma get_pointwise (f : R -> R) (x : tensor) (i : nat) :
  i < numel (shape x) -> get (pointwise f x) i = f (get x i).
Proof. intros Hi. unfold pointwise. now rewrite get_build. Qed.

(** ** Causality of the temporal convolutions *)

Lemma row_index_lt (r s rows l : nat) : r < rows -> s < l -> r * l + s < rows * l.
Proof. intros. nia. Qed.

Lemma numel3 (n c l : nat) : numel [n; c; l] = n * c * l.
Proof. simpl. lia. Qed.

Lemma agree_pointwise (f : R -> R) (t : nat) (x x' : tensor) :
  agree_upto t x x' -> agree_upto t (pointwise f x) (pointwise f x').
Proof.
  intros [Hs H]. split; [exact Hs|].
  intros n c l Hshape r s Hr Hst Hsl. cbn [pointwise build shape] in Hshape.
  rewrite !get_pointwise.
  - f_equal. now apply (H n c l).
  - rewrite <- Hs, Hshape, numel3. now apply row_index_lt.
  - rewrite Hshape, numel3. now apply row_index_lt.
Qed.

Lemma agree_binary (f : R -> R -> R) (t n c l : nat) (a a' b b' y y' : tensor) :
  shape a = [n; c; l] -> shape b = [n; c; l] ->
  agree_upto t a a' -> agree_upto t b b' ->
  binary f a b = Ok y -> binary f a' b' = Ok y' ->
  agree_upto t y y'.
Proof.
  intros Ha Hb [Hsa HA] [Hsb HB] Hy Hy'.
  destruct (binary_same_shape f a b _ Ha Hb) as (z & Hz & Hsz & Hgz).
  destruct (binary_same_shape f a' b' [n; c; l]) as (z' & Hz' & Hsz' & Hgz');
    [congruence | congruence |].
  rewrite Hy in Hz. rewrite Hy' in Hz'. inversion Hz. inversion Hz'. subst z z'.
  split; [congruence|].
  intros n0 c0 l0 Hshape r s Hr Hst Hsl.
  rewrite Hsz in Hshape. inversion Hshape. subst n0 c0 l0.
  rewrite Hgz, Hgz' by (rewrite numel3; now apply row_index_lt).
  f_equal; [now apply (HA n c l) | now apply (HB n c l)].
Qed.

Lemma dropout_ok (x : tensor) (p : R) (training : bool) (g : Generator) :
  (0 <= p <= 1)%R ->
  exists y, dropout x p training g
            = (Ok y, if training then advance g (numel (shape x)) else g)
            /\ shape y = shape x.
Proof.
  intros [H0 H1]. unfold dropout.
  destruct (Rle_dec 0 p) as [_|N]; [|contradiction].
  destruct (Rle_dec p 1) as [_|N]; [|contradiction].
  destruct training; eexists; split; reflexivity.
Qed.

Lemma agree_dropout (t : nat) (x x' y y' : tensor) (p : R) (training : bool)
      (g g1 g1' : Generator) :
  agree_upto t x x' ->
  dropout x p training g = (Ok y, g1) ->
  dropout x' p training g = (Ok y', g1') ->
  agree_upto t y y' /\ g1 = g1'.
Proof.
  intros [Hs H]. unfold dropout.
  destruct (Rle_dec 0 p) as [Hp0|]; [|discriminate].
  destruct (Rle_dec p 1) as [Hp1|]; [|discriminate].
  destruct training; intros Hy Hy'; inversion Hy; inversion Hy'; subst.
  - split; [|now rewrite Hs]. split; [exact Hs|].
    intros n c l Hshape r s Hr Hst Hsl. cbn [build shape] in Hshape.
    rewrite !get_build.
    + destruct (Rlt_dec _ _); [|reflexivity]. f_equal. now apply (H n c l).
    + rewrite <- Hs, Hshape, numel3. now apply row_index_lt.
    + rewrite Hshape, numel3. now apply row_index_lt.
  - split; [|reflexivity]. now split.
Qed.

Lemma chomp_ok (x : tensor) (n c l p : nat) :
  shape x = [n; c; l] ->
  exists y, chomp_last3 x p = Ok y
            /\ shape y = [n; c; if p =? 0 then 0 else l - p]
            /\ forall r s, r < n * c -> s < (if p =? 0 then 0 else l - p) ->
                 get y (r * (if p =? 0 then 0 else l - p) + s) = get x (r * l + s).
Proof.
  intros Hx. unfold chomp_last3. rewrite Hx.
  set (m := if p =? 0 then 0 else l - p).
  eexists. split; [reflexivity|]. split; [reflexivity|].
  intros r s Hr Hs.
  rewrite get_build by (rewrite numel3; now apply row_index_lt).
  cbn [numel fold_right].
  rewrite !Nat.mul_1_r, Nat.div_1_r, Nat.mod_1_r, Nat.add_0_r.
  destruct (div_mod_row r s m Hs) as [Hd Hm]. now rewrite Hd, Hm.
Qed.

Lemma agree_chomp (t n c l p : nat) (x x' y y' : tensor) :
  shape x = [n; c; l] ->
  agree_upto t x x' ->
  chomp_last3 x p = Ok y -> chomp_last3 x' p = Ok y' ->
  agree_upto t y y'.
Proof.
  intros Hx [Hs H] Hy Hy'.
  destruct (chomp_ok x n c l p Hx) as (z & Hz & Hsz & Hgz).
  destruct (chomp_ok x' n c l p) as (z' & Hz' & Hsz' & Hgz'); [congruence|].
  rewrite Hy in Hz. rewrite Hy' in Hz'. inversion Hz. inversion Hz'. subst z z'.
  split; [congruence|].
  intros n0 c0 l0 Hshape r s Hr Hst Hsl.
  rewrite Hsz in Hshape. inversion Hshape. subst n0 c0 l0.
  rewrite Hgz, Hgz' by assumption.
  apply (H n c l Hx r s Hr Hst).
  destruct (p =? 0); lia.
Qed.

Lemma conv1d_ok (x w b : tensor) (n c l co k p d : nat) :
  shape x = [n; c; l] -> shape w = [co; c; k] -> shape b = [co] ->
  1 <= k -> 1 <= d -> d * (k - 1) + 1 <= l + 2 * p ->
  exists y,
    conv1d x w b 1 p d = Ok y
    /\ shape y = [n; co; l + 2 * p - d * (k - 1)]
    /\ forall r s, r < n * co -> s < l + 2 * p - d * (k - 1) ->
         get y (r * (l + 2 * p - d * (k - 1)) + s)
         = (get b (r mod co)
            + Rsum c (fun ch =>
                Rsum k (fun j =>
                  get w ((r mod co * c + ch) * k + j)
                  * (if ((p <=? s * 1 + j * d) && (s * 1 + j * d - p <? l))%bool
                     then get x ((r / co * c + ch) * l + (s * 1 + j * d - p))
                     else 0))))%R.
Proof.
  intros Hx Hw Hb Hk Hd Hlen. unfold conv1d. rewrite Hx, Hw, Hb.
  cbn [list_eq_nat]. rewrite !Nat.eqb_refl.
  replace (1 <=? k) with true by (symmetry; now apply Nat.leb_le).
  replace (1 <=? d) with true by (symmetry; now apply Nat.leb_le).
  replace (1 <=? 1) with true by reflexivity.
  replace (d * (k - 1) + 1 <=? l + 2 * p) with true
    by (symmetry; now apply Nat.leb_le).
  cbn [andb].
  replace ((l + 2 * p - d * (k - 1) - 1) / 1 + 1) with (l + 2 * p - d * (k - 1))
    by (rewrite Nat.div_1_r; lia).
  set (lout := l + 2 * p - d * (k - 1)).
  eexists. split; [reflexivity|]. split; [reflexivity|].
  intros r s Hr Hs.
  rewrite get_build by (rewrite numel3; now apply row_index_lt).
  destruct (div_mod_row r s lout Hs) as [Hdiv Hmod].
  rewrite Hdiv, Hmod. reflexivity.
Qed.

Lemma agree_conv (t n c l co k p d : nat) (x x' w b y y' : tensor) :
  shape x = [n; c; l] -> shape w = [co; c; k] -> shape b = [co] ->
  (k - 1) * d <= p ->
  agree_upto t x x' ->
  conv1d x w b 1 p d = Ok y -> conv1d x' w b 1 p d = Ok y' ->
  agree_upto t y y'.
Proof.
  intros Hx Hw Hb Hpad [Hs H] Hy Hy'.
  assert (Hchk : 1 <= k /\ 1 <= d /\ d * (k - 1) + 1 <= l + 2 * p).
  { unfold conv1d in Hy. rewrite Hx, Hw in Hy.
    destruct ((c =? c) && list_eq_nat (shape b) [co] && (1 <=? k) && (1 <=? 1)
              && (1 <=? d) && (d * (k - 1) + 1 <=? l + 2 * p)) eqn:E;
      [|discriminate].
    repeat (apply andb_prop in E; destruct E as [E ?]).
    repeat split; now apply Nat.leb_le. }
  destruct Hchk as (Hk & Hd & Hlen).
  destruct (conv1d_ok x w b n c l co k p d Hx Hw Hb Hk Hd Hlen)
    as (z & Hz & Hsz & Hgz).
  destruct (conv1d_ok x' w b n c l co k p d) as (z' & Hz' & Hsz' & Hgz');
    try assumption; [congruence|].
  rewrite Hy in Hz. rewrite Hy' in Hz'. inversion Hz. inversion Hz'. subst z z'.
  split; [congruence|].
  intros n0 c0 l0 Hshape r s Hr Hst Hsl.
  rewrite Hsz in Hshape. inversion Hshape. subst n0 c0 l0.
  rewrite Hgz, Hgz' by assumption.
  f_equal. apply Rsum_ext. intros ch Hch. apply Rsum_ext. intros j Hj.
  f_equal.
  destruct ((p <=? s * 1 + j * d) && (s * 1 + j * d - p <? l)) eqn:E;
    [|reflexivity].
  apply andb_prop in E. destruct E as [E1 E2].
  apply Nat.leb_le in E1. apply Nat.ltb_lt in E2.
  apply (H n c l Hx).
  - assert (r / co < n) by (apply Nat.Div0.div_lt_upper_bound; lia).
    now apply row_index_lt.
  - assert (j * d <= (k - 1) * d) by (apply Nat.mul_le_mono_r; lia). lia.
  - exact E2.
Qed.

Lemma causal_bind (f k : tensor -> M tensor) (s1 s2 s3 : list nat) :
  causal_op f s1 s2 -> causal_op k s2 s3 ->
  causal_op (fun x => bind (f x) k) s1 s3.
Proof.
  intros Hf Hk x g Hx.
  destruct (Hf x g Hx) as (y & g1 & Hy & Hsy & Hcy).
  destruct (Hk y g1 Hsy) as (z & g2 & Hz & Hsz & Hcz).
  exists z, g2. unfold bind. rewrite Hy. split; [exact Hz|]. split; [exact Hsz|].
  intros x' t Hagree.
  destruct (Hcy x' t Hagree) as (y' & Hy' & Hay).
  destruct (Hcz y' t Hay) as (z' & Hz' & Haz).
  exists z'. rewrite Hy'. now split.
Qed.

Lemma causal_ext (f h : tensor -> M tensor) (s1 s2 : list nat) :
  (forall x g, f x g = h x g) -> causal_op f s1 s2 -> causal_op h s1 s2.
Proof.
  intros E Hf x g Hx.
  destruct (Hf x g Hx) as (y & g1 & Hy & Hsy & Hcy).
  exists y, g1. rewrite <- E. split; [exact Hy|]. split; [exact Hsy|].
  intros x' t Ha. destruct (Hcy x' t Ha) as (y' & Hy' & Hay).
  exists y'. rewrite <- E. now split.
Qed.

Lemma causal_conv (c : Conv1d.t) (n ci co k l : nat) :
  shape (Conv1d.effective_weight c) = [co; ci; k] ->
  shape (Conv1d.bias c) = [co] ->
  Conv1d.stride c = 1 ->
  1 <= k -> 1 <= Conv1d.dilation c ->
  (k - 1) * Conv1d.dilation c <= Conv1d.padding c ->
  1 <= l + Conv1d.padding c ->
  causal_op (fun x => lift (Conv1d.forward c x)) [n; ci; l]
            [n; co; l + 2 * Conv1d.padding c - Conv1d.dilation c * (k - 1)].
Proof.
  intros Hw Hb Hst Hk Hd Hpad Hl x g Hx.
  unfold Conv1d.forward, lift. rewrite Hst.
  assert (Hlen : Conv1d.dilation c * (k - 1) + 1 <= l + 2 * Conv1d.padding c)
    by (rewrite Nat.mul_comm; lia).
  destruct (conv1d_ok x _ _ n ci l co k _ _ Hx Hw Hb Hk Hd Hlen)
    as (y & Hy & Hsy & _).
  exists y, g. rewrite Hy. split; [reflexivity|]. split; [exact Hsy|].
  intros x' t Ha.
  assert (Hx' : shape x' = [n; ci; l]) by (destruct Ha; congruence).
  destruct (conv1d_ok x' _ _ n ci l co k _ _ Hx' Hw Hb Hk Hd Hlen)
    as (y' & Hy' & _ & _).
  exists y'. rewrite Hy'. split; [reflexivity|].
  exact (agree_conv t n ci l co k _ _ x x' _ _ y y' Hx Hw Hb Hpad Ha Hy Hy').
Qed.

Lemma causal_chomp (ch : Chomp1d.t) (n c l : nat) :
  causal_op (fun x => lift (Chomp1d.forward ch x)) [n; c; l]
            [n; c; if Chomp1d.chomp_size ch =? 0 then 0
                   else l - Chomp1d.chomp_size ch].
Proof.
  intros x g Hx. unfold Chomp1d.forward, lift.
  destruct (chomp_ok x n c l (Chomp1d.chomp_size ch) Hx) as (y & Hy & Hsy & _).
  exists y, g. rewrite Hy. split; [reflexivity|]. split; [exact Hsy|].
  intros x' t Ha.
  assert (Hx' : shape x' = [n; c; l]) by (destruct Ha; congruence).
  destruct (chomp_ok x' n c l (Chomp1d.chomp_size ch) Hx') as (y' & Hy' & _ & _).
  exists y'. rewrite Hy'. split; [reflexivity|].
  exact (agree_chomp t n c l _ x x' y y' Hx Ha Hy Hy').
Qed.

Lemma causal_relu_dropout (d : Dropout.t) (s : list nat) :
  (0 <= Dropout.p d <= 1)%R ->
  causal_op (fun x => Dropout.forward d (relu x)) s s.
Proof.
  intros Hp x g Hx. unfold Dropout.forward.
  destruct (dropout_ok (relu x) _ (Dropout.training d) g Hp) as (y & Hy & Hsy).
  eexists y, _. split; [exact Hy|]. split; [now rewrite Hsy|].
  intros x' t Ha.
  destruct (dropout_ok (relu x') _ (Dropout.training d) g Hp) as (y' & Hy' & Hsy').
  exists y'.
  destruct (agree_dropout t _ _ y y' _ _ g _ _ (agree_pointwise relu_R t x x' Ha) Hy Hy')
    as [Hay Hg].
  split; [|exact Hay]. rewrite Hy'. now rewrite Hg.
Qed.

Lemma causal_id (s : list nat) : causal_op (fun x => lift (Ok x)) s s.
Proof.
  intros x g Hx. exists x, g. split; [reflexivity|]. split; [exact Hx|].
  intros x' t Ha. exists x'. now split.
Qed.

Lemma causal_residual (net : tensor -> M tensor) (res : tensor -> result tensor)
      (s1 : list nat) (n c l : nat) :
  causal_op net s1 [n; c; l] ->
  causal_op (fun x => lift (res x)) s1 [n; c; l] ->
  causal_op (fun x => out <- net x ;; r <~ res x ;; s <~ add out r ;; ret (relu s))
            s1 [n; c; l].
Proof.
  intros Hnet Hres x g Hx.
  destruct (Hnet x g Hx) as (out & g1 & Hout & Hsout & Hcout).
  destruct (Hres x g1 Hx) as (r & g2 & Hr & Hsr & Hcr).
  unfold lift in Hr. inversion Hr as [[Hr' Hg]]. subst g2.
  destruct (binary_same_shape Rplus out r _ Hsout Hsr) as (s & Hs & Hss & _).
  exists (relu s), g1. unfold bind, lift, ret. rewrite Hout, Hr'. unfold add. rewrite Hs.
  split; [reflexivity|]. split; [exact Hss|].
  intros x' t Ha.
  destruct (Hcout x' t Ha) as (out' & Hout' & Haout).
  destruct (Hcr x' t Ha) as (r' & Hr2 & Har).
  unfold lift in Hr2. inversion Hr2 as [Hr2'].
  destruct (binary_same_shape Rplus out' r' [n; c; l]) as (s' & Hs' & Hss' & _).
  { destruct Haout; congruence. }
  { destruct Har; congruence. }
  exists (relu s'). rewrite Hout', Hr2', Hs'. split; [reflexivity|].
  apply agree_pointwise.
  exact (agree_binary Rplus t n c l out out' r r' s s' Hsout Hsr Haout Har Hs Hs').
Qed.

(** A padded, weight-normed convolution of a block, its chomp, ReLU and
    dropout. *)
Lemma causal_conv_chomp_dropout (sd : state_dict) (name : string)
      (ci co kernel_size dilation : nat) (p : R) (training : bool) (n l : nat)
      (k : tensor -> M tensor) (s3 : list nat) :
  2 <= kernel_size -> 1 <= dilation -> (0 <= p <= 1)%R ->
  causal_op k [n; co; l] s3 ->
  causal_op
    (fun x =>
       out <~ Conv1d.forward
                (Conv1d.weight_norm sd name
                   (Conv1d.init sd name ci co kernel_size 1
                                ((kernel_size - 1) * dilation) dilation)) x ;;
       out <~ Chomp1d.forward (Chomp1d.mk ((kernel_size - 1) * dilation)) out ;;
       out <- Dropout.forward (Dropout.mk p training) (relu out) ;;
       k out)
    [n; ci; l] s3.
Proof.
  intros Hk Hd Hp Hcont.
  set (pad := (kernel_size - 1) * dilation).
  assert (Hpad : 1 <= pad) by (unfold pad; nia).
  assert (Hlen : l + 2 * pad - dilation * (kernel_size - 1) = l + pad)
    by (unfold pad; nia).
  assert (Hchomp : (if pad =? 0 then 0 else l + pad - pad) = l).
  { destruct (pad =? 0) eqn:E; [apply Nat.eqb_eq in E; lia | lia]. }
  apply (causal_bind
           (fun x => lift (Conv1d.forward
                             (Conv1d.weight_norm sd name
                                (Conv1d.init sd name ci co kernel_size 1 pad dilation))
                             x))
           _ [n; ci; l] [n; co; l + pad] s3).
  - rewrite <- Hlen.
    apply (causal_conv (Conv1d.weight_norm sd name
                          (Conv1d.init sd name ci co kernel_size 1 pad dilation))
                       n ci co kernel_size l);
      cbn [Conv1d.padding Conv1d.dilation Conv1d.weight_norm Conv1d.stride
           Conv1d.init];
      try reflexivity; try lia.
  - apply (causal_bind
             (fun out => lift (Chomp1d.forward (Chomp1d.mk pad) out))
             _ [n; co; l + pad] [n; co; l] s3).
    + rewrite <- Hchomp at 2. apply (causal_chomp (Chomp1d.mk pad)).
    + apply (causal_bind
               (fun out => Dropout.forward (Dropout.mk p training) (relu out))
               k [n; co; l] [n; co; l] s3).
      * apply (causal_relu_dropout (Dropout.mk p training)). exact Hp.
      * exact Hcont.
Qed.

Lemma causal_ret (s : list nat) : causal_op (fun x => ret x) s s.
Proof. exact (causal_id s). Qed.

(** One [TemporalBlock] as [TemporalConvNet] builds it. *)
Lemma causal_block (sd : state_dict) (name : string)
      (n_inputs n_outputs kernel_size dilation : nat) (p : R) (training : bool)
      (n l : nat) :
  2 <= kernel_size -> 1 <= dilation -> (0 <= p <= 1)%R -> 1 <= l ->
  causal_op
    (TemporalBlock.forward
       (TemporalBlock.init sd name n_inputs n_outputs kernel_size 1 dilation
                           ((kernel_size - 1) * dilation) p training))
    [n; n_inputs; l] [n; n_outputs; l].
Proof.
  intros Hk Hd Hp Hl.
  unfold TemporalBlock.forward.
  apply causal_residual.
  - unfold TemporalBlock.net, TemporalBlock.init.
    cbn [TemporalBlock.conv1 TemporalBlock.conv2 TemporalBlock.chomp1
         TemporalBlock.chomp2 TemporalBlock.dropout1 TemporalBlock.dropout2].
    apply causal_conv_chomp_dropout; try assumption.
    apply (causal_ext
             (fun x =>
                out <~ Conv1d.forward
                         (Conv1d.weight_norm sd (sub name "conv2")
                            (Conv1d.init sd (sub name "conv2") n_outputs n_outputs
                                         kernel_size 1
                                         ((kernel_size - 1) * dilation) dilation)) x ;;
                out <~ Chomp1d.forward
                         (Chomp1d.mk ((kernel_size - 1) * dilation)) out ;;
                out <- Dropout.forward (Dropout.mk p training) (relu out) ;;
                ret out)).
    + intros x g. unfold bind, lift, ret.
      destruct (Conv1d.forward _ x) as [o|e]; [|reflexivity].
      destruct (Chomp1d.forward _ o) as [o'|e]; [|reflexivity].
      destruct (Dropout.forward _ (relu o') g) as [[o''|e] g']; reflexivity.
    + apply causal_conv_chomp_dropout; try assumption. apply causal_ret.
  - unfold TemporalBlock.init. cbn [TemporalBlock.downsample].
    destruct (n_inputs =? n_outputs) eqn:E.
    + apply Nat.eqb_eq in E. subst n_outputs. apply causal_id.
    + assert (Hs : l + 2 * 0 - 1 * (1 - 1) = l) by lia.
      rewrite <- Hs at 2.
      apply (causal_conv (Conv1d.init sd (sub name "downsample")
                                      n_inputs n_outputs 1 1 0 1)
                         n n_inputs n_outputs 1 l);
        cbn [Conv1d.padding Conv1d.dilation Conv1d.stride Conv1d.init];
        try reflexivity; try lia.
Qed.

Lemma causal_sequential (chans : nat -> nat) (n l : nat)
      (blocks : list TemporalBlock.t) :
  forall start,
    (forall i b, nth_error blocks i = Some b ->
                 causal_op (TemporalBlock.forward b)
                           [n; chans (start + i); l] [n; chans (start + S i); l]) ->
    causal_op (TemporalConvNet.sequential blocks)
              [n; chans start; l] [n; chans (start + length blocks); l].
Proof.
  induction blocks as [|b rest IH]; intros start Hblocks.
  - cbn [TemporalConvNet.sequential length]. rewrite Nat.add_0_r. apply causal_ret.
  - cbn [TemporalConvNet.sequential length].
    apply (causal_bind (TemporalBlock.forward b) (TemporalConvNet.sequential rest)
                       _ [n; chans (start + 1); l]).
    + specialize (Hblocks 0 b eq_refl). now rewrite Nat.add_0_r in Hblocks.
    + replace (start + S (length rest)) with (S start + length rest) by lia.
      replace (start + 1) with (S start) by lia.
      apply IH. intros i b' Hi.
      replace (S start + i) with (start + S i) by lia.
      replace (S start + S i) with (start + S (S i)) by lia.
      now apply Hblocks.
Qed.

Lemma nth_error_map_seq {A : Type} (F : nat -> A) (len i : nat) (b : A) :
  nth_error (map F (seq 0 len)) i = Some b -> i < len /\ b = F i.
Proof.
  intros H. rewrite nth_error_map in H.
  destruct (nth_error (seq 0 len) i) as [j|] eqn:E; [|discriminate].
  assert (Hi : i < length (seq 0 len)) by (apply nth_error_Some; congruence).
  rewrite length_seq in Hi.
  pose proof (nth_error_nth _ _ 0 E) as Hj.
  rewrite seq_nth in Hj by exact Hi. subst j.
  cbn in H. inversion H. now split.
Qed.

Lemma pow2_pos (i : nat) : 1 <= 2 ^ i.
Proof. pose proof (Nat.pow_nonzero 2 i). lia. Qed.

Lemma tcn_block_causal (sd : state_dict) (name : string) (num_inputs : nat)
      (num_channels : list nat) (kernel_size : nat) (p : R) (training : bool)
      (i : nat) (b : TemporalBlock.t) (n l : nat) :
  2 <= kernel_size -> (0 <= p <= 1)%R -> 1 <= l ->
  nth_error (TemporalConvNet.network
               (TemporalConvNet.init sd name num_inputs num_channels kernel_size
                                     p training)) i = Some b ->
  causal_op (TemporalBlock.forward b)
            [n; channels_before num_inputs num_channels i; l]
            [n; nth i num_channels 0; l].
Proof.
  intros Hk Hp Hl Hb. unfold TemporalConvNet.init in Hb.
  cbn [TemporalConvNet.network] in Hb.
  apply nth_error_map_seq in Hb. destruct Hb as [_ ->].
  apply causal_block; try assumption. apply pow2_pos.
Qed.

Lemma tcn_causal (sd : state_dict) (name : string) (num_inputs : nat)
      (num_channels : list nat) (kernel_size : nat) (p : R) (training : bool)
      (n l : nat) :
  2 <= kernel_size -> (0 <= p <= 1)%R -> 1 <= l ->
  causal_op (TemporalConvNet.forward
               (TemporalConvNet.init sd name num_inputs num_channels kernel_size
                                     p training))
            [n; num_inputs; l]
            [n; channels_before num_inputs num_channels (length num_channels); l].
Proof.
  intros Hk Hp Hl. unfold TemporalConvNet.forward.
  set (net := TemporalConvNet.init sd name num_inputs num_channels kernel_size
                                   p training).
  assert (Hlen : length (TemporalConvNet.network net) = length num_channels).
  { unfold net, TemporalConvNet.init. cbn [TemporalConvNet.network].
    now rewrite length_map, length_seq. }
  pose proof (causal_sequential (channels_before num_inputs num_channels) n l
                                (TemporalConvNet.network net) 0) as H.
  rewrite Hlen in H. apply H.
  intros i b Hb. cbn [Nat.add].
  replace (channels_before num_inputs num_channels (S i))
    with (nth i num_channels 0)
    by (unfold channels_before; cbn [Nat.eqb]; now rewrite Nat.sub_succ, Nat.sub_0_r).
  now apply (tcn_block_causal sd name num_inputs num_channels kernel_size p training).
Qed.

Lemma STCell_init_tcn (sd : state_dict) (name : string) (N W gd : nat)
      (chs choice : list nat) (h : nat) (training : bool) (cell : STCell.t)
      (a : STCell.tcn_layers) :
  STCell.init sd name N W gd chs choice h training = Ok cell ->
  STCell.tcn_attrs cell = Some a ->
  STCell.tcn a = TemporalConvNet.init sd (sub name "tcn") 1 chs 2 0.2 training.
Proof.
  unfold STCell.init. intros Hinit Ha.
  destruct (getitem choice 0) as [c0|]; [|discriminate]. cbn [rbind] in Hinit.
  destruct (c0 =? 1).
  - destruct (MultiheadAttention.init sd (sub name "self_atten") N h) as [m|];
      [|discriminate].
    cbn [rbind] in Hinit.
    destruct (last_item chs) as [d|]; [|discriminate]. cbn [rbind] in Hinit.
    destruct (getitem choice 1) as [c1|]; [|discriminate]. cbn [rbind] in Hinit.
    destruct (getitem choice 2) as [c2|]; [|discriminate]. cbn [rbind] in Hinit.
    inversion Hinit. subst cell. cbn [STCell.tcn_attrs] in Ha.
    inversion Ha. reflexivity.
  - cbn [rbind] in Hinit.
    destruct (getitem choice 1) as [c1|]; [|discriminate]. cbn [rbind] in Hinit.
    destruct (getitem choice 2) as [c2|]; [|discriminate]. cbn [rbind] in Hinit.
    inversion Hinit. subst cell. cbn [STCell.tcn_attrs] in Ha. discriminate.
Qed.

Lemma tcn_block_attributes (sd : state_dict) (name : string) (num_inputs : nat)
      (num_channels : list nat) (kernel_size : nat) (p : R) (training : bool)
      (i : nat) (b : TemporalBlock.t) :
  nth_error (TemporalConvNet.network
               (TemporalConvNet.init sd name num_inputs num_channels kernel_size
                                     p training)) i = Some b ->
  Conv1d.dilation (TemporalBlock.conv1 b) = 2 ^ i
  /\ Conv1d.dilation (TemporalBlock.conv2 b) = 2 ^ i
  /\ Conv1d.padding (TemporalBlock.conv1 b) = (kernel_size - 1) * 2 ^ i
  /\ Conv1d.padding (TemporalBlock.conv2 b) = (kernel_size - 1) * 2 ^ i
  /\ Chomp1d.chomp_size (TemporalBlock.chomp1 b) = (kernel_size - 1) * 2 ^ i
  /\ Chomp1d.chomp_size (TemporalBlock.chomp2 b) = (kernel_size - 1) * 2 ^ i.
Proof.
  intros Hb. unfold TemporalConvNet.init in Hb.
  cbn [TemporalConvNet.network] in Hb.
  apply nth_error_map_seq in Hb. destruct Hb as [_ ->].
  repeat split; reflexivity.
Qed.

(** C7: block [i] of a [TemporalConvNet] convolves with dilation [2^i],
    pads by [(kernel_size - 1) * 2^i] and chomps as much; on every input it
    keeps the length of the time axis and is causal, and so is the stack.
    This holds for every kernel size from 2 on, and so for the network that
    [STCell] builds, whose kernel size is 2. *)
Theorem tcn_is_dilated_and_causal :
  (forall (sd : state_dict) (name : string) (num_inputs : nat)
          (num_channels : list nat) (kernel_size : nat) (p : R) (training : bool),
      2 <= kernel_size -> (0 <= p <= 1)%R ->
      let net := TemporalConvNet.init sd name num_inputs num_channels kernel_size
                                      p training in
      (forall i b,
          nth_error (TemporalConvNet.network net) i = Some b ->
          Conv1d.dilation (TemporalBlock.conv1 b) = 2 ^ i
          /\ Conv1d.dilation (TemporalBlock.conv2 b) = 2 ^ i
          /\ Conv1d.padding (TemporalBlock.conv1 b) = (kernel_size - 1) * 2 ^ i
          /\ Conv1d.padding (TemporalBlock.conv2 b) = (kernel_size - 1) * 2 ^ i
          /\ Chomp1d.chomp_size (TemporalBlock.chomp1 b) = (kernel_size - 1) * 2 ^ i
          /\ Chomp1d.chomp_size (TemporalBlock.chomp2 b) = (kernel_size - 1) * 2 ^ i
          /\ forall n l, 1 <= l ->
               causal_op (TemporalBlock.forward b)
                         [n; channels_before num_inputs num_channels i; l]
                         [n; nth i num_channels 0; l])
      /\ length (TemporalConvNet.network net) = length num_channels
      /\ forall n l, 1 <= l ->
           causal_op (TemporalConvNet.forward net)
                     [n; num_inputs; l]
                     [n; channels_before num_inputs num_channels
                                         (length num_channels); l])
  /\ (forall (sd : state_dict) (name : string) (node_num seq_len graph_dim : nat)
             (tcn_dim choice : list nat) (atten_head : nat) (training : bool)
             (cell : STCell.t) (a : STCell.tcn_layers),
         STCell.init sd name node_num seq_len graph_dim tcn_dim choice atten_head
                     training = Ok cell ->
         STCell.tcn_attrs cell = Some a ->
         (forall i b,
             nth_error (TemporalConvNet.network (STCell.tcn a)) i = Some b ->
             Conv1d.dilation (TemporalBlock.conv1 b) = 2 ^ i
             /\ Conv1d.dilation (TemporalBlock.conv2 b) = 2 ^ i
             /\ Conv1d.padding (TemporalBlock.conv1 b) = 2 ^ i
             /\ Conv1d.padding (TemporalBlock.conv2 b) = 2 ^ i
             /\ Chomp1d.chomp_size (TemporalBlock.chomp1 b) = 2 ^ i
             /\ Chomp1d.chomp_size (TemporalBlock.chomp2 b) = 2 ^ i
             /\ forall n l, 1 <= l ->
                  causal_op (TemporalBlock.forward b)
                            [n; channels_before 1 tcn_dim i; l]
                            [n; nth i tcn_dim 0; l])
         /\ forall n l, 1 <= l ->
              causal_op (TemporalConvNet.forward (STCell.tcn a))
                        [n; 1; l]
                        [n; channels_before 1 tcn_dim (length tcn_dim); l]).
Proof.
  split.
  - intros sd name num_inputs num_channels kernel_size p training Hk Hp net.
    split; [|split].
    + intros i b Hb.
      destruct (tcn_block_attributes sd name num_inputs num_channels kernel_size
                                     p training i b Hb)
        as (H1 & H2 & H3 & H4 & H5 & H6).
      repeat (split; [assumption|]).
      intros n l Hl.
      now apply (tcn_block_causal sd name num_inputs num_channels kernel_size
                                  p training).
    + unfold net, TemporalConvNet.init. cbn [TemporalConvNet.network].
      now rewrite length_map, length_seq.
    + intros n l Hl. now apply tcn_causal.
  - intros sd name node_num seq_len graph_dim tcn_dim choice atten_head training
           cell a Hinit Ha.
    rewrite (STCell_init_tcn sd name node_num seq_len graph_dim tcn_dim choice
                             atten_head training cell a Hinit Ha).
    assert (Hp : (0 <= 0.2 <= 1)%R) by lra.
    split.
    + intros i b Hb.
      destruct (tcn_block_attributes sd (sub name "tcn") 1 tcn_dim 2 0.2 training
                                     i b Hb)
        as (H1 & H2 & H3 & H4 & H5 & H6).
      cbn [Nat.sub] in H3, H4, H5, H6. rewrite Nat.mul_1_l in H3, H4, H5, H6.
      repeat (split; [assumption|]).
      intros n l Hl.
      now apply (tcn_block_causal sd (sub name "tcn") 1 tcn_dim 2 0.2 training).
    + intros n l Hl. now apply tcn_causal.
Qed.

(** ** Shapes of the operations *)

Lemma reshape_infer (x : tensor) (dims : list (option nat)) (q : nat) :
  unknowns dims = 1 -> known dims <> 0 ->
  numel (shape x) = q * known dims ->
  exists y, reshape x dims = Ok y /\ shape y = fill q dims.
Proof.
  intros Hu Hk Hn. unfold reshape, infer_shape. rewrite Hu, Hn.
  destruct (known dims =? 0) eqn:E; [apply Nat.eqb_eq in E; contradiction|].
  rewrite Nat.Div0.mod_mul, Nat.eqb_refl, Nat.div_mul by exact Hk.
  cbn [rbind]. eexists. split; reflexivity.
Qed.

Lemma reshape_known (x : tensor) (dims : list (option nat)) :
  unknowns dims = 0 -> known dims = numel (shape x) ->
  exists y, reshape x dims = Ok y /\ shape y = fill 0 dims.
Proof.
  intros Hu Hk. unfold reshape, infer_shape. rewrite Hu, Hk, Nat.eqb_refl.
  cbn [rbind]. eexists. split; reflexivity.
Qed.

Lemma reshape_mismatch (x : tensor) (dims : list (option nat)) :
  unknowns dims = 0 -> known dims <> numel (shape x) ->
  reshape x dims = Raise RuntimeError.
Proof.
  intros Hu Hk. unfold reshape, infer_shape. rewrite Hu.
  destruct (known dims =? numel (shape x)) eqn:E;
    [apply Nat.eqb_eq in E; contradiction | reflexivity].
Qed.

Lemma permute3_ok (x : tensor) (a b c : nat) (perm : list nat) :
  shape x = [a; b; c] -> is_permutation perm 3 = true ->
  exists y, permute x perm = Ok y
            /\ shape y = map (fun p => nth p [a; b; c] 0) perm.
Proof.
  intros Hx Hp. unfold permute. rewrite Hx. cbn [length]. rewrite Hp.
  eexists. split; reflexivity.
Qed.

Lemma unsqueeze_ok (x : tensor) (d : nat) :
  d <= length (shape x) ->
  exists y, unsqueeze x d = Ok y
            /\ shape y = firstn d (shape x) ++ 1 :: skipn d (shape x).
Proof.
  intros Hd. unfold unsqueeze.
  replace (d <=? length (shape x)) with true by (symmetry; now apply Nat.leb_le).
  eexists. split; reflexivity.
Qed.

Lemma linear_ok (x w b : tensor) (o n : nat) (lead : list nat) :
  shape w = [o; n] -> shape b = [o] -> shape x = lead ++ [n] ->
  exists y, linear x w b = Ok y /\ shape y = lead ++ [o].
Proof.
  intros Hw Hb Hx. unfold linear. rewrite Hw, Hb, Hx, rev_app_distr.
  cbn [rev app list_eq_nat]. rewrite !Nat.eqb_refl. cbn [andb].
  rewrite rev_involutive. eexists. split; reflexivity.
Qed.

Lemma Linear_forward_ok (sd : state_dict) (name : string) (n o : nat)
      (x : tensor) (lead : list nat) :
  shape x = lead ++ [n] ->
  exists y, Linear.forward (Linear.init sd name n o) x = Ok y
            /\ shape y = lead ++ [o].
Proof.
  intros Hx. unfold Linear.forward, Linear.init.
  cbn [Linear.weight Linear.bias].
  now apply (linear_ok x _ _ o n lead).
Qed.

Lemma matmul_batch_ok (a b : tensor) (n k m B : nat) :
  shape a = [n; k] -> shape b = [B; k; m] ->
  exists y, matmul a b = Ok y /\ shape y = [B; n; m].
Proof.
  intros Ha Hb. unfold matmul. rewrite Ha, Hb. cbn [rev app].
  rewrite Nat.eqb_refl. eexists. split; reflexivity.
Qed.

Lemma cat2_ok (a b : tensor) (B N ga gb : nat) :
  shape a = [B; N; ga] -> shape b = [B; N; gb] ->
  exists y, cat a b 2 = Ok y /\ shape y = [B; N; ga + gb].
Proof.
  intros Ha Hb. unfold cat. rewrite Ha, Hb.
  cbn [nth_error length firstn skipn list_eq_nat].
  rewrite !Nat.eqb_refl. cbn [andb app]. eexists. split; reflexivity.
Qed.

Lemma edges_within_check (n : nat) (e : EdgeIndex) :
  edges_within n e ->
  forallb (fun p => (fst p <? n) && (snd p <? n)) (edges e) = true.
Proof.
  intros H. apply forallb_forall. intros [j i] Hin.
  destruct (H j i Hin) as [Hj Hi]. cbn [fst snd].
  apply andb_true_intro. split; now apply Nat.ltb_lt.
Qed.

Lemma GATConv_forward_ok (sd : state_dict) (name : string) (f o h : nat)
      (x : tensor) (e : EdgeIndex) (n : nat) :
  shape x = [n; f] -> edges_within n e ->
  exists y, GATConv.forward (GATConv.init sd name f o h false) x e = Ok y
            /\ shape y = [n; o].
Proof.
  intros Hx He. unfold GATConv.forward, GATConv.init.
  cbn [GATConv.in_channels GATConv.concat GATConv.out_channels].
  rewrite Hx, Nat.eqb_refl, (edges_within_check n e He). cbn [andb].
  eexists. split; reflexivity.
Qed.

Lemma MultiheadAttention_init_ok (sd : state_dict) (name : string) (E h : nat)
      (m : MultiheadAttention.t) :
  MultiheadAttention.init sd name E h = Ok m -> MultiheadAttention.embed_dim m = E.
Proof.
  unfold MultiheadAttention.init.
  destruct (h =? 0); [discriminate|].
  destruct (E / h * h =? E); [|discriminate].
  intros H. inversion H. reflexivity.
Qed.

Lemma MultiheadAttention_forward_ok (m : MultiheadAttention.t) (q : tensor)
      (L B E : nat) :
  shape q = [L; B; E] -> MultiheadAttention.embed_dim m = E ->
  exists o, MultiheadAttention.forward m q q q = Ok o
            /\ shape (fst o) = [L; B; E].
Proof.
  intros Hq HE. unfold MultiheadAttention.forward. rewrite Hq, HE.
  rewrite !Nat.eqb_refl. cbn [andb]. eexists. split; reflexivity.
Qed.

Lemma select_last_ok (x : tensor) (B W N F : nat) :
  shape x = [B; W; N; F] -> 1 <= F ->
  exists y, select x 3 0 = Ok y /\ shape y = [B; W; N].
Proof.
  intros Hx HF. unfold select. rewrite Hx. cbn [nth_error].
  replace (0 <? F) with true by (symmetry; now apply Nat.ltb_lt).
  eexists. split; reflexivity.
Qed.

(** ** Running a computation step by step *)

Lemma bind_lift_ok {A B : Type} (r : result A) (a : A) (k : A -> M B)
      (g : Generator) :
  r = Ok a -> bind (lift r) k g = k a g.
Proof. intros ->. reflexivity. Qed.

Lemma bind_ok {A B : Type} (m : M A) (a : A) (k : A -> M B) (g g' : Generator) :
  m g = (Ok a, g') -> bind m k g = k a g'.
Proof. intros H. unfold bind. now rewrite H. Qed.

Lemma F_dropout_ok (x : tensor) (g : Generator) :
  exists y, dropout x 0.1 true g = (Ok y, advance g (numel (shape x)))
            /\ shape y = shape x.
Proof. apply (dropout_ok x 0.1 true g). lra. Qed.

(** ** The branches of [STCell] *)

Ltac pure_step H :=
  let y := fresh "t" in
  let E := fresh "E" in
  let S := fresh "S" in
  destruct H as (y & E & S);
  [.. | match goal with
        | Eq : _ = Ok y |- _ =>
          rewrite (bind_lift_ok _ _ _ _ Eq); cbv beta;
          cbn [fill map nth firstn skipn app length] in S
        end].

Ltac monadic_step H :=
  let y := fresh "t" in
  let g := fresh "g" in
  let E := fresh "E" in
  let S := fresh "S" in
  destruct H as (y & g & E & S);
  [.. | match goal with
        | Eq : _ = (Ok y, g) |- _ =>
          rewrite (bind_ok _ _ _ _ _ Eq); cbv beta
        end].

Ltac shape_arith :=
  cbn [numel fold_right known unknowns flat_map app filter length fill map
       firstn skipn nth];
  try reflexivity; try lia; try nia.

Lemma last_item_channels (num_inputs : nat) (chs : list nat) (d : nat) :
  last_item chs = Ok d -> channels_before num_inputs chs (length chs) = d.
Proof.
  unfold last_item, getitem, channels_before.
  destruct chs as [|c chs'] using rev_ind; [discriminate|].
  rewrite rev_app_distr. cbn [rev app nth_error]. intros H. inversion H. subst d.
  rewrite length_app. cbn [length].
  replace (length chs' + 1 =? 0) with false by (symmetry; apply Nat.eqb_neq; lia).
  rewrite app_nth2 by lia.
  replace (length chs' + 1 - 1 - length chs') with 0 by lia. reflexivity.
Qed.

Lemma temporal_ok (cell : STCell.t) (a : STCell.tcn_layers) (sd : state_dict)
      (nm1 nm2 : string) (chs : list nat) (d : nat) (training : bool)
      (N W gd B : nat) (x : tensor) (g : Generator) :
  STCell.tcn_attrs cell = Some a ->
  STCell.node_num cell = N -> STCell.seq_len cell = W ->
  STCell.graph_dim cell = gd -> STCell.tcn_dim cell = chs ->
  MultiheadAttention.embed_dim (STCell.self_atten a) = N ->
  STCell.tcn a = TemporalConvNet.init sd nm1 1 chs 2 0.2 training ->
  STCell.tlinear a = Linear.init sd nm2 (d * W) gd ->
  last_item chs = Ok d ->
  1 <= N -> 1 <= W -> 1 <= gd ->
  shape x = [B * N; W] ->
  exists y g', STCell.temporal cell x g = (Ok y, g') /\ shape y = [B; N; gd].
Proof.
  intros Ha HN HW Hgd Hchs HE Htcn Htl Hlast HN1 HW1 Hgd1 Hx.
  unfold STCell.temporal. rewrite Ha, HN, HW, Hgd, Hchs.
  rewrite (bind_lift_ok _ a _ _ eq_refl). cbv beta. rewrite Htcn, Htl.
  pure_step (reshape_infer x [None; Some N; Some W] B).
  1-3: rewrite ?Hx; shape_arith.
  pure_step (permute3_ok t B N W [2; 0; 1] S eq_refl).
  pure_step (MultiheadAttention_forward_ok (STCell.self_atten a) t0 W B N S0 HE).
  pure_step (binary_same_shape Rplus (fst t1) t0 _ S1 S0).
  destruct S2 as [S2 _].
  pure_step (permute3_ok (tanh t2) W B N [1; 2; 0] S2 eq_refl).
  pure_step (reshape_infer t3 [None; Some W] (B * N)).
  1-3: rewrite ?S3; shape_arith.
  pure_step (unsqueeze_ok t4 1).
  { rewrite S4. cbn [length]. lia. }
  rewrite S4 in S5. cbn [firstn skipn app] in S5.
  assert (Hp : (0 <= 0.2 <= 1)%R) by lra.
  destruct (tcn_causal sd nm1 1 chs 2 0.2 training (B * N) W (le_n 2) Hp HW1 t5 g S5)
    as (t6 & g6 & E6 & S6 & _).
  rewrite (bind_ok _ _ _ _ _ E6). cbv beta.
  rewrite (last_item_channels 1 chs d Hlast) in S6.
  unfold size. rewrite S6. cbn [nth_error].
  rewrite (bind_lift_ok _ (B * N) _ _ eq_refl). cbv beta.
  rewrite (bind_lift_ok _ d _ _ Hlast). cbv beta.
  pure_step (reshape_known t6 [Some (B * N); Some (d * W)]).
  1-2: rewrite ?S6; shape_arith.
  pure_step (Linear_forward_ok sd nm2 (d * W) gd t7 [B * N] S7).
  cbn [app] in S8.
  destruct (reshape_infer t8 [None; Some N; Some gd] B) as (y & Ey & Sy).
  1-3: rewrite ?S8; shape_arith.
  exists y, g6. unfold lift. rewrite Ey. split; [reflexivity | exact Sy].
Qed.

(** One gated layer of a graph branch: graph attention on [inp], the learned
    adjacency applied to the dropped-out input, and the gate between the two
    against [prev]. *)
Lemma gated_layer_ok (sd : state_dict) (nm_g nm_l : string) (D gd h : nat)
      (A inp prev : tensor) (e : EdgeIndex) (act : tensor -> tensor)
      (g : Generator) (B N : nat) :
  shape A = [N; N] -> shape inp = [B * N; D] -> shape prev = [B * N; gd] ->
  edges_within (B * N) e -> 1 <= N -> 1 <= D -> 1 <= gd ->
  (forall t, shape (act t) = shape t) ->
  exists out g',
    shape out = [B * N; gd]
    /\ forall (T : Type) (K : tensor -> M T),
         (gout <~ GATConv.forward (GATConv.init sd nm_g D gd h false) inp e ;;
          adp_input <~ reshape inp [None; Some N; Some D] ;;
          d <- dropout adp_input 0.1 true ;;
          m <~ matmul A d ;;
          adp <~ Linear.forward (Linear.init sd nm_l D gd) m ;;
          adp <~ reshape adp [None; Some gd] ;;
          l <~ mul (act gout) (sigmoid adp) ;;
          r <~ mul prev (one_minus (sigmoid adp)) ;;
          out <~ add l r ;;
          K out) g
         = K out g'.
Proof.
  intros HA Hinp Hprev He HN HD Hgd Hact.
  destruct (GATConv_forward_ok sd nm_g D gd h inp e (B * N) Hinp He)
    as (gout & Eg & Sg).
  destruct (reshape_infer inp [None; Some N; Some D] B) as (ai & Ea & Sa).
  1-3: rewrite ?Hinp; shape_arith.
  cbn [fill map] in Sa.
  destruct (F_dropout_ok ai g) as (d & Ed & Sd). rewrite Sa in Sd.
  destruct (matmul_batch_ok A d N N D B HA Sd) as (m & Em & Sm).
  destruct (Linear_forward_ok sd nm_l D gd m [B; N] Sm) as (adp & El & Sl).
  cbn [app] in Sl.
  destruct (reshape_infer adp [None; Some gd] (B * N)) as (adp' & Er & Sr).
  1-3: rewrite ?Sl; shape_arith.
  cbn [fill map] in Sr.
  destruct (binary_same_shape Rmult (act gout) (sigmoid adp') [B * N; gd])
    as (l & Eml & Sml & _); [now rewrite Hact | exact Sr |].
  destruct (binary_same_shape Rmult prev (one_minus (sigmoid adp')) [B * N; gd])
    as (r & Emr & Smr & _); [exact Hprev | exact Sr |].
  destruct (binary_same_shape Rplus l r [B * N; gd] Sml Smr) as (out & Eo & So & _).
  exists out, (advance g (numel (shape ai))). split; [exact So|].
  intros T K.
  rewrite (bind_lift_ok _ _ _ _ Eg). cbv beta.
  rewrite (bind_lift_ok _ _ _ _ Ea). cbv beta.
  rewrite (bind_ok _ _ _ _ _ Ed). cbv beta.
  rewrite (bind_lift_ok _ _ _ _ Em). cbv beta.
  rewrite (bind_lift_ok _ _ _ _ El). cbv beta.
  rewrite (bind_lift_ok _ _ _ _ Er). cbv beta.
  unfold mul, add.
  rewrite (bind_lift_ok _ _ _ _ Eml). cbv beta.
  rewrite (bind_lift_ok _ _ _ _ Emr). cbv beta.
  rewrite (bind_lift_ok _ _ _ _ Eo). reflexivity.
Qed.

(** The steps of a graph branch once its attributes are unfolded: the first
    layer one operation at a time, the other three by [gated_layer_ok]. *)
Ltac graph_branch sd n1 n2 n3 n4 n5 n6 n7 n8 n9 n10 n11 h4 N W gd B x edge_index g :=
  let A := fresh "A" in
  let EA := fresh "EA" in
  let SA := fresh "SA" in
  destruct (learned_matrix_row_stochastic (parameter sd n6 [N; 12])
              (parameter sd n7 [12; N]) N 12 eq_refl eq_refl)
    as (A & EA & SA & _);
  rewrite (bind_lift_ok _ _ _ _ EA); cbv beta;
  match goal with
  | Hx : shape x = [B * N; W], He : edges_within (B * N) edge_index,
    HN1 : 1 <= N, Hgd1 : 1 <= gd |- _ =>
    pure_step (GATConv_forward_ok sd n2 W gd 3 x edge_index (B * N) Hx He);
    pure_step (reshape_infer x [None; Some N; Some W] B);
    [rewrite ?Hx; shape_arith .. |];
    match goal with
    | S0 : shape ?t0 = [B; N; W] |- _ =>
      let d := fresh "d" in
      let Ed := fresh "Ed" in
      let Sd := fresh "Sd" in
      destruct (F_dropout_ok t0 g) as (d & Ed & Sd); rewrite S0 in Sd;
      rewrite (bind_ok _ _ _ _ _ Ed); cbv beta;
      pure_step (matmul_batch_ok A d N N W B SA Sd);
      match goal with
      | S1 : shape ?t1 = [B; N; W] |- context [Linear.forward _ ?t1] =>
        pure_step (Linear_forward_ok sd n8 W gd t1 [B; N] S1)
      end;
      match goal with
      | S2 : shape ?t2 = [B; N; gd] |- _ =>
        pure_step (reshape_infer t2 [None; Some gd] (B * N));
        [rewrite ?S2; shape_arith .. |]
      end;
      pure_step (Linear_forward_ok sd n1 W gd x [B * N] Hx);
      unfold mul at 1 2; unfold add at 1;
      match goal with
      | S : shape ?t = [B * N; gd], S3 : shape ?t3 = [B * N; gd],
        S4 : shape ?t4 = [B * N; gd]
        |- context [binary Rmult (tanh ?t) (sigmoid ?t3)] =>
        match goal with
        | |- context [binary Rmult t4 (one_minus (sigmoid t3))] =>
          pure_step (binary_same_shape Rmult (tanh t) (sigmoid t3) [B * N; gd] S S3);
          pure_step (binary_same_shape Rmult t4 (one_minus (sigmoid t3))
                                       [B * N; gd] S4 S3)
        end
      end;
      match goal with
      | S5 : shape ?t5 = [B * N; gd] /\ _, S6 : shape ?t6 = [B * N; gd] /\ _
        |- context [binary Rplus ?t5 ?t6] =>
        pure_step (binary_same_shape Rplus t5 t6 [B * N; gd] (proj1 S5) (proj1 S6))
      end;
      match goal with
      | S7 : shape ?t7 = [B * N; gd] /\ _
        |- context [GATConv.forward _ (tanh ?t7) edge_index] =>
        let o2 := fresh "o" in
        let g2 := fresh "g" in
        let So2 := fresh "So" in
        let Eo2 := fresh "Eo" in
        destruct (gated_layer_ok sd n3 n9 gd gd 3 A (tanh t7) t7 edge_index
                    leaky_relu (advance g (numel (shape t0))) B N SA
                    (proj1 S7) (proj1 S7) He HN1 Hgd1 Hgd1 (fun _ => eq_refl))
          as (o2 & g2 & So2 & Eo2);
        rewrite Eo2; clear Eo2;
        let o3 := fresh "o" in
        let g3 := fresh "g" in
        let So3 := fresh "So" in
        let Eo3 := fresh "Eo" in
        destruct (gated_layer_ok sd n4 n10 gd gd 3 A (relu o2) o2 edge_index relu
                    g2 B N SA So2 So2 He HN1 Hgd1 Hgd1 (fun _ => eq_refl))
          as (o3 & g3 & So3 & Eo3);
        rewrite Eo3; clear Eo3;
        let o4 := fresh "o" in
        let g4 := fresh "g" in
        let So4 := fresh "So" in
        let Eo4 := fresh "Eo" in
        destruct (gated_layer_ok sd n5 n11 gd gd h4 A (relu o3) o3 edge_index relu
                    g3 B N SA So3 So3 He HN1 Hgd1 Hgd1 (fun _ => eq_refl))
          as (o4 & g4 & So4 & Eo4);
        rewrite Eo4; clear Eo4;
        let y := fresh "y" in
        let Ey := fresh "Ey" in
        let Sy := fresh "Sy" in
        destruct (reshape_infer o4 [None; Some N; Some gd] B) as (y & Ey & Sy);
        [rewrite ?So4; shape_arith .. |];
        exists y, g4; unfold lift; rewrite Ey; split; [reflexivity | exact Sy]
      end
    end
  end.

Lemma spatial_ok (cell : STCell.t) (sd : state_dict)
      (n1 n2 n3 n4 n5 n6 n7 n8 n9 n10 n11 : string) (N W gd B : nat)
      (x : tensor) (edge_index : EdgeIndex) (g : Generator) :
  STCell.sp_attrs cell
  = Some (STCell.mk_sp
            (Linear.init sd n1 W gd)
            (GATConv.init sd n2 W gd 3 false)
            (GATConv.init sd n3 gd gd 3 false)
            (GATConv.init sd n4 gd gd 3 false)
            (GATConv.init sd n5 gd gd 1 false)
            (parameter sd n6 [N; 12])
            (parameter sd n7 [12; N])
            (Linear.init sd n8 W gd)
            (Linear.init sd n9 gd gd)
            (Linear.init sd n10 gd gd)
            (Linear.init sd n11 gd gd)) ->
  STCell.node_num cell = N -> STCell.seq_len cell = W ->
  STCell.graph_dim cell = gd ->
  1 <= N -> 1 <= W -> 1 <= gd ->
  shape x = [B * N; W] -> edges_within (B * N) edge_index ->
  exists y g', STCell.spatial cell x edge_index g = (Ok y, g')
               /\ shape y = [B; N; gd].
Proof.
  intros Ha HN HW Hgd HN1 HW1 Hgd1 Hx He.
  unfold STCell.spatial. rewrite Ha, HN, HW, Hgd. cbn [attr].
  rewrite (bind_lift_ok _ _ _ _ eq_refl). cbv beta.
  cbn [STCell.sp_origin STCell.sp_gconv1 STCell.sp_gconv2 STCell.sp_gconv3
       STCell.sp_gconv4 STCell.sp_source_embed STCell.sp_target_embed
       STCell.sp_linear_1 STCell.sp_linear_2 STCell.sp_linear_3
       STCell.sp_linear_4].
  graph_branch sd n1 n2 n3 n4 n5 n6 n7 n8 n9 n10 n11 1 N W gd B x edge_index g.
Qed.

Lemma semantic_ok (cell : STCell.t) (sd : state_dict)
      (n1 n2 n3 n4 n5 n6 n7 n8 n9 n10 n11 : string) (N W gd B : nat)
      (x : tensor) (dtw_edge_index : EdgeIndex) (g : Generator) :
  STCell.dtw_attrs cell
  = Some (STCell.mk_dtw
            (Linear.init sd n1 W gd)
            (GATConv.init sd n2 W gd 3 false)
            (GATConv.init sd n3 gd gd 3 false)
            (GATConv.init sd n4 gd gd 3 false)
            (GATConv.init sd n5 gd gd 3 false)
            (parameter sd n6 [N; 12])
            (parameter sd n7 [12; N])
            (Linear.init sd n8 W gd)
            (Linear.init sd n9 gd gd)
            (Linear.init sd n10 gd gd)
            (Linear.init sd n11 gd gd)) ->
  STCell.node_num cell = N -> STCell.seq_len cell = W ->
  STCell.graph_dim cell = gd ->
  1 <= N -> 1 <= W -> 1 <= gd ->
  shape x = [B * N; W] -> edges_within (B * N) dtw_edge_index ->
  exists y g', STCell.semantic cell x dtw_edge_index g = (Ok y, g')
               /\ shape y = [B; N; gd].
Proof.
  intros Ha HN HW Hgd HN1 HW1 Hgd1 Hx He.
  unfold STCell.semantic. rewrite Ha, HN, HW, Hgd. cbn [attr].
  rewrite (bind_lift_ok _ _ _ _ eq_refl). cbv beta.
  cbn [STCell.dtw_origin STCell.dtw_gconv1 STCell.dtw_gconv2 STCell.dtw_gconv3
       STCell.dtw_gconv4 STCell.dtw_source_embed STCell.dtw_target_embed
       STCell.dtw_linear_1 STCell.dtw_linear_2 STCell.dtw_linear_3
       STCell.dtw_linear_4].
  graph_branch sd n1 n2 n3 n4 n5 n6 n7 n8 n9 n10 n11 3 N W gd B x dtw_edge_index g.
Qed.

Lemma residual_ok (cell : STCell.t) (sd : state_dict) (nm : string) (W R0 : nat)
      (x : tensor) :
  STCell.seq_linear cell = Linear.init sd nm W W ->
  shape x = [R0; W] ->
  exists y, STCell.residual cell x = Ok y /\ shape y = [R0; W].
Proof.
  intros Hl Hx. unfold STCell.residual. rewrite Hl.
  destruct (Linear_forward_ok sd nm W W x [R0] Hx) as (s & Es & Ss).
  rewrite Es. cbn [rbind].
  destruct (binary_same_shape Rplus s x [R0; W] Ss Hx) as (y & Ey & Sy & _).
  exists y. now split.
Qed.

(** What [STCell.__init__] builds for three flags. *)
Lemma STCell_init_inv (sd : state_dict) (name : string) (N W gd : nat)
      (chs : list nat) (c0 c1 c2 h : nat) (training : bool) (cell : STCell.t) :
  STCell.init sd name N W gd chs [c0; c1; c2] h training = Ok cell ->
  STCell.node_num cell = N /\ STCell.seq_len cell = W
  /\ STCell.graph_dim cell = gd /\ STCell.tcn_dim cell = chs
  /\ STCell.output_dim cell = (c0 + c1 + c2) * gd
  /\ STCell.choice cell = [c0; c1; c2]
  /\ STCell.seq_linear cell = Linear.init sd (sub name "seq_linear") W W
  /\ (c0 = 1 ->
      exists m d,
        STCell.tcn_attrs cell
        = Some (STCell.mk_tcn m
                  (TemporalConvNet.init sd (sub name "tcn") 1 chs 2 0.2 training)
                  (Linear.init sd (sub name "tlinear") (d * W) gd))
        /\ MultiheadAttention.embed_dim m = N /\ last_item chs = Ok d)
  /\ (c1 = 1 ->
      STCell.sp_attrs cell
      = Some (STCell.mk_sp
                (Linear.init sd (sub name "sp_origin") W gd)
                (GATConv.init sd (sub name "sp_gconv1") W gd 3 false)
                (GATConv.init sd (sub name "sp_gconv2") gd gd 3 false)
                (GATConv.init sd (sub name "sp_gconv3") gd gd 3 false)
                (GATConv.init sd (sub name "sp_gconv4") gd gd 1 false)
                (parameter sd (sub name "sp_source_embed") [N; 12])
                (parameter sd (sub name "sp_target_embed") [12; N])
                (Linear.init sd (sub name "sp_linear_1") W gd)
                (Linear.init sd (sub name "sp_linear_2") gd gd)
                (Linear.init sd (sub name "sp_linear_3") gd gd)
                (Linear.init sd (sub name "sp_linear_4") gd gd)))
  /\ (c2 = 1 ->
      STCell.dtw_attrs cell
      = Some (STCell.mk_dtw
                (Linear.init sd (sub name "dtw_origin") W gd)
                (GATConv.init sd (sub name "dtw_gconv1") W gd 3 false)
                (GATConv.init sd (sub name "dtw_gconv2") gd gd 3 false)
                (GATConv.init sd (sub name "dtw_gconv3") gd gd 3 false)
                (GATConv.init sd (sub name "dtw_gconv4") gd gd 3 false)
                (parameter sd (sub name "dtw_source_embed") [N; 12])
                (parameter sd (sub name "dtw_target_embed") [12; N])
                (Linear.init sd (sub name "dtw_linear_1") W gd)
                (Linear.init sd (sub name "dtw_linear_2") gd gd)
                (Linear.init sd (sub name "dtw_linear_3") gd gd)
                (Linear.init sd (sub name "dtw_linear_4") gd gd))).
Proof.
  unfold STCell.init. cbn [getitem nth_error rbind list_sum fold_right].
  intros H.
  destruct (c0 =? 1) eqn:E0.
  - destruct (MultiheadAttention.init sd (sub name "self_atten") N h) as [m|] eqn:Em;
      [|discriminate].
    cbn [rbind] in H.
    destruct (last_item chs) as [d|] eqn:Ed; [|discriminate].
    cbn [rbind] in H. inversion H. subst cell. clear H.
    cbn [STCell.node_num STCell.seq_len STCell.graph_dim STCell.tcn_dim
         STCell.output_dim STCell.choice STCell.seq_linear STCell.tcn_attrs
         STCell.sp_attrs STCell.dtw_attrs].
    repeat split; try reflexivity.
    + f_equal. lia.
    + intros _. exists m, d. split; [reflexivity|]. split; [|reflexivity].
      exact (MultiheadAttention_init_ok sd _ N h m Em).
    + intros ->. reflexivity.
    + intros ->. reflexivity.
  - cbn [rbind] in H. inversion H. subst cell. clear H.
    cbn [STCell.node_num STCell.seq_len STCell.graph_dim STCell.tcn_dim
         STCell.output_dim STCell.choice STCell.seq_linear STCell.tcn_attrs
         STCell.sp_attrs STCell.dtw_attrs].
    repeat split; try reflexivity.
    + f_equal. lia.
    + intros ->. discriminate.
    + intros ->. reflexivity.
    + intros ->. reflexivity.
Qed.

Lemma branches_ok (sd : state_dict) (name : string) (N W gd : nat)
      (chs : list nat) (c0 c1 c2 h : nat) (training : bool) (cell : STCell.t)
      (B : nat) (x : tensor) (e de : EdgeIndex) (g : Generator) :
  STCell.init sd name N W gd chs [c0; c1; c2] h training = Ok cell ->
  1 <= N -> 1 <= W -> 1 <= gd ->
  shape x = [B * N; W] -> edges_within (B * N) e -> edges_within (B * N) de ->
  exists o0 o1 o2 g',
    STCell.branches cell x e de g = (Ok [o0; o1; o2], g')
    /\ slot [B; N; gd] c0 o0 /\ slot [B; N; gd] c1 o1 /\ slot [B; N; gd] c2 o2.
Proof.
  intros Hinit HN1 HW1 Hgd1 Hx He Hde.
  destruct (STCell_init_inv sd name N W gd chs c0 c1 c2 h training cell Hinit)
    as (HN & HW & Hgd & Hchs & _ & Hch & Hsl & Ht & Hs & Hd).
  unfold STCell.branches, slot. rewrite Hch.
  cbn [getitem nth_error].
  rewrite (bind_lift_ok _ _ _ _ eq_refl). cbv beta.
  (* the temporal branch *)
  assert (H0 : exists o0 g0,
             (if c0 =? 1
              then tcn_output <- STCell.temporal cell x ;;
                   ret (STCell.setitem [None; None; None] 0 (Some tcn_output))
              else ret [None; None; None]) g
             = (Ok [o0; None; None], g0)
             /\ (if c0 =? 1 then exists t, o0 = Some t /\ shape t = [B; N; gd]
                 else o0 = None)).
  { destruct (c0 =? 1) eqn:E0.
    - apply Nat.eqb_eq in E0. destruct (Ht E0) as (m & d & Hta & Hm & Hlast).
      destruct (temporal_ok cell _ sd _ _ chs d training N W gd B x g
                            Hta HN HW Hgd Hchs Hm eq_refl eq_refl Hlast
                            HN1 HW1 Hgd1 Hx) as (y & g0 & Ey & Sy).
      exists (Some y), g0. rewrite (bind_ok _ _ _ _ _ Ey). cbv beta.
      split; [reflexivity|]. now exists y.
    - exists None, g. now split. }
  destruct H0 as (o0 & g0 & E0 & S0).
  rewrite (bind_ok _ _ _ _ _ E0). cbv beta.
  rewrite (bind_lift_ok _ _ _ _ eq_refl). cbv beta.
  (* the spatial branch *)
  assert (H1 : exists x1 o1 g1,
             (if c1 =? 1
              then x' <~ STCell.residual cell x ;;
                   sp_output <- STCell.spatial cell x' e ;;
                   ret (x', STCell.setitem [o0; None; None] 1 (Some sp_output))
              else ret (x, [o0; None; None])) g0
             = (Ok (x1, [o0; o1; None]), g1)
             /\ shape x1 = [B * N; W]
             /\ (if c1 =? 1 then exists t, o1 = Some t /\ shape t = [B; N; gd]
                 else o1 = None)).
  { destruct (c1 =? 1) eqn:E1.
    - apply Nat.eqb_eq in E1.
      destruct (residual_ok cell sd _ W (B * N) x Hsl Hx) as (x1 & Ex1 & Sx1).
      rewrite (bind_lift_ok _ _ _ _ Ex1). cbv beta.
      destruct (spatial_ok cell sd _ _ _ _ _ _ _ _ _ _ _ N W gd B x1 e g0
                           (Hs E1) HN HW Hgd HN1 HW1 Hgd1 Sx1 He)
        as (y & g1 & Ey & Sy).
      exists x1, (Some y), g1. rewrite (bind_ok _ _ _ _ _ Ey). cbv beta.
      split; [reflexivity|]. split; [exact Sx1|]. now exists y.
    - exists x, None, g0. split; [reflexivity|]. now split. }
  destruct H1 as (x1 & o1 & g1 & E1 & Sx1 & S1).
  rewrite (bind_ok _ _ _ _ _ E1). cbv beta. cbn [fst snd].
  rewrite (bind_lift_ok _ _ _ _ eq_refl). cbv beta.
  (* the semantic branch *)
  destruct (c2 =? 1) eqn:E2.
  - apply Nat.eqb_eq in E2.
    destruct (residual_ok cell sd _ W (B * N) x1 Hsl Sx1) as (x2 & Ex2 & Sx2).
    rewrite (bind_lift_ok _ _ _ _ Ex2). cbv beta.
    destruct (semantic_ok cell sd _ _ _ _ _ _ _ _ _ _ _ N W gd B x2 de g1
                          (Hd E2) HN HW Hgd HN1 HW1 Hgd1 Sx2 Hde)
      as (y & g2 & Ey & Sy).
    exists o0, o1, (Some y), g2. rewrite (bind_ok _ _ _ _ _ Ey). cbv beta.
    split; [reflexivity|]. split; [exact S0|]. split; [exact S1|]. now exists y.
  - exists o0, o1, None, g1. split; [reflexivity|]. now repeat split.
Qed.

Lemma concat_ok (cell : STCell.t) (c0 c1 c2 gd B N : nat)
      (o0 o1 o2 : option tensor) :
  STCell.choice cell = [c0; c1; c2] ->
  STCell.output_dim cell = (c0 + c1 + c2) * gd ->
  c0 <= 1 -> c1 <= 1 -> c2 <= 1 -> 1 <= c0 + c1 + c2 -> 1 <= gd ->
  slot [B; N; gd] c0 o0 -> slot [B; N; gd] c1 o1 -> slot [B; N; gd] c2 o2 ->
  exists c out,
    cat_all (enabled [c0; c1; c2] [o0; o1; o2]) = Ok c
    /\ shape c = [B; N; (c0 + c1 + c2) * gd]
    /\ reshape c [None; Some ((c0 + c1 + c2) * gd)] = Ok out
    /\ STCell.concat cell [o0; o1; o2] = Ok out
    /\ shape out = [B * N; (c0 + c1 + c2) * gd].
Proof.
  intros Hch Hod H0 H1 H2 Hsum Hgd S0 S1 S2.
  unfold STCell.concat. rewrite Hod. clear Hod.
  assert (Hfin : forall c k, shape c = [B; N; k * gd] -> 1 <= k ->
             exists out, reshape c [None; Some (k * gd)] = Ok out
                         /\ shape out = [B * N; k * gd]).
  { intros c k Hc Hk.
    destruct (reshape_infer c [None; Some (k * gd)] (B * N)) as (out & Eo & So).
    1-3: rewrite ?Hc; shape_arith.
    exists out. now split. }
  destruct c0 as [|[|c0]]; [| |lia];
    destruct c1 as [|[|c1]]; try lia;
      destruct c2 as [|[|c2]]; try lia;
        unfold slot in S0, S1, S2; cbn [Nat.eqb] in S0, S1, S2;
        repeat match goal with
               | H : exists t, _ = Some t /\ _ |- _ =>
                 let t := fresh "t" in
                 let St := fresh "St" in
                 destruct H as (t & -> & St)
               | H : _ = None |- _ => subst
               end;
        repeat first
               [ progress rewrite Hch
               | progress cbn [enabled cat_all Nat.eqb app fold_left rbind length
                                seq STCell.concat_loop STCell.concat_step getitem
                                nth_error andb Nat.add snd fst]
               | match goal with
                 | Sa : shape ?a = [B; N; ?ga], Sb : shape ?b = [B; N; ?gb]
                   |- context [cat ?a ?b 2] =>
                   let c := fresh "c" in
                   let Ec := fresh "Ec" in
                   let Sc := fresh "Sc" in
                   destruct (cat2_ok a b B N ga gb Sa Sb) as (c & Ec & Sc);
                   rewrite !Ec
                 end ];
        match goal with
        | St : shape ?t = [B; N; ?w] |- context [reshape ?t [None; Some (?k * gd)]] =>
          let out := fresh "out" in
          let Eo := fresh "Eo" in
          let So := fresh "So" in
          destruct (Hfin t k) as (out & Eo & So);
          [rewrite St; do 3 f_equal; lia | lia |];
          exists t, out; repeat split; try assumption;
          rewrite St; do 3 f_equal; lia
        end.
Qed.

(** ** The whole model *)

Lemma STCell_forward_ok (sd : state_dict) (name : string) (N W gd : nat)
      (chs : list nat) (c0 c1 c2 h : nat) (training : bool) (cell : STCell.t)
      (B : nat) (x : tensor) (e de : EdgeIndex) (g : Generator) :
  STCell.init sd name N W gd chs [c0; c1; c2] h training = Ok cell ->
  c0 <= 1 -> c1 <= 1 -> c2 <= 1 -> 1 <= c0 + c1 + c2 ->
  1 <= N -> 1 <= W -> 1 <= gd ->
  shape x = [B * N; W] -> edges_within (B * N) e -> edges_within (B * N) de ->
  exists o0 o1 o2 c out g',
    STCell.branches cell x e de g = (Ok [o0; o1; o2], g')
    /\ slot [B; N; gd] c0 o0 /\ slot [B; N; gd] c1 o1 /\ slot [B; N; gd] c2 o2
    /\ cat_all (enabled [c0; c1; c2] [o0; o1; o2]) = Ok c
    /\ shape c = [B; N; (c0 + c1 + c2) * gd]
    /\ reshape c [None; Some ((c0 + c1 + c2) * gd)] = Ok out
    /\ STCell.forward cell x e de g = (Ok out, g')
    /\ shape out = [B * N; (c0 + c1 + c2) * gd].
Proof.
  intros Hinit H0 H1 H2 Hsum HN1 HW1 Hgd1 Hx He Hde.
  destruct (branches_ok sd name N W gd chs c0 c1 c2 h training cell B x e de g
                        Hinit HN1 HW1 Hgd1 Hx He Hde)
    as (o0 & o1 & o2 & g' & Eb & S0 & S1 & S2).
  destruct (STCell_init_inv sd name N W gd chs c0 c1 c2 h training cell Hinit)
    as (_ & _ & _ & _ & Hod & Hch & _).
  destruct (concat_ok cell c0 c1 c2 gd B N o0 o1 o2 Hch Hod H0 H1 H2 Hsum Hgd1
                      S0 S1 S2) as (c & out & Ec & Sc & Er & Eo & So).
  exists o0, o1, o2, c, out, g'.
  repeat (split; [assumption|]). split; [|exact So].
  unfold STCell.forward. rewrite (bind_ok _ _ _ _ _ Eb). cbv beta.
  unfold lift. now rewrite Eo.
Qed.

Lemma STAGGCNModel_init_inv (sd : state_dict) (name : string)
      (N W P gd : nat) (chs : list nat) (h : nat) (choice : list nat)
      (training : bool) (m : STAGGCNModel.t) :
  STAGGCNModel.init sd name N W P gd chs h choice training = Ok m ->
  STCell.init sd (sub name "STCell") N W gd chs choice h training
  = Ok (STAGGCNModel.STCell m)
  /\ STAGGCNModel.output_linear m
     = Linear.init sd (sub name "output_linear") (list_sum choice * gd) P.
Proof.
  unfold STAGGCNModel.init.
  destruct (STCell.init sd (sub name "STCell") N W gd chs choice h training)
    as [cell|]; [|discriminate].
  cbn [rbind]. intros H. inversion H. now split.
Qed.

Lemma STAGGCNModel_forward_ok (sd : state_dict) (name : string)
      (N W P gd : nat) (chs : list nat) (c0 c1 c2 h : nat) (training : bool)
      (m : STAGGCNModel.t) (B : nat) (x : tensor) (e de : EdgeIndex)
      (g : Generator) :
  STAGGCNModel.init sd name N W P gd chs h [c0; c1; c2] training = Ok m ->
  c0 <= 1 -> c1 <= 1 -> c2 <= 1 -> 1 <= c0 + c1 + c2 ->
  1 <= N -> 1 <= W -> 1 <= gd ->
  shape x = [B * N; W] -> edges_within (B * N) e -> edges_within (B * N) de ->
  exists out g',
    STAGGCNModel.forward m x e de g = (Ok out, g') /\ shape out = [B * N; P].
Proof.
  intros Hinit H0 H1 H2 Hsum HN1 HW1 Hgd1 Hx He Hde.
  destruct (STAGGCNModel_init_inv sd name N W P gd chs h _ training m Hinit)
    as (Hcell & Hlin).
  destruct (STCell_forward_ok sd _ N W gd chs c0 c1 c2 h training _ B x e de g
                              Hcell H0 H1 H2 Hsum HN1 HW1 Hgd1 Hx He Hde)
    as (_ & _ & _ & _ & st & g' & _ & _ & _ & _ & _ & _ & _ & Ef & Sf).
  unfold STAGGCNModel.forward. rewrite (bind_ok _ _ _ _ _ Ef). cbv beta.
  rewrite Hlin. cbn [list_sum fold_right].
  destruct (Linear_forward_ok sd (sub name "output_linear")
              ((c0 + (c1 + (c2 + 0))) * gd) P st [B * N]) as (out & Eo & So).
  { rewrite Sf. cbn [app]. do 3 f_equal. lia. }
  exists out, g'. unfold lift. rewrite Eo. now split.
Qed.

Lemma STAGGCN_init_model (sd : state_dict) (training : bool)
      (config : STAGGCN.Config) (data_feature : STAGGCN.DataFeature)
      (self : STAGGCN.t) :
  STAGGCN.init sd training config data_feature = Ok self ->
  STAGGCNModel.init sd "model" (STAGGCN.num_nodes self)
                    (STAGGCN.input_window self) (STAGGCN.output_window self)
                    (STAGGCN.graph_dim self) (STAGGCN.tcn_dim self)
                    (STAGGCN.atten_head self) (STAGGCN.choice self) training
  = Ok (STAGGCN.model self).
Proof.
  unfold STAGGCN.init.
  destruct (STAGGCN.item (STAGGCN.cfg_graph_dim config)); [|discriminate].
  destruct (STAGGCN.item (STAGGCN.cfg_tcn_dim config)); [|discriminate].
  destruct (STAGGCN.item (STAGGCN.cfg_atten_head config)); [|discriminate].
  destruct (STAGGCN.item (STAGGCN.cfg_choice config)); [|discriminate].
  destruct (STAGGCN.item (STAGGCN.cfg_batch_size config)); [|discriminate].
  cbn [rbind].
  match goal with
  | |- rbind ?r _ = _ -> _ => destruct r as [m|] eqn:Em; [|discriminate]
  end.
  cbn [rbind]. intros H. inversion H. subst self. exact Em.
Qed.

Lemma input_of_ok (batch : STAGGCN.Batch) (B W N F : nat) :
  shape (STAGGCN.X batch) = [B; W; N; F] -> 1 <= F -> 1 <= W ->
  exists x, STAGGCN.input_of batch = Ok x /\ shape x = [B * N; W].
Proof.
  intros HX HF HW. unfold STAGGCN.input_of.
  destruct (select_last_ok _ B W N F HX HF) as (s & Es & Ss).
  rewrite Es. cbn [rbind].
  destruct (permute3_ok s B W N [0; 2; 1] Ss eq_refl) as (p & Ep & Sp).
  cbn [map nth] in Sp. rewrite Ep. cbn [rbind].
  unfold size. rewrite Sp. cbn [nth_error rbind].
  destruct (reshape_infer p [None; Some W] (B * N)) as (x & Ex & Sx).
  1-3: rewrite ?Sp; shape_arith.
  exists x. now split.
Qed.

Lemma edges_within_mono (n n' : nat) (e : EdgeIndex) (d : device) :
  n <= n' -> edges_within n e -> edges_within n' (to e d).
Proof.
  intros Hn H j i Hin. destruct (H j i Hin). lia.
Qed.

(** A run of [forward] up to its last reshape. *)
Lemma forward_run (sd : state_dict) (training : bool)
      (config : STAGGCN.Config) (data_feature : STAGGCN.DataFeature)
      (self : STAGGCN.t) (batch : STAGGCN.Batch) (B F : nat) (g : Generator) :
  STAGGCN.init sd training config data_feature = Ok self ->
  sensible self -> 1 <= B -> 1 <= F ->
  shape (STAGGCN.X batch)
  = [B; STAGGCN.input_window self; STAGGCN.num_nodes self; F] ->
  exists outputs self' g',
    shape outputs = [B * STAGGCN.num_nodes self; STAGGCN.output_window self]
    /\ STAGGCN.forward self batch g
       = (reshape outputs [Some (STAGGCN.batch_size self);
                           Some (STAGGCN.output_window self);
                           Some (STAGGCN.num_nodes self); Some 1],
          self', g').
Proof.
  intros Hinit (Hflags & HN1 & HW1 & Hgd1 & He & Hde) HB HF HX.
  destruct Hflags as (c0 & c1 & c2 & Hch & H0 & H1 & H2 & Hsum).
  pose proof (STAGGCN_init_model sd training config data_feature self Hinit) as Hm.
  rewrite Hch in Hm.
  destruct (input_of_ok batch B _ _ F HX HF HW1) as (x & Ex & Sx).
  unfold STAGGCN.forward. rewrite Ex.
  cbn [STAGGCN.set_edge_index STAGGCN.set_dtw_edge_index STAGGCN.model
       STAGGCN.edge_index STAGGCN.dtw_edge_index STAGGCN.device_
       STAGGCN.batch_size STAGGCN.output_window STAGGCN.num_nodes].
  assert (Hle : STAGGCN.num_nodes self <= B * STAGGCN.num_nodes self) by nia.
  destruct (STAGGCNModel_forward_ok sd "model" _ _ _ _ _ c0 c1 c2 _ training _ B x
              (to (STAGGCN.edge_index self) (STAGGCN.device_ self))
              (to (STAGGCN.dtw_edge_index self) (STAGGCN.device_ self)) g
              Hm H0 H1 H2 Hsum HN1 HW1 Hgd1 Sx
              (edges_within_mono _ _ _ _ Hle He)
              (edges_within_mono _ _ _ _ Hle Hde))
    as (outputs & g' & Eo & So).
  rewrite Eo. eexists outputs, _, g'. split; [exact So | reflexivity].
Qed.

(** C3: on a batch of the configured size, [forward] returns a tensor of
    shape [(batch_size, output_window, num_nodes, 1)]. *)
Theorem forward_output_shape :
  forall (sd : state_dict) (training : bool) (config : STAGGCN.Config)
         (data_feature : STAGGCN.DataFeature) (self : STAGGCN.t)
         (batch : STAGGCN.Batch) (feature_dim : nat) (g : Generator),
    STAGGCN.init sd training config data_feature = Ok self ->
    sensible self -> 1 <= STAGGCN.batch_size self -> 1 <= feature_dim ->
    shape (STAGGCN.X batch)
    = [STAGGCN.batch_size self; STAGGCN.input_window self;
       STAGGCN.num_nodes self; feature_dim] ->
    exists out self' g',
      STAGGCN.forward self batch g = (Ok out, self', g')
      /\ shape out = [STAGGCN.batch_size self; STAGGCN.output_window self;
                      STAGGCN.num_nodes self; 1].
Proof.
  intros sd training config data_feature self batch F g Hinit Hs HB HF HX.
  destruct (forward_run sd training config data_feature self batch _ F g
                        Hinit Hs HB HF HX) as (outputs & self' & g' & So & Ef).
  destruct (reshape_known outputs
              [Some (STAGGCN.batch_size self); Some (STAGGCN.output_window self);
               Some (STAGGCN.num_nodes self); Some 1]) as (out & Eo & Sout).
  1-2: rewrite ?So; shape_arith.
  exists out, self', g'. rewrite Ef, Eo. now split.
Qed.

(** C9: on a batch whose size is not the configured one, the model computes
    [B * num_nodes * output_window] entries, which are not the
    [batch_size * output_window * num_nodes] that the last reshape of
    [forward] asks for, and [forward] raises instead of returning. *)
Theorem forward_raises_on_other_batch_size :
  forall (sd : state_dict) (training : bool) (config : STAGGCN.Config)
         (data_feature : STAGGCN.DataFeature) (self : STAGGCN.t)
         (batch : STAGGCN.Batch) (B feature_dim : nat) (g : Generator),
    STAGGCN.init sd training config data_feature = Ok self ->
    sensible self -> 1 <= STAGGCN.output_window self ->
    1 <= B -> 1 <= feature_dim ->
    shape (STAGGCN.X batch)
    = [B; STAGGCN.input_window self; STAGGCN.num_nodes self; feature_dim] ->
    B <> STAGGCN.batch_size self ->
    exists outputs self' g',
      numel (shape outputs)
      = B * STAGGCN.num_nodes self * STAGGCN.output_window self
      /\ numel (shape outputs)
         <> STAGGCN.batch_size self * STAGGCN.output_window self
            * STAGGCN.num_nodes self * 1
      /\ reshape outputs [Some (STAGGCN.batch_size self);
                          Some (STAGGCN.output_window self);
                          Some (STAGGCN.num_nodes self); Some 1]
         = Raise RuntimeError
      /\ STAGGCN.forward self batch g = (Raise RuntimeError, self', g').
Proof.
  intros sd training config data_feature self batch B F g Hinit Hs HP HB HF HX Hne.
  destruct (forward_run sd training config data_feature self batch B F g
                        Hinit Hs HB HF HX) as (outputs & self' & g' & So & Ef).
  assert (Hn : numel (shape outputs)
               = B * STAGGCN.num_nodes self * STAGGCN.output_window self).
  { rewrite So. cbn [numel fold_right]. lia. }
  assert (Hneq : numel (shape outputs)
                 <> STAGGCN.batch_size self * STAGGCN.output_window self
                    * STAGGCN.num_nodes self * 1).
  { rewrite Hn. destruct Hs as (_ & HN1 & _). nia. }
  assert (Hr : reshape outputs [Some (STAGGCN.batch_size self);
                                Some (STAGGCN.output_window self);
                                Some (STAGGCN.num_nodes self); Some 1]
               = Raise RuntimeError).
  { apply reshape_mismatch; [reflexivity|].
    cbn [known flat_map app numel fold_right].
    cbn [numel fold_right] in Hneq. lia. }
  exists outputs, self', g'. rewrite Ef, Hr. now repeat split.
Qed.


(** C10: with the spatial and the semantic branch enabled, [branches] applies
    [x = seq_linear(x) + x] before each of them, so the semantic branch runs
    on [seq_linear(x1) + x1] for the input [x1 = seq_linear(x0) + x0] of the
    spatial branch; and there are parameters and an input for which the two
    inputs differ. *)
Theorem semantic_branch_input_is_transformed_twice :
  (forall (cell : STCell.t) (c0 : nat) (rest : list nat) (x0 : tensor)
          (e de : EdgeIndex) (g : Generator),
      STCell.choice cell = c0 :: 1 :: 1 :: rest ->
      STCell.branches cell x0 e de g = branches_both cell c0 x0 e de g)
  /\ exists (cell : STCell.t) (x0 x1 x2 : tensor),
       STCell.init example_sd "STCell" 1 1 1 [1] [0; 1; 1] 1 true = Ok cell
       /\ STCell.residual cell x0 = Ok x1
       /\ STCell.residual cell x1 = Ok x2
       /\ get x1 0 <> get x2 0.
Proof.
  split.
  - intros cell c0 rest x0 e de g Hch.
    unfold STCell.branches, branches_both, STCell.residual. rewrite Hch.
    cbn [getitem nth_error Nat.eqb].
    unfold bind, lift, ret. cbn [Nat.eqb].
    destruct (if c0 =? 1 then _ else _) as [[ol|err] g0]; [|reflexivity].
    destruct (Linear.forward (STCell.seq_linear cell) x0) as [s0|err];
      [|reflexivity].
    cbn [rbind].
    destruct (add s0 x0) as [x1|err]; [|reflexivity].
    destruct (STCell.spatial cell x1 e g0) as [[sp|err] g1]; [|reflexivity].
    cbn [fst snd Nat.eqb].
    destruct (Linear.forward (STCell.seq_linear cell) x1) as [s1|err];
      [|reflexivity].
    cbn [rbind].
    destruct (add s1 x1) as [x2|err]; [|reflexivity].
    destruct (STCell.semantic cell x2 de g1) as [[dtw|err] g2]; reflexivity.
  - eexists. exists (Tensor [1; 1] [0%R]). eexists. eexists.
    split; [reflexivity|]. split; [reflexivity|]. split; [reflexivity|].
    vm_compute. lra.
Qed.

(** ** The statements on the small instance *)

Lemma example_model :
  exists self,
    STAGGCN.init example_sd true example_config example_data_feature = Ok self
    /\ sensible self
    /\ STAGGCN.batch_size self = 1 /\ STAGGCN.input_window self = 2
    /\ STAGGCN.num_nodes self = 2 /\ STAGGCN.output_window self = 1
    /\ STAGGCN.output_dim self = 1
    /\ STAGGCN._scaler self = Some example_scaler.
Proof.
  eexists. split; [reflexivity|].
  split; [|repeat split].
  unfold sensible, flags.
  cbn [STAGGCN.choice STAGGCN.num_nodes STAGGCN.input_window STAGGCN.graph_dim
       STAGGCN.edge_index STAGGCN.dtw_edge_index].
  split; [exists 1, 1, 1; repeat split; lia|].
  split; [cbn; lia|]. split; [cbn; lia|]. split; [cbn; lia|].
  split; intros j i Hin; cbn in Hin; destruct Hin as [Hin|[]];
    inversion Hin; subst; cbn; lia.
Qed.

Lemma calculate_loss_is_masked_mae_witness :
  exists self p self' g' y_true y_predicted res,
    STAGGCN.init example_sd true example_config example_data_feature = Ok self
    /\ STAGGCN.predict self example_batch_of_channels example_generator
       = (Ok p, self', g')
    /\ shape y_true = [1; 1; 2; 1]
    /\ get y_true 0 = 1%R /\ get y_true 1 = 2%R
    /\ shape y_predicted = [1; 1; 2; 1]
    /\ get y_predicted 0 = get p 0 /\ get y_predicted 1 = get p 1
    /\ example_masked_mae
         (STAGGCN.inverse_transform example_scaler y_predicted)
         (STAGGCN.inverse_transform example_scaler y_true) 0%R
       = Ok res
    /\ STAGGCN.calculate_loss example_masked_mae self example_batch_of_channels
                              example_generator
       = (Ok res, self', g')
    /\ shape res = [].
Proof.
  destruct example_model as (self & Hinit & Hs & HB & HW & HN & HP & Hod & Hsc).
  destruct (forward_run example_sd true example_config example_data_feature self
                        example_batch_of_channels 1 2 example_generator Hinit Hs
                        (le_n 1) (le_S 1 1 (le_n 1)))
    as (outputs & self' & g' & So & Ef).
  { rewrite HW, HN. reflexivity. }
  destruct (reshape_known outputs
              [Some (STAGGCN.batch_size self); Some (STAGGCN.output_window self);
               Some (STAGGCN.num_nodes self); Some 1]) as (p & Ep & Sp).
  { reflexivity. }
  { rewrite So, HB, HP, HN. reflexivity. }
  rewrite Ep in Ef.
  pose proof (calculate_loss_is_masked_mae example_masked_mae self
                example_batch_of_channels example_generator)
    as (Hcut & _ & _ & Hscalar).
  destruct (Hcut p self' g' example_scaler [1; 1; 2] 2 Ef Hsc eq_refl)
    as (y_true & y_predicted & St & Gt & Sq & Gq & Hl).
  rewrite Hod in St, Gt, Sq, Gq. rewrite HB, HP, HN in Sq, Gq.
  eexists self, p, self', g', y_true, y_predicted, _.
  split; [exact Hinit|]. split; [exact Ef|]. split; [exact St|].
  split; [exact (Gt 0 0 (le_S 1 1 (le_n 1)) (le_n 1))|].
  split; [exact (Gt 1 0 (le_n 2) (le_n 1))|].
  split; [exact Sq|].
  split; [exact (Gq 0 0 (le_S 1 1 (le_n 1)) (le_n 1))|].
  split; [exact (Gq 1 0 (le_n 2) (le_n 1))|].
  split; [reflexivity|].
  split; [exact Hl|].
  apply (Hscalar (fun a b v t H => f_equal shape (eq_sym (f_equal
           (fun r => match r with Ok u => u | Raise _ => t end) H)))
                 _ self' g' Hl).
Defined.

Lemma forward_output_shape_witness :
  exists self out self' g',
    STAGGCN.init example_sd true example_config example_data_feature = Ok self
    /\ STAGGCN.forward self example_batch example_generator = (Ok out, self', g')
    /\ shape out = [1; 1; 2; 1].
Proof.
  destruct example_model as (self & Hinit & Hs & HB & HW & HN & HP & _).
  destruct (forward_output_shape example_sd true example_config
              example_data_feature self example_batch 2 example_generator
              Hinit Hs) as (out & self' & g' & Ef & So).
  { rewrite HB. apply le_n. }
  { apply le_S, le_n. }
  { rewrite HB, HW, HN. reflexivity. }
  exists self, out, self', g'. rewrite HB, HP, HN in So. repeat split; assumption.
Defined.

Lemma forward_raises_on_other_batch_size_witness :
  exists self self' g',
    STAGGCN.init example_sd true example_config example_data_feature = Ok self
    /\ STAGGCN.batch_size self = 1
    /\ shape (STAGGCN.X example_batch_of_two) = [2; 2; 2; 2]
    /\ STAGGCN.forward self example_batch_of_two example_generator
       = (Raise RuntimeError, self', g').
Proof.
  destruct example_model as (self & Hinit & Hs & HB & HW & HN & HP & _).
  destruct (forward_raises_on_other_batch_size example_sd true example_config
              example_data_feature self example_batch_of_two 2 2
              example_generator Hinit Hs)
    as (outputs & self' & g' & _ & _ & _ & Ef).
  { rewrite HP. apply le_n. }
  { apply le_S, le_n. }
  { apply le_S, le_n. }
  { rewrite HW, HN. reflexivity. }
  { rewrite HB. discriminate. }
  exists self, self', g'. repeat split; assumption.
Defined.

Lemma forward_reads_channel_0_only_witness :
  exists self,
    STAGGCN.init example_sd true example_config example_data_feature = Ok self
    /\ STAGGCN.forward self example_batch example_generator
       = STAGGCN.forward self example_batch' example_generator.
Proof.
  destruct example_model as (self & Hinit & _).
  exists self. split; [exact Hinit|].
  apply (forward_reads_channel_0_only self example_batch example_batch'
                                      example_generator 1 2 2 2);
    [reflexivity | reflexivity |].
  intros i Hi.
  do 4 (destruct i as [|i]; [reflexivity|]).
  cbn in Hi. lia.
Defined.



Lemma tcn_is_dilated_and_causal_witness :
  causal_op (TemporalConvNet.forward
               (TemporalConvNet.init example_sd "tcn" 1 [1] 2 0.2 true))
            [4; 1; 2] [4; 1; 2].
Proof.
  assert (Hp : (0 <= 0.2 <= 1)%R) by lra.
  exact (proj2 (proj2 (proj1 tcn_is_dilated_and_causal
                               example_sd "tcn"%string 1 [1] 2 0.2%R true (le_n 2) Hp))
               4 2 (le_S 1 1 (le_n 1))).
Defined.

Lemma semantic_branch_input_is_transformed_twice_witness :
  exists cell,
    STCell.init example_sd "STCell" 1 1 1 [1] [0; 1; 1] 1 true = Ok cell
    /\ STCell.branches cell (Tensor [1; 1] [0%R]) (mkEdgeIndex cpu [])
                       (mkEdgeIndex cpu []) example_generator
       = branches_both cell 0 (Tensor [1; 1] [0%R]) (mkEdgeIndex cpu [])
                       (mkEdgeIndex cpu []) example_generator.
Proof.
  eexists. split; [reflexivity|].
  apply (proj1 semantic_branch_input_is_transformed_twice) with (rest := []).
  reflexivity.
Defined.

(** ** Further properties of the temporal convolutions *)

Lemma get_relu_nonneg (t : tensor) (i : nat) : (0 <= get (relu t) i)%R.
Proof.
  unfold get, relu, pointwise, build. cbn [data].
  destruct (Nat.lt_ge_cases i (numel (shape t))) as [Hi|Hi].
  - rewrite nth_tabulate by exact Hi. apply Rmax_l.
  - rewrite nth_overflow by (now rewrite length_tabulate). apply Rle_refl.
Qed.

Lemma TemporalBlock_forward_nonneg (b : TemporalBlock.t) (x y : tensor)
      (g g' : Generator) :
  TemporalBlock.forward b x g = (Ok y, g') -> forall i, (0 <= get y i)%R.
Proof.
  unfold TemporalBlock.forward, bind, lift, ret. intros H i.
  destruct (TemporalBlock.net b x g) as [[out|e] g1]; [|discriminate].
  destruct (match TemporalBlock.downsample b with
            | Some d => Conv1d.forward d x
            | None => Ok x
            end) as [res|e]; [|discriminate].
  destruct (add out res) as [s|e]; [|discriminate].
  inversion H. apply get_relu_nonneg.
Qed.

(** X1: whatever a [TemporalBlock] returns has no negative entry, and so has
    whatever a [TemporalConvNet] with at least one block returns. *)
Theorem tcn_output_is_nonnegative :
  (forall (b : TemporalBlock.t) (x y : tensor) (g g' : Generator),
      TemporalBlock.forward b x g = (Ok y, g') -> forall i, (0 <= get y i)%R)
  /\ (forall (net : TemporalConvNet.t) (x y : tensor) (g g' : Generator),
         TemporalConvNet.network net <> [] ->
         TemporalConvNet.forward net x g = (Ok y, g') ->
         forall i, (0 <= get y i)%R).
Proof.
  split; [exact TemporalBlock_forward_nonneg|].
  intros [layers]. unfold TemporalConvNet.forward. cbn [TemporalConvNet.network].
  induction layers as [|b rest IH]; intros x y g g' Hne H i; [congruence|].
  cbn [TemporalConvNet.sequential] in H. unfold bind in H.
  destruct (TemporalBlock.forward b x g) as [[y1|e] g1] eqn:Hb; [|discriminate].
  destruct rest as [|b' rest'].
  - cbn [TemporalConvNet.sequential] in H. unfold ret in H. inversion H. subst.
    exact (TemporalBlock_forward_nonneg b x y g g' Hb i).
  - apply (IH y1 y g1 g'); [discriminate | exact H].
Qed.

Lemma tcn_output_is_nonnegative_witness :
  exists y g',
    TemporalConvNet.forward (TemporalConvNet.init example_sd "tcn" 1 [1] 2 0.2 true)
                            (Tensor [1; 1; 2] [1; 2]%R) example_generator
    = (Ok y, g')
    /\ forall i, (0 <= get y i)%R.
Proof.
  assert (Hp : (0 <= 0.2 <= 1)%R) by lra.
  destruct (tcn_causal example_sd "tcn" 1 [1] 2 0.2 true 1 2 (le_n 2) Hp
                       (le_S 1 1 (le_n 1)) (Tensor [1; 1; 2] [1; 2]%R)
                       example_generator eq_refl) as (y & g' & Ey & _).
  exists y, g'. split; [exact Ey|].
  apply (proj2 tcn_output_is_nonnegative _ _ _ _ _) with (2 := Ey).
  discriminate.
Defined.

(** ** Error and edge behaviour of [STCell.forward] *)

Lemma concat_loop_idle (cell : STCell.t) (output_list : list (option tensor))
      (st : nat * option tensor) (range : list nat) :
  (forall c, In c (STCell.choice cell) -> c <> 1) ->
  (forall i, In i range -> i < length (STCell.choice cell)) ->
  STCell.concat_loop cell output_list st range = Ok st.
Proof.
  intros Hno. induction range as [|i rest IH]; intros Hrange; [reflexivity|].
  cbn [STCell.concat_loop]. unfold STCell.concat_step. destruct st as [step acc].
  unfold getitem.
  destruct (nth_error (STCell.choice cell) i) as [c|] eqn:Ec.
  - assert (Hc : c <> 1) by (apply Hno; eapply nth_error_In; exact Ec).
    apply Nat.eqb_neq in Hc. cbn [rbind]. rewrite Hc. cbn [andb rbind].
    apply IH. intros j Hj. apply Hrange. now right.
  - apply nth_error_None in Ec. specialize (Hrange i (or_introl eq_refl)). lia.
Qed.

(** X2: when no entry of [choice] is 1, no branch runs, no random number is
    drawn, and [STCell.forward] raises [UnboundLocalError] (its
    [cell_output] was never assigned), on every input; so does
    [STAGGCNModel.forward]. *)
Theorem forward_without_a_branch_raises :
  forall (cell : STCell.t) (x : tensor) (e de : EdgeIndex) (g : Generator),
    3 <= length (STCell.choice cell) ->
    (forall c, In c (STCell.choice cell) -> c <> 1) ->
    STCell.forward cell x e de g = (Raise UnboundLocalError, g)
    /\ forall model, STAGGCNModel.STCell model = cell ->
         STAGGCNModel.forward model x e de g = (Raise UnboundLocalError, g).
Proof.
  intros cell x e de g Hlen Hno.
  assert (Hf : STCell.forward cell x e de g = (Raise UnboundLocalError, g)).
  { unfold STCell.forward, STCell.branches.
    destruct (STCell.choice cell) as [|c0 [|c1 [|c2 rest]]] eqn:Hch;
      cbn [length] in Hlen; try lia.
    assert (H0 : (c0 =? 1) = false) by (apply Nat.eqb_neq, Hno; cbn; auto).
    assert (H1 : (c1 =? 1) = false) by (apply Nat.eqb_neq, Hno; cbn; auto).
    assert (H2 : (c2 =? 1) = false) by (apply Nat.eqb_neq, Hno; cbn; auto).
    cbn [getitem nth_error]. unfold bind, lift, ret. rewrite H0, H1, H2.
    cbn [fst snd]. unfold STCell.concat.
    rewrite concat_loop_idle.
    - reflexivity.
    - rewrite Hch. exact Hno.
    - intros i Hi. apply in_seq in Hi. lia. }
  split; [exact Hf|].
  intros model <-. unfold STAGGCNModel.forward, bind. now rewrite Hf.
Qed.

Lemma forward_without_a_branch_raises_witness :
  exists cell,
    STCell.init example_sd "STCell" 2 2 1 [1] [0; 0; 0] 1 true = Ok cell
    /\ STCell.forward cell (Tensor [2; 2] [1; 2; 3; 4]%R) (mkEdgeIndex cpu [])
                      (mkEdgeIndex cpu []) example_generator
       = (Raise UnboundLocalError, example_generator).
Proof.
  eexists. split; [reflexivity|].
  apply forward_without_a_branch_raises.
  - cbn. lia.
  - intros c Hc. cbn in Hc. intuition (subst; discriminate).
Defined.

(** ** What [STAGGCN.forward] accepts, and how it lays out its tensors *)

(** X3: [forward] returns only on a 4-dimensional input with at least one
    time step and one feature channel.  On an input of fewer dimensions, or
    without a feature channel, it raises [IndexError]; on one of more
    dimensions, [RuntimeError]; in both cases before the object or the
    generator change. *)
Theorem forward_needs_a_4d_input :
  forall (self : STAGGCN.t) (batch : STAGGCN.Batch) (g : Generator),
    (length (shape (STAGGCN.X batch)) < 4 ->
     STAGGCN.forward self batch g = (Raise IndexError, self, g))
    /\ (nth 3 (shape (STAGGCN.X batch)) 0 = 0 ->
        STAGGCN.forward self batch g = (Raise IndexError, self, g))
    /\ (4 < length (shape (STAGGCN.X batch)) ->
        0 < nth 3 (shape (STAGGCN.X batch)) 0 ->
        STAGGCN.forward self batch g = (Raise RuntimeError, self, g))
    /\ (forall out self' g',
           STAGGCN.forward self batch g = (Ok out, self', g') ->
           exists B W N F,
             shape (STAGGCN.X batch) = [B; W; N; F] /\ 1 <= W /\ 1 <= F).
Proof.
  intros self batch g.
  unfold STAGGCN.forward, STAGGCN.input_of, select.
  set (s := shape (STAGGCN.X batch)).
  repeat split.
  - intros Hlen.
    assert (E : nth_error s 3 = None) by (apply nth_error_None; lia).
    now rewrite E.
  - intros Hz. destruct (nth_error s 3) as [n|] eqn:E; [|reflexivity].
    rewrite (nth_error_nth _ _ 0 E) in Hz. subst n. reflexivity.
  - intros Hlen Hpos.
    destruct (nth_error s 3) as [n|] eqn:E.
    + rewrite (nth_error_nth _ _ 0 E) in Hpos.
      replace (0 <? n) with true by (symmetry; now apply Nat.ltb_lt).
      cbn [rbind]. unfold permute. cbn [shape build].
      assert (Hl : length (firstn 3 s ++ skipn 4 s) = length s - 1).
      { rewrite length_app, length_firstn, length_skipn. lia. }
      unfold is_permutation. rewrite Hl. cbn [length].
      replace (3 =? length s - 1) with false by (symmetry; apply Nat.eqb_neq; lia).
      reflexivity.
    + apply nth_error_None in E. lia.
  - intros out self' g' H.
    destruct (nth_error s 3) as [F|] eqn:E; [|discriminate].
    destruct (0 <? F) eqn:EF; [|discriminate].
    apply Nat.ltb_lt in EF. cbn [rbind] in H.
    unfold permute in H. cbn [shape build] in H.
    destruct (is_permutation [0; 2; 1] (length (firstn 3 s ++ skipn 4 s))) eqn:Ep;
      [|discriminate].
    unfold is_permutation in Ep. apply andb_prop in Ep. destruct Ep as [Ep _].
    apply Nat.eqb_eq in Ep. cbn [length] in Ep.
    assert (Hlen : length s = 4).
    { rewrite length_app, length_firstn, length_skipn in Ep.
      assert (3 < length s) by (apply nth_error_Some; congruence). lia. }
    destruct s as [|B [|W [|N [|F' [|? ?]]]]]; cbn [length] in Hlen; try lia.
    cbn [nth_error] in E. inversion E. subst F'.
    exists B, W, N, F. split; [reflexivity|]. split; [|lia].
    cbn [rbind firstn skipn app map nth size shape build nth_error] in H.
    unfold reshape, infer_shape in H. cbn [unknowns filter length known flat_map
                                            app numel fold_right] in H.
    destruct (W * 1 =? 0) eqn:EW; [discriminate|].
    apply Nat.eqb_neq in EW. lia.
Qed.

Lemma forward_needs_a_4d_input_witness :
  exists self out self' g' B W N F,
    STAGGCN.init example_sd true example_config example_data_feature = Ok self
    /\ STAGGCN.forward self example_batch example_generator = (Ok out, self', g')
    /\ shape (STAGGCN.X example_batch) = [B; W; N; F] /\ 1 <= W /\ 1 <= F.
Proof.
  destruct example_model as (self & Hinit & Hs & HB & HW & HN & HP & _).
  destruct (forward_run example_sd true example_config example_data_feature self
                        example_batch 1 2 example_generator Hinit Hs
                        (le_n 1) (le_S 1 1 (le_n 1)))
    as (outputs & self' & g' & So & Ef).
  { rewrite HW, HN. reflexivity. }
  destruct (reshape_known outputs
              [Some (STAGGCN.batch_size self); Some (STAGGCN.output_window self);
               Some (STAGGCN.num_nodes self); Some 1]) as (p & Ep & Sp).
  { reflexivity. }
  { rewrite So, HB, HP, HN. reflexivity. }
  rewrite Ep in Ef.
  destruct (proj2 (proj2 (proj2 (forward_needs_a_4d_input self example_batch
                                                          example_generator)))
                  p self' g' Ef) as (B & W & N & F & HX & HW1 & HF1).
  exists self, p, self', g', B, W, N, F. repeat split; assumption.
Defined.

Lemma row3_lt (b n w B N W : nat) :
  b < B -> n < N -> w < W -> (b * N + n) * W + w < B * N * W.
Proof.
  intros Hb Hn Hw.
  assert (H1 : b * N + n + 1 <= B * N) by nia.
  assert (H2 : (b * N + n + 1) * W <= B * N * W)
    by (apply Nat.mul_le_mono_r; exact H1).
  lia.
Qed.

Lemma index3 (b n w B N W : nat) :
  b < B -> n < N -> w < W ->
  ((b * N + n) * W + w) / (N * (W * 1)) mod B = b
  /\ ((b * N + n) * W + w) / (W * 1) mod N = n
  /\ ((b * N + n) * W + w) / 1 mod W = w
  /\ (b * N + n) * W + w < B * (N * (W * 1)).
Proof.
  intros Hb Hn Hw.
  destruct (div_mod_row (b * N + n) w W Hw) as [Hd Hm].
  destruct (div_mod_row b n N Hn) as [Hd' Hm'].
  rewrite !Nat.mul_1_r, Nat.div_1_r.
  repeat split.
  - rewrite (Nat.mul_comm N W), <- Nat.Div0.div_div, Hd, Hd'.
    now apply Nat.mod_small.
  - now rewrite Hd, Hm'.
  - exact Hm.
  - rewrite Nat.mul_assoc. now apply row3_lt.
Qed.

Lemma permute_021_get (t : tensor) (B W N : nat) :
  shape t = [B; W; N] ->
  exists y,
    permute t [0; 2; 1] = Ok y /\ shape y = [B; N; W]
    /\ forall b n w, b < B -> n < N -> w < W ->
         get y ((b * N + n) * W + w) = get t ((b * W + w) * N + n).
Proof.
  intros Ht. unfold permute. rewrite Ht.
  cbn [length is_permutation Nat.eqb forallb seq existsb andb orb map nth].
  eexists. split; [reflexivity|]. split; [reflexivity|].
  intros b n w Hb Hn Hw.
  destruct (index3 b n w B N W Hb Hn Hw) as (H0 & H1 & H2 & Hlt).
  rewrite get_build by (cbn [numel fold_right]; exact Hlt).
  cbn [unravel numel fold_right map seq index_of Nat.eqb nth ravel].
  rewrite H0, H1, H2. f_equal. ring.
Qed.

(** X4: lines 68-70 arrange channel 0 of the input by sample and node: row
    [b * N + n] of the matrix given to the model is the series over the
    input window of node [n] of sample [b]. *)
Theorem model_input_rows_are_node_series :
  forall (batch : STAGGCN.Batch) (B W N F : nat),
    shape (STAGGCN.X batch) = [B; W; N; F] -> 1 <= W -> 1 <= F ->
    exists x,
      STAGGCN.input_of batch = Ok x /\ shape x = [B * N; W]
      /\ forall b n w, b < B -> n < N -> w < W ->
           get x ((b * N + n) * W + w)
           = get (STAGGCN.X batch) (((b * W + w) * N + n) * F).
Proof.
  intros batch B W N F HX HW HF. unfold STAGGCN.input_of.
  assert (Hsel : exists s, select (STAGGCN.X batch) 3 0 = Ok s
                           /\ shape s = [B; W; N]
                           /\ forall j, j < B * W * N ->
                                get s j = get (STAGGCN.X batch) (j * F)).
  { unfold select. rewrite HX. cbn [nth_error].
    replace (0 <? F) with true by (symmetry; now apply Nat.ltb_lt).
    eexists. split; [reflexivity|]. split; [reflexivity|].
    intros j Hj. cbn [firstn skipn app numel fold_right].
    rewrite get_build by (cbn [numel fold_right]; lia).
    now rewrite Nat.div_1_r, Nat.mod_1_r, Nat.mul_1_r, !Nat.add_0_r. }
  destruct Hsel as (s & Es & Ss & Gs). rewrite Es. cbn [rbind].
  destruct (permute_021_get s B W N Ss) as (p & Ep & Sp & Gp).
  rewrite Ep. cbn [rbind]. unfold size. rewrite Sp. cbn [nth_error rbind].
  unfold reshape, infer_shape. rewrite Sp.
  cbn [unknowns filter length known flat_map app numel fold_right].
  replace (W * 1 =? 0) with false by (symmetry; apply Nat.eqb_neq; lia).
  replace (B * (N * (W * 1))) with (B * N * (W * 1)) by ring.
  rewrite Nat.Div0.mod_mul, Nat.eqb_refl, Nat.div_mul by lia.
  cbn [rbind fill map].
  eexists. split; [reflexivity|]. split; [reflexivity|].
  intros b n w Hb Hn Hw.
  pose proof (row3_lt b n w B N W Hb Hn Hw) as Hlt.
  rewrite get_build by (cbn [numel fold_right]; lia).
  rewrite (Gp b n w Hb Hn Hw). apply Gs. now apply row3_lt.
Qed.

Lemma model_input_rows_are_node_series_witness :
  exists x,
    STAGGCN.input_of example_batch = Ok x /\ shape x = [1 * 2; 2]
    /\ forall b n w, b < 1 -> n < 2 -> w < 2 ->
         get x ((b * 2 + n) * 2 + w)
         = get (STAGGCN.X example_batch) (((b * 2 + w) * 2 + n) * 2).
Proof.
  exact (model_input_rows_are_node_series example_batch 1 2 2 2 eq_refl
           (le_S 1 1 (le_n 1)) (le_S 1 1 (le_n 1))).
Defined.

Lemma reshape_get (t y : tensor) (dims : list (option nat)) :
  reshape t dims = Ok y ->
  forall i, i < numel (shape y) -> get y i = get t i.
Proof.
  unfold reshape. destruct (infer_shape _ dims) as [s|]; [|discriminate].
  cbn [rbind]. intros H i Hi. inversion H; subst y.
  now rewrite get_build.
Qed.

(** A run of [forward] with the matrix given to the model and the matrix the
    model returns. *)
Lemma forward_run_model (sd : state_dict) (training : bool)
      (config : STAGGCN.Config) (data_feature : STAGGCN.DataFeature)
      (self : STAGGCN.t) (batch : STAGGCN.Batch) (B F : nat) (g : Generator) :
  STAGGCN.init sd training config data_feature = Ok self ->
  sensible self -> 1 <= B -> 1 <= F ->
  shape (STAGGCN.X batch)
  = [B; STAGGCN.input_window self; STAGGCN.num_nodes self; F] ->
  exists x outputs self' g',
    STAGGCN.input_of batch = Ok x
    /\ STAGGCNModel.forward (STAGGCN.model self) x
         (to (STAGGCN.edge_index self) (STAGGCN.device_ self))
         (to (STAGGCN.dtw_edge_index self) (STAGGCN.device_ self)) g
       = (Ok outputs, g')
    /\ shape outputs = [B * STAGGCN.num_nodes self; STAGGCN.output_window self]
    /\ STAGGCN.forward self batch g
       = (reshape outputs [Some (STAGGCN.batch_size self);
                           Some (STAGGCN.output_window self);
                           Some (STAGGCN.num_nodes self); Some 1],
          self', g').
Proof.
  intros Hinit (Hflags & HN1 & HW1 & Hgd1 & He & Hde) HB HF HX.
  destruct Hflags as (c0 & c1 & c2 & Hch & H0 & H1 & H2 & Hsum).
  pose proof (STAGGCN_init_model sd training config data_feature self Hinit) as Hm.
  rewrite Hch in Hm.
  destruct (input_of_ok batch B _ _ F HX HF HW1) as (x & Ex & Sx).
  unfold STAGGCN.forward. rewrite Ex.
  cbn [STAGGCN.set_edge_index STAGGCN.set_dtw_edge_index STAGGCN.model
       STAGGCN.edge_index STAGGCN.dtw_edge_index STAGGCN.device_
       STAGGCN.batch_size STAGGCN.output_window STAGGCN.num_nodes].
  assert (Hle : STAGGCN.num_nodes self <= B * STAGGCN.num_nodes self) by nia.
  destruct (STAGGCNModel_forward_ok sd "model" _ _ _ _ _ c0 c1 c2 _ training _ B x
              (to (STAGGCN.edge_index self) (STAGGCN.device_ self))
              (to (STAGGCN.dtw_edge_index self) (STAGGCN.device_ self)) g
              Hm H0 H1 H2 Hsum HN1 HW1 Hgd1 Sx
              (edges_within_mono _ _ _ _ Hle He)
              (edges_within_mono _ _ _ _ Hle Hde))
    as (outputs & g' & Eo & So).
  rewrite Eo. eexists x, outputs, _, g'.
  split; [reflexivity|]. split; [exact Eo|]. split; [exact So | reflexivity].
Qed.

Lemma regroup_index (b p n P N : nat) :
  p < P -> n < N ->
  (b * N + (p * N + n) / P) * P + (p * N + n) mod P = (b * P + p) * N + n
  /\ (p * N + n) / P < N.
Proof.
  intros Hp Hn.
  pose proof (Nat.div_mod_eq (p * N + n) P) as E.
  split; [nia|].
  apply Nat.Div0.div_lt_upper_bound. nia.
Qed.

(** X5: line 78 regroups the model's matrix without transposing it.  The
    model returns one row per node and one column per step of the output
    window; the entry [[b, p, n, 0]] of what [forward] returns is the entry
    of that matrix at flat index [(b * P + p) * N + n], that is, in the
    rows of sample [b], row [(p * N + n) / P] and column [(p * N + n) mod P]. *)
Theorem forward_output_regroups_rows :
  forall (sd : state_dict) (training : bool) (config : STAGGCN.Config)
         (data_feature : STAGGCN.DataFeature) (self : STAGGCN.t)
         (batch : STAGGCN.Batch) (feature_dim : nat) (g : Generator),
    STAGGCN.init sd training config data_feature = Ok self ->
    sensible self -> 1 <= STAGGCN.batch_size self -> 1 <= feature_dim ->
    shape (STAGGCN.X batch)
    = [STAGGCN.batch_size self; STAGGCN.input_window self;
       STAGGCN.num_nodes self; feature_dim] ->
    let B := STAGGCN.batch_size self in
    let P := STAGGCN.output_window self in
    let N := STAGGCN.num_nodes self in
    exists x outputs out self' g',
      STAGGCN.input_of batch = Ok x
      /\ STAGGCNModel.forward (STAGGCN.model self) x
           (to (STAGGCN.edge_index self) (STAGGCN.device_ self))
           (to (STAGGCN.dtw_edge_index self) (STAGGCN.device_ self)) g
         = (Ok outputs, g')
      /\ shape outputs = [B * N; P]
      /\ STAGGCN.forward self batch g = (Ok out, self', g')
      /\ forall b p n, b < B -> p < P -> n < N ->
           (p * N + n) / P < N
           /\ get out ((b * P + p) * N + n)
              = get outputs ((b * N + (p * N + n) / P) * P + (p * N + n) mod P).
Proof.
  intros sd training config data_feature self batch F g Hinit Hs HB HF HX B P N.
  destruct (forward_run_model sd training config data_feature self batch
                              (STAGGCN.batch_size self) F g Hinit Hs HB HF HX)
    as (x & outputs & self' & g' & Ex & Em & So & Ef).
  destruct (reshape_known outputs
              [Some B; Some P; Some N; Some 1]) as (out & Eo & Sout).
  { reflexivity. }
  { rewrite So. subst B P N. cbn [known flat_map app numel fold_right]. ring. }
  exists x, outputs, out, self', g'.
  split; [exact Ex|]. split; [exact Em|]. split; [exact So|].
  split; [subst B P N; rewrite Ef, Eo; reflexivity|].
  intros b p n Hb Hp Hn.
  destruct (regroup_index b p n P N Hp Hn) as [Hidx Hq].
  split; [exact Hq|].
  rewrite Hidx. apply (reshape_get _ _ _ Eo).
  rewrite Sout. unfold fill. cbn [map numel fold_right].
  rewrite Nat.mul_1_r, !Nat.mul_assoc. now apply row3_lt.
Qed.

Lemma forward_output_regroups_rows_witness :
  exists self x outputs out self' g',
    STAGGCN.init example_sd true example_config example_data_feature = Ok self
    /\ STAGGCN.input_of example_batch = Ok x
    /\ shape outputs = [1 * 2; 1]
    /\ STAGGCN.forward self example_batch example_generator = (Ok out, self', g')
    /\ get out 1 = get outputs 1.
Proof.
  destruct example_model as (self & Hinit & Hs & HB & HW & HN & HP & _).
  destruct (forward_output_regroups_rows example_sd true example_config
              example_data_feature self example_batch 2 example_generator
              Hinit Hs) as (x & outputs & out & self' & g' & Ex & _ & So & Ef & Hget).
  { rewrite HB. apply le_n. }
  { apply le_S, le_n. }
  { rewrite HB, HW, HN. reflexivity. }
  rewrite HB, HP, HN in So, Hget.
  destruct (Hget 0 0 1 (le_n 1) (le_n 1) (le_n 2)) as [_ H].
  exists self, x, outputs, out, self', g'. repeat split; assumption.
Defined.

(** ** Construction *)

Lemma heads_divide (n h : nat) :
  h <> 0 -> (n / h * h =? n) = true <-> n mod h = 0.
Proof.
  intros Hh. rewrite Nat.eqb_eq.
  pose proof (Nat.div_mod_eq n h). split; intros; nia.
Qed.

Lemma last_item_nonempty {A : Type} (l : list A) :
  (exists a, last_item l = Ok a) <-> l <> [].
Proof.
  unfold last_item, getitem. split.
  - intros [a H] ->. discriminate.
  - intros Hl. destruct (rev l) as [|a r] eqn:E.
    + apply (f_equal (@rev A)) in E. rewrite rev_involutive in E.
      now destruct Hl.
    + now exists a.
Qed.

Lemma STCell_init_succeeds (sd : state_dict) (name : string)
      (node_num seq_len graph_dim : nat) (tcn_dim choice : list nat)
      (atten_head : nat) (training : bool) :
  (exists cell, STCell.init sd name node_num seq_len graph_dim tcn_dim choice
                            atten_head training = Ok cell)
  <-> constructible node_num tcn_dim atten_head choice.
Proof.
  unfold constructible, STCell.init, getitem.
  destruct choice as [|c0 [|c1 [|c2 rest]]]; cbn [nth_error rbind length nth].
  - split; [intros [? H]; discriminate | intros [H _]; lia].
  - split; [|intros [H _]; lia].
    intros [? H].
    match type of H with rbind ?r _ = _ => destruct r end; discriminate.
  - split; [|intros [H _]; lia].
    intros [? H].
    match type of H with rbind ?r _ = _ => destruct r end; discriminate.
  - destruct (Nat.eqb_spec c0 1) as [E0|E0].
    + unfold MultiheadAttention.init.
      destruct (Nat.eqb_spec atten_head 0) as [Eh|Eh].
      * cbn [rbind]. split; [intros [? H]; discriminate|].
        intros [_ H]. now destruct (H E0).
      * destruct (node_num / atten_head * atten_head =? node_num) eqn:Ed.
        -- cbn [rbind]. apply (heads_divide _ _ Eh) in Ed.
           destruct (last_item tcn_dim) as [d|e] eqn:El.
           ++ cbn [rbind]. split; [|intros _; eexists; reflexivity].
              intros _. split; [lia|]. intros _.
              repeat split; try assumption.
              apply last_item_nonempty. now exists d.
           ++ cbn [rbind]. split; [intros [? H]; discriminate|].
              intros [_ H]. destruct (H E0) as (_ & _ & Ht).
              apply last_item_nonempty in Ht. destruct Ht as [d Hd].
              congruence.
        -- cbn [rbind]. split; [intros [? H]; discriminate|].
           intros [_ H]. destruct (H E0) as (_ & Hm & _).
           apply (heads_divide _ _ Eh) in Hm. congruence.
    + cbn [rbind]. split; [|intros _; eexists; reflexivity].
      intros _. split; [lia|]. intros E. contradiction.
Qed.

(** X6: for sizes that are all positive and a model kept on the CPU, the
    model can be built exactly when [config] holds the five keys
    [graph_dim], [tcn_dim], [atten_head], [choice] and [batch_size], [choice]
    has three entries at least and, when [choice[0]] is 1, [atten_head] is not
    0 and divides [num_nodes] and [tcn_dim] is not empty.  A missing key
    raises [KeyError] whatever the other values are.  (The constructors of
    torch refuse some sizes 0, which the constructors here do not model.) *)
Theorem construction_succeeds_iff :
  forall (sd : state_dict) (training : bool) (config : STAGGCN.Config)
         (data_feature : STAGGCN.DataFeature),
    positive_sizes config data_feature ->
    STAGGCN.get_default (STAGGCN.cfg_device config) cpu = cpu ->
    ((exists self, STAGGCN.init sd training config data_feature = Ok self)
     <-> exists graph_dim tcn_dim atten_head choice batch_size,
           STAGGCN.cfg_graph_dim config = Some graph_dim
           /\ STAGGCN.cfg_tcn_dim config = Some tcn_dim
           /\ STAGGCN.cfg_atten_head config = Some atten_head
           /\ STAGGCN.cfg_choice config = Some choice
           /\ STAGGCN.cfg_batch_size config = Some batch_size
           /\ constructible
                (STAGGCN.get_default (STAGGCN.df_num_nodes data_feature) 1)
                tcn_dim atten_head choice)
    /\ (STAGGCN.cfg_graph_dim config = None
        \/ STAGGCN.cfg_tcn_dim config = None
        \/ STAGGCN.cfg_atten_head config = None
        \/ STAGGCN.cfg_choice config = None
        \/ STAGGCN.cfg_batch_size config = None ->
        STAGGCN.init sd training config data_feature = Raise KeyError).
Proof.
  intros sd training config data_feature _ _. unfold STAGGCN.init.
  destruct (STAGGCN.cfg_graph_dim config) as [gd|];
    [|split; [split; [intros [? H]; discriminate
                     | intros (? & ? & ? & ? & ? & H & _); discriminate]
             | reflexivity]].
  destruct (STAGGCN.cfg_tcn_dim config) as [td|];
    [|split; [split; [intros [? H]; discriminate
                     | intros (? & ? & ? & ? & ? & _ & H & _); discriminate]
             | reflexivity]].
  destruct (STAGGCN.cfg_atten_head config) as [h|];
    [|split; [split; [intros [? H]; discriminate
                     | intros (? & ? & ? & ? & ? & _ & _ & H & _); discriminate]
             | reflexivity]].
  destruct (STAGGCN.cfg_choice config) as [ch|];
    [|split; [split; [intros [? H]; discriminate
                     | intros (? & ? & ? & ? & ? & _ & _ & _ & H & _); discriminate]
             | reflexivity]].
  destruct (STAGGCN.cfg_batch_size config) as [bs|];
    [|split; [split; [intros [? H]; discriminate
                     | intros (? & ? & ? & ? & ? & _ & _ & _ & _ & H & _);
                       discriminate]
             | reflexivity]].
  cbn [STAGGCN.item rbind].
  split; [|intros [H|[H|[H|[H|H]]]]; discriminate].
  unfold STAGGCNModel.init.
  pose proof (STCell_init_succeeds sd (sub "model" "STCell")
                (STAGGCN.get_default (STAGGCN.df_num_nodes data_feature) 1)
                (STAGGCN.get_default (STAGGCN.cfg_input_window config) 1)
                gd td ch h training) as Hcell.
  destruct (STCell.init _ _ _ _ _ _ _ _ _) as [cell|e]; cbn [rbind].
  - split.
    + intros _. exists gd, td, h, ch, bs.
      do 5 (split; [reflexivity|]).
      apply Hcell. now exists cell.
    + intros _. eexists. reflexivity.
  - split; [intros [? H]; discriminate|].
    intros (gd' & td' & h' & ch' & bs' & E1 & E2 & E3 & E4 & E5 & Hc).
    inversion E2; inversion E3; inversion E4; subst.
    apply Hcell in Hc. destruct Hc as [? Hc]. discriminate.
Qed.

Lemma construction_succeeds_iff_witness :
  exists self,
    STAGGCN.init example_sd true example_config example_data_feature = Ok self.
Proof.
  assert (Hp : positive_sizes example_config example_data_feature).
  { unfold positive_sizes.
    cbn [example_config example_data_feature STAGGCN.get_default
         STAGGCN.df_num_nodes STAGGCN.cfg_input_window
         STAGGCN.cfg_output_window STAGGCN.cfg_graph_dim STAGGCN.cfg_tcn_dim].
    split; [apply le_S, le_n|]. split; [apply le_S, le_n|]. split; [apply le_n|].
    split.
    - intros gd H. inversion H. apply le_n.
    - intros td H. inversion H. constructor; [apply le_n | constructor]. }
  apply (proj1 (construction_succeeds_iff example_sd true example_config
                  example_data_feature Hp eq_refl)).
  exists 1, [1], 1, [1; 1; 1], 1.
  do 5 (split; [reflexivity|]).
  split; [apply le_n|].
  intros _. split; [discriminate|]. split; [reflexivity | discriminate].
Defined.

(** ** A kernel of size 1 *)

Lemma conv1d_result_rank (x w b y : tensor) (s p d : nat) :
  conv1d x w b s p d = Ok y -> exists n co l, shape y = [n; co; l].
Proof.
  unfold conv1d.
  destruct (shape x) as [|n [|c [|l [|? ?]]]]; try discriminate.
  destruct (shape w) as [|co [|ci [|k [|? ?]]]]; try discriminate.
  match goal with |- (if ?c then _ else _) = _ -> _ => destruct c end;
    [|discriminate].
  intros H. inversion H. now eexists _, _, _.
Qed.

Lemma conv1d_of_nothing (x w b : tensor) (n c s d : nat) :
  shape x = [n; c; 0] -> conv1d x w b s 0 d = Raise RuntimeError.
Proof.
  intros Hx. unfold conv1d. rewrite Hx.
  destruct (shape w) as [|co [|ci [|k [|? ?]]]]; try reflexivity.
  replace (d * (k - 1) + 1 <=? 0 + 2 * 0) with false
    by (symmetry; apply Nat.leb_gt; rewrite Nat.add_1_r; apply Nat.lt_0_succ).
  now rewrite andb_false_r.
Qed.

Lemma dropout_keeps_shape (x y : tensor) (p : R) (training : bool)
      (g g' : Generator) :
  dropout x p training g = (Ok y, g') -> shape y = shape x.
Proof.
  unfold dropout.
  destruct (Rle_dec 0 p) as [Hp0|]; [|discriminate].
  destruct (Rle_dec p 1) as [Hp1|]; [|discriminate].
  destruct training; intros H; inversion H; reflexivity.
Qed.

Lemma block_of_kernel_1_raises (sd : state_dict) (name : string)
      (n_inputs n_outputs stride dilation padding : nat) (p : R)
      (training : bool) (x : tensor) (g : Generator) :
  padding = 0 ->
  exists e g',
    TemporalBlock.forward
      (TemporalBlock.init sd name n_inputs n_outputs 1 stride dilation padding
                          p training)
      x g
    = (Raise e, g').
Proof.
  intros ->. unfold TemporalBlock.forward, TemporalBlock.net, TemporalBlock.init.
  cbn [TemporalBlock.conv1 TemporalBlock.chomp1 TemporalBlock.dropout1
       TemporalBlock.conv2 TemporalBlock.chomp2 TemporalBlock.dropout2
       TemporalBlock.downsample].
  set (conv1 := Conv1d.weight_norm sd (sub name "conv1") _).
  set (conv2 := Conv1d.weight_norm sd (sub name "conv2") _).
  unfold bind at 1. unfold bind at 1. unfold lift at 1.
  destruct (Conv1d.forward conv1 x) as [o1|e] eqn:E1;
    [|now eexists _, _].
  destruct (conv1d_result_rank _ _ _ _ _ _ _ E1) as (n & co & l & S1).
  destruct (chomp_ok o1 n co l 0 S1) as (o2 & E2 & S2 & _).
  cbn [Nat.eqb] in S2.
  unfold bind at 1. unfold lift at 1.
  unfold Chomp1d.forward, Chomp1d.chomp_size. rewrite E2.
  unfold bind at 1.
  destruct (Dropout.forward _ (relu o2) g) as [[o3|e] g3] eqn:E3;
    [|now eexists _, _].
  apply dropout_keeps_shape in E3. cbn [relu pointwise build shape] in E3.
  rewrite S2 in E3.
  unfold bind at 1. unfold lift at 1.
  assert (E4 : Conv1d.forward conv2 o3 = Raise RuntimeError).
  { unfold Conv1d.forward. subst conv2. cbn [Conv1d.padding Conv1d.weight_norm
      Conv1d.init]. apply (conv1d_of_nothing _ _ _ n co). exact E3. }
  rewrite E4. now eexists _, _.
Qed.

(** X7: a [TemporalConvNet] built with [kernel_size = 1] and at least one
    level never returns a tensor.  The padding is then 0, [Chomp1d(0)] cuts
    the whole time axis ([x[:, :, :-0]] is empty), and the second convolution
    of the first block is given nothing to convolve. *)
Theorem tcn_of_kernel_1_never_returns :
  forall (sd : state_dict) (name : string) (num_inputs : nat)
         (num_channels : list nat) (dropout : R) (training : bool)
         (x : tensor) (g : Generator),
    num_channels <> [] ->
    exists e g',
      TemporalConvNet.forward
        (TemporalConvNet.init sd name num_inputs num_channels 1 dropout training)
        x g
      = (Raise e, g').
Proof.
  intros sd name num_inputs num_channels p training x g Hne.
  destruct num_channels as [|c rest]; [contradiction|].
  unfold TemporalConvNet.forward, TemporalConvNet.init.
  cbn [TemporalConvNet.network length seq map TemporalConvNet.sequential].
  match goal with
  | |- context [TemporalBlock.forward
                  (TemporalBlock.init ?a ?b ?ci ?co 1 ?s ?d ?pad ?q ?t) x] =>
    destruct (block_of_kernel_1_raises a b ci co s d pad q t x g eq_refl)
      as (e & g' & E)
  end.
  exists e, g'. unfold bind. now rewrite E.
Qed.

Lemma tcn_of_kernel_1_never_returns_witness :
  exists e g',
    TemporalConvNet.forward (TemporalConvNet.init example_sd "tcn" 1 [1] 1 0.2 true)
                            (Tensor [1; 1; 2] [1; 2]%R) example_generator
    = (Raise e, g').
Proof.
  apply (tcn_of_kernel_1_never_returns example_sd "tcn" 1 [1] 0.2 true).
  discriminate.
Defined.

(** ** The random numbers drawn *)

Lemma advance_0 (g : Generator) : advance g 0 = g.
Proof. destruct g as [s c]. unfold advance. cbn. f_equal. lia. Qed.

Lemma advance_advance (g : Generator) (a b : nat) :
  advance (advance g a) b = advance g (a + b).
Proof. unfold advance. cbn. f_equal. lia. Qed.

Lemma draws_bind (f k : tensor -> M tensor) (s1 s2 s3 : list nat) (a b : nat) :
  draws_op f s1 s2 a -> draws_op k s2 s3 b ->
  draws_op (fun x => bind (f x) k) s1 s3 (a + b).
Proof.
  intros Hf Hk x g Hx.
  destruct (Hf x g Hx) as (y & Ey & Sy).
  destruct (Hk y (advance g a) Sy) as (z & Ez & Sz).
  exists z. unfold bind. rewrite Ey, Ez, advance_advance. now split.
Qed.

Lemma draws_ext (f h : tensor -> M tensor) (s1 s2 : list nat) (a b : nat) :
  (forall x g, f x g = h x g) -> a = b -> draws_op f s1 s2 a -> draws_op h s1 s2 b.
Proof.
  intros E <- Hf x g Hx. destruct (Hf x g Hx) as (y & Ey & Sy).
  exists y. rewrite <- E. now split.
Qed.

(** An operation that does not touch the generator draws nothing. *)
Lemma draws_lift (f : tensor -> result tensor) (s1 s2 : list nat) :
  causal_op (fun x => lift (f x)) s1 s2 ->
  draws_op (fun x => lift (f x)) s1 s2 0.
Proof.
  intros H x g Hx. destruct (H x g Hx) as (y & g' & E & S & _).
  exists y. unfold lift in *. inversion E. now rewrite advance_0.
Qed.

Lemma draws_relu_dropout (d : Dropout.t) (s : list nat) :
  (0 <= Dropout.p d <= 1)%R ->
  draws_op (fun x => Dropout.forward d (relu x)) s s
           (if Dropout.training d then numel s else 0).
Proof.
  intros Hp x g Hx. unfold Dropout.forward.
  destruct (dropout_ok (relu x) _ (Dropout.training d) g Hp) as (y & Ey & Sy).
  exists y. rewrite Ey. cbn [relu pointwise build shape] in *. rewrite Hx in *.
  split; [|exact Sy]. destruct (Dropout.training d);
    [reflexivity | now rewrite advance_0].
Qed.

Lemma draws_conv_chomp_dropout (sd : state_dict) (name : string)
      (ci co kernel_size dilation : nat) (p : R) (training : bool) (n l : nat)
      (k : tensor -> M tensor) (s3 : list nat) (b : nat) :
  2 <= kernel_size -> 1 <= dilation -> (0 <= p <= 1)%R ->
  draws_op k [n; co; l] s3 b ->
  draws_op
    (fun x =>
       out <~ Conv1d.forward
                (Conv1d.weight_norm sd name
                   (Conv1d.init sd name ci co kernel_size 1
                                ((kernel_size - 1) * dilation) dilation)) x ;;
       out <~ Chomp1d.forward (Chomp1d.mk ((kernel_size - 1) * dilation)) out ;;
       out <- Dropout.forward (Dropout.mk p training) (relu out) ;;
       k out)
    [n; ci; l] s3
    ((if training then numel [n; co; l] else 0) + b).
Proof.
  intros Hk Hd Hp Hcont.
  set (pad := (kernel_size - 1) * dilation).
  assert (Hpad : 1 <= pad) by (unfold pad; nia).
  assert (Hlen : l + 2 * pad - dilation * (kernel_size - 1) = l + pad)
    by (unfold pad; nia).
  assert (Hchomp : (if pad =? 0 then 0 else l + pad - pad) = l).
  { destruct (pad =? 0) eqn:E; [apply Nat.eqb_eq in E; lia | lia]. }
  apply (draws_bind
           (fun x => lift (Conv1d.forward
                             (Conv1d.weight_norm sd name
                                (Conv1d.init sd name ci co kernel_size 1 pad dilation))
                             x))
           _ [n; ci; l] [n; co; l + pad] s3 0).
  - apply draws_lift. rewrite <- Hlen.
    apply (causal_conv (Conv1d.weight_norm sd name
                          (Conv1d.init sd name ci co kernel_size 1 pad dilation))
                       n ci co kernel_size l);
      cbn [Conv1d.padding Conv1d.dilation Conv1d.weight_norm Conv1d.stride
           Conv1d.init];
      try reflexivity; try lia.
  - apply (draws_bind
             (fun out => lift (Chomp1d.forward (Chomp1d.mk pad) out))
             _ [n; co; l + pad] [n; co; l] s3 0).
    + apply draws_lift. rewrite <- Hchomp at 2.
      apply (causal_chomp (Chomp1d.mk pad)).
    + apply (draws_bind
               (fun out => Dropout.forward (Dropout.mk p training) (relu out))
               k [n; co; l] [n; co; l] s3).
      * apply (draws_relu_dropout (Dropout.mk p training)). exact Hp.
      * exact Hcont.
Qed.

Lemma draws_residual (net : tensor -> M tensor) (res : tensor -> result tensor)
      (s1 : list nat) (n c l a : nat) :
  draws_op net s1 [n; c; l] a ->
  draws_op (fun x => lift (res x)) s1 [n; c; l] 0 ->
  draws_op (fun x => out <- net x ;; r <~ res x ;; s <~ add out r ;; ret (relu s))
           s1 [n; c; l] a.
Proof.
  intros Hnet Hres x g Hx.
  destruct (Hnet x g Hx) as (out & Eout & Sout).
  destruct (Hres x g Hx) as (r & Er & Sr).
  unfold lift in Er. assert (Er' : res x = Ok r) by congruence. clear Er.
  destruct (binary_same_shape Rplus out r _ Sout Sr) as (s & Es & Ss & _).
  exists (relu s). cbv beta. unfold bind, lift, ret. rewrite Eout, Er'.
  unfold add. rewrite Es. split; [reflexivity | exact Ss].
Qed.

(** One [TemporalBlock] as [TemporalConvNet] builds it. *)
Lemma draws_block (sd : state_dict) (name : string)
      (n_inputs n_outputs kernel_size dilation : nat) (p : R) (training : bool)
      (n l : nat) :
  2 <= kernel_size -> 1 <= dilation -> (0 <= p <= 1)%R -> 1 <= l ->
  draws_op
    (TemporalBlock.forward
       (TemporalBlock.init sd name n_inputs n_outputs kernel_size 1 dilation
                           ((kernel_size - 1) * dilation) p training))
    [n; n_inputs; l] [n; n_outputs; l]
    (if training then 2 * (n * n_outputs * l) else 0).
Proof.
  intros Hk Hd Hp Hl.
  unfold TemporalBlock.forward.
  apply draws_residual.
  - unfold TemporalBlock.net, TemporalBlock.init.
    cbn [TemporalBlock.conv1 TemporalBlock.conv2 TemporalBlock.chomp1
         TemporalBlock.chomp2 TemporalBlock.dropout1 TemporalBlock.dropout2].
    apply (draws_ext
             (fun x =>
                out <~ Conv1d.forward
                         (Conv1d.weight_norm sd (sub name "conv1")
                            (Conv1d.init sd (sub name "conv1") n_inputs n_outputs
                                         kernel_size 1
                                         ((kernel_size - 1) * dilation) dilation)) x ;;
                out <~ Chomp1d.forward
                         (Chomp1d.mk ((kernel_size - 1) * dilation)) out ;;
                out <- Dropout.forward (Dropout.mk p training) (relu out) ;;
                out <~ Conv1d.forward
                         (Conv1d.weight_norm sd (sub name "conv2")
                            (Conv1d.init sd (sub name "conv2") n_outputs n_outputs
                                         kernel_size 1
                                         ((kernel_size - 1) * dilation) dilation)) out ;;
                out <~ Chomp1d.forward
                         (Chomp1d.mk ((kernel_size - 1) * dilation)) out ;;
                out <- Dropout.forward (Dropout.mk p training) (relu out) ;;
                ret out)
             _ _ _
             ((if training then numel [n; n_outputs; l] else 0)
              + ((if training then numel [n; n_outputs; l] else 0) + 0))).
    + intros x g. unfold bind, lift, ret.
      destruct (Conv1d.forward _ x) as [o|e]; [|reflexivity].
      destruct (Chomp1d.forward _ o) as [o'|e]; [|reflexivity].
      destruct (Dropout.forward _ (relu o') g) as [[o''|e] g']; [|reflexivity].
      destruct (Conv1d.forward _ o'') as [o3|e]; [|reflexivity].
      destruct (Chomp1d.forward _ o3) as [o4|e]; [|reflexivity].
      destruct (Dropout.forward _ (relu o4) g') as [[o5|e] g5]; reflexivity.
    + destruct training; cbn [numel fold_right]; lia.
    + apply draws_conv_chomp_dropout; try assumption.
      apply draws_conv_chomp_dropout; try assumption.
      intros x g Hx. exists x. unfold ret. now rewrite advance_0.
  - apply draws_lift.
    unfold TemporalBlock.init. cbn [TemporalBlock.downsample].
    destruct (n_inputs =? n_outputs) eqn:E.
    + apply Nat.eqb_eq in E. subst n_outputs. apply causal_id.
    + assert (Hs : l + 2 * 0 - 1 * (1 - 1) = l) by lia.
      rewrite <- Hs at 2.
      apply (causal_conv (Conv1d.init sd (sub name "downsample")
                                      n_inputs n_outputs 1 1 0 1)
                         n n_inputs n_outputs 1 l);
        cbn [Conv1d.padding Conv1d.dilation Conv1d.stride Conv1d.init];
        try reflexivity; try lia.
Qed.

Lemma draws_sequential (chans cnt : nat -> nat) (n l : nat)
      (blocks : list TemporalBlock.t) :
  forall start,
    (forall i b, nth_error blocks i = Some b ->
                 draws_op (TemporalBlock.forward b)
                          [n; chans (start + i); l] [n; chans (start + S i); l]
                          (cnt (start + i))) ->
    draws_op (TemporalConvNet.sequential blocks)
             [n; chans start; l] [n; chans (start + length blocks); l]
             (list_sum (map cnt (seq start (length blocks)))).
Proof.
  induction blocks as [|b rest IH]; intros start Hblocks.
  - cbn [TemporalConvNet.sequential length seq map list_sum fold_right].
    rewrite Nat.add_0_r. intros x g Hx. exists x. unfold ret.
    now rewrite advance_0.
  - cbn [TemporalConvNet.sequential length seq map list_sum fold_right].
    apply (draws_bind (TemporalBlock.forward b) (TemporalConvNet.sequential rest)
                      _ [n; chans (start + 1); l]).
    + specialize (Hblocks 0 b eq_refl). now rewrite Nat.add_0_r in Hblocks.
    + replace (start + S (length rest)) with (S start + length rest) by lia.
      replace (start + 1) with (S start) by lia.
      apply IH. intros i b' Hi.
      replace (S start + i) with (start + S i) by lia.
      replace (S start + S i) with (start + S (S i)) by lia.
      now apply Hblocks.
Qed.

Lemma map_nth_seq (f : nat -> nat) (l : list nat) :
  map (fun i => f (nth i l 0)) (seq 0 (length l)) = map f l.
Proof.
  apply (nth_ext _ _ (f 0) (f 0)).
  - now rewrite !length_map, length_seq.
  - intros i Hi. rewrite length_map, length_seq in Hi.
    rewrite (map_nth f l 0 i).
    rewrite (nth_indep _ (f 0) (f (nth (length l) l 0)))
      by (now rewrite length_map, length_seq).
    change (f (nth (length l) l 0))
      with ((fun i => f (nth i l 0)) (length l)).
    rewrite map_nth. now rewrite seq_nth by exact Hi.
Qed.

Lemma tcn_draws (sd : state_dict) (name : string) (num_inputs : nat)
      (num_channels : list nat) (kernel_size : nat) (p : R) (training : bool)
      (n l : nat) :
  2 <= kernel_size -> (0 <= p <= 1)%R -> 1 <= l ->
  draws_op (TemporalConvNet.forward
              (TemporalConvNet.init sd name num_inputs num_channels kernel_size
                                    p training))
           [n; num_inputs; l]
           [n; channels_before num_inputs num_channels (length num_channels); l]
           (tcn_samples training n l num_channels).
Proof.
  intros Hk Hp Hl. unfold TemporalConvNet.forward.
  set (net := TemporalConvNet.init sd name num_inputs num_channels kernel_size
                                   p training).
  assert (Hlen : length (TemporalConvNet.network net) = length num_channels).
  { unfold net, TemporalConvNet.init. cbn [TemporalConvNet.network].
    now rewrite length_map, length_seq. }
  pose proof (draws_sequential
                (channels_before num_inputs num_channels)
                (fun i => if training then 2 * (n * nth i num_channels 0 * l) else 0)
                n l (TemporalConvNet.network net) 0) as H.
  rewrite Hlen in H.
  assert (Hsum : list_sum
                   (map (fun i => if training
                                  then 2 * (n * nth i num_channels 0 * l) else 0)
                        (seq 0 (length num_channels)))
                 = tcn_samples training n l num_channels).
  { unfold tcn_samples. destruct training.
    - now rewrite (map_nth_seq (fun c => 2 * (n * c * l))).
    - clear. induction (seq 0 (length num_channels)) as [|a s IH];
        [reflexivity | exact IH]. }
  rewrite Hsum in H. apply H.
  intros i b Hb. cbn [Nat.add].
  replace (channels_before num_inputs num_channels (S i))
    with (nth i num_channels 0)
    by (unfold channels_before; cbn [Nat.eqb]; now rewrite Nat.sub_succ, Nat.sub_0_r).
  unfold net, TemporalConvNet.init in Hb. cbn [TemporalConvNet.network] in Hb.
  apply nth_error_map_seq in Hb. destruct Hb as [_ ->].
  apply draws_block; try assumption. apply pow2_pos.
Qed.

(** One gated layer of a graph branch draws one number for every entry of
    its input. *)
Lemma gated_layer_draws (sd : state_dict) (nm_g nm_l : string) (D gd h : nat)
      (A inp prev : tensor) (e : EdgeIndex) (act : tensor -> tensor)
      (g : Generator) (B N : nat) :
  shape A = [N; N] -> shape inp = [B * N; D] -> shape prev = [B * N; gd] ->
  edges_within (B * N) e -> 1 <= N -> 1 <= D -> 1 <= gd ->
  (forall t, shape (act t) = shape t) ->
  exists out,
    shape out = [B * N; gd]
    /\ forall (T : Type) (K : tensor -> M T),
         (gout <~ GATConv.forward (GATConv.init sd nm_g D gd h false) inp e ;;
          adp_input <~ reshape inp [None; Some N; Some D] ;;
          d <- dropout adp_input 0.1 true ;;
          m <~ matmul A d ;;
          adp <~ Linear.forward (Linear.init sd nm_l D gd) m ;;
          adp <~ reshape adp [None; Some gd] ;;
          l <~ mul (act gout) (sigmoid adp) ;;
          r <~ mul prev (one_minus (sigmoid adp)) ;;
          out <~ add l r ;;
          K out) g
         = K out (advance g (B * N * D)).
Proof.
  intros HA Hinp Hprev He HN HD Hgd Hact.
  destruct (GATConv_forward_ok sd nm_g D gd h inp e (B * N) Hinp He)
    as (gout & Eg & Sg).
  destruct (reshape_infer inp [None; Some N; Some D] B) as (ai & Ea & Sa).
  1-3: rewrite ?Hinp; shape_arith.
  cbn [fill map] in Sa.
  destruct (F_dropout_ok ai g) as (d & Ed & Sd). rewrite Sa in Sd.
  replace (numel (shape ai)) with (B * N * D) in Ed
    by (rewrite Sa; cbn [numel fold_right]; ring).
  destruct (matmul_batch_ok A d N N D B HA Sd) as (m & Em & Sm).
  destruct (Linear_forward_ok sd nm_l D gd m [B; N] Sm) as (adp & El & Sl).
  cbn [app] in Sl.
  destruct (reshape_infer adp [None; Some gd] (B * N)) as (adp' & Er & Sr).
  1-3: rewrite ?Sl; shape_arith.
  cbn [fill map] in Sr.
  destruct (binary_same_shape Rmult (act gout) (sigmoid adp') [B * N; gd])
    as (l & Eml & Sml & _); [now rewrite Hact | exact Sr |].
  destruct (binary_same_shape Rmult prev (one_minus (sigmoid adp')) [B * N; gd])
    as (r & Emr & Smr & _); [exact Hprev | exact Sr |].
  destruct (binary_same_shape Rplus l r [B * N; gd] Sml Smr) as (out & Eo & So & _).
  exists out. split; [exact So|].
  intros T K.
  rewrite (bind_lift_ok _ _ _ _ Eg). cbv beta.
  rewrite (bind_lift_ok _ _ _ _ Ea). cbv beta.
  rewrite (bind_ok _ _ _ _ _ Ed). cbv beta.
  rewrite (bind_lift_ok _ _ _ _ Em). cbv beta.
  rewrite (bind_lift_ok _ _ _ _ El). cbv beta.
  rewrite (bind_lift_ok _ _ _ _ Er). cbv beta.
  unfold mul, add.
  rewrite (bind_lift_ok _ _ _ _ Eml). cbv beta.
  rewrite (bind_lift_ok _ _ _ _ Emr). cbv beta.
  rewrite (bind_lift_ok _ _ _ _ Eo). reflexivity.
Qed.

Lemma graph_samples_eq (g : Generator) (B N W gd : nat) :
  advance (advance (advance (advance g (B * N * W)) (B * N * gd)) (B * N * gd))
          (B * N * gd)
  = advance g (graph_samples B N W gd).
Proof.
  rewrite !advance_advance. unfold graph_samples. f_equal. ring.
Qed.

(** The steps of a graph branch once its attributes are unfolded, with the
    generator: the first layer one operation at a time, the other three by
    [gated_layer_draws]. *)
Ltac graph_branch_draws sd n1 n2 n3 n4 n5 n6 n7 n8 n9 n10 n11 h4 N W gd B x edge_index g :=
  let A := fresh "A" in
  let EA := fresh "EA" in
  let SA := fresh "SA" in
  destruct (learned_matrix_row_stochastic (parameter sd n6 [N; 12])
              (parameter sd n7 [12; N]) N 12 eq_refl eq_refl)
    as (A & EA & SA & _);
  rewrite (bind_lift_ok _ _ _ _ EA); cbv beta;
  match goal with
  | Hx : shape x = [B * N; W], He : edges_within (B * N) edge_index,
    HN1 : 1 <= N, Hgd1 : 1 <= gd |- _ =>
    pure_step (GATConv_forward_ok sd n2 W gd 3 x edge_index (B * N) Hx He);
    pure_step (reshape_infer x [None; Some N; Some W] B);
    [rewrite ?Hx; shape_arith .. |];
    match goal with
    | S0 : shape ?t0 = [B; N; W] |- _ =>
      let d := fresh "d" in
      let Ed := fresh "Ed" in
      let Sd := fresh "Sd" in
      destruct (F_dropout_ok t0 g) as (d & Ed & Sd); rewrite S0 in Sd;
      replace (numel (shape t0)) with (B * N * W) in Ed
        by (rewrite S0; cbn [numel fold_right]; ring);
      rewrite (bind_ok _ _ _ _ _ Ed); cbv beta;
      pure_step (matmul_batch_ok A d N N W B SA Sd);
      match goal with
      | S1 : shape ?t1 = [B; N; W] |- context [Linear.forward _ ?t1] =>
        pure_step (Linear_forward_ok sd n8 W gd t1 [B; N] S1)
      end;
      match goal with
      | S2 : shape ?t2 = [B; N; gd] |- _ =>
        pure_step (reshape_infer t2 [None; Some gd] (B * N));
        [rewrite ?S2; shape_arith .. |]
      end;
      pure_step (Linear_forward_ok sd n1 W gd x [B * N] Hx);
      unfold mul at 1 2; unfold add at 1;
      match goal with
      | S : shape ?t = [B * N; gd], S3 : shape ?t3 = [B * N; gd],
        S4 : shape ?t4 = [B * N; gd]
        |- context [binary Rmult (tanh ?t) (sigmoid ?t3)] =>
        match goal with
        | |- context [binary Rmult t4 (one_minus (sigmoid t3))] =>
          pure_step (binary_same_shape Rmult (tanh t) (sigmoid t3) [B * N; gd] S S3);
          pure_step (binary_same_shape Rmult t4 (one_minus (sigmoid t3))
                                       [B * N; gd] S4 S3)
        end
      end;
      match goal with
      | S5 : shape ?t5 = [B * N; gd] /\ _, S6 : shape ?t6 = [B * N; gd] /\ _
        |- context [binary Rplus ?t5 ?t6] =>
        pure_step (binary_same_shape Rplus t5 t6 [B * N; gd] (proj1 S5) (proj1 S6))
      end;
      match goal with
      | S7 : shape ?t7 = [B * N; gd] /\ _
        |- context [GATConv.forward _ (tanh ?t7) edge_index] =>
        let o2 := fresh "o" in
        let So2 := fresh "So" in
        let Eo2 := fresh "Eo" in
        destruct (gated_layer_draws sd n3 n9 gd gd 3 A (tanh t7) t7 edge_index
                    leaky_relu (advance g (B * N * W)) B N SA
                    (proj1 S7) (proj1 S7) He HN1 Hgd1 Hgd1 (fun _ => eq_refl))
          as (o2 & So2 & Eo2);
        rewrite Eo2; clear Eo2;
        let o3 := fresh "o" in
        let So3 := fresh "So" in
        let Eo3 := fresh "Eo" in
        destruct (gated_layer_draws sd n4 n10 gd gd 3 A (relu o2) o2 edge_index relu
                    (advance (advance g (B * N * W)) (B * N * gd)) B N SA So2 So2
                    He HN1 Hgd1 Hgd1 (fun _ => eq_refl))
          as (o3 & So3 & Eo3);
        rewrite Eo3; clear Eo3;
        let o4 := fresh "o" in
        let So4 := fresh "So" in
        let Eo4 := fresh "Eo" in
        destruct (gated_layer_draws sd n5 n11 gd gd h4 A (relu o3) o3 edge_index relu
                    (advance (advance (advance g (B * N * W)) (B * N * gd))
                             (B * N * gd))
                    B N SA So3 So3 He HN1 Hgd1 Hgd1 (fun _ => eq_refl))
          as (o4 & So4 & Eo4);
        rewrite Eo4; clear Eo4;
        let y := fresh "y" in
        let Ey := fresh "Ey" in
        let Sy := fresh "Sy" in
        destruct (reshape_infer o4 [None; Some N; Some gd] B) as (y & Ey & Sy);
        [rewrite ?So4; shape_arith .. |];
        exists y; unfold lift; rewrite Ey, graph_samples_eq;
        split; [reflexivity | exact Sy]
      end
    end
  end.

Lemma spatial_draws (cell : STCell.t) (sd : state_dict)
      (n1 n2 n3 n4 n5 n6 n7 n8 n9 n10 n11 : string) (N W gd B : nat)
      (x : tensor) (edge_index : EdgeIndex) (g : Generator) :
  STCell.sp_attrs cell
  = Some (STCell.mk_sp
            (Linear.init sd n1 W gd)
            (GATConv.init sd n2 W gd 3 false)
            (GATConv.init sd n3 gd gd 3 false)
            (GATConv.init sd n4 gd gd 3 false)
            (GATConv.init sd n5 gd gd 1 false)
            (parameter sd n6 [N; 12])
            (parameter sd n7 [12; N])
            (Linear.init sd n8 W gd)
            (Linear.init sd n9 gd gd)
            (Linear.init sd n10 gd gd)
            (Linear.init sd n11 gd gd)) ->
  STCell.node_num cell = N -> STCell.seq_len cell = W ->
  STCell.graph_dim cell = gd ->
  1 <= N -> 1 <= W -> 1 <= gd ->
  shape x = [B * N; W] -> edges_within (B * N) edge_index ->
  exists y, STCell.spatial cell x edge_index g
            = (Ok y, advance g (graph_samples B N W gd))
            /\ shape y = [B; N; gd].
Proof.
  intros Ha HN HW Hgd HN1 HW1 Hgd1 Hx He.
  unfold STCell.spatial. rewrite Ha, HN, HW, Hgd. cbn [attr].
  rewrite (bind_lift_ok _ _ _ _ eq_refl). cbv beta.
  cbn [STCell.sp_origin STCell.sp_gconv1 STCell.sp_gconv2 STCell.sp_gconv3
       STCell.sp_gconv4 STCell.sp_source_embed STCell.sp_target_embed
       STCell.sp_linear_1 STCell.sp_linear_2 STCell.sp_linear_3
       STCell.sp_linear_4].
  graph_branch_draws sd n1 n2 n3 n4 n5 n6 n7 n8 n9 n10 n11 1 N W gd B x edge_index g.
Qed.

Lemma semantic_draws (cell : STCell.t) (sd : state_dict)
      (n1 n2 n3 n4 n5 n6 n7 n8 n9 n10 n11 : string) (N W gd B : nat)
      (x : tensor) (dtw_edge_index : EdgeIndex) (g : Generator) :
  STCell.dtw_attrs cell
  = Some (STCell.mk_dtw
            (Linear.init sd n1 W gd)
            (GATConv.init sd n2 W gd 3 false)
            (GATConv.init sd n3 gd gd 3 false)
            (GATConv.init sd n4 gd gd 3 false)
            (GATConv.init sd n5 gd gd 3 false)
            (parameter sd n6 [N; 12])
            (parameter sd n7 [12; N])
            (Linear.init sd n8 W gd)
            (Linear.init sd n9 gd gd)
            (Linear.init sd n10 gd gd)
            (Linear.init sd n11 gd gd)) ->
  STCell.node_num cell = N -> STCell.seq_len cell = W ->
  STCell.graph_dim cell = gd ->
  1 <= N -> 1 <= W -> 1 <= gd ->
  shape x = [B * N; W] -> edges_within (B * N) dtw_edge_index ->
  exists y, STCell.semantic cell x dtw_edge_index g
            = (Ok y, advance g (graph_samples B N W gd))
            /\ shape y = [B; N; gd].
Proof.
  intros Ha HN HW Hgd HN1 HW1 Hgd1 Hx He.
  unfold STCell.semantic. rewrite Ha, HN, HW, Hgd. cbn [attr].
  rewrite (bind_lift_ok _ _ _ _ eq_refl). cbv beta.
  cbn [STCell.dtw_origin STCell.dtw_gconv1 STCell.dtw_gconv2 STCell.dtw_gconv3
       STCell.dtw_gconv4 STCell.dtw_source_embed STCell.dtw_target_embed
       STCell.dtw_linear_1 STCell.dtw_linear_2 STCell.dtw_linear_3
       STCell.dtw_linear_4].
  graph_branch_draws sd n1 n2 n3 n4 n5 n6 n7 n8 n9 n10 n11 3 N W gd B x
                     dtw_edge_index g.
Qed.

Lemma temporal_draws (cell : STCell.t) (a : STCell.tcn_layers) (sd : state_dict)
      (nm1 nm2 : string) (chs : list nat) (d : nat) (training : bool)
      (N W gd B : nat) (x : tensor) (g : Generator) :
  STCell.tcn_attrs cell = Some a ->
  STCell.node_num cell = N -> STCell.seq_len cell = W ->
  STCell.graph_dim cell = gd -> STCell.tcn_dim cell = chs ->
  MultiheadAttention.embed_dim (STCell.self_atten a) = N ->
  STCell.tcn a = TemporalConvNet.init sd nm1 1 chs 2 0.2 training ->
  STCell.tlinear a = Linear.init sd nm2 (d * W) gd ->
  last_item chs = Ok d ->
  1 <= N -> 1 <= W -> 1 <= gd ->
  shape x = [B * N; W] ->
  exists y, STCell.temporal cell x g
            = (Ok y, advance g (tcn_samples training (B * N) W chs))
            /\ shape y = [B; N; gd].
Proof.
  intros Ha HN HW Hgd Hchs HE Htcn Htl Hlast HN1 HW1 Hgd1 Hx.
  unfold STCell.temporal. rewrite Ha, HN, HW, Hgd, Hchs.
  rewrite (bind_lift_ok _ a _ _ eq_refl). cbv beta. rewrite Htcn, Htl.
  pure_step (reshape_infer x [None; Some N; Some W] B).
  1-3: rewrite ?Hx; shape_arith.
  pure_step (permute3_ok t B N W [2; 0; 1] S eq_refl).
  pure_step (MultiheadAttention_forward_ok (STCell.self_atten a) t0 W B N S0 HE).
  pure_step (binary_same_shape Rplus (fst t1) t0 _ S1 S0).
  destruct S2 as [S2 _].
  pure_step (permute3_ok (tanh t2) W B N [1; 2; 0] S2 eq_refl).
  pure_step (reshape_infer t3 [None; Some W] (B * N)).
  1-3: rewrite ?S3; shape_arith.
  pure_step (unsqueeze_ok t4 1).
  { rewrite S4. cbn [length]. lia. }
  rewrite S4 in S5. cbn [firstn skipn app] in S5.
  assert (Hp : (0 <= 0.2 <= 1)%R) by lra.
  destruct (tcn_draws sd nm1 1 chs 2 0.2 training (B * N) W (le_n 2) Hp HW1 t5 g S5)
    as (t6 & E6 & S6).
  rewrite (bind_ok _ _ _ _ _ E6). cbv beta.
  rewrite (last_item_channels 1 chs d Hlast) in S6.
  unfold size. rewrite S6. cbn [nth_error].
  rewrite (bind_lift_ok _ (B * N) _ _ eq_refl). cbv beta.
  rewrite (bind_lift_ok _ d _ _ Hlast). cbv beta.
  pure_step (reshape_known t6 [Some (B * N); Some (d * W)]).
  1-2: rewrite ?S6; shape_arith.
  pure_step (Linear_forward_ok sd nm2 (d * W) gd t7 [B * N] S7).
  cbn [app] in S8.
  destruct (reshape_infer t8 [None; Some N; Some gd] B) as (y & Ey & Sy).
  1-3: rewrite ?S8; shape_arith.
  exists y. unfold lift. rewrite Ey. split; [reflexivity | exact Sy].
Qed.

Lemma branches_draws (sd : state_dict) (name : string) (N W gd : nat)
      (chs : list nat) (c0 c1 c2 h : nat) (training : bool) (cell : STCell.t)
      (B : nat) (x : tensor) (e de : EdgeIndex) (g : Generator) :
  STCell.init sd name N W gd chs [c0; c1; c2] h training = Ok cell ->
  1 <= N -> 1 <= W -> 1 <= gd ->
  shape x = [B * N; W] -> edges_within (B * N) e -> edges_within (B * N) de ->
  exists output_list,
    STCell.branches cell x e de g
    = (Ok output_list,
       advance g (samples training [c0; c1; c2] B N W gd chs)).
Proof.
  intros Hinit HN1 HW1 Hgd1 Hx He Hde.
  destruct (STCell_init_inv sd name N W gd chs c0 c1 c2 h training cell Hinit)
    as (HN & HW & Hgd & Hchs & _ & Hch & Hsl & Ht & Hs & Hd).
  unfold STCell.branches, samples. rewrite Hch.
  cbn [getitem nth_error nth].
  rewrite (bind_lift_ok _ _ _ _ eq_refl). cbv beta.
  set (k0 := if c0 =? 1 then tcn_samples training (B * N) W chs else 0).
  set (k1 := if c1 =? 1 then graph_samples B N W gd else 0).
  set (k2 := if c2 =? 1 then graph_samples B N W gd else 0).
  (* the temporal branch *)
  assert (H0 : exists l0,
             (if c0 =? 1
              then tcn_output <- STCell.temporal cell x ;;
                   ret (STCell.setitem [None; None; None] 0 (Some tcn_output))
              else ret [None; None; None]) g
             = (Ok l0, advance g k0)).
  { unfold k0. destruct (c0 =? 1) eqn:E0.
    - apply Nat.eqb_eq in E0. destruct (Ht E0) as (m & d & Hta & Hm & Hlast).
      destruct (temporal_draws cell _ sd _ _ chs d training N W gd B x g
                               Hta HN HW Hgd Hchs Hm eq_refl eq_refl Hlast
                               HN1 HW1 Hgd1 Hx) as (y & Ey & Sy).
      eexists. rewrite (bind_ok _ _ _ _ _ Ey). reflexivity.
    - eexists. unfold ret. now rewrite advance_0. }
  destruct H0 as (l0 & E0).
  rewrite (bind_ok _ _ _ _ _ E0). cbv beta.
  rewrite (bind_lift_ok _ _ _ _ eq_refl). cbv beta.
  (* the spatial branch *)
  assert (H1 : exists x1 l1,
             (if c1 =? 1
              then x' <~ STCell.residual cell x ;;
                   sp_output <- STCell.spatial cell x' e ;;
                   ret (x', STCell.setitem l0 1 (Some sp_output))
              else ret (x, l0)) (advance g k0)
             = (Ok (x1, l1), advance g (k0 + k1))
             /\ shape x1 = [B * N; W]).
  { unfold k1. destruct (c1 =? 1) eqn:E1.
    - apply Nat.eqb_eq in E1.
      destruct (residual_ok cell sd _ W (B * N) x Hsl Hx) as (x1 & Ex1 & Sx1).
      rewrite (bind_lift_ok _ _ _ _ Ex1). cbv beta.
      destruct (spatial_draws cell sd _ _ _ _ _ _ _ _ _ _ _ N W gd B x1 e
                              (advance g k0)
                              (Hs E1) HN HW Hgd HN1 HW1 Hgd1 Sx1 He)
        as (y & Ey & Sy).
      eexists x1, _. rewrite (bind_ok _ _ _ _ _ Ey). cbv beta.
      unfold ret. rewrite advance_advance. now split.
    - eexists x, _. unfold ret. rewrite Nat.add_0_r. now split. }
  destruct H1 as (x1 & l1 & E1 & Sx1).
  rewrite (bind_ok _ _ _ _ _ E1). cbv beta. cbn [fst snd].
  rewrite (bind_lift_ok _ _ _ _ eq_refl). cbv beta.
  (* the semantic branch *)
  unfold k2. destruct (c2 =? 1) eqn:E2.
  - apply Nat.eqb_eq in E2.
    destruct (residual_ok cell sd _ W (B * N) x1 Hsl Sx1) as (x2 & Ex2 & Sx2).
    rewrite (bind_lift_ok _ _ _ _ Ex2). cbv beta.
    destruct (semantic_draws cell sd _ _ _ _ _ _ _ _ _ _ _ N W gd B x2 de
                             (advance g (k0 + k1))
                             (Hd E2) HN HW Hgd HN1 HW1 Hgd1 Sx2 Hde)
      as (y & Ey & Sy).
    eexists. rewrite (bind_ok _ _ _ _ _ Ey). cbv beta.
    unfold ret. now rewrite advance_advance.
  - eexists. unfold ret. now rewrite Nat.add_0_r.
Qed.

Lemma model_generator (m : STAGGCNModel.t) (x out : tensor) (e de : EdgeIndex)
      (g g' g1 : Generator) (output_list : list (option tensor)) :
  STAGGCNModel.forward m x e de g = (Ok out, g') ->
  STCell.branches (STAGGCNModel.STCell m) x e de g = (Ok output_list, g1) ->
  g' = g1.
Proof.
  unfold STAGGCNModel.forward, STCell.forward, bind, lift. intros H Hb.
  rewrite Hb in H.
  destruct (STCell.concat _ output_list) as [c|]; [|discriminate].
  inversion H. reflexivity.
Qed.

(** X8: the random numbers that [forward] draws.  The two dropouts of every
    block of the temporal convolutions draw in training mode only; the four
    [F.dropout(..., 0.1)] of each graph branch are called without the mode
    of the module and draw one number for every entry of their input in
    evaluation mode as well. *)
Theorem forward_draws_in_both_modes :
  forall (sd : state_dict) (training : bool) (config : STAGGCN.Config)
         (data_feature : STAGGCN.DataFeature) (self : STAGGCN.t)
         (batch : STAGGCN.Batch) (feature_dim : nat) (g : Generator),
    STAGGCN.init sd training config data_feature = Ok self ->
    sensible self -> 1 <= STAGGCN.batch_size self -> 1 <= feature_dim ->
    shape (STAGGCN.X batch)
    = [STAGGCN.batch_size self; STAGGCN.input_window self;
       STAGGCN.num_nodes self; feature_dim] ->
    exists out self',
      STAGGCN.forward self batch g
      = (Ok out, self',
         advance g (samples training (STAGGCN.choice self)
                            (STAGGCN.batch_size self) (STAGGCN.num_nodes self)
                            (STAGGCN.input_window self) (STAGGCN.graph_dim self)
                            (STAGGCN.tcn_dim self))).
Proof.
  intros sd training config data_feature self batch F g Hinit Hs HB HF HX.
  destruct (forward_run_model sd training config data_feature self batch
                              (STAGGCN.batch_size self) F g Hinit Hs HB HF HX)
    as (x & outputs & self' & g' & Ex & Em & So & Ef).
  destruct Hs as (Hflags & HN1 & HW1 & Hgd1 & He & Hde).
  destruct Hflags as (c0 & c1 & c2 & Hch & _).
  destruct (input_of_ok batch _ _ _ F HX HF HW1) as (x' & Ex' & Sx).
  rewrite Ex in Ex'. inversion Ex'. subst x'.
  pose proof (STAGGCN_init_model sd training config data_feature self Hinit) as Hm.
  rewrite Hch in Hm. rewrite Hch.
  destruct (STAGGCNModel_init_inv _ _ _ _ _ _ _ _ _ _ _ Hm) as (Hcell & _).
  assert (Hle : STAGGCN.num_nodes self
                <= STAGGCN.batch_size self * STAGGCN.num_nodes self) by nia.
  destruct (branches_draws sd _ _ _ _ _ c0 c1 c2 _ training _
              (STAGGCN.batch_size self) x
              (to (STAGGCN.edge_index self) (STAGGCN.device_ self))
              (to (STAGGCN.dtw_edge_index self) (STAGGCN.device_ self)) g
              Hcell HN1 HW1 Hgd1 Sx
              (edges_within_mono _ _ _ _ Hle He)
              (edges_within_mono _ _ _ _ Hle Hde))
    as (output_list & Eb).
  rewrite (model_generator _ _ _ _ _ _ _ _ _ Em Eb) in Ef.
  destruct (reshape_known outputs
              [Some (STAGGCN.batch_size self); Some (STAGGCN.output_window self);
               Some (STAGGCN.num_nodes self); Some 1]) as (out & Eo & _).
  { reflexivity. }
  { rewrite So. cbn [known flat_map app numel fold_right]. ring. }
  exists out, self'. now rewrite Ef, Eo.
Qed.

Lemma forward_draws_in_both_modes_witness :
  exists self out self',
    STAGGCN.init example_sd true example_config example_data_feature = Ok self
    /\ STAGGCN.forward self example_batch example_generator
       = (Ok out, self',
          advance example_generator
                  (samples true (STAGGCN.choice self) 1 2 2
                           (STAGGCN.graph_dim self) (STAGGCN.tcn_dim self))).
Proof.
  destruct example_model as (self & Hinit & Hs & HB & HW & HN & HP & _).
  destruct (forward_draws_in_both_modes example_sd true example_config
              example_data_feature self example_batch 2 example_generator
              Hinit Hs) as (out & self' & Ef).
  { rewrite HB. apply le_n. }
  { apply le_S, le_n. }
  { rewrite HB, HW, HN. reflexivity. }
  rewrite HB, HW, HN in Ef.
  exists self, out, self'. split; assumption.
Defined.

(** ** Sums, term by term *)

Lemma Rsum_list_le (l : list nat) (f h : nat -> R) :
  (forall i, In i l -> (f i <= h i)%R) ->
  (Rsum_list (map f l) <= Rsum_list (map h l))%R.
Proof.
  induction l as [|a l IH]; intros H; simpl.
  - apply Rle_refl.
  - apply Rplus_le_compat.
    + apply H. now left.
    + apply IH. intros i Hi. apply H. now right.
Qed.

Lemma Rsum_le (n : nat) (f h : nat -> R) :
  (forall i, i < n -> (f i <= h i)%R) -> (Rsum n f <= Rsum n h)%R.
Proof.
  intros H. unfold Rsum, tabulate. apply Rsum_list_le.
  intros i Hi. apply in_seq in Hi. apply H. lia.
Qed.

(** ** Evaluation mode *)

Lemma ig_lift {A : Type} (r : result A) : ignores_generator (lift r).
Proof. now exists r. Qed.

Lemma ig_ret {A : Type} (a : A) : ignores_generator (ret a).
Proof. now exists (Ok a). Qed.

Lemma ig_bind {A B : Type} (m : M A) (k : A -> M B) :
  ignores_generator m ->
  (forall a, (forall g, m g = (Ok a, g)) -> ignores_generator (k a)) ->
  ignores_generator (bind m k).
Proof.
  intros [r Hm] Hk. destruct r as [a|e].
  - destruct (Hk a Hm) as [r' Hr']. exists r'. intros g. unfold bind.
    now rewrite Hm, Hr'.
  - exists (Raise e). intros g. unfold bind. now rewrite Hm.
Qed.

Lemma ig_dropout_eval (x : tensor) (p : R) : ignores_generator (dropout x p false).
Proof.
  unfold dropout.
  destruct (Rle_dec 0 p) as [H0|H0].
  - destruct (Rle_dec p 1) as [H1|H1].
    + exists (Ok x). intros g.
      destruct (Rle_dec 0 p); [|contradiction].
      destruct (Rle_dec p 1); [reflexivity | contradiction].
    + exists (Raise ValueError). intros g.
      destruct (Rle_dec 0 p); [|contradiction].
      destruct (Rle_dec p 1); [contradiction | reflexivity].
  - exists (Raise ValueError). intros g.
    destruct (Rle_dec 0 p); [contradiction | reflexivity].
Qed.

Ltac ig_steps :=
  repeat first
         [ apply ig_lift
         | apply ig_ret
         | apply ig_dropout_eval
         | apply ig_bind; [|intros ? _] ].

Lemma ig_block (b : TemporalBlock.t) (x : tensor) :
  Dropout.training (TemporalBlock.dropout1 b) = false ->
  Dropout.training (TemporalBlock.dropout2 b) = false ->
  ignores_generator (TemporalBlock.forward b x).
Proof.
  intros H1 H2.
  unfold TemporalBlock.forward, TemporalBlock.net, Dropout.forward.
  rewrite H1, H2. ig_steps.
Qed.

Lemma ig_sequential (blocks : list TemporalBlock.t) :
  (forall b, In b blocks ->
             Dropout.training (TemporalBlock.dropout1 b) = false
             /\ Dropout.training (TemporalBlock.dropout2 b) = false) ->
  forall x, ignores_generator (TemporalConvNet.sequential blocks x).
Proof.
  induction blocks as [|b rest IH]; intros H x;
    cbn [TemporalConvNet.sequential].
  - apply ig_ret.
  - apply ig_bind.
    + apply ig_block; apply (H b); now left.
    + intros y _. apply IH. intros b' Hb'. apply H. now right.
Qed.

Lemma ig_tcn (sd : state_dict) (name : string) (num_inputs : nat)
      (num_channels : list nat) (kernel_size : nat) (p : R) (x : tensor) :
  ignores_generator
    (TemporalConvNet.forward
       (TemporalConvNet.init sd name num_inputs num_channels kernel_size p false)
       x).
Proof.
  unfold TemporalConvNet.forward. apply ig_sequential.
  intros b Hb. unfold TemporalConvNet.init in Hb.
  cbn [TemporalConvNet.network] in Hb.
  apply in_map_iff in Hb. destruct Hb as (i & <- & _). now split.
Qed.

Lemma STCell_init_choice (sd : state_dict) (name : string) (N W gd : nat)
      (chs choice : list nat) (h : nat) (training : bool) (cell : STCell.t) :
  STCell.init sd name N W gd chs choice h training = Ok cell ->
  STCell.choice cell = choice.
Proof.
  unfold STCell.init. intros H.
  destruct (getitem choice 0) as [c0|]; [|discriminate]. cbn [rbind] in H.
  match type of H with rbind ?r _ = _ => destruct r; [|discriminate] end.
  cbn [rbind] in H.
  destruct (getitem choice 1) as [c1|]; [|discriminate]. cbn [rbind] in H.
  destruct (getitem choice 2) as [c2|]; [|discriminate]. cbn [rbind] in H.
  inversion H. reflexivity.
Qed.

Lemma getitem_nth (l : list nat) (i a : nat) : getitem l i = Ok a -> nth i l 0 = a.
Proof.
  unfold getitem. destruct (nth_error l i) as [v|] eqn:E; [|discriminate].
  intros H. inversion H. subst. now apply nth_error_nth.
Qed.

Lemma ig_temporal (sd : state_dict) (name : string) (N W gd : nat)
      (chs choice : list nat) (h : nat) (cell : STCell.t) (x : tensor) :
  STCell.init sd name N W gd chs choice h false = Ok cell ->
  ignores_generator (STCell.temporal cell x).
Proof.
  intros Hinit. unfold STCell.temporal.
  destruct (STCell.tcn_attrs cell) as [a|] eqn:Ea.
  - cbn [attr]. apply ig_bind; [apply ig_lift | intros a' Ha'].
    specialize (Ha' (mkGenerator (fun _ => 0%R) 0)). unfold lift in Ha'.
    inversion Ha'. subst a'.
    rewrite (STCell_init_tcn sd name N W gd chs choice h false cell a Hinit Ea).
    repeat (apply ig_bind; [apply ig_lift | intros ? _]).
    apply ig_bind; [apply ig_tcn | intros ? _].
    ig_steps.
  - cbn [attr]. apply ig_bind; [apply ig_lift|].
    intros a Ha. specialize (Ha (mkGenerator (fun _ => 0%R) 0)). discriminate.
Qed.

Lemma ig_cell (sd : state_dict) (name : string) (N W gd : nat)
      (chs choice : list nat) (h : nat) (cell : STCell.t) (x : tensor)
      (e de : EdgeIndex) :
  STCell.init sd name N W gd chs choice h false = Ok cell ->
  nth 1 choice 0 <> 1 -> nth 2 choice 0 <> 1 ->
  ignores_generator (STCell.forward cell x e de).
Proof.
  intros Hinit H1 H2.
  unfold STCell.forward, STCell.branches.
  rewrite (STCell_init_choice _ _ _ _ _ _ _ _ _ _ Hinit).
  apply ig_bind; [|intros; apply ig_lift].
  apply ig_bind; [apply ig_lift | intros c0 _].
  apply ig_bind.
  { destruct (c0 =? 1); [|apply ig_ret].
    apply ig_bind; [|intros; apply ig_ret].
    now apply (ig_temporal sd name N W gd chs choice h). }
  intros l0 _.
  apply ig_bind; [apply ig_lift | intros c1 Hc1].
  specialize (Hc1 (mkGenerator (fun _ => 0%R) 0)). unfold lift in Hc1.
  assert (E1 : (c1 =? 1) = false).
  { apply Nat.eqb_neq. intros ->. apply H1. apply getitem_nth. congruence. }
  rewrite E1.
  apply ig_bind; [apply ig_ret | intros xo _].
  apply ig_bind; [apply ig_lift | intros c2 Hc2].
  specialize (Hc2 (mkGenerator (fun _ => 0%R) 0)). unfold lift in Hc2.
  assert (E2 : (c2 =? 1) = false).
  { apply Nat.eqb_neq. intros ->. apply H2. apply getitem_nth. congruence. }
  rewrite E2. apply ig_ret.
Qed.

(** X10: in evaluation mode a model whose graph branches are both off does
    not use the generator: [forward] returns the same result and the same
    object from every state of the generator, and the generator as it was. *)
Theorem temporal_model_is_deterministic_in_eval :
  forall (sd : state_dict) (config : STAGGCN.Config)
         (data_feature : STAGGCN.DataFeature) (self : STAGGCN.t)
         (batch : STAGGCN.Batch),
    STAGGCN.init sd false config data_feature = Ok self ->
    nth 1 (STAGGCN.choice self) 0 <> 1 ->
    nth 2 (STAGGCN.choice self) 0 <> 1 ->
    exists r self', forall g, STAGGCN.forward self batch g = (r, self', g).
Proof.
  intros sd config data_feature self batch Hinit H1 H2.
  pose proof (STAGGCN_init_model sd false config data_feature self Hinit) as Hm.
  unfold STAGGCNModel.init in Hm.
  destruct (STCell.init _ _ _ _ _ _ _ _ _) as [cell|] eqn:Hcell; [|discriminate].
  cbn [rbind] in Hm. inversion Hm as [Hmodel]. clear Hm.
  unfold STAGGCN.forward.
  destruct (STAGGCN.input_of batch) as [x|e]; [|now eexists _, _].
  cbn [STAGGCN.set_edge_index STAGGCN.set_dtw_edge_index STAGGCN.model
       STAGGCN.edge_index STAGGCN.dtw_edge_index STAGGCN.device_
       STAGGCN.batch_size STAGGCN.output_window STAGGCN.num_nodes].
  assert (Hig : ignores_generator
                  (STAGGCNModel.forward (STAGGCN.model self) x
                     (to (STAGGCN.edge_index self) (STAGGCN.device_ self))
                     (to (STAGGCN.dtw_edge_index self) (STAGGCN.device_ self)))).
  { unfold STAGGCNModel.forward. rewrite <- Hmodel. cbn [STAGGCNModel.STCell].
    apply ig_bind; [|intros; apply ig_lift].
    now apply (ig_cell sd _ _ _ _ _ _ _ cell x _ _ Hcell). }
  destruct Hig as [r Hr]. destruct r as [outputs|e].
  - eexists _, _. intros g. rewrite Hr. reflexivity.
  - eexists _, _. intros g. rewrite Hr. reflexivity.
Qed.

Lemma example_temporal_model :
  exists self,
    STAGGCN.init example_sd false example_temporal_config example_data_feature
    = Ok self
    /\ STAGGCN.choice self = [1; 0; 0].
Proof. eexists. split; reflexivity. Qed.

Lemma temporal_model_is_deterministic_in_eval_witness :
  exists self r self',
    STAGGCN.init example_sd false example_temporal_config example_data_feature
    = Ok self
    /\ forall g, STAGGCN.forward self example_batch g = (r, self', g).
Proof.
  destruct example_temporal_model as (self & Hinit & Hch).
  destruct (temporal_model_is_deterministic_in_eval
              example_sd example_temporal_config example_data_feature self
              example_batch Hinit) as (r & self' & H).
  { rewrite Hch. discriminate. }
  { rewrite Hch. discriminate. }
  exists self, r, self'. split; assumption.
Defined.

(** ** What [calculate_loss] reads of the ground truth *)

Lemma narrow_last_ext (t t' : tensor) (k : nat) :
  shape t = shape t' ->
  (forall lead C, shape t = lead ++ [C] ->
     forall r c, r < numel lead -> c < Nat.min k C ->
       get t (r * C + c) = get t' (r * C + c)) ->
  narrow_last t k = narrow_last t' k.
Proof.
  intros Hs H. unfold narrow_last. rewrite <- Hs.
  destruct (rev (shape t)) as [|n lead] eqn:E; [reflexivity|].
  assert (Hshape : shape t = rev lead ++ [n]).
  { rewrite <- (rev_involutive (shape t)), E. reflexivity. }
  f_equal. apply build_ext. intros i Hi.
  rewrite numel_app in Hi. cbn [numel fold_right] in Hi.
  rewrite Nat.mul_1_r in Hi.
  destruct (Nat.eq_dec (Nat.min k n) 0) as [E0|E0]; [rewrite E0 in Hi; lia|].
  apply (H (rev lead) n Hshape).
  - apply Nat.Div0.div_lt_upper_bound. lia.
  - now apply Nat.mod_upper_bound.
Qed.

(** X11: the loss depends on the ground truth through its first
    [output_dim] channels only: two batches with the same input whose ground
    truths have the same shape and agree on those channels give the same
    loss, object and generator. *)
Theorem loss_reads_the_first_output_dim_channels :
  forall (masked_mae_torch : tensor -> tensor -> R -> result tensor)
         (self : STAGGCN.t) (batch batch' : STAGGCN.Batch) (g : Generator),
    STAGGCN.X batch = STAGGCN.X batch' ->
    shape (STAGGCN.y batch) = shape (STAGGCN.y batch') ->
    (forall lead C, shape (STAGGCN.y batch) = lead ++ [C] ->
       forall r c, r < numel lead -> c < Nat.min (STAGGCN.output_dim self) C ->
         get (STAGGCN.y batch) (r * C + c) = get (STAGGCN.y batch') (r * C + c)) ->
    STAGGCN.calculate_loss masked_mae_torch self batch g
    = STAGGCN.calculate_loss masked_mae_torch self batch' g.
Proof.
  intros mae self [X y] [X' y'] g HX Hs H. cbn [STAGGCN.X STAGGCN.y] in *.
  subst X'.
  unfold STAGGCN.calculate_loss, STAGGCN.predict. cbn [STAGGCN.y].
  assert (EF : STAGGCN.forward self (STAGGCN.mkBatch X y') g
               = STAGGCN.forward self (STAGGCN.mkBatch X y) g) by reflexivity.
  rewrite EF.
  destruct (STAGGCN.forward self (STAGGCN.mkBatch X y) g)
    as [[[p|e] self'] g'] eqn:E; [|reflexivity].
  destruct (forward_keeps_attributes _ _ _ _ _ _ E) as (_ & Hod & _).
  rewrite Hod.
  now rewrite (narrow_last_ext y y' (STAGGCN.output_dim self) Hs H).
Qed.

Lemma loss_reads_the_first_output_dim_channels_witness :
  exists self,
    STAGGCN.init example_sd true example_config example_data_feature = Ok self
    /\ STAGGCN.calculate_loss
         example_masked_mae self
         (STAGGCN.mkBatch (STAGGCN.X example_batch)
                          (Tensor [1; 1; 2; 2] [1; 5; 2; 6]%R))
         example_generator
       = STAGGCN.calculate_loss
           example_masked_mae self
           (STAGGCN.mkBatch (STAGGCN.X example_batch)
                            (Tensor [1; 1; 2; 2] [1; 50; 2; 60]%R))
           example_generator.
Proof.
  destruct example_model as (self & Hinit & _ & _ & _ & _ & _ & Hod & _).
  exists self. split; [exact Hinit|].
  apply (loss_reads_the_first_output_dim_channels example_masked_mae self
           (STAGGCN.mkBatch (STAGGCN.X example_batch)
                            (Tensor [1; 1; 2; 2] [1; 5; 2; 6]%R))
           (STAGGCN.mkBatch (STAGGCN.X example_batch)
                            (Tensor [1; 1; 2; 2] [1; 50; 2; 60]%R))
           example_generator eq_refl eq_refl).
  intros lead C Hshape r c Hr Hc. cbn [STAGGCN.y shape] in Hshape.
  change [1; 1; 2; 2] with ([1; 1; 2] ++ [2]) in Hshape.
  apply app_inj_tail in Hshape. destruct Hshape as [<- <-].
  rewrite Hod in Hc. cbn [numel fold_right Nat.min] in Hr, Hc.
  destruct c as [|c]; [|lia].
  destruct r as [|[|r]]; [reflexivity | reflexivity | lia].
Defined.

(** ** The edges and the samples of a batch *)

Lemma agree_from_refl (k : nat) (x : tensor) : agree_from k x x.
Proof. now split. Qed.

Lemma agree_from_pointwise (f : R -> R) (k : nat) (x x' : tensor) :
  agree_from k x x' -> agree_from k (pointwise f x) (pointwise f x').
Proof.
  intros [Hs H]. split; [exact Hs|].
  intros i Hk Hi. cbn [pointwise build shape] in Hi.
  rewrite !get_pointwise by (rewrite <- ?Hs; exact Hi).
  f_equal. now apply H.
Qed.

Lemma agree_from_binary (f : R -> R -> R) (k : nat) (s : list nat)
      (a a' b b' y y' : tensor) :
  shape a = s -> shape b = s ->
  agree_from k a a' -> agree_from k b b' ->
  binary f a b = Ok y -> binary f a' b' = Ok y' ->
  agree_from k y y'.
Proof.
  intros Ha Hb [Hsa HA] [Hsb HB] Hy Hy'.
  destruct (binary_same_shape f a b s Ha Hb) as (z & Hz & Hsz & Hgz).
  destruct (binary_same_shape f a' b' s) as (z' & Hz' & Hsz' & Hgz');
    [congruence | congruence |].
  rewrite Hy in Hz. rewrite Hy' in Hz'. inversion Hz. inversion Hz'. subst z z'.
  split; [congruence|].
  intros i Hk Hi. rewrite Hsz in Hi.
  rewrite Hgz, Hgz' by exact Hi.
  f_equal; [apply HA | apply HB]; try assumption; now rewrite ?Ha, ?Hb.
Qed.

Lemma numel_fill (q : nat) (dims : list (option nat)) :
  numel (fill q dims) = q ^ unknowns dims * known dims.
Proof.
  unfold fill, known, unknowns.
  induction dims as [|[d|] dims IH];
    cbn [map flat_map filter length app numel fold_right Nat.pow].
  - lia.
  - change (fold_right Nat.mul 1 ?l) with (numel l) in *. rewrite IH. ring.
  - change (fold_right Nat.mul 1 ?l) with (numel l) in *. rewrite IH. ring.
Qed.

(** The shape that [reshape] infers holds as many entries as the tensor. *)
Lemma infer_shape_numel (n : nat) (dims : list (option nat)) (s : list nat) :
  infer_shape n dims = Ok s -> numel s = n.
Proof.
  unfold infer_shape.
  destruct (unknowns dims) as [|[|u]] eqn:Eu; [| |discriminate].
  - destruct (Nat.eqb_spec (known dims) n) as [E|E]; [|discriminate].
    intros H. inversion H. rewrite numel_fill, Eu. cbn [Nat.pow]. lia.
  - destruct (Nat.eqb_spec (known dims) 0) as [E0|E0]; [discriminate|].
    destruct (Nat.eqb_spec (n mod known dims) 0) as [E|E]; [|discriminate].
    intros H. inversion H. rewrite numel_fill, Eu. cbn [Nat.pow].
    pose proof (Nat.div_mod_eq n (known dims)). nia.
Qed.

Lemma agree_from_reshape (k : nat) (x x' y y' : tensor) (dims : list (option nat)) :
  agree_from k x x' ->
  reshape x dims = Ok y -> reshape x' dims = Ok y' ->
  agree_from k y y'.
Proof.
  intros [Hs H] Hy Hy'.
  pose proof (reshape_get _ _ _ Hy) as G.
  pose proof (reshape_get _ _ _ Hy') as G'.
  unfold reshape in Hy, Hy'. rewrite <- Hs in Hy'.
  destruct (infer_shape (numel (shape x)) dims) as [s|] eqn:Ei; [|discriminate].
  apply infer_shape_numel in Ei.
  cbn [rbind] in Hy, Hy'. inversion Hy. inversion Hy'. subst y y'.
  cbn [build shape] in *. split; [reflexivity|].
  intros i Hk Hi. rewrite G, G' by exact Hi.
  apply H; [exact Hk | now rewrite <- Ei].
Qed.

Lemma agree_from_dropout (k : nat) (x x' y y' : tensor) (p : R)
      (g g1 g1' : Generator) :
  agree_from k x x' ->
  dropout x p true g = (Ok y, g1) -> dropout x' p true g = (Ok y', g1') ->
  agree_from k y y'.
Proof.
  intros [Hs H]. unfold dropout.
  destruct (Rle_dec 0 p) as [Hp0|]; [|discriminate].
  destruct (Rle_dec p 1) as [Hp1|]; [|discriminate].
  intros Hy Hy'. inversion Hy. inversion Hy'. subst.
  cbn [build shape]. split; [exact Hs|].
  intros i Hk Hi. rewrite !get_build by (rewrite <- ?Hs; exact Hi).
  now rewrite (H i Hk Hi).
Qed.

(** The product with the adjacency stays within each sample. *)
Lemma agree_from_matmul (A d d' m m' : tensor) (N D B : nat) :
  shape A = [N; N] -> shape d = [B; N; D] ->
  agree_from (N * D) d d' ->
  matmul A d = Ok m -> matmul A d' = Ok m' ->
  agree_from (N * D) m m'.
Proof.
  intros HA Hd [Hs H] Hm Hm'. unfold matmul in Hm, Hm'.
  rewrite <- Hs in Hm'. rewrite HA, Hd in Hm, Hm'. cbn [rev app] in Hm, Hm'.
  rewrite Nat.eqb_refl in Hm, Hm'. inversion Hm. inversion Hm'. subst m m'.
  cbn [build shape]. split; [reflexivity|].
  intros i Hk Hi. rewrite !get_build by exact Hi.
  cbn [build shape rev app numel fold_right] in Hi. rewrite Nat.mul_1_r in Hi.
  destruct (Nat.eq_dec D 0) as [->|HD]; [lia|].
  destruct (Nat.eq_dec N 0) as [->|HN]; [lia|].
  assert (Hc : i mod D < D) by now apply Nat.mod_upper_bound.
  assert (Hbt : i / (N * D) < B) by (apply Nat.Div0.div_lt_upper_bound; lia).
  assert (Hb1 : 1 <= i / (N * D)) by (apply Nat.div_le_lower_bound; lia).
  apply Rsum_ext. intros j Hj. f_equal. apply H.
  - nia.
  - rewrite Hd. cbn [numel fold_right].
    rewrite Nat.mul_1_r, Nat.mul_assoc. now apply row3_lt.
Qed.

(** A linear layer works row by row. *)
Lemma agree_from_linear (sd : state_dict) (name : string) (n o r : nat)
      (x x' y y' : tensor) (lead : list nat) :
  shape x = lead ++ [n] ->
  agree_from (r * n) x x' ->
  Linear.forward (Linear.init sd name n o) x = Ok y ->
  Linear.forward (Linear.init sd name n o) x' = Ok y' ->
  agree_from (r * o) y y'.
Proof.
  intros Hx [Hs H]. unfold Linear.forward, Linear.init, linear.
  cbn [Linear.weight Linear.bias parameter build shape].
  rewrite <- Hs, Hx, rev_app_distr. cbn [rev app list_eq_nat].
  rewrite !Nat.eqb_refl. cbn [andb]. rewrite rev_involutive.
  intros Hy Hy'. inversion Hy. inversion Hy'. subst y y'.
  cbn [build shape]. split; [reflexivity|].
  intros i Hk Hi. rewrite !get_build by exact Hi.
  cbn [build shape] in Hi.
  rewrite numel_app in Hi. cbn [numel fold_right] in Hi.
  rewrite Nat.mul_1_r in Hi.
  destruct (Nat.eq_dec o 0) as [->|Ho]; [lia|].
  assert (Hrow : i / o < numel lead) by (apply Nat.Div0.div_lt_upper_bound; lia).
  assert (Hr : r <= i / o) by (apply Nat.div_le_lower_bound; lia).
  f_equal. apply Rsum_ext. intros j Hj. f_equal. apply H.
  - nia.
  - rewrite Hx, numel_app. cbn [numel fold_right]. rewrite Nat.mul_1_r.
    now apply row_index_lt.
Qed.

Lemma agree_from_cat (a a' b b' c c' : tensor) (B N ga gb : nat) :
  shape a = [B; N; ga] -> shape b = [B; N; gb] ->
  agree_from (N * ga) a a' -> agree_from (N * gb) b b' ->
  cat a b 2 = Ok c -> cat a' b' 2 = Ok c' ->
  agree_from (N * (ga + gb)) c c'.
Proof.
  intros Ha Hb [Hsa HA] [Hsb HB]. unfold cat.
  rewrite <- Hsa, <- Hsb, Ha, Hb.
  cbn [nth_error length firstn skipn list_eq_nat numel fold_right app].
  rewrite !Nat.eqb_refl. cbn [andb].
  intros Hc Hc'. inversion Hc. inversion Hc'. subst c c'.
  cbn [build shape]. split; [reflexivity|].
  intros i Hk Hi. rewrite !get_build by exact Hi.
  cbn [build shape numel fold_right] in Hi. rewrite !Nat.mul_1_r in *.
  destruct (Nat.eq_dec (ga + gb) 0) as [E0|E0]; [rewrite E0 in Hi; lia|].
  assert (Hrow : i / (ga + gb) < B * N)
    by (apply Nat.Div0.div_lt_upper_bound; lia).
  assert (Hr : N <= i / (ga + gb)) by (apply Nat.div_le_lower_bound; lia).
  assert (Hm : i mod (ga + gb) < ga + gb) by now apply Nat.mod_upper_bound.
  destruct (i mod (ga + gb) <? ga) eqn:E.
  - apply Nat.ltb_lt in E. apply HA; [nia|].
    rewrite Ha. cbn [numel fold_right]. rewrite Nat.mul_1_r, Nat.mul_assoc.
    now apply row_index_lt.
  - apply Nat.ltb_ge in E. apply HB; [nia|].
    rewrite Hb. cbn [numel fold_right]. rewrite Nat.mul_1_r, Nat.mul_assoc.
    apply row_index_lt; [exact Hrow | lia].
Qed.

Lemma filter_none {A : Type} (f : A -> bool) (l : list A) :
  (forall a, In a l -> f a = false) -> filter f l = [].
Proof.
  induction l as [|a l IH]; intros H; [reflexivity|].
  cbn [filter]. rewrite (H a (or_introl eq_refl)).
  apply IH. intros b Hb. apply H. now right.
Qed.

Lemma filter_loops (r : nat) :
  forall len s,
    filter (fun p : nat * nat => snd p =? r) (map (fun i => (i, i)) (seq s len))
    = if (s <=? r) && (r <? s + len) then [(r, r)] else [].
Proof.
  induction len as [|len IH]; intros s.
  - cbn [seq map filter]. rewrite Nat.add_0_r.
    destruct (s <=? r) eqn:E1; [|reflexivity].
    destruct (r <? s) eqn:E2; [|reflexivity].
    apply Nat.leb_le in E1. apply Nat.ltb_lt in E2. lia.
  - cbn [seq map filter snd]. rewrite IH.
    destruct (Nat.eqb_spec s r) as [->|Hne].
    + rewrite Nat.leb_refl.
      replace (r <? r + S len) with true by (symmetry; apply Nat.ltb_lt; lia).
      replace (S r <=? r) with false by (symmetry; apply Nat.leb_gt; lia).
      reflexivity.
    + replace (r <? S s + len) with (r <? s + S len) by (f_equal; lia).
      destruct (s <=? r) eqn:E1.
      * apply Nat.leb_le in E1.
        replace (S s <=? r) with true by (symmetry; apply Nat.leb_le; lia).
        reflexivity.
      * apply Nat.leb_gt in E1.
        replace (S s <=? r) with false by (symmetry; apply Nat.leb_gt; lia).
        reflexivity.
Qed.

(** A node that no edge enters is attended by its own loop only. *)
Lemma loop_only (e : EdgeIndex) (N n r : nat) :
  edges_within N e -> N <= r -> r < n ->
  filter (fun p : nat * nat => snd p =? r)
         (filter (fun p : nat * nat => negb (fst p =? snd p)) (edges e)
          ++ map (fun i => (i, i)) (seq 0 n))
  = [(r, r)].
Proof.
  intros He HN Hr. rewrite filter_app, filter_loops.
  replace (0 <=? r) with true by (symmetry; apply Nat.leb_le; lia).
  replace (r <? 0 + n) with true by (symmetry; apply Nat.ltb_lt; lia).
  rewrite filter_none; [reflexivity|].
  intros [j i] Hin. apply filter_In in Hin. destruct Hin as [Hin _].
  destruct (He j i Hin) as [_ Hi]. cbn [snd]. apply Nat.eqb_neq. lia.
Qed.

(** The graph attention of the rows that no edge enters does not depend on
    the edges, nor on the other rows. *)
Lemma agree_from_gat (sd : state_dict) (name : string) (f o h : nat)
      (x x' y y' : tensor) (e e' : EdgeIndex) (n N : nat) :
  shape x = [n; f] -> agree_from (N * f) x x' ->
  edges_within N e -> edges_within N e' ->
  GATConv.forward (GATConv.init sd name f o h false) x e = Ok y ->
  GATConv.forward (GATConv.init sd name f o h false) x' e' = Ok y' ->
  agree_from (N * o) y y'.
Proof.
  intros Hx [Hs H] He He'. unfold GATConv.forward, GATConv.init.
  cbn [GATConv.in_channels GATConv.concat GATConv.out_channels GATConv.heads
       GATConv.lin GATConv.att_l GATConv.att_r GATConv.bias].
  rewrite <- Hs, Hx, Nat.eqb_refl. cbn [andb].
  destruct (forallb _ (edges e)); [|discriminate].
  destruct (forallb _ (edges e')); [|discriminate].
  intros Hy Hy'. inversion Hy. inversion Hy'. subst y y'. clear Hy Hy'.
  cbn [build shape]. split; [reflexivity|].
  intros i Hk Hi. cbn [build shape numel fold_right] in Hi.
  rewrite Nat.mul_1_r in Hi.
  rewrite !get_build by (cbn [numel fold_right]; lia).
  destruct (Nat.eq_dec o 0) as [->|Ho]; [lia|].
  assert (Hrow : i / o < n) by (apply Nat.Div0.div_lt_upper_bound; lia).
  assert (Hr : N <= i / o) by (apply Nat.div_le_lower_bound; lia).
  set (lw := parameter sd (sub name "lin.weight") [h * o; f]).
  assert (Hxl : forall hh c k, k < f ->
            (get x (i / o * f + k) * get lw ((hh * o + c) * f + k))%R
            = (get x' (i / o * f + k) * get lw ((hh * o + c) * f + k))%R).
  { intros hh c k Hkf. f_equal. apply H; [nia|].
    rewrite Hx. cbn [numel fold_right]. rewrite Nat.mul_1_r.
    now apply row_index_lt. }
  f_equal. f_equal. apply Rsum_ext. intros hh Hh.
  rewrite (loop_only e N n (i / o) He Hr Hrow).
  rewrite (loop_only e' N n (i / o) He' Hr Hrow).
  cbn [map fst Rsum_list fold_right].
  assert (Hs1 : forall c,
            Rsum f (fun k => get x (i / o * f + k)
                             * get lw ((hh * o + c) * f + k))%R
            = Rsum f (fun k => get x' (i / o * f + k)
                               * get lw ((hh * o + c) * f + k))%R).
  { intros c. apply Rsum_ext. intros k Hkf. now apply Hxl. }
  assert (Hs2 : forall (a : tensor),
            Rsum o (fun c =>
                      Rsum f (fun k => get x (i / o * f + k)
                                       * get lw ((hh * o + c) * f + k))
                      * get a (hh * o + c))%R
            = Rsum o (fun c =>
                        Rsum f (fun k => get x' (i / o * f + k)
                                         * get lw ((hh * o + c) * f + k))
                        * get a (hh * o + c))%R).
  { intros a. apply Rsum_ext. intros c Hc. now rewrite Hs1. }
  now rewrite !Hs2, Hs1.
Qed.

(** One gated layer of a graph branch, run on two inputs and two edge sets
    from the same state of the generator. *)
Lemma gated_layer_pair (sd : state_dict) (nm_g nm_l : string) (D gd h : nat)
      (A inp inp' prev prev' : tensor) (e e' : EdgeIndex)
      (act : tensor -> tensor) (g : Generator) (B N : nat) :
  shape A = [N; N] -> shape inp = [B * N; D] -> shape prev = [B * N; gd] ->
  agree_from (N * D) inp inp' -> agree_from (N * gd) prev prev' ->
  edges_within N e -> edges_within N e' ->
  1 <= B -> 1 <= N -> 1 <= D -> 1 <= gd ->
  (forall t, shape (act t) = shape t) ->
  (forall k t t', agree_from k t t' -> agree_from k (act t) (act t')) ->
  exists out out',
    shape out = [B * N; gd] /\ agree_from (N * gd) out out'
    /\ (forall (T : Type) (K : tensor -> M T),
          (gout <~ GATConv.forward (GATConv.init sd nm_g D gd h false) inp e ;;
           adp_input <~ reshape inp [None; Some N; Some D] ;;
           d <- dropout adp_input 0.1 true ;;
           m <~ matmul A d ;;
           adp <~ Linear.forward (Linear.init sd nm_l D gd) m ;;
           adp <~ reshape adp [None; Some gd] ;;
           l <~ mul (act gout) (sigmoid adp) ;;
           r <~ mul prev (one_minus (sigmoid adp)) ;;
           out <~ add l r ;;
           K out) g
          = K out (advance g (B * N * D)))
    /\ (forall (T : Type) (K : tensor -> M T),
          (gout <~ GATConv.forward (GATConv.init sd nm_g D gd h false) inp' e' ;;
           adp_input <~ reshape inp' [None; Some N; Some D] ;;
           d <- dropout adp_input 0.1 true ;;
           m <~ matmul A d ;;
           adp <~ Linear.forward (Linear.init sd nm_l D gd) m ;;
           adp <~ reshape adp [None; Some gd] ;;
           l <~ mul (act gout) (sigmoid adp) ;;
           r <~ mul prev' (one_minus (sigmoid adp)) ;;
           out <~ add l r ;;
           K out) g
          = K out' (advance g (B * N * D))).
Proof.
  intros HA Hinp Hprev Ainp Aprev He He' HB HN HD Hgd Hact Aact.
  assert (Hinp' : shape inp' = [B * N; D]) by (destruct Ainp; congruence).
  assert (Hprev' : shape prev' = [B * N; gd]) by (destruct Aprev; congruence).
  assert (Hle : N <= B * N) by nia.
  (* the first run *)
  destruct (GATConv_forward_ok sd nm_g D gd h inp e (B * N) Hinp
              (edges_within_mono _ _ _ (ei_device e) Hle He))
    as (gout & Eg & Sg).
  replace (to e (ei_device e)) with e in Eg by (now destruct e).
  destruct (reshape_infer inp [None; Some N; Some D] B) as (ai & Ea & Sa).
  1-3: rewrite ?Hinp; shape_arith.
  cbn [fill map] in Sa.
  destruct (F_dropout_ok ai g) as (d & Ed & Sd). rewrite Sa in Sd.
  replace (numel (shape ai)) with (B * N * D) in Ed
    by (rewrite Sa; cbn [numel fold_right]; ring).
  destruct (matmul_batch_ok A d N N D B HA Sd) as (m & Em & Sm).
  destruct (Linear_forward_ok sd nm_l D gd m [B; N] Sm) as (adp & El & Sl).
  cbn [app] in Sl.
  destruct (reshape_infer adp [None; Some gd] (B * N)) as (adp2 & Er & Sr).
  1-3: rewrite ?Sl; shape_arith.
  cbn [fill map] in Sr.
  destruct (binary_same_shape Rmult (act gout) (sigmoid adp2) [B * N; gd])
    as (l & Eml & Sml & _); [now rewrite Hact | exact Sr |].
  destruct (binary_same_shape Rmult prev (one_minus (sigmoid adp2)) [B * N; gd])
    as (r & Emr & Smr & _); [exact Hprev | exact Sr |].
  destruct (binary_same_shape Rplus l r [B * N; gd] Sml Smr) as (out & Eo & So & _).
  (* the second run *)
  destruct (GATConv_forward_ok sd nm_g D gd h inp' e' (B * N) Hinp'
              (edges_within_mono _ _ _ (ei_device e') Hle He'))
    as (gout' & Eg' & Sg').
  replace (to e' (ei_device e')) with e' in Eg' by (now destruct e').
  destruct (reshape_infer inp' [None; Some N; Some D] B) as (ai' & Ea' & Sa').
  1-3: rewrite ?Hinp'; shape_arith.
  cbn [fill map] in Sa'.
  destruct (F_dropout_ok ai' g) as (d' & Ed' & Sd'). rewrite Sa' in Sd'.
  replace (numel (shape ai')) with (B * N * D) in Ed'
    by (rewrite Sa'; cbn [numel fold_right]; ring).
  destruct (matmul_batch_ok A d' N N D B HA Sd') as (m' & Em' & Sm').
  destruct (Linear_forward_ok sd nm_l D gd m' [B; N] Sm') as (adp' & El' & Sl').
  cbn [app] in Sl'.
  destruct (reshape_infer adp' [None; Some gd] (B * N)) as (adp2' & Er' & Sr').
  1-3: rewrite ?Sl'; shape_arith.
  cbn [fill map] in Sr'.
  destruct (binary_same_shape Rmult (act gout') (sigmoid adp2') [B * N; gd])
    as (l' & Eml' & Sml' & _); [now rewrite Hact | exact Sr' |].
  destruct (binary_same_shape Rmult prev' (one_minus (sigmoid adp2')) [B * N; gd])
    as (r' & Emr' & Smr' & _); [exact Hprev' | exact Sr' |].
  destruct (binary_same_shape Rplus l' r' [B * N; gd] Sml' Smr')
    as (out' & Eo' & So' & _).
  (* what the two runs share *)
  pose proof (agree_from_gat sd nm_g D gd h inp inp' gout gout' e e' (B * N) N
                Hinp Ainp He He' Eg Eg') as Agout.
  pose proof (agree_from_reshape _ _ _ _ _ _ Ainp Ea Ea') as Aai.
  pose proof (agree_from_dropout _ _ _ _ _ _ _ _ _ Aai Ed Ed') as Ad.
  pose proof (agree_from_matmul A d d' m m' N D B HA Sd Ad Em Em') as Am.
  pose proof (agree_from_linear sd nm_l D gd N m m' adp adp' [B; N] Sm Am El El')
    as Aadp.
  pose proof (agree_from_reshape _ _ _ _ _ _ Aadp Er Er') as Aadp2.
  pose proof (agree_from_binary Rmult (N * gd) [B * N; gd]
                (act gout) (act gout') (sigmoid adp2) (sigmoid adp2') l l'
                (eq_trans (Hact gout) Sg) Sr
                (Aact _ _ _ Agout) (agree_from_pointwise sigmoid_R _ _ _ Aadp2)
                Eml Eml') as Al.
  pose proof (agree_from_binary Rmult (N * gd) [B * N; gd]
                prev prev' (one_minus (sigmoid adp2)) (one_minus (sigmoid adp2'))
                r r' Hprev Sr Aprev
                (agree_from_pointwise (fun v => (1 - v)%R) _ _ _
                   (agree_from_pointwise sigmoid_R _ _ _ Aadp2))
                Emr Emr') as Ar.
  pose proof (agree_from_binary Rplus (N * gd) [B * N; gd] l l' r r' out out'
                Sml Smr Al Ar Eo Eo') as Aout.
  exists out, out'. split; [exact So|]. split; [exact Aout|]. split.
  - intros T K.
    rewrite (bind_lift_ok _ _ _ _ Eg). cbv beta.
    rewrite (bind_lift_ok _ _ _ _ Ea). cbv beta.
    rewrite (bind_ok _ _ _ _ _ Ed). cbv beta.
    rewrite (bind_lift_ok _ _ _ _ Em). cbv beta.
    rewrite (bind_lift_ok _ _ _ _ El). cbv beta.
    rewrite (bind_lift_ok _ _ _ _ Er). cbv beta.
    unfold mul, add.
    rewrite (bind_lift_ok _ _ _ _ Eml). cbv beta.
    rewrite (bind_lift_ok _ _ _ _ Emr). cbv beta.
    rewrite (bind_lift_ok _ _ _ _ Eo). reflexivity.
  - intros T K.
    rewrite (bind_lift_ok _ _ _ _ Eg'). cbv beta.
    rewrite (bind_lift_ok _ _ _ _ Ea'). cbv beta.
    rewrite (bind_ok _ _ _ _ _ Ed'). cbv beta.
    rewrite (bind_lift_ok _ _ _ _ Em'). cbv beta.
    rewrite (bind_lift_ok _ _ _ _ El'). cbv beta.
    rewrite (bind_lift_ok _ _ _ _ Er'). cbv beta.
    unfold mul, add.
    rewrite (bind_lift_ok _ _ _ _ Eml'). cbv beta.
    rewrite (bind_lift_ok _ _ _ _ Emr'). cbv beta.
    rewrite (bind_lift_ok _ _ _ _ Eo'). reflexivity.
Qed.

(** The first layer of a graph branch, whose gate mixes with a linear map of
    the input, on two edge sets. *)
Lemma first_layer_pair (sd : state_dict) (nm_g nm_l nm_o : string) (W gd h : nat)
      (A x : tensor) (e e' : EdgeIndex) (g : Generator) (B N : nat) :
  shape A = [N; N] -> shape x = [B * N; W] ->
  edges_within N e -> edges_within N e' ->
  1 <= B -> 1 <= N -> 1 <= W -> 1 <= gd ->
  exists out out',
    shape out = [B * N; gd] /\ agree_from (N * gd) out out'
    /\ (forall (T : Type) (K : tensor -> M T),
          (gout <~ GATConv.forward (GATConv.init sd nm_g W gd h false) x e ;;
           adp_input <~ reshape x [None; Some N; Some W] ;;
           d <- dropout adp_input 0.1 true ;;
           m <~ matmul A d ;;
           adp <~ Linear.forward (Linear.init sd nm_l W gd) m ;;
           adp <~ reshape adp [None; Some gd] ;;
           origin <~ Linear.forward (Linear.init sd nm_o W gd) x ;;
           l <~ mul (tanh gout) (sigmoid adp) ;;
           r <~ mul origin (one_minus (sigmoid adp)) ;;
           out <~ add l r ;;
           K out) g
          = K out (advance g (B * N * W)))
    /\ (forall (T : Type) (K : tensor -> M T),
          (gout <~ GATConv.forward (GATConv.init sd nm_g W gd h false) x e' ;;
           adp_input <~ reshape x [None; Some N; Some W] ;;
           d <- dropout adp_input 0.1 true ;;
           m <~ matmul A d ;;
           adp <~ Linear.forward (Linear.init sd nm_l W gd) m ;;
           adp <~ reshape adp [None; Some gd] ;;
           origin <~ Linear.forward (Linear.init sd nm_o W gd) x ;;
           l <~ mul (tanh gout) (sigmoid adp) ;;
           r <~ mul origin (one_minus (sigmoid adp)) ;;
           out <~ add l r ;;
           K out) g
          = K out' (advance g (B * N * W))).
Proof.
  intros HA Hx He He' HB HN HW Hgd.
  assert (Hle : N <= B * N) by nia.
  destruct (GATConv_forward_ok sd nm_g W gd h x e (B * N) Hx
              (edges_within_mono _ _ _ (ei_device e) Hle He))
    as (gout & Eg & Sg).
  replace (to e (ei_device e)) with e in Eg by (now destruct e).
  destruct (GATConv_forward_ok sd nm_g W gd h x e' (B * N) Hx
              (edges_within_mono _ _ _ (ei_device e') Hle He'))
    as (gout' & Eg' & Sg').
  replace (to e' (ei_device e')) with e' in Eg' by (now destruct e').
  destruct (reshape_infer x [None; Some N; Some W] B) as (ai & Ea & Sa).
  1-3: rewrite ?Hx; shape_arith.
  cbn [fill map] in Sa.
  destruct (F_dropout_ok ai g) as (d & Ed & Sd). rewrite Sa in Sd.
  replace (numel (shape ai)) with (B * N * W) in Ed
    by (rewrite Sa; cbn [numel fold_right]; ring).
  destruct (matmul_batch_ok A d N N W B HA Sd) as (m & Em & Sm).
  destruct (Linear_forward_ok sd nm_l W gd m [B; N] Sm) as (adp & El & Sl).
  cbn [app] in Sl.
  destruct (reshape_infer adp [None; Some gd] (B * N)) as (adp2 & Er & Sr).
  1-3: rewrite ?Sl; shape_arith.
  cbn [fill map] in Sr.
  destruct (Linear_forward_ok sd nm_o W gd x [B * N] Hx) as (origin & Eor & Sor).
  cbn [app] in Sor.
  destruct (binary_same_shape Rmult (tanh gout) (sigmoid adp2) [B * N; gd] Sg Sr)
    as (l & Eml & Sml & _).
  destruct (binary_same_shape Rmult (tanh gout') (sigmoid adp2) [B * N; gd] Sg' Sr)
    as (l' & Eml' & Sml' & _).
  destruct (binary_same_shape Rmult origin (one_minus (sigmoid adp2)) [B * N; gd]
                              Sor Sr)
    as (r & Emr & Smr & _).
  destruct (binary_same_shape Rplus l r [B * N; gd] Sml Smr) as (out & Eo & So & _).
  destruct (binary_same_shape Rplus l' r [B * N; gd] Sml' Smr)
    as (out' & Eo' & So' & _).
  pose proof (agree_from_gat sd nm_g W gd h x x gout gout' e e' (B * N) N
                Hx (agree_from_refl _ x) He He' Eg Eg') as Agout.
  pose proof (agree_from_binary Rmult (N * gd) [B * N; gd]
                (tanh gout) (tanh gout') (sigmoid adp2) (sigmoid adp2) l l'
                Sg Sr (agree_from_pointwise _ _ _ _ Agout)
                (agree_from_refl _ _) Eml Eml') as Al.
  pose proof (agree_from_binary Rplus (N * gd) [B * N; gd] l l' r r out out'
                Sml Smr Al (agree_from_refl _ r) Eo Eo') as Aout.
  exists out, out'. split; [exact So|]. split; [exact Aout|]. split.
  - intros T K.
    rewrite (bind_lift_ok _ _ _ _ Eg). cbv beta.
    rewrite (bind_lift_ok _ _ _ _ Ea). cbv beta.
    rewrite (bind_ok _ _ _ _ _ Ed). cbv beta.
    rewrite (bind_lift_ok _ _ _ _ Em). cbv beta.
    rewrite (bind_lift_ok _ _ _ _ El). cbv beta.
    rewrite (bind_lift_ok _ _ _ _ Er). cbv beta.
    rewrite (bind_lift_ok _ _ _ _ Eor). cbv beta.
    unfold mul, add.
    rewrite (bind_lift_ok _ _ _ _ Eml). cbv beta.
    rewrite (bind_lift_ok _ _ _ _ Emr). cbv beta.
    rewrite (bind_lift_ok _ _ _ _ Eo). reflexivity.
  - intros T K.
    rewrite (bind_lift_ok _ _ _ _ Eg'). cbv beta.
    rewrite (bind_lift_ok _ _ _ _ Ea). cbv beta.
    rewrite (bind_ok _ _ _ _ _ Ed). cbv beta.
    rewrite (bind_lift_ok _ _ _ _ Em). cbv beta.
    rewrite (bind_lift_ok _ _ _ _ El). cbv beta.
    rewrite (bind_lift_ok _ _ _ _ Er). cbv beta.
    rewrite (bind_lift_ok _ _ _ _ Eor). cbv beta.
    unfold mul, add.
    rewrite (bind_lift_ok _ _ _ _ Eml'). cbv beta.
    rewrite (bind_lift_ok _ _ _ _ Emr). cbv beta.
    rewrite (bind_lift_ok _ _ _ _ Eo'). reflexivity.
Qed.

(** A graph branch once its attributes are unfolded, on two edge sets. *)
Ltac graph_pair sd n1 n2 n3 n4 n5 n6 n7 n8 n9 n10 n11 h4 N W gd B x e e' g :=
  let A := fresh "A" in
  let EA := fresh "EA" in
  let SA := fresh "SA" in
  destruct (learned_matrix_row_stochastic (parameter sd n6 [N; 12])
              (parameter sd n7 [12; N]) N 12 eq_refl eq_refl)
    as (A & EA & SA & _);
  match goal with
  | Hx : shape x = [B * N; W], He : edges_within N e, He' : edges_within N e',
    HB1 : 1 <= B, HN1 : 1 <= N, HW1 : 1 <= W, Hgd1 : 1 <= gd |- _ =>
    let o1 := fresh "o" in let o1' := fresh "o" in
    let S1 := fresh "So" in let A1 := fresh "Ao" in
    let E1 := fresh "Eo" in let E1' := fresh "Eo" in
    destruct (first_layer_pair sd n2 n8 n1 W gd 3 A x e e' g B N
                SA Hx He He' HB1 HN1 HW1 Hgd1)
      as (o1 & o1' & S1 & A1 & E1 & E1');
    let o2 := fresh "o" in let o2' := fresh "o" in
    let S2 := fresh "So" in let A2 := fresh "Ao" in
    let E2 := fresh "Eo" in let E2' := fresh "Eo" in
    destruct (gated_layer_pair sd n3 n9 gd gd 3 A (tanh o1) (tanh o1') o1 o1' e e'
                leaky_relu (advance g (B * N * W)) B N SA S1 S1
                (agree_from_pointwise _ _ _ _ A1) A1 He He' HB1 HN1 Hgd1 Hgd1
                (fun _ => eq_refl) (agree_from_pointwise _))
      as (o2 & o2' & S2 & A2 & E2 & E2');
    let o3 := fresh "o" in let o3' := fresh "o" in
    let S3 := fresh "So" in let A3 := fresh "Ao" in
    let E3 := fresh "Eo" in let E3' := fresh "Eo" in
    destruct (gated_layer_pair sd n4 n10 gd gd 3 A (relu o2) (relu o2') o2 o2' e e'
                relu (advance (advance g (B * N * W)) (B * N * gd)) B N SA S2 S2
                (agree_from_pointwise _ _ _ _ A2) A2 He He' HB1 HN1 Hgd1 Hgd1
                (fun _ => eq_refl) (agree_from_pointwise _))
      as (o3 & o3' & S3 & A3 & E3 & E3');
    let o4 := fresh "o" in let o4' := fresh "o" in
    let S4 := fresh "So" in let A4 := fresh "Ao" in
    let E4 := fresh "Eo" in let E4' := fresh "Eo" in
    destruct (gated_layer_pair sd n5 n11 gd gd h4 A (relu o3) (relu o3') o3 o3' e e'
                relu
                (advance (advance (advance g (B * N * W)) (B * N * gd)) (B * N * gd))
                B N SA S3 S3
                (agree_from_pointwise _ _ _ _ A3) A3 He He' HB1 HN1 Hgd1 Hgd1
                (fun _ => eq_refl) (agree_from_pointwise _))
      as (o4 & o4' & S4 & A4 & E4 & E4');
    let y := fresh "y" in let Ey := fresh "Ey" in let Sy := fresh "Sy" in
    destruct (reshape_infer o4 [None; Some N; Some gd] B) as (y & Ey & Sy);
    [rewrite ?S4; shape_arith .. |];
    let y' := fresh "y" in let Ey' := fresh "Ey" in let Sy' := fresh "Sy" in
    destruct (reshape_infer o4' [None; Some N; Some gd] B) as (y' & Ey' & Sy');
    [rewrite <- ?(proj1 A4), ?S4; shape_arith .. |];
    exists y, y';
    split;
    [ rewrite (bind_lift_ok _ _ _ _ EA); cbv beta;
      rewrite E1, E2, E3, E4; unfold lift; rewrite Ey, graph_samples_eq;
      reflexivity
    | split;
      [ rewrite (bind_lift_ok _ _ _ _ EA); cbv beta;
        rewrite E1', E2', E3', E4'; unfold lift; rewrite Ey', graph_samples_eq;
        reflexivity
      | split;
        [ exact Sy
        | exact (agree_from_reshape _ _ _ _ _ _ A4 Ey Ey') ] ] ]
  end.

Lemma spatial_pair (cell : STCell.t) (sd : state_dict)
      (n1 n2 n3 n4 n5 n6 n7 n8 n9 n10 n11 : string) (N W gd B : nat)
      (x : tensor) (e e' : EdgeIndex) (g : Generator) :
  STCell.sp_attrs cell
  = Some (STCell.mk_sp
            (Linear.init sd n1 W gd)
            (GATConv.init sd n2 W gd 3 false)
            (GATConv.init sd n3 gd gd 3 false)
            (GATConv.init sd n4 gd gd 3 false)
            (GATConv.init sd n5 gd gd 1 false)
            (parameter sd n6 [N; 12])
            (parameter sd n7 [12; N])
            (Linear.init sd n8 W gd)
            (Linear.init sd n9 gd gd)
            (Linear.init sd n10 gd gd)
            (Linear.init sd n11 gd gd)) ->
  STCell.node_num cell = N -> STCell.seq_len cell = W ->
  STCell.graph_dim cell = gd ->
  1 <= B -> 1 <= N -> 1 <= W -> 1 <= gd ->
  shape x = [B * N; W] -> edges_within N e -> edges_within N e' ->
  exists y y',
    STCell.spatial cell x e g = (Ok y, advance g (graph_samples B N W gd))
    /\ STCell.spatial cell x e' g = (Ok y', advance g (graph_samples B N W gd))
    /\ shape y = [B; N; gd]
    /\ agree_from (N * gd) y y'.
Proof.
  intros Ha HN HW Hgd HB1 HN1 HW1 Hgd1 Hx He He'.
  unfold STCell.spatial. rewrite Ha, HN, HW, Hgd. cbn [attr].
  rewrite !(bind_lift_ok _ _ _ _ eq_refl). cbv beta.
  cbn [STCell.sp_origin STCell.sp_gconv1 STCell.sp_gconv2 STCell.sp_gconv3
       STCell.sp_gconv4 STCell.sp_source_embed STCell.sp_target_embed
       STCell.sp_linear_1 STCell.sp_linear_2 STCell.sp_linear_3
       STCell.sp_linear_4].
  graph_pair sd n1 n2 n3 n4 n5 n6 n7 n8 n9 n10 n11 1 N W gd B x e e' g.
Qed.

Lemma semantic_pair (cell : STCell.t) (sd : state_dict)
      (n1 n2 n3 n4 n5 n6 n7 n8 n9 n10 n11 : string) (N W gd B : nat)
      (x : tensor) (e e' : EdgeIndex) (g : Generator) :
  STCell.dtw_attrs cell
  = Some (STCell.mk_dtw
            (Linear.init sd n1 W gd)
            (GATConv.init sd n2 W gd 3 false)
            (GATConv.init sd n3 gd gd 3 false)
            (GATConv.init sd n4 gd gd 3 false)
            (GATConv.init sd n5 gd gd 3 false)
            (parameter sd n6 [N; 12])
            (parameter sd n7 [12; N])
            (Linear.init sd n8 W gd)
            (Linear.init sd n9 gd gd)
            (Linear.init sd n10 gd gd)
            (Linear.init sd n11 gd gd)) ->
  STCell.node_num cell = N -> STCell.seq_len cell = W ->
  STCell.graph_dim cell = gd ->
  1 <= B -> 1 <= N -> 1 <= W -> 1 <= gd ->
  shape x = [B * N; W] -> edges_within N e -> edges_within N e' ->
  exists y y',
    STCell.semantic cell x e g = (Ok y, advance g (graph_samples B N W gd))
    /\ STCell.semantic cell x e' g = (Ok y', advance g (graph_samples B N W gd))
    /\ shape y = [B; N; gd]
    /\ agree_from (N * gd) y y'.
Proof.
  intros Ha HN HW Hgd HB1 HN1 HW1 Hgd1 Hx He He'.
  unfold STCell.semantic. rewrite Ha, HN, HW, Hgd. cbn [attr].
  rewrite !(bind_lift_ok _ _ _ _ eq_refl). cbv beta.
  cbn [STCell.dtw_origin STCell.dtw_gconv1 STCell.dtw_gconv2 STCell.dtw_gconv3
       STCell.dtw_gconv4 STCell.dtw_source_embed STCell.dtw_target_embed
       STCell.dtw_linear_1 STCell.dtw_linear_2 STCell.dtw_linear_3
       STCell.dtw_linear_4].
  graph_pair sd n1 n2 n3 n4 n5 n6 n7 n8 n9 n10 n11 3 N W gd B x e e' g.
Qed.

Lemma branches_pair (sd : state_dict) (name : string) (N W gd : nat)
      (chs : list nat) (c0 c1 c2 h : nat) (training : bool) (cell : STCell.t)
      (B : nat) (x : tensor) (e de e' de' : EdgeIndex) (g : Generator) :
  STCell.init sd name N W gd chs [c0; c1; c2] h training = Ok cell ->
  1 <= B -> 1 <= N -> 1 <= W -> 1 <= gd ->
  shape x = [B * N; W] ->
  edges_within N e -> edges_within N de ->
  edges_within N e' -> edges_within N de' ->
  exists o0 o1 o2 o1' o2' g',
    STCell.branches cell x e de g = (Ok [o0; o1; o2], g')
    /\ STCell.branches cell x e' de' g = (Ok [o0; o1'; o2'], g')
    /\ slot [B; N; gd] c0 o0
    /\ slot [B; N; gd] c1 o1 /\ slot [B; N; gd] c1 o1'
    /\ slot [B; N; gd] c2 o2 /\ slot [B; N; gd] c2 o2'
    /\ slot_agree (N * gd) o1 o1' /\ slot_agree (N * gd) o2 o2'.
Proof.
  intros Hinit HB1 HN1 HW1 Hgd1 Hx He Hde He' Hde'.
  destruct (STCell_init_inv sd name N W gd chs c0 c1 c2 h training cell Hinit)
    as (HN & HW & Hgd & Hchs & _ & Hch & Hsl & Ht & Hs & Hd).
  unfold STCell.branches, slot. rewrite Hch.
  cbn [getitem nth_error].
  (* the temporal branch *)
  assert (H0 : exists o0 g0,
             (if c0 =? 1
              then tcn_output <- STCell.temporal cell x ;;
                   ret (STCell.setitem [None; None; None] 0 (Some tcn_output))
              else ret [None; None; None]) g
             = (Ok [o0; None; None], g0)
             /\ (if c0 =? 1 then exists t, o0 = Some t /\ shape t = [B; N; gd]
                 else o0 = None)).
  { destruct (c0 =? 1) eqn:E0.
    - apply Nat.eqb_eq in E0. destruct (Ht E0) as (m & d & Hta & Hm & Hlast).
      destruct (temporal_ok cell _ sd _ _ chs d training N W gd B x g
                            Hta HN HW Hgd Hchs Hm eq_refl eq_refl Hlast
                            HN1 HW1 Hgd1 Hx) as (y & g0 & Ey & Sy).
      exists (Some y), g0. rewrite (bind_ok _ _ _ _ _ Ey). cbv beta.
      split; [reflexivity|]. now exists y.
    - exists None, g. now split. }
  destruct H0 as (o0 & g0 & E0 & S0).
  (* the spatial branch *)
  assert (H1 : exists x1 o1 o1' g1,
             (if c1 =? 1
              then x' <~ STCell.residual cell x ;;
                   sp_output <- STCell.spatial cell x' e ;;
                   ret (x', STCell.setitem [o0; None; None] 1 (Some sp_output))
              else ret (x, [o0; None; None])) g0
             = (Ok (x1, [o0; o1; None]), g1)
             /\ (if c1 =? 1
                 then x' <~ STCell.residual cell x ;;
                      sp_output <- STCell.spatial cell x' e' ;;
                      ret (x', STCell.setitem [o0; None; None] 1 (Some sp_output))
                 else ret (x, [o0; None; None])) g0
                = (Ok (x1, [o0; o1'; None]), g1)
             /\ shape x1 = [B * N; W]
             /\ (if c1 =? 1 then exists t, o1 = Some t /\ shape t = [B; N; gd]
                 else o1 = None)
             /\ (if c1 =? 1 then exists t, o1' = Some t /\ shape t = [B; N; gd]
                 else o1' = None)
             /\ slot_agree (N * gd) o1 o1').
  { destruct (c1 =? 1) eqn:E1.
    - apply Nat.eqb_eq in E1.
      destruct (residual_ok cell sd _ W (B * N) x Hsl Hx) as (x1 & Ex1 & Sx1).
      rewrite !(bind_lift_ok _ _ _ _ Ex1). cbv beta.
      destruct (spatial_pair cell sd _ _ _ _ _ _ _ _ _ _ _ N W gd B x1 e e' g0
                             (Hs E1) HN HW Hgd HB1 HN1 HW1 Hgd1 Sx1 He He')
        as (y & y' & Ey & Ey' & Sy & Ay).
      exists x1, (Some y), (Some y'), (advance g0 (graph_samples B N W gd)).
      rewrite (bind_ok _ _ _ _ _ Ey), (bind_ok _ _ _ _ _ Ey'). cbv beta.
      split; [reflexivity|]. split; [reflexivity|]. split; [exact Sx1|].
      split; [now exists y|]. split; [|exact Ay].
      exists y'. split; [reflexivity|]. destruct Ay as [Hsy _]. congruence.
    - exists x, None, None, g0. repeat split; reflexivity || assumption. }
  destruct H1 as (x1 & o1 & o1' & g1 & E1 & E1' & Sx1 & S1 & S1' & A1).
  (* the semantic branch *)
  assert (H2 : exists o2 o2' g2,
             (if c2 =? 1
              then x' <~ STCell.residual cell x1 ;;
                   dtw_output <- STCell.semantic cell x' de ;;
                   ret (STCell.setitem [o0; o1; None] 2 (Some dtw_output))
              else ret [o0; o1; None]) g1
             = (Ok [o0; o1; o2], g2)
             /\ (if c2 =? 1
                 then x' <~ STCell.residual cell x1 ;;
                      dtw_output <- STCell.semantic cell x' de' ;;
                      ret (STCell.setitem [o0; o1'; None] 2 (Some dtw_output))
                 else ret [o0; o1'; None]) g1
                = (Ok [o0; o1'; o2'], g2)
             /\ (if c2 =? 1 then exists t, o2 = Some t /\ shape t = [B; N; gd]
                 else o2 = None)
             /\ (if c2 =? 1 then exists t, o2' = Some t /\ shape t = [B; N; gd]
                 else o2' = None)
             /\ slot_agree (N * gd) o2 o2').
  { destruct (c2 =? 1) eqn:E2.
    - apply Nat.eqb_eq in E2.
      destruct (residual_ok cell sd _ W (B * N) x1 Hsl Sx1) as (x2 & Ex2 & Sx2).
      rewrite !(bind_lift_ok _ _ _ _ Ex2). cbv beta.
      destruct (semantic_pair cell sd _ _ _ _ _ _ _ _ _ _ _ N W gd B x2 de de' g1
                              (Hd E2) HN HW Hgd HB1 HN1 HW1 Hgd1 Sx2 Hde Hde')
        as (y & y' & Ey & Ey' & Sy & Ay).
      exists (Some y), (Some y'), (advance g1 (graph_samples B N W gd)).
      rewrite (bind_ok _ _ _ _ _ Ey), (bind_ok _ _ _ _ _ Ey'). cbv beta.
      split; [reflexivity|]. split; [reflexivity|].
      split; [now exists y|]. split; [|exact Ay].
      exists y'. split; [reflexivity|]. destruct Ay as [Hsy _]. congruence.
    - exists None, None, g1. repeat split; reflexivity || assumption. }
  destruct H2 as (o2 & o2' & g2 & E2 & E2' & S2 & S2' & A2).
  exists o0, o1, o2, o1', o2', g2.
  split; [|split].
  - rewrite (bind_lift_ok _ _ _ _ eq_refl). cbv beta.
    rewrite (bind_ok _ _ _ _ _ E0). cbv beta.
    rewrite (bind_lift_ok _ _ _ _ eq_refl). cbv beta.
    rewrite (bind_ok _ _ _ _ _ E1). cbv beta. cbn [fst snd].
    rewrite (bind_lift_ok _ _ _ _ eq_refl). cbv beta.
    exact E2.
  - rewrite (bind_lift_ok _ _ _ _ eq_refl). cbv beta.
    rewrite (bind_ok _ _ _ _ _ E0). cbv beta.
    rewrite (bind_lift_ok _ _ _ _ eq_refl). cbv beta.
    rewrite (bind_ok _ _ _ _ _ E1'). cbv beta. cbn [fst snd].
    rewrite (bind_lift_ok _ _ _ _ eq_refl). cbv beta.
    exact E2'.
  - repeat (split; [assumption|]). assumption.
Qed.

Lemma agree_from_eq (k k' : nat) (x x' : tensor) :
  k = k' -> agree_from k x x' -> agree_from k' x x'.
Proof. now intros ->. Qed.

Lemma fold_cat_agree (B N gd : nat) (rest rest' : list tensor) :
  Forall2 (fun t t' => shape t = [B; N; gd] /\ agree_from (N * gd) t t')
          rest rest' ->
  forall (acc acc' c c' : tensor) (k : nat),
    shape acc = [B; N; k * gd] -> agree_from (N * (k * gd)) acc acc' ->
    fold_left (fun acc v => a <-- acc ;; cat a v 2) rest (Ok acc) = Ok c ->
    fold_left (fun acc v => a <-- acc ;; cat a v 2) rest' (Ok acc') = Ok c' ->
    agree_from (N * ((k + length rest) * gd)) c c'.
Proof.
  induction 1 as [|t t' rest rest' [St At] _ IH]; intros acc acc' c c' k Sacc Aacc.
  - cbn [fold_left length]. intros Hc Hc'. inversion Hc. inversion Hc'. subst.
    now rewrite Nat.add_0_r.
  - cbn [fold_left length rbind].
    assert (Sacc' : shape acc' = [B; N; k * gd]) by (destruct Aacc; congruence).
    assert (St' : shape t' = [B; N; gd]) by (destruct At; congruence).
    destruct (cat2_ok acc t B N (k * gd) gd Sacc St) as (a & Ea & Sa).
    destruct (cat2_ok acc' t' B N (k * gd) gd Sacc' St') as (a' & Ea' & Sa').
    rewrite Ea, Ea'. intros Hc Hc'.
    replace (k + S (length rest)) with (S k + length rest) by lia.
    apply (IH a a' c c' (S k)); try assumption.
    + rewrite Sa. do 3 f_equal. cbn [Nat.mul]. lia.
    + apply (agree_from_eq (N * (k * gd + gd))); [cbn [Nat.mul]; lia|].
      exact (agree_from_cat acc acc' t t' a a' B N (k * gd) gd Sacc St Aacc At
                            Ea Ea').
Qed.

Lemma cat_all_agree (B N gd c0 c1 c2 : nat) (o0 o1 o2 o1' o2' : option tensor)
      (c c' : tensor) :
  c0 <= 1 -> c1 <= 1 -> c2 <= 1 ->
  slot [B; N; gd] c0 o0 ->
  slot [B; N; gd] c1 o1 -> slot [B; N; gd] c1 o1' ->
  slot [B; N; gd] c2 o2 -> slot [B; N; gd] c2 o2' ->
  slot_agree (N * gd) o1 o1' -> slot_agree (N * gd) o2 o2' ->
  cat_all (enabled [c0; c1; c2] [o0; o1; o2]) = Ok c ->
  cat_all (enabled [c0; c1; c2] [o0; o1'; o2']) = Ok c' ->
  agree_from (N * ((c0 + c1 + c2) * gd)) c c'.
Proof.
  intros H0 H1 H2 S0 S1 S1' S2 S2' A1 A2.
  assert (HF : Forall2 (fun t t' => shape t = [B; N; gd]
                                    /\ agree_from (N * gd) t t')
                       (enabled [c0; c1; c2] [o0; o1; o2])
                       (enabled [c0; c1; c2] [o0; o1'; o2'])
               /\ length (enabled [c0; c1; c2] [o0; o1; o2]) = c0 + c1 + c2).
  { unfold slot in *.
    destruct c0 as [|[|c0]]; [| |lia];
      destruct c1 as [|[|c1]]; try lia;
        destruct c2 as [|[|c2]]; try lia;
          cbn [Nat.eqb] in *;
          repeat match goal with
                 | H : exists t, _ = Some t /\ _ |- _ =>
                   let t := fresh "t" in
                   let St := fresh "St" in
                   destruct H as (t & -> & St)
                 | H : _ = None |- _ => subst
                 end;
          cbn [slot_agree] in *; cbn [enabled Nat.eqb app length];
          (split; [|reflexivity]);
          repeat (constructor; try (split; [assumption|]);
                  try assumption; try apply agree_from_refl). }
  destruct HF as [HF Hlen].
  unfold cat_all.
  destruct HF as [|t t' rest rest' [St At] HF]; [discriminate|].
  cbn [length] in Hlen. intros Hc Hc'.
  apply (agree_from_eq (N * ((1 + length rest) * gd)));
    [f_equal; f_equal; lia|].
  apply (fold_cat_agree B N gd rest rest' HF t t' c c' 1); try assumption.
  - rewrite St. do 3 f_equal. lia.
  - apply (agree_from_eq (N * gd)); [f_equal; lia | exact At].
Qed.

(** The model on two pairs of edge sets. *)
Lemma model_pair (sd : state_dict) (name : string)
      (N W P gd : nat) (chs : list nat) (c0 c1 c2 h : nat) (training : bool)
      (m : STAGGCNModel.t) (B : nat) (x : tensor) (e de e' de' : EdgeIndex)
      (g : Generator) :
  STAGGCNModel.init sd name N W P gd chs h [c0; c1; c2] training = Ok m ->
  c0 <= 1 -> c1 <= 1 -> c2 <= 1 -> 1 <= c0 + c1 + c2 ->
  1 <= B -> 1 <= N -> 1 <= W -> 1 <= gd ->
  shape x = [B * N; W] ->
  edges_within N e -> edges_within N de ->
  edges_within N e' -> edges_within N de' ->
  exists out out' g',
    STAGGCNModel.forward m x e de g = (Ok out, g')
    /\ STAGGCNModel.forward m x e' de' g = (Ok out', g')
    /\ shape out = [B * N; P]
    /\ agree_from (N * P) out out'.
Proof.
  intros Hinit H0 H1 H2 Hsum HB1 HN1 HW1 Hgd1 Hx He Hde He' Hde'.
  destruct (STAGGCNModel_init_inv sd name N W P gd chs h _ training m Hinit)
    as (Hcell & Hlin).
  destruct (STCell_init_inv sd _ N W gd chs c0 c1 c2 h training _ Hcell)
    as (_ & _ & _ & _ & Hod & Hch & _).
  destruct (branches_pair sd _ N W gd chs c0 c1 c2 h training _ B x e de e' de' g
                          Hcell HB1 HN1 HW1 Hgd1 Hx He Hde He' Hde')
    as (o0 & o1 & o2 & o1' & o2' & g' & Eb & Eb' & S0 & S1 & S1' & S2 & S2'
        & A1 & A2).
  destruct (concat_ok _ c0 c1 c2 gd B N o0 o1 o2 Hch Hod H0 H1 H2 Hsum Hgd1
                      S0 S1 S2) as (c & st & Ec & Sc & Er & Eo & So).
  destruct (concat_ok _ c0 c1 c2 gd B N o0 o1' o2' Hch Hod H0 H1 H2 Hsum Hgd1
                      S0 S1' S2') as (c' & st' & Ec' & Sc' & Er' & Eo' & So').
  pose proof (cat_all_agree B N gd c0 c1 c2 o0 o1 o2 o1' o2' c c'
                H0 H1 H2 S0 S1 S1' S2 S2' A1 A2 Ec Ec') as Ac.
  pose proof (agree_from_reshape _ _ _ _ _ _ Ac Er Er') as Ast.
  destruct (Linear_forward_ok sd (sub name "output_linear")
              ((c0 + (c1 + (c2 + 0))) * gd) P st [B * N]) as (out & El & Sout).
  { rewrite So. cbn [app]. do 3 f_equal. lia. }
  destruct (Linear_forward_ok sd (sub name "output_linear")
              ((c0 + (c1 + (c2 + 0))) * gd) P st' [B * N]) as (out' & El' & Sout').
  { rewrite So'. cbn [app]. do 3 f_equal. lia. }
  assert (Aout : agree_from (N * P) out out').
  { apply (agree_from_linear sd (sub name "output_linear")
             ((c0 + (c1 + (c2 + 0))) * gd) P N st st' out out' [B * N]).
    - rewrite So. cbn [app]. do 3 f_equal. lia.
    - apply (agree_from_eq (N * ((c0 + c1 + c2) * gd))); [f_equal; f_equal; lia|].
      exact Ast.
    - exact El.
    - exact El'. }
  exists out, out', g'.
  unfold STAGGCNModel.forward, STCell.forward.
  split; [|split; [|split; [exact Sout | exact Aout]]].
  - unfold bind, lift. rewrite Eb, Eo, Hlin. cbn [list_sum fold_right].
    now rewrite El.
  - unfold bind, lift. rewrite Eb', Eo', Hlin. cbn [list_sum fold_right].
    now rewrite El'.
Qed.

(** X12: the edges reach the first sample of a batch only.  [forward] hands
    the [batch_size * num_nodes] rows of a batch to the graph attention as
    the nodes of one graph, with the edge index of one sample; the nodes of
    the other samples have no edge but their own loop.  So with other edges
    among the [num_nodes] nodes, in either graph, [forward] draws the same
    random numbers and returns the same predictions for every sample but the
    first. *)
Theorem edges_reach_the_first_sample_only :
  forall (sd : state_dict) (training : bool) (config : STAGGCN.Config)
         (data_feature : STAGGCN.DataFeature) (self : STAGGCN.t)
         (batch : STAGGCN.Batch) (feature_dim : nat) (g : Generator)
         (e' de' : EdgeIndex),
    STAGGCN.init sd training config data_feature = Ok self ->
    sensible self -> 1 <= STAGGCN.batch_size self -> 1 <= feature_dim ->
    shape (STAGGCN.X batch)
    = [STAGGCN.batch_size self; STAGGCN.input_window self;
       STAGGCN.num_nodes self; feature_dim] ->
    edges_within (STAGGCN.num_nodes self) e' ->
    edges_within (STAGGCN.num_nodes self) de' ->
    exists out out' self1 self2 g',
      STAGGCN.forward self batch g = (Ok out, self1, g')
      /\ STAGGCN.forward
           (STAGGCN.set_dtw_edge_index (STAGGCN.set_edge_index self e') de')
           batch g
         = (Ok out', self2, g')
      /\ forall b p n,
           1 <= b -> b < STAGGCN.batch_size self ->
           p < STAGGCN.output_window self -> n < STAGGCN.num_nodes self ->
           get out ((b * STAGGCN.output_window self + p) * STAGGCN.num_nodes self + n)
           = get out' ((b * STAGGCN.output_window self + p)
                       * STAGGCN.num_nodes self + n).
Proof.
  intros sd training config data_feature self batch F g e' de'
         Hinit Hs HB HF HX He' Hde'.
  destruct Hs as (Hflags & HN1 & HW1 & Hgd1 & He & Hde).
  destruct Hflags as (c0 & c1 & c2 & Hch & H0 & H1 & H2 & Hsum).
  pose proof (STAGGCN_init_model sd training config data_feature self Hinit) as Hm.
  rewrite Hch in Hm.
  destruct (input_of_ok batch _ _ _ F HX HF HW1) as (x & Ex & Sx).
  set (d := STAGGCN.device_ self).
  destruct (model_pair sd "model" _ _ _ _ _ c0 c1 c2 _ training _
              (STAGGCN.batch_size self) x
              (to (STAGGCN.edge_index self) d) (to (STAGGCN.dtw_edge_index self) d)
              (to e' d) (to de' d) g
              Hm H0 H1 H2 Hsum HB HN1 HW1 Hgd1 Sx
              (edges_within_mono _ _ _ d (le_n _) He)
              (edges_within_mono _ _ _ d (le_n _) Hde)
              (edges_within_mono _ _ _ d (le_n _) He')
              (edges_within_mono _ _ _ d (le_n _) Hde'))
    as (outputs & outputs' & g' & Em & Em' & So & Ao).
  assert (So' : shape outputs'
                = [STAGGCN.batch_size self * STAGGCN.num_nodes self;
                   STAGGCN.output_window self])
    by (destruct Ao; congruence).
  destruct (reshape_known outputs
              [Some (STAGGCN.batch_size self); Some (STAGGCN.output_window self);
               Some (STAGGCN.num_nodes self); Some 1]) as (out & Eo & Sout).
  { reflexivity. }
  { rewrite So. cbn [known flat_map app numel fold_right]. ring. }
  destruct (reshape_known outputs'
              [Some (STAGGCN.batch_size self); Some (STAGGCN.output_window self);
               Some (STAGGCN.num_nodes self); Some 1]) as (out' & Eo' & Sout').
  { reflexivity. }
  { rewrite So'. cbn [known flat_map app numel fold_right]. ring. }
  pose proof (agree_from_reshape _ _ _ _ _ _ Ao Eo Eo') as [_ Aout].
  eexists out, out', _, _, g'.
  split; [|split].
  - unfold STAGGCN.forward. rewrite Ex.
    cbn [STAGGCN.set_edge_index STAGGCN.set_dtw_edge_index STAGGCN.model
         STAGGCN.edge_index STAGGCN.dtw_edge_index STAGGCN.device_
         STAGGCN.batch_size STAGGCN.output_window STAGGCN.num_nodes].
    fold d. rewrite Em, Eo. reflexivity.
  - unfold STAGGCN.forward. rewrite Ex.
    cbn [STAGGCN.set_edge_index STAGGCN.set_dtw_edge_index STAGGCN.model
         STAGGCN.edge_index STAGGCN.dtw_edge_index STAGGCN.device_
         STAGGCN.batch_size STAGGCN.output_window STAGGCN.num_nodes].
    fold d. rewrite Em', Eo'. reflexivity.
  - intros b p n Hb1 Hb Hp Hn. apply Aout.
    + nia.
    + rewrite Sout. unfold fill. cbn [map numel fold_right].
      rewrite Nat.mul_1_r, !Nat.mul_assoc. now apply row3_lt.
Qed.

Lemma example_model_of_two :
  exists self,
    STAGGCN.init example_sd true example_config_of_two example_data_feature
    = Ok self
    /\ sensible self
    /\ STAGGCN.batch_size self = 2 /\ STAGGCN.input_window self = 2
    /\ STAGGCN.num_nodes self = 2 /\ STAGGCN.output_window self = 1.
Proof.
  eexists. split; [reflexivity|].
  split; [|repeat split].
  unfold sensible, flags.
  cbn [STAGGCN.choice STAGGCN.num_nodes STAGGCN.input_window STAGGCN.graph_dim
       STAGGCN.edge_index STAGGCN.dtw_edge_index].
  split; [exists 1, 1, 1; repeat split; lia|].
  split; [cbn; lia|]. split; [cbn; lia|]. split; [cbn; lia|].
  split; intros j i Hin; cbn in Hin; destruct Hin as [Hin|[]];
    inversion Hin; subst; cbn; lia.
Qed.

Lemma edges_reach_the_first_sample_only_witness :
  exists self out out' self1 self2 g',
    STAGGCN.init example_sd true example_config_of_two example_data_feature
    = Ok self
    /\ STAGGCN.forward self example_batch_of_two example_generator
       = (Ok out, self1, g')
    /\ STAGGCN.forward
         (STAGGCN.set_dtw_edge_index
            (STAGGCN.set_edge_index self (mkEdgeIndex cpu [])) (mkEdgeIndex cpu []))
         example_batch_of_two example_generator
       = (Ok out', self2, g')
    /\ get out 2 = get out' 2 /\ get out 3 = get out' 3.
Proof.
  destruct example_model_of_two as (self & Hinit & Hs & HB & HW & HN & HP).
  destruct (edges_reach_the_first_sample_only
              example_sd true example_config_of_two example_data_feature self
              example_batch_of_two 2 example_generator
              (mkEdgeIndex cpu []) (mkEdgeIndex cpu []) Hinit Hs)
    as (out & out' & self1 & self2 & g' & Ef & Ef' & Hget).
  { rewrite HB. apply le_S, le_n. }
  { apply le_S, le_n. }
  { rewrite HB, HW, HN. reflexivity. }
  { intros j i []. }
  { intros j i []. }
  rewrite HB, HP, HN in Hget.
  exists self, out, out', self1, self2, g'.
  split; [exact Hinit|]. split; [exact Ef|]. split; [exact Ef'|].
  split.
  - exact (Hget 1 0 0 (le_n 1) (le_n 2) (le_n 1) (le_S 1 1 (le_n 1))).
  - exact (Hget 1 0 1 (le_n 1) (le_n 2) (le_n 1) (le_n 2)).
Defined.

(** ** The receptive field of the temporal convolutions *)

Lemma agree_window_weaken (a a' b : nat) (x x' : tensor) :
  a <= a' -> agree_window a b x x' -> agree_window a' b x x'.
Proof.
  intros Ha [Hs H]. split; [exact Hs|].
  intros n c l Hshape r s Hr Has Hsb Hsl. apply (H n c l Hshape); lia.
Qed.

Lemma local_bind (f k : tensor -> M tensor) (s1 s2 s3 : list nat) (R1 R2 : nat) :
  local_op f s1 s2 R1 -> local_op k s2 s3 R2 ->
  local_op (fun x => bind (f x) k) s1 s3 (R1 + R2).
Proof.
  intros Hf Hk x g Hx.
  destruct (Hf x g Hx) as (y & g1 & Hy & Hsy & Hcy).
  destruct (Hk y g1 Hsy) as (z & g2 & Hz & Hsz & Hcz).
  exists z, g2. unfold bind. rewrite Hy. split; [exact Hz|]. split; [exact Hsz|].
  intros x' Hx'.
  destruct (Hcy x' Hx') as (y' & Hy' & Hsy' & Hay).
  destruct (Hcz y' Hsy') as (z' & Hz' & Hsz' & Haz).
  exists z'. rewrite Hy'. split; [exact Hz'|]. split; [exact Hsz'|].
  intros a b Hab. apply Haz, Hay.
  replace (a - R2 - R1) with (a - (R1 + R2)) by lia. exact Hab.
Qed.

Lemma local_ext (f h : tensor -> M tensor) (s1 s2 : list nat) (R R' : nat) :
  (forall x g, f x g = h x g) -> R = R' -> local_op f s1 s2 R -> local_op h s1 s2 R'.
Proof.
  intros E <- Hf x g Hx.
  destruct (Hf x g Hx) as (y & g1 & Hy & Hsy & Hcy).
  exists y, g1. rewrite <- E. split; [exact Hy|]. split; [exact Hsy|].
  intros x' Hx'. destruct (Hcy x' Hx') as (y' & Hy' & Hsy' & Hay).
  exists y'. rewrite <- E. split; [exact Hy'|]. split; [exact Hsy' | exact Hay].
Qed.

Lemma local_id (s : list nat) : local_op (fun x => ret x) s s 0.
Proof.
  intros x g Hx. exists x, g. split; [reflexivity|]. split; [exact Hx|].
  intros x' Hx'. exists x'. split; [reflexivity|]. split; [exact Hx'|].
  intros a b. now rewrite Nat.sub_0_r.
Qed.

(** A convolution padded by [p] on both sides looks back [p] steps when its
    kernel spans no more than the padding. *)
Lemma local_conv (c : Conv1d.t) (n ci co k l : nat) :
  shape (Conv1d.effective_weight c) = [co; ci; k] ->
  shape (Conv1d.bias c) = [co] ->
  Conv1d.stride c = 1 ->
  1 <= k -> 1 <= Conv1d.dilation c ->
  (k - 1) * Conv1d.dilation c <= Conv1d.padding c ->
  1 <= l + Conv1d.padding c ->
  local_op (fun x => lift (Conv1d.forward c x)) [n; ci; l]
           [n; co; l + 2 * Conv1d.padding c - Conv1d.dilation c * (k - 1)]
           (Conv1d.padding c).
Proof.
  intros Hw Hb Hst Hk Hd Hpad Hl x g Hx.
  unfold Conv1d.forward, lift. rewrite Hst.
  set (p := Conv1d.padding c) in *. set (d := Conv1d.dilation c) in *.
  assert (Hlen : d * (k - 1) + 1 <= l + 2 * p) by (rewrite Nat.mul_comm; lia).
  destruct (conv1d_ok x _ _ n ci l co k p d Hx Hw Hb Hk Hd Hlen)
    as (y & Hy & Hsy & Hgy).
  exists y, g. rewrite Hy. split; [reflexivity|]. split; [exact Hsy|].
  intros x' Hx'.
  destruct (conv1d_ok x' _ _ n ci l co k p d Hx' Hw Hb Hk Hd Hlen)
    as (y' & Hy' & Hsy' & Hgy').
  exists y'. rewrite Hy'. split; [reflexivity|]. split; [exact Hsy'|].
  intros a b [_ H]. split; [congruence|].
  intros n0 c0 l0 Hshape r s Hr Has Hsb Hsl.
  rewrite Hsy in Hshape. inversion Hshape. subst n0 c0 l0.
  rewrite Hgy, Hgy' by assumption.
  f_equal. apply Rsum_ext. intros ch Hch. apply Rsum_ext. intros j Hj.
  f_equal.
  destruct ((p <=? s * 1 + j * d) && (s * 1 + j * d - p <? l)) eqn:E;
    [|reflexivity].
  apply andb_prop in E. destruct E as [E1 E2].
  apply Nat.leb_le in E1. apply Nat.ltb_lt in E2.
  apply (H n ci l Hx).
  - assert (r / co < n) by (apply Nat.Div0.div_lt_upper_bound; lia).
    now apply row_index_lt.
  - lia.
  - assert (j * d <= (k - 1) * d) by (apply Nat.mul_le_mono_r; lia). lia.
  - exact E2.
Qed.

Lemma local_chomp (ch : Chomp1d.t) (n c l : nat) :
  local_op (fun x => lift (Chomp1d.forward ch x)) [n; c; l]
           [n; c; if Chomp1d.chomp_size ch =? 0 then 0
                  else l - Chomp1d.chomp_size ch]
           0.
Proof.
  intros x g Hx. unfold Chomp1d.forward, lift.
  destruct (chomp_ok x n c l (Chomp1d.chomp_size ch) Hx) as (y & Hy & Hsy & Hgy).
  exists y, g. rewrite Hy. split; [reflexivity|]. split; [exact Hsy|].
  intros x' Hx'.
  destruct (chomp_ok x' n c l (Chomp1d.chomp_size ch) Hx')
    as (y' & Hy' & Hsy' & Hgy').
  exists y'. rewrite Hy'. split; [reflexivity|]. split; [exact Hsy'|].
  intros a b [_ H]. rewrite Nat.sub_0_r in H. split; [congruence|].
  intros n0 c0 l0 Hshape r s Hr Has Hsb Hsl.
  rewrite Hsy in Hshape. inversion Hshape. subst n0 c0 l0.
  rewrite Hgy, Hgy' by assumption.
  apply (H n c l Hx r s Hr Has Hsb).
  destruct (Chomp1d.chomp_size ch =? 0); lia.
Qed.

Lemma local_relu_dropout (d : Dropout.t) (n c l : nat) :
  (0 <= Dropout.p d <= 1)%R ->
  local_op (fun x => Dropout.forward d (relu x)) [n; c; l] [n; c; l] 0.
Proof.
  intros Hp x g Hx. unfold Dropout.forward.
  destruct (dropout_ok (relu x) _ (Dropout.training d) g Hp) as (y & Hy & Hsy).
  cbn [relu pointwise build shape] in Hy, Hsy.
  eexists y, _. split; [exact Hy|]. split; [now rewrite Hsy|].
  intros x' Hx'.
  destruct (dropout_ok (relu x') _ (Dropout.training d) g Hp) as (y' & Hy' & Hsy').
  cbn [relu pointwise build shape] in Hy', Hsy'.
  exists y'. rewrite Hy', Hx, Hx'. split; [reflexivity|].
  split; [now rewrite Hsy'|].
  intros a b [_ H]. rewrite Nat.sub_0_r in H. split; [congruence|].
  intros n0 c0 l0 Hshape r s Hr Has Hsb Hsl.
  rewrite Hsy, Hx in Hshape. inversion Hshape. subst n0 c0 l0.
  assert (Hi : r * l + s < numel [n; c; l])
    by (rewrite numel3; now apply row_index_lt).
  unfold dropout in Hy, Hy'.
  destruct (Rle_dec 0 (Dropout.p d)) as [Hp0|]; [|discriminate].
  destruct (Rle_dec (Dropout.p d) 1) as [Hp1|]; [|discriminate].
  destruct (Dropout.training d); inversion Hy; inversion Hy'; subst y y'.
  - cbn [relu pointwise build shape]. rewrite Hx, Hx'.
    rewrite !get_build by exact Hi.
    destruct (Rlt_dec _ _); [|reflexivity]. f_equal.
    unfold relu. rewrite !get_pointwise by (rewrite ?Hx, ?Hx'; exact Hi).
    f_equal. now apply (H n c l Hx).
  - unfold relu. rewrite !get_pointwise by (rewrite ?Hx, ?Hx'; exact Hi).
    f_equal. now apply (H n c l Hx).
Qed.

Lemma agree_window_pointwise (f : R -> R) (a b : nat) (x x' : tensor) :
  agree_window a b x x' -> agree_window a b (pointwise f x) (pointwise f x').
Proof.
  intros [Hs H]. split; [exact Hs|].
  intros n c l Hshape r s Hr Has Hsb Hsl. cbn [pointwise build shape] in Hshape.
  rewrite !get_pointwise.
  - f_equal. now apply (H n c l).
  - rewrite <- Hs, Hshape, numel3. now apply row_index_lt.
  - rewrite Hshape, numel3. now apply row_index_lt.
Qed.

Lemma agree_window_binary (f : R -> R -> R) (a b n c l : nat)
      (u u' v v' y y' : tensor) :
  shape u = [n; c; l] -> shape v = [n; c; l] ->
  agree_window a b u u' -> agree_window a b v v' ->
  binary f u v = Ok y -> binary f u' v' = Ok y' ->
  agree_window a b y y'.
Proof.
  intros Hu Hv [Hsu HU] [Hsv HV] Hy Hy'.
  destruct (binary_same_shape f u v _ Hu Hv) as (z & Hz & Hsz & Hgz).
  destruct (binary_same_shape f u' v' [n; c; l]) as (z' & Hz' & Hsz' & Hgz');
    [congruence | congruence |].
  rewrite Hy in Hz. rewrite Hy' in Hz'. inversion Hz. inversion Hz'. subst z z'.
  split; [congruence|].
  intros n0 c0 l0 Hshape r s Hr Has Hsb Hsl.
  rewrite Hsz in Hshape. inversion Hshape. subst n0 c0 l0.
  rewrite Hgz, Hgz' by (rewrite numel3; now apply row_index_lt).
  f_equal; [now apply (HU n c l) | now apply (HV n c l)].
Qed.

Lemma local_residual (net : tensor -> M tensor) (res : tensor -> result tensor)
      (s1 : list nat) (n c l R : nat) :
  local_op net s1 [n; c; l] R ->
  local_op (fun x => lift (res x)) s1 [n; c; l] 0 ->
  local_op (fun x => out <- net x ;; r <~ res x ;; s <~ add out r ;; ret (relu s))
           s1 [n; c; l] R.
Proof.
  intros Hnet Hres x g Hx.
  destruct (Hnet x g Hx) as (out & g1 & Hout & Hsout & Hcout).
  destruct (Hres x g1 Hx) as (r & g2 & Hr & Hsr & Hcr).
  unfold lift in Hr. assert (Hr' : res x = Ok r) by congruence.
  destruct (binary_same_shape Rplus out r _ Hsout Hsr) as (s & Hs & Hss & _).
  exists (relu s), g1. cbv beta. unfold bind, lift, ret. rewrite Hout, Hr'.
  unfold add. rewrite Hs.
  split; [reflexivity|]. split; [exact Hss|].
  intros x' Hx'.
  destruct (Hcout x' Hx') as (out' & Hout' & Hsout' & Haout).
  destruct (Hcr x' Hx') as (r' & Hr2 & Hsr' & Har).
  unfold lift in Hr2. assert (Hr2' : res x' = Ok r') by congruence.
  destruct (binary_same_shape Rplus out' r' [n; c; l] Hsout' Hsr')
    as (s' & Hs' & Hss' & _).
  exists (relu s'). rewrite Hout', Hr2', Hs'. split; [reflexivity|].
  split; [exact Hss'|].
  intros a b Hab. apply agree_window_pointwise.
  apply (agree_window_binary Rplus a b n c l out out' r r' s s' Hsout Hsr);
    try assumption.
  - now apply Haout.
  - apply Har. rewrite Nat.sub_0_r.
    apply (agree_window_weaken (a - R)); [lia | exact Hab].
Qed.

Lemma local_conv_chomp_dropout (sd : state_dict) (name : string)
      (ci co kernel_size dilation : nat) (p : R) (training : bool) (n l : nat)
      (k : tensor -> M tensor) (s3 : list nat) (R2 : nat) :
  2 <= kernel_size -> 1 <= dilation -> (0 <= p <= 1)%R ->
  local_op k [n; co; l] s3 R2 ->
  local_op
    (fun x =>
       out <~ Conv1d.forward
                (Conv1d.weight_norm sd name
                   (Conv1d.init sd name ci co kernel_size 1
                                ((kernel_size - 1) * dilation) dilation)) x ;;
       out <~ Chomp1d.forward (Chomp1d.mk ((kernel_size - 1) * dilation)) out ;;
       out <- Dropout.forward (Dropout.mk p training) (relu out) ;;
       k out)
    [n; ci; l] s3
    ((kernel_size - 1) * dilation + (0 + (0 + R2))).
Proof.
  intros Hk Hd Hp Hcont.
  set (pad := (kernel_size - 1) * dilation).
  assert (Hpad : 1 <= pad) by (unfold pad; nia).
  assert (Hlen : l + 2 * pad - dilation * (kernel_size - 1) = l + pad)
    by (unfold pad; nia).
  assert (Hchomp : (if pad =? 0 then 0 else l + pad - pad) = l).
  { destruct (pad =? 0) eqn:E; [apply Nat.eqb_eq in E; lia | lia]. }
  apply (local_bind
           (fun x => lift (Conv1d.forward
                             (Conv1d.weight_norm sd name
                                (Conv1d.init sd name ci co kernel_size 1 pad dilation))
                             x))
           _ [n; ci; l] [n; co; l + pad] s3 pad).
  - rewrite <- Hlen.
    apply (local_conv (Conv1d.weight_norm sd name
                         (Conv1d.init sd name ci co kernel_size 1 pad dilation))
                      n ci co kernel_size l);
      cbn [Conv1d.padding Conv1d.dilation Conv1d.weight_norm Conv1d.stride
           Conv1d.init];
      try reflexivity; try lia.
  - apply (local_bind
             (fun out => lift (Chomp1d.forward (Chomp1d.mk pad) out))
             _ [n; co; l + pad] [n; co; l] s3 0).
    + rewrite <- Hchomp at 2. apply (local_chomp (Chomp1d.mk pad)).
    + apply (local_bind
               (fun out => Dropout.forward (Dropout.mk p training) (relu out))
               k [n; co; l] [n; co; l] s3 0).
      * apply (local_relu_dropout (Dropout.mk p training)). exact Hp.
      * exact Hcont.
Qed.

(** One [TemporalBlock] as [TemporalConvNet] builds it: two convolutions,
    each looking back [(kernel_size - 1) * dilation] steps. *)
Lemma local_block (sd : state_dict) (name : string)
      (n_inputs n_outputs kernel_size dilation : nat) (p : R) (training : bool)
      (n l : nat) :
  2 <= kernel_size -> 1 <= dilation -> (0 <= p <= 1)%R -> 1 <= l ->
  local_op
    (TemporalBlock.forward
       (TemporalBlock.init sd name n_inputs n_outputs kernel_size 1 dilation
                           ((kernel_size - 1) * dilation) p training))
    [n; n_inputs; l] [n; n_outputs; l]
    (2 * ((kernel_size - 1) * dilation)).
Proof.
  intros Hk Hd Hp Hl.
  unfold TemporalBlock.forward.
  apply local_residual.
  - unfold TemporalBlock.net, TemporalBlock.init.
    cbn [TemporalBlock.conv1 TemporalBlock.conv2 TemporalBlock.chomp1
         TemporalBlock.chomp2 TemporalBlock.dropout1 TemporalBlock.dropout2].
    apply (local_ext
             (fun x =>
                out <~ Conv1d.forward
                         (Conv1d.weight_norm sd (sub name "conv1")
                            (Conv1d.init sd (sub name "conv1") n_inputs n_outputs
                                         kernel_size 1
                                         ((kernel_size - 1) * dilation) dilation)) x ;;
                out <~ Chomp1d.forward
                         (Chomp1d.mk ((kernel_size - 1) * dilation)) out ;;
                out <- Dropout.forward (Dropout.mk p training) (relu out) ;;
                out <~ Conv1d.forward
                         (Conv1d.weight_norm sd (sub name "conv2")
                            (Conv1d.init sd (sub name "conv2") n_outputs n_outputs
                                         kernel_size 1
                                         ((kernel_size - 1) * dilation) dilation)) out ;;
                out <~ Chomp1d.forward
                         (Chomp1d.mk ((kernel_size - 1) * dilation)) out ;;
                out <- Dropout.forward (Dropout.mk p training) (relu out) ;;
                ret out)
             _ _ _
             ((kernel_size - 1) * dilation
              + (0 + (0 + ((kernel_size - 1) * dilation + (0 + (0 + 0))))))).
    + intros x g. unfold bind, lift, ret.
      destruct (Conv1d.forward _ x) as [o|e]; [|reflexivity].
      destruct (Chomp1d.forward _ o) as [o'|e]; [|reflexivity].
      destruct (Dropout.forward _ (relu o') g) as [[o''|e] g']; [|reflexivity].
      destruct (Conv1d.forward _ o'') as [o3|e]; [|reflexivity].
      destruct (Chomp1d.forward _ o3) as [o4|e]; [|reflexivity].
      destruct (Dropout.forward _ (relu o4) g') as [[o5|e] g5]; reflexivity.
    + lia.
    + apply local_conv_chomp_dropout; try assumption.
      apply local_conv_chomp_dropout; try assumption.
      apply local_id.
  - unfold TemporalBlock.init. cbn [TemporalBlock.downsample].
    destruct (n_inputs =? n_outputs) eqn:E.
    + apply Nat.eqb_eq in E. subst n_outputs. apply (local_id [n; n_inputs; l]).
    + assert (Hs : l + 2 * 0 - 1 * (1 - 1) = l) by lia.
      rewrite <- Hs at 2.
      apply (local_conv (Conv1d.init sd (sub name "downsample")
                                     n_inputs n_outputs 1 1 0 1)
                        n n_inputs n_outputs 1 l);
        cbn [Conv1d.padding Conv1d.dilation Conv1d.stride Conv1d.init];
        try reflexivity; try lia.
Qed.

Lemma local_sequential (chans back : nat -> nat) (n l : nat)
      (blocks : list TemporalBlock.t) :
  forall start,
    (forall i b, nth_error blocks i = Some b ->
                 local_op (TemporalBlock.forward b)
                          [n; chans (start + i); l] [n; chans (start + S i); l]
                          (back (start + i))) ->
    local_op (TemporalConvNet.sequential blocks)
             [n; chans start; l] [n; chans (start + length blocks); l]
             (list_sum (map back (seq start (length blocks)))).
Proof.
  induction blocks as [|b rest IH]; intros start Hblocks.
  - cbn [TemporalConvNet.sequential length seq map list_sum fold_right].
    rewrite Nat.add_0_r. apply local_id.
  - cbn [TemporalConvNet.sequential length seq map list_sum fold_right].
    apply (local_bind (TemporalBlock.forward b) (TemporalConvNet.sequential rest)
                      _ [n; chans (start + 1); l]).
    + specialize (Hblocks 0 b eq_refl). now rewrite Nat.add_0_r in Hblocks.
    + replace (start + S (length rest)) with (S start + length rest) by lia.
      replace (start + 1) with (S start) by lia.
      apply IH. intros i b' Hi.
      replace (S start + i) with (start + S i) by lia.
      replace (S start + S i) with (start + S (S i)) by lia.
      now apply Hblocks.
Qed.

Lemma receptive_closed (kernel_size levels : nat) :
  receptive kernel_size levels = 2 * (kernel_size - 1) * (2 ^ levels - 1).
Proof.
  unfold receptive. induction levels as [|m IH].
  - cbn [seq map list_sum fold_right Nat.pow]. lia.
  - rewrite seq_S, map_app, list_sum_app, IH.
    cbn [map list_sum fold_right Nat.add Nat.pow].
    pose proof (pow2_pos m). nia.
Qed.

Lemma tcn_local (sd : state_dict) (name : string) (num_inputs : nat)
      (num_channels : list nat) (kernel_size : nat) (p : R) (training : bool)
      (n l : nat) :
  2 <= kernel_size -> (0 <= p <= 1)%R -> 1 <= l ->
  local_op (TemporalConvNet.forward
              (TemporalConvNet.init sd name num_inputs num_channels kernel_size
                                    p training))
           [n; num_inputs; l]
           [n; channels_before num_inputs num_channels (length num_channels); l]
           (receptive kernel_size (length num_channels)).
Proof.
  intros Hk Hp Hl. unfold TemporalConvNet.forward, receptive.
  set (net := TemporalConvNet.init sd name num_inputs num_channels kernel_size
                                   p training).
  assert (Hlen : length (TemporalConvNet.network net) = length num_channels).
  { unfold net, TemporalConvNet.init. cbn [TemporalConvNet.network].
    now rewrite length_map, length_seq. }
  pose proof (local_sequential
                (channels_before num_inputs num_channels)
                (fun i => 2 * ((kernel_size - 1) * 2 ^ i))
                n l (TemporalConvNet.network net) 0) as H.
  rewrite Hlen in H. apply H.
  intros i b Hb. cbn [Nat.add].
  replace (channels_before num_inputs num_channels (S i))
    with (nth i num_channels 0)
    by (unfold channels_before; cbn [Nat.eqb]; now rewrite Nat.sub_succ, Nat.sub_0_r).
  unfold net, TemporalConvNet.init in Hb. cbn [TemporalConvNet.network] in Hb.
  apply nth_error_map_seq in Hb. destruct Hb as [_ ->].
  apply local_block; try assumption. apply pow2_pos.
Qed.

(** X13: the receptive field of the temporal convolutions.  On two batches
    of sequences, from the same state of the generator, a [TemporalConvNet]
    of kernel size [k >= 2] and [m] levels returns outputs that agree at the
    times from [a] to [b] whenever the inputs agree at the times from
    [a - 2 (k - 1) (2^m - 1)] to [b]; block [i] alone looks back
    [2 (k - 1) 2^i] steps. *)
Theorem tcn_receptive_field :
  forall (sd : state_dict) (name : string) (num_inputs : nat)
         (num_channels : list nat) (kernel_size : nat) (p : R) (training : bool)
         (n l : nat),
    2 <= kernel_size -> (0 <= p <= 1)%R -> 1 <= l ->
    let net := TemporalConvNet.init sd name num_inputs num_channels kernel_size
                                    p training in
    (forall i b,
        nth_error (TemporalConvNet.network net) i = Some b ->
        local_op (TemporalBlock.forward b)
                 [n; channels_before num_inputs num_channels i; l]
                 [n; nth i num_channels 0; l]
                 (2 * ((kernel_size - 1) * 2 ^ i)))
    /\ local_op (TemporalConvNet.forward net)
                [n; num_inputs; l]
                [n; channels_before num_inputs num_channels (length num_channels); l]
                (2 * (kernel_size - 1) * (2 ^ length num_channels - 1)).
Proof.
  intros sd name num_inputs num_channels kernel_size p training n l Hk Hp Hl net.
  split.
  - intros i b Hb. unfold net, TemporalConvNet.init in Hb.
    cbn [TemporalConvNet.network] in Hb.
    apply nth_error_map_seq in Hb. destruct Hb as [_ ->].
    apply local_block; try assumption. apply pow2_pos.
  - rewrite <- receptive_closed. now apply tcn_local.
Qed.

Lemma tcn_receptive_field_witness :
  local_op (TemporalConvNet.forward
              (TemporalConvNet.init example_sd "tcn" 1 [1] 2 0.2 true))
           [1; 1; 2] [1; 1; 2] 2.
Proof.
  assert (Hp : (0 <= 0.2 <= 1)%R) by lra.
  exact (proj2 (tcn_receptive_field example_sd "tcn" 1 [1] 2 0.2 true 1 2
                  (le_n 2) Hp (le_S 1 1 (le_n 1)))).
Defined.

(** ** Flags other than 0 and 1 *)

(** The loop of lines 385-391 joins the branches whose flag is 1, whatever
    the other flags are. *)
Lemma concat_of_any_flags (cell : STCell.t) (c0 c1 c2 gd B N : nat)
      (o0 o1 o2 : option tensor) :
  STCell.choice cell = [c0; c1; c2] ->
  1 <= on c0 + on c1 + on c2 ->
  slot [B; N; gd] c0 o0 -> slot [B; N; gd] c1 o1 -> slot [B; N; gd] c2 o2 ->
  exists c,
    shape c = [B; N; (on c0 + on c1 + on c2) * gd]
    /\ STCell.concat cell [o0; o1; o2]
       = reshape c [None; Some (STCell.output_dim cell)].
Proof.
  intros Hch Hsum S0 S1 S2.
  unfold STCell.concat. rewrite Hch.
  unfold on, slot in *.
  destruct (c0 =? 1) eqn:E0; destruct (c1 =? 1) eqn:E1;
    destruct (c2 =? 1) eqn:E2; cbn [Nat.add] in Hsum; try lia;
      repeat match goal with
             | H : exists t, _ = Some t /\ _ |- _ =>
               let t := fresh "t" in
               let St := fresh "St" in
               destruct H as (t & -> & St)
             | H : _ = None |- _ => subst
             end;
      repeat first
             [ progress rewrite ?Hch, ?E0, ?E1, ?E2
             | progress cbn [Nat.eqb rbind length seq STCell.concat_loop
                             STCell.concat_step getitem nth_error andb Nat.add
                             snd fst]
             | match goal with
               | Sa : shape ?a = [B; N; ?ga], Sb : shape ?b = [B; N; ?gb]
                 |- context [cat ?a ?b 2] =>
                 let c := fresh "c" in
                 let Ec := fresh "Ec" in
                 let Sc := fresh "Sc" in
                 destruct (cat2_ok a b B N ga gb Sa Sb) as (c & Ec & Sc);
                 rewrite !Ec
               end ];
      match goal with
      | St : shape ?t = [B; N; ?w] |- context [reshape ?t _] =>
        exists t; split; [rewrite St; do 3 f_equal; cbn [Nat.add Nat.mul]; lia
                         | reflexivity]
      end.
Qed.

Lemma reshape_raises (x : tensor) (dims : list (option nat)) (e : exception) :
  reshape x dims = Raise e -> e = RuntimeError.
Proof.
  unfold reshape, infer_shape.
  destruct (unknowns dims) as [|[|u]].
  - destruct (known dims =? numel (shape x)); cbn [rbind]; congruence.
  - destruct (known dims =? 0); [cbn [rbind]; congruence|].
    destruct (numel (shape x) mod known dims =? 0); cbn [rbind]; congruence.
  - cbn [rbind]. congruence.
Qed.

Lemma reshape_rows (x y : tensor) (k : nat) :
  reshape x [None; Some k] = Ok y ->
  exists q, shape y = [q; k] /\ q * k = numel (shape x).
Proof.
  intros H. pose proof H as Hn. unfold reshape in H, Hn.
  destruct (infer_shape (numel (shape x)) [None; Some k]) as [s|] eqn:Ei;
    [|discriminate].
  cbn [rbind] in H. inversion H. subst y. cbn [build shape].
  pose proof (infer_shape_numel _ _ _ Ei) as Hs.
  unfold infer_shape in Ei. cbn [unknowns filter length] in Ei.
  destruct (known [None; Some k] =? 0); [discriminate|].
  destruct (numel (shape x) mod known [None; Some k] =? 0); [|discriminate].
  inversion Ei. subst s. unfold fill. cbn [map].
  eexists. split; [reflexivity|].
  unfold fill in Hs. cbn [map numel fold_right] in Hs. lia.
Qed.

(** X14: a flag other than 0 and 1 cannot be used.  Such a flag adds to
    [np.sum(choice)], and so to the width that [STCell] reshapes to and that
    [output_linear] reads, while its branch does not run; with a branch
    enabled besides, the reshape of [STCell.forward] or the last reshape of
    [forward] raises [RuntimeError] on every well-shaped batch. *)
Theorem flags_must_be_0_or_1 :
  forall (sd : state_dict) (training : bool) (config : STAGGCN.Config)
         (data_feature : STAGGCN.DataFeature) (self : STAGGCN.t)
         (batch : STAGGCN.Batch) (c0 c1 c2 feature_dim : nat) (g : Generator),
    STAGGCN.init sd training config data_feature = Ok self ->
    STAGGCN.choice self = [c0; c1; c2] ->
    1 <= on c0 + on c1 + on c2 ->
    on c0 + on c1 + on c2 < c0 + c1 + c2 ->
    1 <= STAGGCN.batch_size self -> 1 <= STAGGCN.num_nodes self ->
    1 <= STAGGCN.input_window self -> 1 <= STAGGCN.output_window self ->
    1 <= STAGGCN.graph_dim self -> 1 <= feature_dim ->
    edges_within (STAGGCN.num_nodes self) (STAGGCN.edge_index self) ->
    edges_within (STAGGCN.num_nodes self) (STAGGCN.dtw_edge_index self) ->
    shape (STAGGCN.X batch)
    = [STAGGCN.batch_size self; STAGGCN.input_window self;
       STAGGCN.num_nodes self; feature_dim] ->
    exists self' g',
      STAGGCN.forward self batch g = (Raise RuntimeError, self', g').
Proof.
  intros sd training config data_feature self batch c0 c1 c2 F g
         Hinit Hch Hon Hbig HB HN1 HW1 HP1 Hgd1 HF He Hde HX.
  pose proof (STAGGCN_init_model sd training config data_feature self Hinit) as Hm.
  rewrite Hch in Hm.
  destruct (STAGGCNModel_init_inv _ _ _ _ _ _ _ _ _ _ _ Hm) as (Hcell & Hlin).
  destruct (STCell_init_inv _ _ _ _ _ _ c0 c1 c2 _ _ _ Hcell)
    as (_ & _ & _ & _ & Hod & Hchc & _).
  destruct (input_of_ok batch _ _ _ F HX HF HW1) as (x & Ex & Sx).
  set (B := STAGGCN.batch_size self) in *.
  set (N := STAGGCN.num_nodes self) in *.
  set (P := STAGGCN.output_window self) in *.
  set (gd := STAGGCN.graph_dim self) in *.
  set (d := STAGGCN.device_ self).
  assert (Hle : N <= B * N) by nia.
  destruct (branches_ok sd _ N _ gd _ c0 c1 c2 _ training _ B x
              (to (STAGGCN.edge_index self) d) (to (STAGGCN.dtw_edge_index self) d)
              g Hcell HN1 HW1 Hgd1 Sx
              (edges_within_mono _ _ _ d Hle He)
              (edges_within_mono _ _ _ d Hle Hde))
    as (o0 & o1 & o2 & g' & Eb & S0 & S1 & S2).
  destruct (concat_of_any_flags _ c0 c1 c2 gd B N o0 o1 o2 Hchc Hon S0 S1 S2)
    as (c & Sc & Ec).
  rewrite Hod in Ec.
  unfold STAGGCN.forward. rewrite Ex.
  cbn [STAGGCN.set_edge_index STAGGCN.set_dtw_edge_index STAGGCN.model
       STAGGCN.edge_index STAGGCN.dtw_edge_index STAGGCN.device_
       STAGGCN.batch_size STAGGCN.output_window STAGGCN.num_nodes].
  fold d B N P.
  unfold STAGGCNModel.forward, STCell.forward, bind, lift.
  rewrite Eb, Ec.
  destruct (reshape c [None; Some ((c0 + c1 + c2) * gd)]) as [st|err] eqn:Er.
  - destruct (reshape_rows _ _ _ Er) as (q & Sst & Hq).
    rewrite Sc in Hq. cbn [numel fold_right] in Hq.
    rewrite Hlin. cbn [list_sum fold_right].
    destruct (Linear_forward_ok sd (sub "model" "output_linear")
                ((c0 + (c1 + (c2 + 0))) * gd) P st [q]) as (out & El & Sout).
    { rewrite Sst. cbn [app]. do 3 f_equal. lia. }
    rewrite El. cbn [app] in Sout.
    rewrite reshape_mismatch; [now eexists _, _ | reflexivity |].
    rewrite Sout. cbn [known flat_map app numel fold_right].
    assert (Hlt : q < B * N).
    { destruct (Nat.lt_ge_cases q (B * N)) as [Hlt|Hge]; [exact Hlt|].
      exfalso.
      assert (H1 : B * N * ((c0 + c1 + c2) * gd) <= q * ((c0 + c1 + c2) * gd))
        by (apply Nat.mul_le_mono_r; exact Hge).
      assert (H2 : (on c0 + on c1 + on c2) * gd < (c0 + c1 + c2) * gd)
        by (apply Nat.mul_lt_mono_pos_r; lia).
      assert (H3 : B * N * ((on c0 + on c1 + on c2) * gd)
                   < B * N * ((c0 + c1 + c2) * gd))
        by (apply Nat.mul_lt_mono_pos_l; [nia | exact H2]).
      lia. }
    assert (H4 : q * P < B * N * P) by (apply Nat.mul_lt_mono_pos_r; lia).
    lia.
  - apply reshape_raises in Er. subst err. now eexists _, _.
Qed.

Lemma example_model_with_a_2 :
  exists self,
    STAGGCN.init example_sd true example_config_with_a_2 example_data_feature
    = Ok self
    /\ STAGGCN.choice self = [1; 2; 0]
    /\ STAGGCN.batch_size self = 1 /\ STAGGCN.input_window self = 2
    /\ STAGGCN.num_nodes self = 2 /\ STAGGCN.output_window self = 1
    /\ STAGGCN.graph_dim self = 1
    /\ edges_within 2 (STAGGCN.edge_index self)
    /\ edges_within 2 (STAGGCN.dtw_edge_index self).
Proof.
  eexists. split; [reflexivity|].
  do 6 (split; [reflexivity|]).
  split; intros j i Hin; cbn in Hin; destruct Hin as [Hin|[]];
    inversion Hin; subst; lia.
Qed.

Lemma flags_must_be_0_or_1_witness :
  exists self self' g',
    STAGGCN.init example_sd true example_config_with_a_2 example_data_feature
    = Ok self
    /\ STAGGCN.forward self example_batch example_generator
       = (Raise RuntimeError, self', g').
Proof.
  destruct example_model_with_a_2
    as (self & Hinit & Hch & HB & HW & HN & HP & Hgd & He & Hde).
  destruct (flags_must_be_0_or_1 example_sd true example_config_with_a_2
              example_data_feature self example_batch 1 2 0 2 example_generator
              Hinit Hch) as (self' & g' & Ef).
  { apply le_n. }
  { apply le_S, le_n. }
  { rewrite HB. apply le_n. }
  { rewrite HN. apply le_S, le_n. }
  { rewrite HW. apply le_S, le_n. }
  { rewrite HP. apply le_n. }
  { rewrite Hgd. apply le_n. }
  { apply le_S, le_n. }
  { rewrite HN. exact He. }
  { rewrite HN. exact Hde. }
  { rewrite HB, HW, HN. reflexivity. }
  exists self, self', g'. split; assumption.
Defined.

(** ** The learned adjacency at initialisation *)

Lemma Rsum_list_const (l : list nat) (c : R) :
  Rsum_list (map (fun _ => c) l) = (INR (length l) * c)%R.
Proof.
  induction l as [|a l IH].
  - cbn. lra.
  - cbn [map Rsum_list fold_right length]. fold (Rsum_list (map (fun _ => c) l)).
    rewrite IH, S_INR. lra.
Qed.

Lemma Rsum_const (n : nat) (c : R) : Rsum n (fun _ => c) = (INR n * c)%R.
Proof.
  change (Rsum_list (map (fun _ => c) (seq 0 n)) = (INR n * c)%R).
  now rewrite Rsum_list_const, length_seq.
Qed.

Lemma exp_le (x y : R) : (x <= y)%R -> (exp x <= exp y)%R.
Proof.
  intros [H| ->]; [apply Rlt_le, exp_increasing, H | apply Rle_refl].
Qed.

Lemma quotient_bounds (a D la ha lD hD : R) :
  (0 < la)%R -> (la <= a <= ha)%R -> (0 < lD)%R -> (lD <= D <= hD)%R ->
  (la / hD <= a / D <= ha / lD)%R.
Proof.
  intros Hla [Ha1 Ha2] HlD [HD1 HD2].
  assert (HD : (0 < D)%R) by lra. assert (HhD : (0 < hD)%R) by lra.
  assert (I1 : (/ hD <= / D)%R) by (apply Rinv_le_contravar; lra).
  assert (I2 : (/ D <= / lD)%R) by (apply Rinv_le_contravar; lra).
  assert (P1 : (0 < / hD)%R) by now apply Rinv_0_lt_compat.
  assert (P2 : (0 < / D)%R) by now apply Rinv_0_lt_compat.
  unfold Rdiv. split.
  - apply Rmult_le_compat; lra.
  - apply Rmult_le_compat; lra.
Qed.

(** Embeddings within [[-s, s]] give an adjacency within a factor
    [exp (r s^2)] of the uniform one. *)
Lemma learned_matrix_bounds (source target : tensor) (n r : nat) (s : R) :
  shape source = [n; r] -> shape target = [r; n] -> 1 <= n ->
  within (- s) s source -> within (- s) s target ->
  exists A,
    learned_matrix source target = Ok A /\ shape A = [n; n]
    /\ within (1 / (INR n * exp (INR r * (s * s))))
              (exp (INR r * (s * s)) / INR n) A.
Proof.
  intros Hs Ht Hn Ws Wt. unfold learned_matrix, mm.
  rewrite Hs, Ht, Nat.eqb_refl. cbn [rbind].
  set (F := fun i => Rsum r (fun j => get source (i / n * r + j)
                                     * get target (j * n + i mod n))%R).
  destruct (softmax_rows (relu (build [n; n] F)) n n eq_refl)
    as (A & HA & HsA & Hget).
  exists A. split; [exact HA|]. split; [exact HsA|].
  set (E := exp (INR r * (s * s))).
  assert (Hz : forall i k, i < n -> k < n ->
             (0 <= get (relu (build [n; n] F)) (i * n + k)%nat <= INR r * (s * s))%R).
  { intros i k Hi Hk.
    assert (Hik : i * n + k < numel [n; n])
      by (cbn [numel fold_right]; pose proof (index_in_matrix i k n n Hi Hk); lia).
    unfold relu. rewrite get_pointwise by exact Hik. rewrite get_build by exact Hik.
    unfold relu_R.
    assert (HF : (F (i * n + k)%nat <= INR r * (s * s))%R).
    { unfold F. rewrite <- Rsum_const. apply Rsum_le. intros q Hq.
      destruct (div_mod_row i k n Hk) as [Hd Hm]. rewrite Hd, Hm.
      assert (B1 : (- s <= get source (i * r + q)%nat <= s)%R).
      { apply Ws. rewrite Hs. cbn [numel fold_right].
        pose proof (index_in_matrix i q n r Hi Hq). lia. }
      assert (B2 : (- s <= get target (q * n + k)%nat <= s)%R).
      { apply Wt. rewrite Ht. cbn [numel fold_right].
        pose proof (index_in_matrix q k r n Hq Hk). lia. }
      nra. }
    split; [apply Rmax_l|]. apply Rmax_lub; [|exact HF].
    apply Rmult_le_pos; [apply pos_INR | nra]. }
  assert (He : forall i k, i < n -> k < n ->
             (1 <= exp (get (relu (build [n; n] F)) (i * n + k)%nat) <= E)%R).
  { intros i k Hi Hk. destruct (Hz i k Hi Hk) as [Z0 Z1].
    split; [rewrite <- exp_0; now apply exp_le | now apply exp_le]. }
  assert (Hn0 : (0 < INR n)%R) by (apply lt_0_INR; lia).
  assert (HE : (1 <= E)%R).
  { unfold E. rewrite <- exp_0. apply exp_le.
    apply Rmult_le_pos; [apply pos_INR | nra]. }
  intros i0 Hi0. rewrite HsA in Hi0. cbn [numel fold_right] in Hi0.
  rewrite Nat.mul_1_r in Hi0.
  assert (Hrow : i0 / n < n) by (apply Nat.Div0.div_lt_upper_bound; lia).
  assert (Hcol : i0 mod n < n) by (apply Nat.mod_upper_bound; lia).
  replace i0 with (i0 / n * n + i0 mod n)
    by (pose proof (Nat.div_mod_eq i0 n); lia).
  rewrite (Hget _ _ Hrow Hcol).
  assert (HD : (INR n * 1
                <= Rsum n (fun k => exp (get (relu (build [n; n] F))
                                             (i0 / n * n + k)%nat))
                <= INR n * E)%R).
  { rewrite <- !Rsum_const. split; apply Rsum_le; intros k Hk;
      now apply (He (i0 / n) k Hrow Hk). }
  replace (exp (INR r * (s * s)) / INR n)%R with (E / (INR n * 1))%R
    by (unfold E; f_equal; lra).
  apply quotient_bounds; try lra.
  now apply He.
Qed.

Lemma uniform_ok (t : tensor) (lo hi : R) (g : Generator) :
  (lo <= hi)%R -> (forall i, (0 <= stream g i <= 1)%R) ->
  exists y,
    uniform_ t lo hi g = (Ok y, advance g (numel (shape t)))
    /\ shape y = shape t /\ within lo hi y.
Proof.
  intros Hlh Hu. eexists. split; [reflexivity|]. split; [reflexivity|].
  intros i Hi. cbn [build shape] in Hi. rewrite get_build by exact Hi.
  pose proof (Hu (consumed g + i)). nra.
Qed.

(** X15: [LearnedGCN.reset_parameters].  With [node_num = 0] it raises
    [ZeroDivisionError] ([1. / math.sqrt(0)]), so a [LearnedGCN] of no node
    cannot be built.  Otherwise it draws [20 * node_num] numbers and leaves
    both embeddings within [1 / sqrt(node_num)] of zero, so that the learned
    adjacency starts within a factor [exp(10 / node_num)] of the uniform
    one. *)
Theorem learned_gcn_initial_adjacency :
  forall (sd : state_dict) (name : string) (node_num in_feature out_feature : nat)
         (g : Generator),
    let self := LearnedGCN.init sd name node_num in_feature out_feature in
    (node_num = 0 -> reset_parameters self g = (Raise ZeroDivisionError, g))
    /\ (1 <= node_num -> (forall i, (0 <= stream g i <= 1)%R) ->
        exists self' A,
          reset_parameters self g = (Ok self', advance g (20 * node_num))
          /\ within (- (1 / sqrt (INR node_num))) (1 / sqrt (INR node_num))
                    (LearnedGCN.source_embed self')
          /\ within (- (1 / sqrt (INR node_num))) (1 / sqrt (INR node_num))
                    (LearnedGCN.target_embed self')
          /\ learned_matrix (LearnedGCN.source_embed self')
                            (LearnedGCN.target_embed self') = Ok A
          /\ shape A = [node_num; node_num]
          /\ within (1 / (INR node_num * exp (10 / INR node_num)))
                    (exp (10 / INR node_num) / INR node_num) A).
Proof.
  intros sd name N fin fout g self. split.
  - intros ->. reflexivity.
  - intros HN Hu.
    assert (HN0 : (0 < INR N)%R) by (apply lt_0_INR; lia).
    assert (Hsq : (0 < sqrt (INR N))%R) by now apply sqrt_lt_R0.
    set (s := (1 / sqrt (INR N))%R).
    assert (Hs : (0 < s)%R) by (unfold s; apply Rdiv_lt_0_compat; lra).
    assert (Hss : (s * s = 1 / INR N)%R).
    { assert (Hq : (sqrt (INR N) * sqrt (INR N) = INR N)%R)
        by (apply sqrt_sqrt; lra).
      transitivity (1 / (sqrt (INR N) * sqrt (INR N)))%R;
        [unfold s; field; lra | now rewrite Hq]. }
    unfold reset_parameters, self, LearnedGCN.init.
    cbn [LearnedGCN.source_embed LearnedGCN.target_embed LearnedGCN.node_num
         LearnedGCN.in_feature LearnedGCN.out_feature LearnedGCN.linear].
    set (S0 := parameter sd (sub name "source_embed") [N; 10]).
    set (T0 := parameter sd (sub name "target_embed") [10; N]).
    change (size S0 0) with (@Ok nat N).
    rewrite (bind_lift_ok _ N _ _ eq_refl). cbv beta.
    replace (N =? 0) with false by (symmetry; apply Nat.eqb_neq; lia).
    rewrite (bind_lift_ok _ s _ _ eq_refl). cbv beta.
    destruct (uniform_ok S0 (- s) s g ltac:(lra) Hu) as (S1 & ES & SS1 & WS1).
    rewrite (bind_ok _ _ _ _ _ ES). cbv beta.
    destruct (uniform_ok T0 (- s) s (advance g (numel (shape S0))) ltac:(lra) Hu)
      as (T1 & ET & ST1 & WT1).
    rewrite (bind_ok _ _ _ _ _ ET). cbv beta.
    destruct (learned_matrix_bounds S1 T1 N 10 s SS1 ST1 HN WS1 WT1)
      as (A & EA & SA & WA).
    eexists _, A. unfold ret.
    cbn [LearnedGCN.source_embed LearnedGCN.target_embed].
    split.
    { f_equal. unfold S0, T0. cbn [parameter build shape numel fold_right].
      rewrite advance_advance. f_equal. lia. }
    split; [exact WS1|]. split; [exact WT1|]. split; [exact EA|].
    split; [exact SA|].
    replace (10 / INR N)%R with (INR 10 * (s * s))%R; [exact WA|].
    rewrite Hss. cbn [INR]. lra.
Qed.

Lemma learned_gcn_initial_adjacency_witness :
  exists self' A,
    reset_parameters (LearnedGCN.init example_sd "gcn" 2 1 1) example_generator
    = (Ok self', advance example_generator (20 * 2))
    /\ learned_matrix (LearnedGCN.source_embed self')
                      (LearnedGCN.target_embed self') = Ok A
    /\ within (1 / (INR 2 * exp (10 / INR 2))) (exp (10 / INR 2) / INR 2) A.
Proof.
  assert (Hu : forall i, (0 <= stream example_generator i <= 1)%R)
    by (intros i; cbn; lra).
  destruct (proj2 (learned_gcn_initial_adjacency example_sd "gcn" 2 1 1
                     example_generator) (le_S 1 1 (le_n 1)) Hu)
    as (self' & A & Er & _ & _ & EA & _ & WA).
  exists self', A. split; [exact Er|]. split; [exact EA | exact WA].
Defined.

(** ** The samples of a batch do not interact *)

Lemma agree_on_pointwise (f : R -> R) (P : nat -> Prop) (x x' : tensor) :
  agree_on P x x' -> agree_on P (pointwise f x) (pointwise f x').
Proof.
  intros [Hs H]. split; [exact Hs|].
  intros i HP Hi. cbn [pointwise build shape] in Hi.
  rewrite !get_pointwise by (rewrite <- ?Hs; exact Hi).
  f_equal. now apply H.
Qed.

Lemma agree_on_binary (f : R -> R -> R) (P : nat -> Prop) (s : list nat)
      (a a' b b' y y' : tensor) :
  shape a = s -> shape b = s ->
  agree_on P a a' -> agree_on P b b' ->
  binary f a b = Ok y -> binary f a' b' = Ok y' ->
  agree_on P y y'.
Proof.
  intros Ha Hb [Hsa HA] [Hsb HB] Hy Hy'.
  destruct (binary_same_shape f a b s Ha Hb) as (z & Hz & Hsz & Hgz).
  destruct (binary_same_shape f a' b' s) as (z' & Hz' & Hsz' & Hgz');
    [congruence | congruence |].
  rewrite Hy in Hz. rewrite Hy' in Hz'. inversion Hz. inversion Hz'. subst z z'.
  split; [congruence|].
  intros i HP Hi. rewrite Hsz in Hi.
  rewrite Hgz, Hgz' by exact Hi.
  f_equal; [apply HA | apply HB]; try assumption; now rewrite ?Ha, ?Hb.
Qed.

Lemma agree_on_reshape (P : nat -> Prop) (x x' y y' : tensor)
      (dims : list (option nat)) :
  agree_on P x x' ->
  reshape x dims = Ok y -> reshape x' dims = Ok y' ->
  agree_on P y y'.
Proof.
  intros [Hs H] Hy Hy'.
  pose proof (reshape_get _ _ _ Hy) as G.
  pose proof (reshape_get _ _ _ Hy') as G'.
  unfold reshape in Hy, Hy'. rewrite <- Hs in Hy'.
  destruct (infer_shape (numel (shape x)) dims) as [s|] eqn:Ei; [|discriminate].
  apply infer_shape_numel in Ei.
  cbn [rbind] in Hy, Hy'. inversion Hy. inversion Hy'. subst y y'.
  cbn [build shape] in *. split; [reflexivity|].
  intros i HP Hi. rewrite G, G' by exact Hi.
  apply H; [exact HP | now rewrite <- Ei].
Qed.

Lemma agree_on_unsqueeze (P : nat -> Prop) (x x' y y' : tensor) (d : nat) :
  agree_on P x x' ->
  unsqueeze x d = Ok y -> unsqueeze x' d = Ok y' ->
  agree_on P y y'.
Proof.
  intros [Hs H]. unfold unsqueeze. rewrite <- Hs.
  destruct (d <=? length (shape x)); [|discriminate].
  intros Hy Hy'. inversion Hy. inversion Hy'. subst y y'.
  cbn [build shape]. split; [reflexivity|].
  intros i HP Hi. rewrite !get_build by exact Hi.
  apply H; [exact HP|].
  cbn [build shape] in Hi. rewrite numel_app in Hi.
  cbn [numel fold_right] in Hi. fold (numel (skipn d (shape x))) in Hi.
  rewrite <- (firstn_skipn d (shape x)), numel_app. lia.
Qed.

Lemma agree_on_dropout (P : nat -> Prop) (x x' y y' : tensor) (p : R)
      (training : bool) (g g1 g1' : Generator) :
  agree_on P x x' ->
  dropout x p training g = (Ok y, g1) -> dropout x' p training g = (Ok y', g1') ->
  agree_on P y y'.
Proof.
  intros [Hs H]. unfold dropout.
  destruct (Rle_dec 0 p) as [Hp0|]; [|discriminate].
  destruct (Rle_dec p 1) as [Hp1|]; [|discriminate].
  destruct training; intros Hy Hy'; inversion Hy; inversion Hy'; subst.
  - cbn [build shape]. split; [exact Hs|].
    intros i HP Hi. rewrite !get_build by (rewrite <- ?Hs; exact Hi).
    now rewrite (H i HP Hi).
  - now split.
Qed.

(** The product with the adjacency stays within each sample. *)
Lemma agree_on_matmul (A d d' m m' : tensor) (N D B b : nat) :
  shape A = [N; N] -> shape d = [B; N; D] ->
  agree_on (blk b (N * D)) d d' ->
  matmul A d = Ok m -> matmul A d' = Ok m' ->
  agree_on (blk b (N * D)) m m'.
Proof.
  intros HA Hd [Hs H] Hm Hm'. unfold matmul in Hm, Hm'.
  rewrite <- Hs in Hm'. rewrite HA, Hd in Hm, Hm'. cbn [rev app] in Hm, Hm'.
  rewrite Nat.eqb_refl in Hm, Hm'. inversion Hm. inversion Hm'. subst m m'.
  cbn [build shape]. split; [reflexivity|].
  intros i [Hk1 Hk2] Hi. rewrite !get_build by exact Hi.
  cbn [build shape rev app numel fold_right] in Hi. rewrite Nat.mul_1_r in Hi.
  destruct (Nat.eq_dec D 0) as [->|HD]; [lia|].
  destruct (Nat.eq_dec N 0) as [->|HN]; [lia|].
  assert (Hc : i mod D < D) by now apply Nat.mod_upper_bound.
  assert (Hq : i / (N * D) = b).
  { symmetry. apply Nat.div_unique with (r := i - b * (N * D)); lia. }
  assert (Hbt : b < B).
  { rewrite <- Hq. apply Nat.Div0.div_lt_upper_bound. lia. }
  apply Rsum_ext. intros j Hj. f_equal. rewrite Hq. apply H.
  - split; nia.
  - rewrite Hd. cbn [numel fold_right].
    rewrite Nat.mul_1_r, Nat.mul_assoc. now apply row3_lt.
Qed.

(** A linear layer works row by row. *)
Lemma agree_on_linear (sd : state_dict) (name : string) (n o r b : nat)
      (x x' y y' : tensor) (lead : list nat) :
  shape x = lead ++ [n] ->
  agree_on (blk b (r * n)) x x' ->
  Linear.forward (Linear.init sd name n o) x = Ok y ->
  Linear.forward (Linear.init sd name n o) x' = Ok y' ->
  agree_on (blk b (r * o)) y y'.
Proof.
  intros Hx [Hs H]. unfold Linear.forward, Linear.init, linear.
  cbn [Linear.weight Linear.bias parameter build shape].
  rewrite <- Hs, Hx, rev_app_distr. cbn [rev app list_eq_nat].
  rewrite !Nat.eqb_refl. cbn [andb]. rewrite rev_involutive.
  intros Hy Hy'. inversion Hy. inversion Hy'. subst y y'.
  cbn [build shape]. split; [reflexivity|].
  intros i [Hk1 Hk2] Hi. rewrite !get_build by exact Hi.
  cbn [build shape] in Hi.
  rewrite numel_app in Hi. cbn [numel fold_right] in Hi.
  rewrite Nat.mul_1_r in Hi.
  destruct (Nat.eq_dec o 0) as [->|Ho]; [lia|].
  assert (Hrow : i / o < numel lead) by (apply Nat.Div0.div_lt_upper_bound; lia).
  assert (Hr1 : b * r <= i / o) by (apply Nat.div_le_lower_bound; nia).
  assert (Hr2 : i / o < (b + 1) * r) by (apply Nat.Div0.div_lt_upper_bound; nia).
  f_equal. apply Rsum_ext. intros j Hj. f_equal. apply H.
  - split; nia.
  - rewrite Hx, numel_app. cbn [numel fold_right]. rewrite Nat.mul_1_r.
    now apply row_index_lt.
Qed.

Lemma agree_on_cat (a a' c c' y y' : tensor) (B N ga gb b : nat) :
  shape a = [B; N; ga] -> shape c = [B; N; gb] ->
  agree_on (blk b (N * ga)) a a' -> agree_on (blk b (N * gb)) c c' ->
  cat a c 2 = Ok y -> cat a' c' 2 = Ok y' ->
  agree_on (blk b (N * (ga + gb))) y y'.
Proof.
  intros Ha Hc [Hsa HA] [Hsc HC]. unfold cat.
  rewrite <- Hsa, <- Hsc, Ha, Hc.
  cbn [nth_error length firstn skipn list_eq_nat numel fold_right app].
  rewrite !Nat.eqb_refl. cbn [andb].
  intros Hy Hy'. inversion Hy. inversion Hy'. subst y y'.
  cbn [build shape]. split; [reflexivity|].
  intros i [Hk1 Hk2] Hi. rewrite !get_build by exact Hi.
  cbn [build shape numel fold_right] in Hi. rewrite !Nat.mul_1_r in *.
  destruct (Nat.eq_dec (ga + gb) 0) as [E0|E0]; [rewrite E0 in Hi; lia|].
  assert (Hrow : i / (ga + gb) < B * N)
    by (apply Nat.Div0.div_lt_upper_bound; lia).
  assert (Hr1 : b * N <= i / (ga + gb))
    by (apply Nat.div_le_lower_bound; nia).
  assert (Hr2 : i / (ga + gb) < (b + 1) * N)
    by (apply Nat.Div0.div_lt_upper_bound; nia).
  assert (Hm : i mod (ga + gb) < ga + gb) by now apply Nat.mod_upper_bound.
  destruct (i mod (ga + gb) <? ga) eqn:E.
  - apply Nat.ltb_lt in E. apply HA; [split; nia|].
    rewrite Ha. cbn [numel fold_right]. rewrite Nat.mul_1_r, Nat.mul_assoc.
    now apply row_index_lt.
  - apply Nat.ltb_ge in E. apply HC; [split; nia|].
    rewrite Hc. cbn [numel fold_right]. rewrite Nat.mul_1_r, Nat.mul_assoc.
    apply row_index_lt; [exact Hrow | lia].
Qed.

(** Equalities of sums and quotients, argument by argument; [leaf] closes
    the equalities between entries of tensors. *)
Ltac cong leaf :=
  first
    [ reflexivity
    | leaf
    | apply Rsum_ext; intros ? ?; cong leaf
    | apply (f_equal Rsum_list); apply map_ext_in; intros ? ?; cong leaf
    | match goal with
      | |- ?f _ _ = ?f _ _ => apply f_equal2; cong leaf
      | |- ?f _ = ?f _ => apply f_equal; cong leaf
      end ].

(** The graph attention of a node reads the rows of the nodes with an edge
    into it, which are nodes of its own sample. *)
Lemma agree_on_gat (sd : state_dict) (name : string) (f o h : nat)
      (x x' y y' : tensor) (e : EdgeIndex) (n N b : nat) :
  shape x = [n; f] -> agree_on (blk b (N * f)) x x' ->
  edges_within N e -> 1 <= N ->
  GATConv.forward (GATConv.init sd name f o h false) x e = Ok y ->
  GATConv.forward (GATConv.init sd name f o h false) x' e = Ok y' ->
  agree_on (blk b (N * o)) y y'.
Proof.
  intros Hx [Hs H] He HN. unfold GATConv.forward, GATConv.init.
  cbn [GATConv.in_channels GATConv.concat GATConv.out_channels GATConv.heads
       GATConv.lin GATConv.att_l GATConv.att_r GATConv.bias].
  rewrite <- Hs, Hx, Nat.eqb_refl. cbn [andb].
  destruct (forallb _ (edges e)) eqn:Hchk; [|discriminate].
  intros Hy Hy'. inversion Hy. inversion Hy'. subst y y'. clear Hy Hy'.
  cbn [build shape]. split; [reflexivity|].
  intros i [Hk1 Hk2] Hi. cbn [build shape numel fold_right] in Hi.
  rewrite Nat.mul_1_r in Hi.
  rewrite !get_build by (cbn [numel fold_right]; lia).
  destruct (Nat.eq_dec o 0) as [->|Ho]; [lia|].
  assert (Hrow : i / o < n) by (apply Nat.Div0.div_lt_upper_bound; lia).
  assert (Hr1 : b * N <= i / o) by (apply Nat.div_le_lower_bound; nia).
  assert (Hr2 : i / o < (b + 1) * N) by (apply Nat.Div0.div_lt_upper_bound; nia).
  assert (Hrowx : forall j k, b * N <= j -> j < (b + 1) * N -> j < n -> k < f ->
            get x (j * f + k) = get x' (j * f + k)).
  { intros j k Hj1 Hj2 Hjn Hkf. apply H; [split; nia|].
    rewrite Hx. cbn [numel fold_right]. rewrite Nat.mul_1_r.
    now apply row_index_lt. }
  assert (Hinto : forall p,
            In p (filter (fun p : nat * nat => snd p =? i / o)
                         (filter (fun p : nat * nat => negb (fst p =? snd p))
                                 (edges e)
                          ++ map (fun k => (k, k)) (seq 0 n))) ->
            b * N <= fst p /\ fst p < (b + 1) * N /\ fst p < n).
  { intros [j k] Hp. apply filter_In in Hp. destruct Hp as [Hp Hk].
    cbn [snd] in Hk. apply Nat.eqb_eq in Hk. subst k. cbn [fst].
    apply in_app_or in Hp. destruct Hp as [Hp|Hp].
    - apply filter_In in Hp. destruct Hp as [Hp _].
      destruct (He _ _ Hp) as [Hj Hi'].
      assert (b = 0) by nia. subst b.
      pose proof (proj1 (forallb_forall _ _) Hchk _ Hp) as Hc.
      cbn [fst snd] in Hc. apply andb_prop in Hc. destruct Hc as [Hc _].
      apply Nat.ltb_lt in Hc. lia.
    - apply in_map_iff in Hp. destruct Hp as (k & Hk & _).
      inversion Hk. subst. lia. }
  cong ltac:(idtac;
             match goal with
             | Hp : In ?p _ |- get x (fst ?p * f + _) = _ =>
               destruct (Hinto p Hp) as (? & ? & ?); apply Hrowx; assumption
             | |- get x (i / o * f + _) = _ => apply Hrowx; assumption
             end).
Qed.

Lemma permute_201_get (t : tensor) (B N W : nat) :
  shape t = [B; N; W] ->
  exists y,
    permute t [2; 0; 1] = Ok y /\ shape y = [W; B; N]
    /\ forall w b n, w < W -> b < B -> n < N ->
         get y ((w * B + b) * N + n) = get t ((b * N + n) * W + w).
Proof.
  intros Ht. unfold permute. rewrite Ht.
  cbn [length is_permutation Nat.eqb forallb seq existsb andb orb map nth].
  eexists. split; [reflexivity|]. split; [reflexivity|].
  intros w b n Hw Hb Hn.
  destruct (index3 w b n W B N Hw Hb Hn) as (H0 & H1 & H2 & Hlt).
  rewrite get_build by (cbn [numel fold_right]; exact Hlt).
  cbn [unravel numel fold_right map seq index_of Nat.eqb nth ravel].
  rewrite H0, H1, H2. f_equal. ring.
Qed.

Lemma permute_120_get (t : tensor) (W B N : nat) :
  shape t = [W; B; N] ->
  exists y,
    permute t [1; 2; 0] = Ok y /\ shape y = [B; N; W]
    /\ forall b n w, b < B -> n < N -> w < W ->
         get y ((b * N + n) * W + w) = get t ((w * B + b) * N + n).
Proof.
  intros Ht. unfold permute. rewrite Ht.
  cbn [length is_permutation Nat.eqb forallb seq existsb andb orb map nth].
  eexists. split; [reflexivity|]. split; [reflexivity|].
  intros b n w Hb Hn Hw.
  destruct (index3 b n w B N W Hb Hn Hw) as (H0 & H1 & H2 & Hlt).
  rewrite get_build by (cbn [numel fold_right]; exact Hlt).
  cbn [unravel numel fold_right map seq index_of Nat.eqb nth ravel].
  rewrite H0, H1, H2. f_equal. ring.
Qed.

(** A flat index of a tensor [(A, B, C)] by its coordinates. *)
Lemma coordinates3 (i A B C : nat) :
  i < A * B * C ->
  i = (i / C / B * B + (i / C) mod B) * C + i mod C
  /\ i / C / B < A /\ (i / C) mod B < B /\ i mod C < C.
Proof.
  intros Hi.
  destruct (Nat.eq_dec C 0) as [->|HC]; [lia|].
  destruct (Nat.eq_dec B 0) as [->|HB]; [lia|].
  pose proof (Nat.div_mod_eq i C). pose proof (Nat.div_mod_eq (i / C) B).
  assert (i / C < A * B) by (apply Nat.Div0.div_lt_upper_bound; lia).
  repeat split.
  - lia.
  - apply Nat.Div0.div_lt_upper_bound. lia.
  - now apply Nat.mod_upper_bound.
  - now apply Nat.mod_upper_bound.
Qed.

Lemma agree_on_permute_201 (t t' y y' : tensor) (B N W b : nat) :
  shape t = [B; N; W] -> agree_on (blk b (N * W)) t t' ->
  permute t [2; 0; 1] = Ok y -> permute t' [2; 0; 1] = Ok y' ->
  agree_on (mid b B N) y y'.
Proof.
  intros Ht [Hs H] Hy Hy'.
  destruct (permute_201_get t B N W Ht) as (z & Ez & Sz & Gz).
  destruct (permute_201_get t' B N W) as (z' & Ez' & Sz' & Gz'); [congruence|].
  rewrite Hy in Ez. rewrite Hy' in Ez'. inversion Ez. inversion Ez'. subst z z'.
  split; [congruence|].
  intros i Hm Hi. rewrite Sz in Hi. cbn [numel fold_right] in Hi.
  destruct (coordinates3 i W B N) as (Ei & Hw & Hb & Hn); [lia|].
  unfold mid in Hm. rewrite Hm in Ei, Hb.
  rewrite Ei, Gz, Gz' by assumption.
  apply H.
  - split; nia.
  - rewrite Ht. cbn [numel fold_right].
    rewrite Nat.mul_1_r, Nat.mul_assoc. now apply row3_lt.
Qed.

Lemma agree_on_permute_120 (t t' y y' : tensor) (W B N b : nat) :
  shape t = [W; B; N] -> agree_on (mid b B N) t t' ->
  permute t [1; 2; 0] = Ok y -> permute t' [1; 2; 0] = Ok y' ->
  agree_on (blk b (N * W)) y y'.
Proof.
  intros Ht [Hs H] Hy Hy'.
  destruct (permute_120_get t W B N Ht) as (z & Ez & Sz & Gz).
  destruct (permute_120_get t' W B N) as (z' & Ez' & Sz' & Gz'); [congruence|].
  rewrite Hy in Ez. rewrite Hy' in Ez'. inversion Ez. inversion Ez'. subst z z'.
  split; [congruence|].
  intros i [Hk1 Hk2] Hi. rewrite Sz in Hi. cbn [numel fold_right] in Hi.
  destruct (coordinates3 i B N W) as (Ei & Hb & Hn & Hw); [lia|].
  destruct (Nat.eq_dec W 0) as [->|HW]; [lia|].
  destruct (Nat.eq_dec N 0) as [->|HN]; [lia|].
  assert (Hq : i / W / N = b).
  { rewrite Nat.Div0.div_div. symmetry.
    apply Nat.div_unique with (r := i - b * (N * W)); lia. }
  rewrite Hq in Ei, Hb.
  rewrite Ei, Gz, Gz' by assumption.
  apply H.
  - unfold mid.
    destruct (div_mod_row (i mod W * B + b) ((i / W) mod N) N Hn) as [Hd _].
    rewrite Hd. rewrite Nat.add_comm, Nat.Div0.mod_add. now apply Nat.mod_small.
  - rewrite Ht. cbn [numel fold_right].
    rewrite Nat.mul_1_r, Nat.mul_assoc. now apply row3_lt.
Qed.

(** Self-attention over [(L, B, E)] works sample by sample. *)
Lemma agree_on_attention (m : MultiheadAttention.t) (q q' : tensor)
      (o o' : tensor * tensor) (L B E b : nat) :
  shape q = [L; B; E] -> agree_on (mid b B E) q q' ->
  MultiheadAttention.forward m q q q = Ok o ->
  MultiheadAttention.forward m q' q' q' = Ok o' ->
  agree_on (mid b B E) (fst o) (fst o').
Proof.
  intros Hq [Hs H]. unfold MultiheadAttention.forward. rewrite <- Hs, Hq.
  destruct ((E =? MultiheadAttention.embed_dim m) && (E =? E) && (E =? E)
            && (B =? B) && (B =? B) && (L =? L)); [|discriminate].
  intros Ho Ho'. inversion Ho. inversion Ho'. subst o o'. clear Ho Ho'.
  cbn [fst build shape]. split; [reflexivity|].
  intros i Hm Hi. cbn [build shape numel fold_right] in Hi.
  rewrite Nat.mul_1_r in Hi.
  rewrite !get_build by (cbn [numel fold_right]; lia).
  destruct (coordinates3 i L B E) as (_ & Hl & Hb & He); [lia|].
  unfold mid in Hm. rewrite Hm in *.
  assert (Hread : forall pos j, pos < L -> j < E ->
            get q ((pos * B + b) * E + j) = get q' ((pos * B + b) * E + j)).
  { intros pos j Hpos Hj. apply H.
    - unfold mid. destruct (div_mod_row (pos * B + b) j E Hj) as [Hd _].
      rewrite Hd, Nat.add_comm, Nat.Div0.mod_add. now apply Nat.mod_small.
    - rewrite Hq. cbn [numel fold_right].
      rewrite Nat.mul_1_r, Nat.mul_assoc. now apply row3_lt. }
  cong ltac:(idtac; apply Hread; assumption).
Qed.

(** *** The temporal convolutions, row by row *)

Lemma rowwise_bind (f k : tensor -> M tensor) (s1 s2 s3 : list nat) (N : nat) :
  rowwise_op f s1 s2 N -> rowwise_op k s2 s3 N ->
  rowwise_op (fun x => bind (f x) k) s1 s3 N.
Proof.
  intros Hf Hk x g Hx.
  destruct (Hf x g Hx) as (y & g1 & Hy & Hsy & Hcy).
  destruct (Hk y g1 Hsy) as (z & g2 & Hz & Hsz & Hcz).
  exists z, g2. unfold bind. rewrite Hy. split; [exact Hz|]. split; [exact Hsz|].
  intros x' Hx'.
  destruct (Hcy x' Hx') as (y' & Hy' & Hsy' & Hay).
  destruct (Hcz y' Hsy') as (z' & Hz' & Hsz' & Haz).
  exists z'. rewrite Hy'. split; [exact Hz'|]. split; [exact Hsz'|].
  intros b Hab. apply Haz, Hay, Hab.
Qed.

Lemma rowwise_ext (f h : tensor -> M tensor) (s1 s2 : list nat) (N : nat) :
  (forall x g, f x g = h x g) -> rowwise_op f s1 s2 N -> rowwise_op h s1 s2 N.
Proof.
  intros E Hf x g Hx.
  destruct (Hf x g Hx) as (y & g1 & Hy & Hsy & Hcy).
  exists y, g1. rewrite <- E. split; [exact Hy|]. split; [exact Hsy|].
  intros x' Hx'. destruct (Hcy x' Hx') as (y' & Hy' & Hsy' & Hay).
  exists y'. rewrite <- E. split; [exact Hy'|]. split; [exact Hsy' | exact Hay].
Qed.

Lemma rowwise_id (s : list nat) (N : nat) : rowwise_op (fun x => ret x) s s N.
Proof.
  intros x g Hx. exists x, g. split; [reflexivity|]. split; [exact Hx|].
  intros x' Hx'. exists x'. split; [reflexivity|]. split; [exact Hx'|].
  now intros b.
Qed.

Lemma rowwise_conv (c : Conv1d.t) (n ci co k l N : nat) :
  shape (Conv1d.effective_weight c) = [co; ci; k] ->
  shape (Conv1d.bias c) = [co] ->
  Conv1d.stride c = 1 ->
  1 <= k -> 1 <= Conv1d.dilation c ->
  (k - 1) * Conv1d.dilation c <= Conv1d.padding c ->
  1 <= l + Conv1d.padding c ->
  rowwise_op (fun x => lift (Conv1d.forward c x)) [n; ci; l]
             [n; co; l + 2 * Conv1d.padding c - Conv1d.dilation c * (k - 1)] N.
Proof.
  intros Hw Hb Hst Hk Hd Hpad Hl x g Hx.
  unfold Conv1d.forward, lift. rewrite Hst.
  set (p := Conv1d.padding c) in *. set (d := Conv1d.dilation c) in *.
  assert (Hlen : d * (k - 1) + 1 <= l + 2 * p) by (rewrite Nat.mul_comm; lia).
  destruct (conv1d_ok x _ _ n ci l co k p d Hx Hw Hb Hk Hd Hlen)
    as (y & Hy & Hsy & Hgy).
  exists y, g. rewrite Hy. split; [reflexivity|]. split; [exact Hsy|].
  intros x' Hx'.
  destruct (conv1d_ok x' _ _ n ci l co k p d Hx' Hw Hb Hk Hd Hlen)
    as (y' & Hy' & Hsy' & Hgy').
  exists y'. rewrite Hy'. split; [reflexivity|]. split; [exact Hsy'|].
  intros b [_ H]. split; [congruence|].
  intros n0 c0 l0 Hshape r s Hr Hb1 Hb2 Hsl.
  rewrite Hsy in Hshape. inversion Hshape. subst n0 c0 l0.
  rewrite Hgy, Hgy' by assumption.
  f_equal. apply Rsum_ext. intros ch Hch. apply Rsum_ext. intros j Hj.
  f_equal.
  destruct ((p <=? s * 1 + j * d) && (s * 1 + j * d - p <? l)) eqn:E;
    [|reflexivity].
  apply andb_prop in E. destruct E as [E1 E2].
  apply Nat.leb_le in E1. apply Nat.ltb_lt in E2.
  assert (Hrow : r / co < n) by (apply Nat.Div0.div_lt_upper_bound; lia).
  destruct (div_mod_row (r / co) ch ci Hch) as [Hdiv _].
  apply (H n ci l Hx).
  - now apply row_index_lt.
  - now rewrite Hdiv.
  - now rewrite Hdiv.
  - exact E2.
Qed.

Lemma rowwise_chomp (ch : Chomp1d.t) (n c l N : nat) :
  rowwise_op (fun x => lift (Chomp1d.forward ch x)) [n; c; l]
             [n; c; if Chomp1d.chomp_size ch =? 0 then 0
                    else l - Chomp1d.chomp_size ch] N.
Proof.
  intros x g Hx. unfold Chomp1d.forward, lift.
  destruct (chomp_ok x n c l (Chomp1d.chomp_size ch) Hx) as (y & Hy & Hsy & Hgy).
  exists y, g. rewrite Hy. split; [reflexivity|]. split; [exact Hsy|].
  intros x' Hx'.
  destruct (chomp_ok x' n c l (Chomp1d.chomp_size ch) Hx')
    as (y' & Hy' & Hsy' & Hgy').
  exists y'. rewrite Hy'. split; [reflexivity|]. split; [exact Hsy'|].
  intros b [_ H]. split; [congruence|].
  intros n0 c0 l0 Hshape r s Hr Hb1 Hb2 Hsl.
  rewrite Hsy in Hshape. inversion Hshape. subst n0 c0 l0.
  rewrite Hgy, Hgy' by assumption.
  apply (H n c l Hx r s Hr Hb1 Hb2).
  destruct (Chomp1d.chomp_size ch =? 0); lia.
Qed.

Lemma rowwise_relu_dropout (d : Dropout.t) (n c l N : nat) :
  (0 <= Dropout.p d <= 1)%R ->
  rowwise_op (fun x => Dropout.forward d (relu x)) [n; c; l] [n; c; l] N.
Proof.
  intros Hp x g Hx. unfold Dropout.forward.
  destruct (dropout_ok (relu x) _ (Dropout.training d) g Hp) as (y & Hy & Hsy).
  cbn [relu pointwise build shape] in Hy, Hsy.
  eexists y, _. split; [exact Hy|]. split; [now rewrite Hsy|].
  intros x' Hx'.
  destruct (dropout_ok (relu x') _ (Dropout.training d) g Hp) as (y' & Hy' & Hsy').
  cbn [relu pointwise build shape] in Hy', Hsy'.
  exists y'. rewrite Hy', Hx, Hx'. split; [reflexivity|].
  split; [now rewrite Hsy'|].
  intros b [_ H]. split; [congruence|].
  intros n0 c0 l0 Hshape r s Hr Hb1 Hb2 Hsl.
  rewrite Hsy, Hx in Hshape. inversion Hshape. subst n0 c0 l0.
  assert (Hi : r * l + s < numel [n; c; l])
    by (rewrite numel3; now apply row_index_lt).
  unfold dropout in Hy, Hy'.
  destruct (Rle_dec 0 (Dropout.p d)) as [Hp0|]; [|discriminate].
  destruct (Rle_dec (Dropout.p d) 1) as [Hp1|]; [|discriminate].
  destruct (Dropout.training d); inversion Hy; inversion Hy'; subst y y'.
  - cbn [relu pointwise build shape]. rewrite Hx, Hx'.
    rewrite !get_build by exact Hi.
    destruct (Rlt_dec _ _); [|reflexivity]. f_equal.
    unfold relu. rewrite !get_pointwise by (rewrite ?Hx, ?Hx'; exact Hi).
    f_equal. now apply (H n c l Hx).
  - unfold relu. rewrite !get_pointwise by (rewrite ?Hx, ?Hx'; exact Hi).
    f_equal. now apply (H n c l Hx).
Qed.

Lemma agree_rows_pointwise (f : R -> R) (b N : nat) (x x' : tensor) :
  agree_rows b N x x' -> agree_rows b N (pointwise f x) (pointwise f x').
Proof.
  intros [Hs H]. split; [exact Hs|].
  intros n c l Hshape r s Hr Hb1 Hb2 Hsl. cbn [pointwise build shape] in Hshape.
  rewrite !get_pointwise.
  - f_equal. now apply (H n c l).
  - rewrite <- Hs, Hshape, numel3. now apply row_index_lt.
  - rewrite Hshape, numel3. now apply row_index_lt.
Qed.

Lemma agree_rows_binary (f : R -> R -> R) (b N n c l : nat)
      (u u' v v' y y' : tensor) :
  shape u = [n; c; l] -> shape v = [n; c; l] ->
  agree_rows b N u u' -> agree_rows b N v v' ->
  binary f u v = Ok y -> binary f u' v' = Ok y' ->
  agree_rows b N y y'.
Proof.
  intros Hu Hv [Hsu HU] [Hsv HV] Hy Hy'.
  destruct (binary_same_shape f u v _ Hu Hv) as (z & Hz & Hsz & Hgz).
  destruct (binary_same_shape f u' v' [n; c; l]) as (z' & Hz' & Hsz' & Hgz');
    [congruence | congruence |].
  rewrite Hy in Hz. rewrite Hy' in Hz'. inversion Hz. inversion Hz'. subst z z'.
  split; [congruence|].
  intros n0 c0 l0 Hshape r s Hr Hb1 Hb2 Hsl.
  rewrite Hsz in Hshape. inversion Hshape. subst n0 c0 l0.
  rewrite Hgz, Hgz' by (rewrite numel3; now apply row_index_lt).
  f_equal; [now apply (HU n c l) | now apply (HV n c l)].
Qed.

Lemma rowwise_residual (net : tensor -> M tensor) (res : tensor -> result tensor)
      (s1 : list nat) (n c l N : nat) :
  rowwise_op net s1 [n; c; l] N ->
  rowwise_op (fun x => lift (res x)) s1 [n; c; l] N ->
  rowwise_op (fun x => out <- net x ;; r <~ res x ;; s <~ add out r ;; ret (relu s))
             s1 [n; c; l] N.
Proof.
  intros Hnet Hres x g Hx.
  destruct (Hnet x g Hx) as (out & g1 & Hout & Hsout & Hcout).
  destruct (Hres x g1 Hx) as (r & g2 & Hr & Hsr & Hcr).
  unfold lift in Hr. assert (Hr' : res x = Ok r) by congruence.
  destruct (binary_same_shape Rplus out r _ Hsout Hsr) as (s & Hs & Hss & _).
  exists (relu s), g1. cbv beta. unfold bind, lift, ret. rewrite Hout, Hr'.
  unfold add. rewrite Hs.
  split; [reflexivity|]. split; [exact Hss|].
  intros x' Hx'.
  destruct (Hcout x' Hx') as (out' & Hout' & Hsout' & Haout).
  destruct (Hcr x' Hx') as (r' & Hr2 & Hsr' & Har).
  unfold lift in Hr2. assert (Hr2' : res x' = Ok r') by congruence.
  destruct (binary_same_shape Rplus out' r' [n; c; l] Hsout' Hsr')
    as (s' & Hs' & Hss' & _).
  exists (relu s'). rewrite Hout', Hr2', Hs'. split; [reflexivity|].
  split; [exact Hss'|].
  intros b Hab. apply agree_rows_pointwise.
  apply (agree_rows_binary Rplus b N n c l out out' r r' s s' Hsout Hsr);
    try assumption.
  - now apply Haout.
  - now apply Har.
Qed.

Lemma rowwise_conv_chomp_dropout (sd : state_dict) (name : string)
      (ci co kernel_size dilation : nat) (p : R) (training : bool) (n l N : nat)
      (k : tensor -> M tensor) (s3 : list nat) :
  2 <= kernel_size -> 1 <= dilation -> (0 <= p <= 1)%R ->
  rowwise_op k [n; co; l] s3 N ->
  rowwise_op
    (fun x =>
       out <~ Conv1d.forward
                (Conv1d.weight_norm sd name
                   (Conv1d.init sd name ci co kernel_size 1
                                ((kernel_size - 1) * dilation) dilation)) x ;;
       out <~ Chomp1d.forward (Chomp1d.mk ((kernel_size - 1) * dilation)) out ;;
       out <- Dropout.forward (Dropout.mk p training) (relu out) ;;
       k out)
    [n; ci; l] s3 N.
Proof.
  intros Hk Hd Hp Hcont.
  set (pad := (kernel_size - 1) * dilation).
  assert (Hpad : 1 <= pad) by (unfold pad; nia).
  assert (Hlen : l + 2 * pad - dilation * (kernel_size - 1) = l + pad)
    by (unfold pad; nia).
  assert (Hchomp : (if pad =? 0 then 0 else l + pad - pad) = l).
  { destruct (pad =? 0) eqn:E; [apply Nat.eqb_eq in E; lia | lia]. }
  apply (rowwise_bind
           (fun x => lift (Conv1d.forward
                             (Conv1d.weight_norm sd name
                                (Conv1d.init sd name ci co kernel_size 1 pad dilation))
                             x))
           _ [n; ci; l] [n; co; l + pad] s3).
  - rewrite <- Hlen.
    apply (rowwise_conv (Conv1d.weight_norm sd name
                           (Conv1d.init sd name ci co kernel_size 1 pad dilation))
                        n ci co kernel_size l);
      cbn [Conv1d.padding Conv1d.dilation Conv1d.weight_norm Conv1d.stride
           Conv1d.init];
      try reflexivity; try lia.
  - apply (rowwise_bind
             (fun out => lift (Chomp1d.forward (Chomp1d.mk pad) out))
             _ [n; co; l + pad] [n; co; l] s3).
    + rewrite <- Hchomp at 2. apply (rowwise_chomp (Chomp1d.mk pad)).
    + apply (rowwise_bind
               (fun out => Dropout.forward (Dropout.mk p training) (relu out))
               k [n; co; l] [n; co; l] s3).
      * apply (rowwise_relu_dropout (Dropout.mk p training)). exact Hp.
      * exact Hcont.
Qed.

Lemma rowwise_block (sd : state_dict) (name : string)
      (n_inputs n_outputs kernel_size dilation : nat) (p : R) (training : bool)
      (n l N : nat) :
  2 <= kernel_size -> 1 <= dilation -> (0 <= p <= 1)%R -> 1 <= l ->
  rowwise_op
    (TemporalBlock.forward
       (TemporalBlock.init sd name n_inputs n_outputs kernel_size 1 dilation
                           ((kernel_size - 1) * dilation) p training))
    [n; n_inputs; l] [n; n_outputs; l] N.
Proof.
  intros Hk Hd Hp Hl.
  unfold TemporalBlock.forward.
  apply rowwise_residual.
  - unfold TemporalBlock.net, TemporalBlock.init.
    cbn [TemporalBlock.conv1 TemporalBlock.conv2 TemporalBlock.chomp1
         TemporalBlock.chomp2 TemporalBlock.dropout1 TemporalBlock.dropout2].
    apply (rowwise_ext
             (fun x =>
                out <~ Conv1d.forward
                         (Conv1d.weight_norm sd (sub name "conv1")
                            (Conv1d.init sd (sub name "conv1") n_inputs n_outputs
                                         kernel_size 1
                                         ((kernel_size - 1) * dilation) dilation)) x ;;
                out <~ Chomp1d.forward
                         (Chomp1d.mk ((kernel_size - 1) * dilation)) out ;;
                out <- Dropout.forward (Dropout.mk p training) (relu out) ;;
                out <~ Conv1d.forward
                         (Conv1d.weight_norm sd (sub name "conv2")
                            (Conv1d.init sd (sub name "conv2") n_outputs n_outputs
                                         kernel_size 1
                                         ((kernel_size - 1) * dilation) dilation)) out ;;
                out <~ Chomp1d.forward
                         (Chomp1d.mk ((kernel_size - 1) * dilation)) out ;;
                out <- Dropout.forward (Dropout.mk p training) (relu out) ;;
                ret out)).
    + intros x g. unfold bind, lift, ret.
      destruct (Conv1d.forward _ x) as [o|e]; [|reflexivity].
      destruct (Chomp1d.forward _ o) as [o'|e]; [|reflexivity].
      destruct (Dropout.forward _ (relu o') g) as [[o''|e] g']; [|reflexivity].
      destruct (Conv1d.forward _ o'') as [o3|e]; [|reflexivity].
      destruct (Chomp1d.forward _ o3) as [o4|e]; [|reflexivity].
      destruct (Dropout.forward _ (relu o4) g') as [[o5|e] g5]; reflexivity.
    + apply rowwise_conv_chomp_dropout; try assumption.
      apply rowwise_conv_chomp_dropout; try assumption.
      apply rowwise_id.
  - unfold TemporalBlock.init. cbn [TemporalBlock.downsample].
    destruct (n_inputs =? n_outputs) eqn:E.
    + apply Nat.eqb_eq in E. subst n_outputs.
      apply (rowwise_id [n; n_inputs; l]).
    + assert (Hs : l + 2 * 0 - 1 * (1 - 1) = l) by lia.
      rewrite <- Hs at 2.
      apply (rowwise_conv (Conv1d.init sd (sub name "downsample")
                                       n_inputs n_outputs 1 1 0 1)
                          n n_inputs n_outputs 1 l);
        cbn [Conv1d.padding Conv1d.dilation Conv1d.stride Conv1d.init];
        try reflexivity; try lia.
Qed.

Lemma rowwise_sequential (chans : nat -> nat) (n l N : nat)
      (blocks : list TemporalBlock.t) :
  forall start,
    (forall i b, nth_error blocks i = Some b ->
                 rowwise_op (TemporalBlock.forward b)
                            [n; chans (start + i); l] [n; chans (start + S i); l]
                            N) ->
    rowwise_op (TemporalConvNet.sequential blocks)
               [n; chans start; l] [n; chans (start + length blocks); l] N.
Proof.
  induction blocks as [|b rest IH]; intros start Hblocks.
  - cbn [TemporalConvNet.sequential length]. rewrite Nat.add_0_r.
    apply rowwise_id.
  - cbn [TemporalConvNet.sequential length].
    apply (rowwise_bind (TemporalBlock.forward b)
                        (TemporalConvNet.sequential rest)
                        _ [n; chans (start + 1); l]).
    + specialize (Hblocks 0 b eq_refl). now rewrite Nat.add_0_r in Hblocks.
    + replace (start + S (length rest)) with (S start + length rest) by lia.
      replace (start + 1) with (S start) by lia.
      apply IH. intros i b' Hi.
      replace (S start + i) with (start + S i) by lia.
      replace (S start + S i) with (start + S (S i)) by lia.
      now apply Hblocks.
Qed.

(** The temporal convolutions treat every row of their batch on its own. *)
Lemma tcn_rowwise (sd : state_dict) (name : string) (num_inputs : nat)
      (num_channels : list nat) (kernel_size : nat) (p : R) (training : bool)
      (n l N : nat) :
  2 <= kernel_size -> (0 <= p <= 1)%R -> 1 <= l ->
  rowwise_op (TemporalConvNet.forward
                (TemporalConvNet.init sd name num_inputs num_channels kernel_size
                                      p training))
             [n; num_inputs; l]
             [n; channels_before num_inputs num_channels (length num_channels); l]
             N.
Proof.
  intros Hk Hp Hl. unfold TemporalConvNet.forward.
  set (net := TemporalConvNet.init sd name num_inputs num_channels kernel_size
                                   p training).
  assert (Hlen : length (TemporalConvNet.network net) = length num_channels).
  { unfold net, TemporalConvNet.init. cbn [TemporalConvNet.network].
    now rewrite length_map, length_seq. }
  pose proof (rowwise_sequential (channels_before num_inputs num_channels)
                                 n l N (TemporalConvNet.network net) 0) as H.
  rewrite Hlen in H. apply H.
  intros i b Hb. cbn [Nat.add].
  replace (channels_before num_inputs num_channels (S i))
    with (nth i num_channels 0)
    by (unfold channels_before; cbn [Nat.eqb]; now rewrite Nat.sub_succ, Nat.sub_0_r).
  unfold net, TemporalConvNet.init in Hb. cbn [TemporalConvNet.network] in Hb.
  apply nth_error_map_seq in Hb. destruct Hb as [_ ->].
  apply rowwise_block; try assumption. apply pow2_pos.
Qed.

(** Between the rows of a sample and its block of flat indices. *)
Lemma agree_rows_of_blk (b N n c l : nat) (x x' : tensor) :
  shape x = [n; c; l] -> agree_on (blk b (N * (c * l))) x x' ->
  agree_rows b N x x'.
Proof.
  intros Hx [Hs H]. split; [exact Hs|].
  intros n0 c0 l0 Hshape r s Hr Hb1 Hb2 Hsl.
  rewrite Hx in Hshape. inversion Hshape. subst n0 c0 l0.
  destruct (Nat.eq_dec c 0) as [->|Hc]; [lia|].
  pose proof (Nat.div_mod_eq r c) as Hdm.
  assert (Hmod : r mod c < c) by now apply Nat.mod_upper_bound.
  set (q := r / c) in *.
  assert (L1 : b * N * c <= r) by nia.
  assert (L2 : r + 1 <= (b + 1) * N * c) by nia.
  assert (L3 : b * N * c * l <= r * l) by (apply Nat.mul_le_mono_r; exact L1).
  assert (L4 : (r + 1) * l <= (b + 1) * N * c * l)
    by (apply Nat.mul_le_mono_r; exact L2).
  apply H.
  - unfold blk. split; lia.
  - rewrite Hx, numel3. now apply row_index_lt.
Qed.

Lemma blk_of_agree_rows (b N n c l : nat) (x x' : tensor) :
  shape x = [n; c; l] -> agree_rows b N x x' ->
  agree_on (blk b (N * (c * l))) x x'.
Proof.
  intros Hx [Hs H]. split; [exact Hs|].
  intros i [Hk1 Hk2] Hi. rewrite Hx, numel3 in Hi.
  destruct (Nat.eq_dec l 0) as [->|Hl]; [lia|].
  destruct (Nat.eq_dec c 0) as [->|Hc]; [lia|].
  pose proof (Nat.div_mod_eq i l) as Hdm.
  assert (Hmod : i mod l < l) by now apply Nat.mod_upper_bound.
  replace i with (i / l * l + i mod l) by lia.
  apply (H n c l Hx).
  - apply Nat.Div0.div_lt_upper_bound. lia.
  - rewrite Nat.Div0.div_div. apply Nat.div_le_lower_bound; nia.
  - rewrite Nat.Div0.div_div. apply Nat.Div0.div_lt_upper_bound. nia.
  - exact Hmod.
Qed.

(** *** The branches, sample by sample *)

Lemma agree_on_blk_eq (b K K' : nat) (x x' : tensor) :
  K = K' -> agree_on (blk b K) x x' -> agree_on (blk b K') x x'.
Proof. now intros ->. Qed.

Lemma temporal_samples (cell : STCell.t) (a : STCell.tcn_layers) (sd : state_dict)
      (nm1 nm2 : string) (chs : list nat) (d : nat) (training : bool)
      (N W gd B b : nat) (x x' : tensor) (g : Generator) :
  STCell.tcn_attrs cell = Some a ->
  STCell.node_num cell = N -> STCell.seq_len cell = W ->
  STCell.graph_dim cell = gd -> STCell.tcn_dim cell = chs ->
  MultiheadAttention.embed_dim (STCell.self_atten a) = N ->
  STCell.tcn a = TemporalConvNet.init sd nm1 1 chs 2 0.2 training ->
  STCell.tlinear a = Linear.init sd nm2 (d * W) gd ->
  last_item chs = Ok d ->
  1 <= N -> 1 <= W -> 1 <= gd ->
  shape x = [B * N; W] -> agree_on (blk b (N * W)) x x' ->
  exists y y' g',
    STCell.temporal cell x g = (Ok y, g')
    /\ STCell.temporal cell x' g = (Ok y', g')
    /\ shape y = [B; N; gd]
    /\ agree_on (blk b (N * gd)) y y'.
Proof.
  intros Ha HN HW Hgd Hchs HE Htcn Htl Hlast HN1 HW1 Hgd1 Hx Ax.
  assert (Hx' : shape x' = [B * N; W]) by (destruct Ax; congruence).
  assert (Hp : (0 <= 0.2 <= 1)%R) by lra.
  (* the first run *)
  destruct (reshape_infer x [None; Some N; Some W] B) as (r & Er & Sr).
  1-3: rewrite ?Hx; shape_arith.
  cbn [fill map] in Sr.
  destruct (permute3_ok r B N W [2; 0; 1] Sr eq_refl) as (ai & Eai & Sai).
  cbn [map nth] in Sai.
  destruct (MultiheadAttention_forward_ok (STCell.self_atten a) ai W B N Sai HE)
    as (o & Eo & So).
  destruct (binary_same_shape Rplus (fst o) ai _ So Sai) as (s & Es & Ss & _).
  destruct (permute3_ok (tanh s) W B N [1; 2; 0] Ss eq_refl) as (p & Ep & Sp).
  cbn [map nth] in Sp.
  destruct (reshape_infer p [None; Some W] (B * N)) as (ao & Eao & Sao).
  1-3: rewrite ?Sp; shape_arith.
  cbn [fill map] in Sao.
  destruct (unsqueeze_ok ao 1) as (ti & Eti & Sti).
  { rewrite Sao. cbn [length]. lia. }
  rewrite Sao in Sti. cbn [firstn skipn app] in Sti.
  destruct (tcn_rowwise sd nm1 1 chs 2 0.2 training (B * N) W N (le_n 2) Hp HW1
                        ti g Sti) as (t6 & g6 & E6 & S6 & Hrow).
  rewrite (last_item_channels 1 chs d Hlast) in S6, Hrow.
  destruct (reshape_known t6 [Some (B * N); Some (d * W)]) as (t7 & E7 & S7).
  1-2: rewrite ?S6; shape_arith.
  cbn [fill map] in S7.
  destruct (Linear_forward_ok sd nm2 (d * W) gd t7 [B * N] S7) as (t8 & E8 & S8).
  cbn [app] in S8.
  destruct (reshape_infer t8 [None; Some N; Some gd] B) as (y & Ey & Sy).
  1-3: rewrite ?S8; shape_arith.
  cbn [fill map] in Sy.
  (* the second run *)
  destruct (reshape_infer x' [None; Some N; Some W] B) as (r' & Er' & Sr').
  1-3: rewrite ?Hx'; shape_arith.
  cbn [fill map] in Sr'.
  destruct (permute3_ok r' B N W [2; 0; 1] Sr' eq_refl) as (ai' & Eai' & Sai').
  cbn [map nth] in Sai'.
  destruct (MultiheadAttention_forward_ok (STCell.self_atten a) ai' W B N Sai' HE)
    as (o' & Eo' & So').
  destruct (binary_same_shape Rplus (fst o') ai' _ So' Sai')
    as (s' & Es' & Ss' & _).
  destruct (permute3_ok (tanh s') W B N [1; 2; 0] Ss' eq_refl)
    as (p' & Ep' & Sp').
  cbn [map nth] in Sp'.
  destruct (reshape_infer p' [None; Some W] (B * N)) as (ao' & Eao' & Sao').
  1-3: rewrite ?Sp'; shape_arith.
  cbn [fill map] in Sao'.
  destruct (unsqueeze_ok ao' 1) as (ti' & Eti' & Sti').
  { rewrite Sao'. cbn [length]. lia. }
  rewrite Sao' in Sti'. cbn [firstn skipn app] in Sti'.
  destruct (Hrow ti' Sti') as (t6' & E6' & S6' & Arow).
  destruct (reshape_known t6' [Some (B * N); Some (d * W)]) as (t7' & E7' & S7').
  1-2: rewrite ?S6'; shape_arith.
  cbn [fill map] in S7'.
  destruct (Linear_forward_ok sd nm2 (d * W) gd t7' [B * N] S7')
    as (t8' & E8' & S8').
  cbn [app] in S8'.
  destruct (reshape_infer t8' [None; Some N; Some gd] B) as (y' & Ey' & Sy').
  1-3: rewrite ?S8'; shape_arith.
  (* what the two runs share *)
  pose proof (agree_on_reshape _ _ _ _ _ _ Ax Er Er') as Ar.
  pose proof (agree_on_permute_201 r r' ai ai' B N W b Sr Ar Eai Eai') as Aai.
  pose proof (agree_on_attention _ ai ai' o o' W B N b Sai Aai Eo Eo') as Ao.
  pose proof (agree_on_binary Rplus (mid b B N) [W; B; N]
                (fst o) (fst o') ai ai' s s' So Sai Ao Aai Es Es') as As.
  pose proof (agree_on_permute_120 (tanh s) (tanh s') p p' W B N b Ss
                (agree_on_pointwise _ _ _ _ As) Ep Ep') as Apm.
  pose proof (agree_on_reshape _ _ _ _ _ _ Apm Eao Eao') as Aao.
  pose proof (agree_on_unsqueeze _ _ _ _ _ _ Aao Eti Eti') as Ati.
  assert (A6 : agree_on (blk b (N * (d * W))) t6 t6').
  { apply (blk_of_agree_rows b N (B * N) d W t6 t6' S6). apply Arow.
    apply (agree_rows_of_blk b N (B * N) 1 W ti ti' Sti).
    apply (agree_on_blk_eq b (N * W)); [lia | exact Ati]. }
  pose proof (agree_on_reshape _ _ _ _ _ _ A6 E7 E7') as A7.
  pose proof (agree_on_linear sd nm2 (d * W) gd N b t7 t7' t8 t8' [B * N]
                S7 A7 E8 E8') as A8.
  pose proof (agree_on_reshape _ _ _ _ _ _ A8 Ey Ey') as Ay.
  exists y, y', g6.
  split; [|split; [|split; [exact Sy | exact Ay]]].
  - unfold STCell.temporal. rewrite Ha, HN, HW, Hgd, Hchs. cbn [attr].
    rewrite (bind_lift_ok _ a _ _ eq_refl). cbv beta. rewrite Htcn, Htl.
    rewrite (bind_lift_ok _ _ _ _ Er). cbv beta.
    rewrite (bind_lift_ok _ _ _ _ Eai). cbv beta.
    rewrite (bind_lift_ok _ _ _ _ Eo). cbv beta.
    unfold add at 1. rewrite (bind_lift_ok _ _ _ _ Es). cbv beta.
    rewrite (bind_lift_ok _ _ _ _ Ep). cbv beta.
    rewrite (bind_lift_ok _ _ _ _ Eao). cbv beta.
    rewrite (bind_lift_ok _ _ _ _ Eti). cbv beta.
    rewrite (bind_ok _ _ _ _ _ E6). cbv beta.
    unfold size. rewrite S6. cbn [nth_error].
    rewrite (bind_lift_ok _ (B * N) _ _ eq_refl). cbv beta.
    rewrite (bind_lift_ok _ d _ _ Hlast). cbv beta.
    rewrite (bind_lift_ok _ _ _ _ E7). cbv beta.
    rewrite (bind_lift_ok _ _ _ _ E8). cbv beta.
    unfold lift. now rewrite Ey.
  - unfold STCell.temporal. rewrite Ha, HN, HW, Hgd, Hchs. cbn [attr].
    rewrite (bind_lift_ok _ a _ _ eq_refl). cbv beta. rewrite Htcn, Htl.
    rewrite (bind_lift_ok _ _ _ _ Er'). cbv beta.
    rewrite (bind_lift_ok _ _ _ _ Eai'). cbv beta.
    rewrite (bind_lift_ok _ _ _ _ Eo'). cbv beta.
    unfold add at 1. rewrite (bind_lift_ok _ _ _ _ Es'). cbv beta.
    rewrite (bind_lift_ok _ _ _ _ Ep'). cbv beta.
    rewrite (bind_lift_ok _ _ _ _ Eao'). cbv beta.
    rewrite (bind_lift_ok _ _ _ _ Eti'). cbv beta.
    rewrite (bind_ok _ _ _ _ _ E6'). cbv beta.
    unfold size. rewrite S6'. cbn [nth_error].
    rewrite (bind_lift_ok _ (B * N) _ _ eq_refl). cbv beta.
    rewrite (bind_lift_ok _ d _ _ Hlast). cbv beta.
    rewrite (bind_lift_ok _ _ _ _ E7'). cbv beta.
    rewrite (bind_lift_ok _ _ _ _ E8'). cbv beta.
    unfold lift. now rewrite Ey'.
Qed.

Lemma bind_lift_cong {A B : Type} (r : result A) (k k' : A -> M B)
      (g : Generator) :
  (forall a, r = Ok a -> k a g = k' a g) ->
  bind (lift r) k g = bind (lift r) k' g.
Proof. intros H. unfold bind, lift. destruct r; [now apply H | reflexivity]. Qed.

Lemma bind_cong {A B : Type} (m : M A) (k k' : A -> M B) (g : Generator) :
  (forall a g', k a g' = k' a g') -> bind m k g = bind m k' g.
Proof.
  intros H. unfold bind. destruct (m g) as [[a|err] g']; [apply H | reflexivity].
Qed.

(** One gated layer of a graph branch, run from the same state of the
    generator on two inputs that share a sample. *)
Lemma gated_layer_samples (sd : state_dict) (nm_g nm_l : string) (D gd h : nat)
      (A inp inp' prev prev' : tensor) (e : EdgeIndex)
      (act : tensor -> tensor) (g : Generator) (B N b : nat) :
  shape A = [N; N] -> shape inp = [B * N; D] -> shape prev = [B * N; gd] ->
  agree_on (blk b (N * D)) inp inp' -> agree_on (blk b (N * gd)) prev prev' ->
  edges_within N e ->
  1 <= B -> 1 <= N -> 1 <= D -> 1 <= gd ->
  (forall t, shape (act t) = shape t) ->
  (forall P t t', agree_on P t t' -> agree_on P (act t) (act t')) ->
  exists out out',
    shape out = [B * N; gd] /\ agree_on (blk b (N * gd)) out out'
    /\ (forall (T : Type) (K : tensor -> M T),
          (gout <~ GATConv.forward (GATConv.init sd nm_g D gd h false) inp e ;;
           adp_input <~ reshape inp [None; Some N; Some D] ;;
           d <- dropout adp_input 0.1 true ;;
           m <~ matmul A d ;;
           adp <~ Linear.forward (Linear.init sd nm_l D gd) m ;;
           adp <~ reshape adp [None; Some gd] ;;
           l <~ mul (act gout) (sigmoid adp) ;;
           r <~ mul prev (one_minus (sigmoid adp)) ;;
           out <~ add l r ;;
           K out) g
          = K out (advance g (B * N * D)))
    /\ (forall (T : Type) (K : tensor -> M T),
          (gout <~ GATConv.forward (GATConv.init sd nm_g D gd h false) inp' e ;;
           adp_input <~ reshape inp' [None; Some N; Some D] ;;
           d <- dropout adp_input 0.1 true ;;
           m <~ matmul A d ;;
           adp <~ Linear.forward (Linear.init sd nm_l D gd) m ;;
           adp <~ reshape adp [None; Some gd] ;;
           l <~ mul (act gout) (sigmoid adp) ;;
           r <~ mul prev' (one_minus (sigmoid adp)) ;;
           out <~ add l r ;;
           K out) g
          = K out' (advance g (B * N * D))).
Proof.
  intros HA Hinp Hprev Ainp Aprev He HB HN HD Hgd Hact Aact.
  assert (Hinp' : shape inp' = [B * N; D]) by (destruct Ainp; congruence).
  assert (Hprev' : shape prev' = [B * N; gd]) by (destruct Aprev; congruence).
  assert (Hle : N <= B * N) by nia.
  (* the first run *)
  destruct (GATConv_forward_ok sd nm_g D gd h inp e (B * N) Hinp
              (edges_within_mono _ _ _ (ei_device e) Hle He))
    as (gout & Eg & Sg).
  replace (to e (ei_device e)) with e in Eg by (now destruct e).
  destruct (reshape_infer inp [None; Some N; Some D] B) as (ai & Ea & Sa).
  1-3: rewrite ?Hinp; shape_arith.
  cbn [fill map] in Sa.
  destruct (F_dropout_ok ai g) as (d & Ed & Sd). rewrite Sa in Sd.
  replace (numel (shape ai)) with (B * N * D) in Ed
    by (rewrite Sa; cbn [numel fold_right]; ring).
  destruct (matmul_batch_ok A d N N D B HA Sd) as (m & Em & Sm).
  destruct (Linear_forward_ok sd nm_l D gd m [B; N] Sm) as (adp & El & Sl).
  cbn [app] in Sl.
  destruct (reshape_infer adp [None; Some gd] (B * N)) as (adp2 & Er & Sr).
  1-3: rewrite ?Sl; shape_arith.
  cbn [fill map] in Sr.
  destruct (binary_same_shape Rmult (act gout) (sigmoid adp2) [B * N; gd])
    as (l & Eml & Sml & _); [now rewrite Hact | exact Sr |].
  destruct (binary_same_shape Rmult prev (one_minus (sigmoid adp2)) [B * N; gd])
    as (r & Emr & Smr & _); [exact Hprev | exact Sr |].
  destruct (binary_same_shape Rplus l r [B * N; gd] Sml Smr) as (out & Eo & So & _).
  (* the second run *)
  destruct (GATConv_forward_ok sd nm_g D gd h inp' e (B * N) Hinp'
              (edges_within_mono _ _ _ (ei_device e) Hle He))
    as (gout' & Eg' & Sg').
  replace (to e (ei_device e)) with e in Eg' by (now destruct e).
  destruct (reshape_infer inp' [None; Some N; Some D] B) as (ai' & Ea' & Sa').
  1-3: rewrite ?Hinp'; shape_arith.
  cbn [fill map] in Sa'.
  destruct (F_dropout_ok ai' g) as (d' & Ed' & Sd'). rewrite Sa' in Sd'.
  replace (numel (shape ai')) with (B * N * D) in Ed'
    by (rewrite Sa'; cbn [numel fold_right]; ring).
  destruct (matmul_batch_ok A d' N N D B HA Sd') as (m' & Em' & Sm').
  destruct (Linear_forward_ok sd nm_l D gd m' [B; N] Sm') as (adp' & El' & Sl').
  cbn [app] in Sl'.
  destruct (reshape_infer adp' [None; Some gd] (B * N)) as (adp2' & Er' & Sr').
  1-3: rewrite ?Sl'; shape_arith.
  cbn [fill map] in Sr'.
  destruct (binary_same_shape Rmult (act gout') (sigmoid adp2') [B * N; gd])
    as (l' & Eml' & Sml' & _); [now rewrite Hact | exact Sr' |].
  destruct (binary_same_shape Rmult prev' (one_minus (sigmoid adp2')) [B * N; gd])
    as (r' & Emr' & Smr' & _); [exact Hprev' | exact Sr' |].
  destruct (binary_same_shape Rplus l' r' [B * N; gd] Sml' Smr')
    as (out' & Eo' & So' & _).
  (* what the two runs share *)
  pose proof (agree_on_gat sd nm_g D gd h inp inp' gout gout' e (B * N) N b
                Hinp Ainp He HN Eg Eg') as Agout.
  pose proof (agree_on_reshape _ _ _ _ _ _ Ainp Ea Ea') as Aai.
  pose proof (agree_on_dropout _ _ _ _ _ _ _ _ _ _ Aai Ed Ed') as Ad.
  pose proof (agree_on_matmul A d d' m m' N D B b HA Sd Ad Em Em') as Am.
  pose proof (agree_on_linear sd nm_l D gd N b m m' adp adp' [B; N] Sm Am El El')
    as Aadp.
  pose proof (agree_on_reshape _ _ _ _ _ _ Aadp Er Er') as Aadp2.
  pose proof (agree_on_binary Rmult (blk b (N * gd)) [B * N; gd]
                (act gout) (act gout') (sigmoid adp2) (sigmoid adp2') l l'
                (eq_trans (Hact gout) Sg) Sr
                (Aact _ _ _ Agout) (agree_on_pointwise sigmoid_R _ _ _ Aadp2)
                Eml Eml') as Al.
  pose proof (agree_on_binary Rmult (blk b (N * gd)) [B * N; gd]
                prev prev' (one_minus (sigmoid adp2)) (one_minus (sigmoid adp2'))
                r r' Hprev Sr Aprev
                (agree_on_pointwise (fun v => (1 - v)%R) _ _ _
                   (agree_on_pointwise sigmoid_R _ _ _ Aadp2))
                Emr Emr') as Ar.
  pose proof (agree_on_binary Rplus (blk b (N * gd)) [B * N; gd] l l' r r' out out'
                Sml Smr Al Ar Eo Eo') as Aout.
  exists out, out'. split; [exact So|]. split; [exact Aout|]. split.
  - intros T K.
    rewrite (bind_lift_ok _ _ _ _ Eg). cbv beta.
    rewrite (bind_lift_ok _ _ _ _ Ea). cbv beta.
    rewrite (bind_ok _ _ _ _ _ Ed). cbv beta.
    rewrite (bind_lift_ok _ _ _ _ Em). cbv beta.
    rewrite (bind_lift_ok _ _ _ _ El). cbv beta.
    rewrite (bind_lift_ok _ _ _ _ Er). cbv beta.
    unfold mul, add.
    rewrite (bind_lift_ok _ _ _ _ Eml). cbv beta.
    rewrite (bind_lift_ok _ _ _ _ Emr). cbv beta.
    rewrite (bind_lift_ok _ _ _ _ Eo). reflexivity.
  - intros T K.
    rewrite (bind_lift_ok _ _ _ _ Eg'). cbv beta.
    rewrite (bind_lift_ok _ _ _ _ Ea'). cbv beta.
    rewrite (bind_ok _ _ _ _ _ Ed'). cbv beta.
    rewrite (bind_lift_ok _ _ _ _ Em'). cbv beta.
    rewrite (bind_lift_ok _ _ _ _ El'). cbv beta.
    rewrite (bind_lift_ok _ _ _ _ Er'). cbv beta.
    unfold mul, add.
    rewrite (bind_lift_ok _ _ _ _ Eml'). cbv beta.
    rewrite (bind_lift_ok _ _ _ _ Emr'). cbv beta.
    rewrite (bind_lift_ok _ _ _ _ Eo'). reflexivity.
Qed.

(** The first layer of a graph branch, whose gate mixes with a linear map of
    the input, on two inputs that share a sample. *)
Lemma first_layer_samples (sd : state_dict) (nm_g nm_l nm_o : string) (W gd h : nat)
      (A x x' : tensor) (e : EdgeIndex) (g : Generator) (B N b : nat) :
  shape A = [N; N] -> shape x = [B * N; W] ->
  agree_on (blk b (N * W)) x x' ->
  edges_within N e ->
  1 <= B -> 1 <= N -> 1 <= W -> 1 <= gd ->
  exists out out',
    shape out = [B * N; gd] /\ agree_on (blk b (N * gd)) out out'
    /\ (forall (T : Type) (K : tensor -> M T),
          (gout <~ GATConv.forward (GATConv.init sd nm_g W gd h false) x e ;;
           adp_input <~ reshape x [None; Some N; Some W] ;;
           d <- dropout adp_input 0.1 true ;;
           m <~ matmul A d ;;
           adp <~ Linear.forward (Linear.init sd nm_l W gd) m ;;
           adp <~ reshape adp [None; Some gd] ;;
           origin <~ Linear.forward (Linear.init sd nm_o W gd) x ;;
           l <~ mul (tanh gout) (sigmoid adp) ;;
           r <~ mul origin (one_minus (sigmoid adp)) ;;
           out <~ add l r ;;
           K out) g
          = K out (advance g (B * N * W)))
    /\ (forall (T : Type) (K : tensor -> M T),
          (gout <~ GATConv.forward (GATConv.init sd nm_g W gd h false) x' e ;;
           adp_input <~ reshape x' [None; Some N; Some W] ;;
           d <- dropout adp_input 0.1 true ;;
           m <~ matmul A d ;;
           adp <~ Linear.forward (Linear.init sd nm_l W gd) m ;;
           adp <~ reshape adp [None; Some gd] ;;
           origin <~ Linear.forward (Linear.init sd nm_o W gd) x' ;;
           l <~ mul (tanh gout) (sigmoid adp) ;;
           r <~ mul origin (one_minus (sigmoid adp)) ;;
           out <~ add l r ;;
           K out) g
          = K out' (advance g (B * N * W))).
Proof.
  intros HA Hx Ax He HB HN HW Hgd.
  assert (Hx' : shape x' = [B * N; W]) by (destruct Ax; congruence).
  destruct (Linear_forward_ok sd nm_o W gd x [B * N] Hx) as (origin & Eor & Sor).
  destruct (Linear_forward_ok sd nm_o W gd x' [B * N] Hx')
    as (origin' & Eor' & Sor').
  cbn [app] in Sor, Sor'.
  pose proof (agree_on_linear sd nm_o W gd N b x x' origin origin' [B * N]
                Hx Ax Eor Eor') as Aor.
  destruct (gated_layer_samples sd nm_g nm_l W gd h A x x' origin origin' e
              tanh g B N b HA Hx Sor Ax Aor He HB HN HW Hgd
              (fun _ => eq_refl) (agree_on_pointwise _))
    as (out & out' & So & Ao & E & E').
  exists out, out'. split; [exact So|]. split; [exact Ao|]. split.
  - intros T K. rewrite <- (E T K).
    do 2 (apply bind_lift_cong; intros ? _). apply bind_cong. intros ? ?.
    do 3 (apply bind_lift_cong; intros ? _).
    rewrite (bind_lift_ok _ _ _ _ Eor). reflexivity.
  - intros T K. rewrite <- (E' T K).
    do 2 (apply bind_lift_cong; intros ? _). apply bind_cong. intros ? ?.
    do 3 (apply bind_lift_cong; intros ? _).
    rewrite (bind_lift_ok _ _ _ _ Eor'). reflexivity.
Qed.

(** A graph branch once its attributes are unfolded, on two inputs that share
    a sample. *)
Ltac graph_by_sample sd n1 n2 n3 n4 n5 n6 n7 n8 n9 n10 n11 h4 N W gd B b x x' e g :=
  let A := fresh "A" in
  let EA := fresh "EA" in
  let SA := fresh "SA" in
  destruct (learned_matrix_row_stochastic (parameter sd n6 [N; 12])
              (parameter sd n7 [12; N]) N 12 eq_refl eq_refl)
    as (A & EA & SA & _);
  match goal with
  | Hx : shape x = [B * N; W], Ax : agree_on (blk b (N * W)) x x',
    He : edges_within N e,
    HB1 : 1 <= B, HN1 : 1 <= N, HW1 : 1 <= W, Hgd1 : 1 <= gd |- _ =>
    let o1 := fresh "o" in let o1' := fresh "o" in
    let S1 := fresh "So" in let A1 := fresh "Ao" in
    let E1 := fresh "Eo" in let E1' := fresh "Eo" in
    destruct (first_layer_samples sd n2 n8 n1 W gd 3 A x x' e g B N b
                SA Hx Ax He HB1 HN1 HW1 Hgd1)
      as (o1 & o1' & S1 & A1 & E1 & E1');
    let o2 := fresh "o" in let o2' := fresh "o" in
    let S2 := fresh "So" in let A2 := fresh "Ao" in
    let E2 := fresh "Eo" in let E2' := fresh "Eo" in
    destruct (gated_layer_samples sd n3 n9 gd gd 3 A (tanh o1) (tanh o1') o1 o1' e
                leaky_relu (advance g (B * N * W)) B N b SA S1 S1
                (agree_on_pointwise _ _ _ _ A1) A1 He HB1 HN1 Hgd1 Hgd1
                (fun _ => eq_refl) (agree_on_pointwise _))
      as (o2 & o2' & S2 & A2 & E2 & E2');
    let o3 := fresh "o" in let o3' := fresh "o" in
    let S3 := fresh "So" in let A3 := fresh "Ao" in
    let E3 := fresh "Eo" in let E3' := fresh "Eo" in
    destruct (gated_layer_samples sd n4 n10 gd gd 3 A (relu o2) (relu o2') o2 o2' e
                relu (advance (advance g (B * N * W)) (B * N * gd)) B N b SA S2 S2
                (agree_on_pointwise _ _ _ _ A2) A2 He HB1 HN1 Hgd1 Hgd1
                (fun _ => eq_refl) (agree_on_pointwise _))
      as (o3 & o3' & S3 & A3 & E3 & E3');
    let o4 := fresh "o" in let o4' := fresh "o" in
    let S4 := fresh "So" in let A4 := fresh "Ao" in
    let E4 := fresh "Eo" in let E4' := fresh "Eo" in
    destruct (gated_layer_samples sd n5 n11 gd gd h4 A (relu o3) (relu o3') o3 o3' e
                relu
                (advance (advance (advance g (B * N * W)) (B * N * gd)) (B * N * gd))
                B N b SA S3 S3
                (agree_on_pointwise _ _ _ _ A3) A3 He HB1 HN1 Hgd1 Hgd1
                (fun _ => eq_refl) (agree_on_pointwise _))
      as (o4 & o4' & S4 & A4 & E4 & E4');
    let y := fresh "y" in let Ey := fresh "Ey" in let Sy := fresh "Sy" in
    destruct (reshape_infer o4 [None; Some N; Some gd] B) as (y & Ey & Sy);
    [rewrite ?S4; shape_arith .. |];
    let y' := fresh "y" in let Ey' := fresh "Ey" in let Sy' := fresh "Sy" in
    destruct (reshape_infer o4' [None; Some N; Some gd] B) as (y' & Ey' & Sy');
    [rewrite <- ?(proj1 A4), ?S4; shape_arith .. |];
    exists y, y';
    split;
    [ rewrite (bind_lift_ok _ _ _ _ EA); cbv beta;
      rewrite E1, E2, E3, E4; unfold lift; rewrite Ey, graph_samples_eq;
      reflexivity
    | split;
      [ rewrite (bind_lift_ok _ _ _ _ EA); cbv beta;
        rewrite E1', E2', E3', E4'; unfold lift; rewrite Ey', graph_samples_eq;
        reflexivity
      | split;
        [ exact Sy
        | exact (agree_on_reshape _ _ _ _ _ _ A4 Ey Ey') ] ] ]
  end.

Lemma spatial_samples (cell : STCell.t) (sd : state_dict)
      (n1 n2 n3 n4 n5 n6 n7 n8 n9 n10 n11 : string) (N W gd B b : nat)
      (x x' : tensor) (e : EdgeIndex) (g : Generator) :
  STCell.sp_attrs cell
  = Some (STCell.mk_sp
            (Linear.init sd n1 W gd)
            (GATConv.init sd n2 W gd 3 false)
            (GATConv.init sd n3 gd gd 3 false)
            (GATConv.init sd n4 gd gd 3 false)
            (GATConv.init sd n5 gd gd 1 false)
            (parameter sd n6 [N; 12])
            (parameter sd n7 [12; N])
            (Linear.init sd n8 W gd)
            (Linear.init sd n9 gd gd)
            (Linear.init sd n10 gd gd)
            (Linear.init sd n11 gd gd)) ->
  STCell.node_num cell = N -> STCell.seq_len cell = W ->
  STCell.graph_dim cell = gd ->
  1 <= B -> 1 <= N -> 1 <= W -> 1 <= gd ->
  shape x = [B * N; W] -> agree_on (blk b (N * W)) x x' -> edges_within N e ->
  exists y y',
    STCell.spatial cell x e g = (Ok y, advance g (graph_samples B N W gd))
    /\ STCell.spatial cell x' e g = (Ok y', advance g (graph_samples B N W gd))
    /\ shape y = [B; N; gd]
    /\ agree_on (blk b (N * gd)) y y'.
Proof.
  intros Ha HN HW Hgd HB1 HN1 HW1 Hgd1 Hx Ax He.
  unfold STCell.spatial. rewrite Ha, HN, HW, Hgd. cbn [attr].
  rewrite !(bind_lift_ok _ _ _ _ eq_refl). cbv beta.
  cbn [STCell.sp_origin STCell.sp_gconv1 STCell.sp_gconv2 STCell.sp_gconv3
       STCell.sp_gconv4 STCell.sp_source_embed STCell.sp_target_embed
       STCell.sp_linear_1 STCell.sp_linear_2 STCell.sp_linear_3
       STCell.sp_linear_4].
  graph_by_sample sd n1 n2 n3 n4 n5 n6 n7 n8 n9 n10 n11 1 N W gd B b x x' e g.
Qed.

Lemma semantic_samples (cell : STCell.t) (sd : state_dict)
      (n1 n2 n3 n4 n5 n6 n7 n8 n9 n10 n11 : string) (N W gd B b : nat)
      (x x' : tensor) (e : EdgeIndex) (g : Generator) :
  STCell.dtw_attrs cell
  = Some (STCell.mk_dtw
            (Linear.init sd n1 W gd)
            (GATConv.init sd n2 W gd 3 false)
            (GATConv.init sd n3 gd gd 3 false)
            (GATConv.init sd n4 gd gd 3 false)
            (GATConv.init sd n5 gd gd 3 false)
            (parameter sd n6 [N; 12])
            (parameter sd n7 [12; N])
            (Linear.init sd n8 W gd)
            (Linear.init sd n9 gd gd)
            (Linear.init sd n10 gd gd)
            (Linear.init sd n11 gd gd)) ->
  STCell.node_num cell = N -> STCell.seq_len cell = W ->
  STCell.graph_dim cell = gd ->
  1 <= B -> 1 <= N -> 1 <= W -> 1 <= gd ->
  shape x = [B * N; W] -> agree_on (blk b (N * W)) x x' -> edges_within N e ->
  exists y y',
    STCell.semantic cell x e g = (Ok y, advance g (graph_samples B N W gd))
    /\ STCell.semantic cell x' e g = (Ok y', advance g (graph_samples B N W gd))
    /\ shape y = [B; N; gd]
    /\ agree_on (blk b (N * gd)) y y'.
Proof.
  intros Ha HN HW Hgd HB1 HN1 HW1 Hgd1 Hx Ax He.
  unfold STCell.semantic. rewrite Ha, HN, HW, Hgd. cbn [attr].
  rewrite !(bind_lift_ok _ _ _ _ eq_refl). cbv beta.
  cbn [STCell.dtw_origin STCell.dtw_gconv1 STCell.dtw_gconv2 STCell.dtw_gconv3
       STCell.dtw_gconv4 STCell.dtw_source_embed STCell.dtw_target_embed
       STCell.dtw_linear_1 STCell.dtw_linear_2 STCell.dtw_linear_3
       STCell.dtw_linear_4].
  graph_by_sample sd n1 n2 n3 n4 n5 n6 n7 n8 n9 n10 n11 3 N W gd B b x x' e g.
Qed.

(** [x = self.seq_linear(x) + x] works row by row. *)
Lemma residual_samples (cell : STCell.t) (sd : state_dict) (nm : string)
      (W R0 N b : nat) (x x' : tensor) :
  STCell.seq_linear cell = Linear.init sd nm W W ->
  shape x = [R0; W] -> agree_on (blk b (N * W)) x x' ->
  exists y y',
    STCell.residual cell x = Ok y /\ STCell.residual cell x' = Ok y'
    /\ shape y = [R0; W] /\ agree_on (blk b (N * W)) y y'.
Proof.
  intros Hl Hx Ax.
  assert (Hx' : shape x' = [R0; W]) by (destruct Ax; congruence).
  unfold STCell.residual. rewrite Hl.
  destruct (Linear_forward_ok sd nm W W x [R0] Hx) as (s & Es & Ss).
  destruct (Linear_forward_ok sd nm W W x' [R0] Hx') as (s' & Es' & Ss').
  cbn [app] in Ss, Ss'.
  rewrite Es, Es'. cbn [rbind].
  destruct (binary_same_shape Rplus s x [R0; W] Ss Hx) as (y & Ey & Sy & _).
  destruct (binary_same_shape Rplus s' x' [R0; W] Ss' Hx') as (y' & Ey' & Sy' & _).
  exists y, y'. unfold add. split; [exact Ey|]. split; [exact Ey'|].
  split; [exact Sy|].
  apply (agree_on_binary Rplus (blk b (N * W)) [R0; W] s s' x x' y y'
           Ss Hx); try assumption.
  exact (agree_on_linear sd nm W W N b x x' s s' [R0] Hx Ax Es Es').
Qed.

Lemma branches_samples (sd : state_dict) (name : string) (N W gd : nat)
      (chs : list nat) (c0 c1 c2 h : nat) (training : bool) (cell : STCell.t)
      (B b : nat) (x x' : tensor) (e de : EdgeIndex) (g : Generator) :
  STCell.init sd name N W gd chs [c0; c1; c2] h training = Ok cell ->
  1 <= B -> 1 <= N -> 1 <= W -> 1 <= gd ->
  shape x = [B * N; W] -> agree_on (blk b (N * W)) x x' ->
  edges_within N e -> edges_within N de ->
  exists o0 o1 o2 o0' o1' o2' g',
    STCell.branches cell x e de g = (Ok [o0; o1; o2], g')
    /\ STCell.branches cell x' e de g = (Ok [o0'; o1'; o2'], g')
    /\ slot [B; N; gd] c0 o0 /\ slot [B; N; gd] c0 o0'
    /\ slot [B; N; gd] c1 o1 /\ slot [B; N; gd] c1 o1'
    /\ slot [B; N; gd] c2 o2 /\ slot [B; N; gd] c2 o2'
    /\ slot_share (blk b (N * gd)) o0 o0'
    /\ slot_share (blk b (N * gd)) o1 o1'
    /\ slot_share (blk b (N * gd)) o2 o2'.
Proof.
  intros Hinit HB1 HN1 HW1 Hgd1 Hx Ax He Hde.
  assert (Hx' : shape x' = [B * N; W]) by (destruct Ax; congruence).
  destruct (STCell_init_inv sd name N W gd chs c0 c1 c2 h training cell Hinit)
    as (HN & HW & Hgd & Hchs & _ & Hch & Hsl & Ht & Hs & Hd).
  unfold STCell.branches, slot. rewrite Hch.
  cbn [getitem nth_error].
  (* the temporal branch *)
  assert (H0 : exists o0 o0' g0,
             (if c0 =? 1
              then tcn_output <- STCell.temporal cell x ;;
                   ret (STCell.setitem [None; None; None] 0 (Some tcn_output))
              else ret [None; None; None]) g
             = (Ok [o0; None; None], g0)
             /\ (if c0 =? 1
                 then tcn_output <- STCell.temporal cell x' ;;
                      ret (STCell.setitem [None; None; None] 0 (Some tcn_output))
                 else ret [None; None; None]) g
                = (Ok [o0'; None; None], g0)
             /\ (if c0 =? 1 then exists t, o0 = Some t /\ shape t = [B; N; gd]
                 else o0 = None)
             /\ (if c0 =? 1 then exists t, o0' = Some t /\ shape t = [B; N; gd]
                 else o0' = None)
             /\ slot_share (blk b (N * gd)) o0 o0').
  { destruct (c0 =? 1) eqn:E0.
    - apply Nat.eqb_eq in E0. destruct (Ht E0) as (m & d & Hta & Hm & Hlast).
      destruct (temporal_samples cell _ sd _ _ chs d training N W gd B b x x' g
                  Hta HN HW Hgd Hchs Hm eq_refl eq_refl Hlast
                  HN1 HW1 Hgd1 Hx Ax) as (y & y' & g0 & Ey & Ey' & Sy & Ay).
      exists (Some y), (Some y'), g0.
      rewrite (bind_ok _ _ _ _ _ Ey), (bind_ok _ _ _ _ _ Ey'). cbv beta.
      split; [reflexivity|]. split; [reflexivity|].
      split; [now exists y|]. split; [|exact Ay].
      exists y'. split; [reflexivity|]. destruct Ay as [Hsy _]. congruence.
    - exists None, None, g. repeat split; reflexivity. }
  destruct H0 as (o0 & o0' & g0 & E0 & E0' & S0 & S0' & A0).
  (* the spatial branch *)
  assert (H1 : exists x1 x1' o1 o1' g1,
             (if c1 =? 1
              then x' <~ STCell.residual cell x ;;
                   sp_output <- STCell.spatial cell x' e ;;
                   ret (x', STCell.setitem [o0; None; None] 1 (Some sp_output))
              else ret (x, [o0; None; None])) g0
             = (Ok (x1, [o0; o1; None]), g1)
             /\ (if c1 =? 1
                 then x0 <~ STCell.residual cell x' ;;
                      sp_output <- STCell.spatial cell x0 e ;;
                      ret (x0, STCell.setitem [o0'; None; None] 1 (Some sp_output))
                 else ret (x', [o0'; None; None])) g0
                = (Ok (x1', [o0'; o1'; None]), g1)
             /\ shape x1 = [B * N; W] /\ agree_on (blk b (N * W)) x1 x1'
             /\ (if c1 =? 1 then exists t, o1 = Some t /\ shape t = [B; N; gd]
                 else o1 = None)
             /\ (if c1 =? 1 then exists t, o1' = Some t /\ shape t = [B; N; gd]
                 else o1' = None)
             /\ slot_share (blk b (N * gd)) o1 o1').
  { destruct (c1 =? 1) eqn:E1.
    - apply Nat.eqb_eq in E1.
      destruct (residual_samples cell sd _ W (B * N) N b x x' Hsl Hx Ax)
        as (x1 & x1' & Ex1 & Ex1' & Sx1 & Ax1).
      rewrite (bind_lift_ok _ _ _ _ Ex1), (bind_lift_ok _ _ _ _ Ex1'). cbv beta.
      destruct (spatial_samples cell sd _ _ _ _ _ _ _ _ _ _ _ N W gd B b x1 x1' e g0
                  (Hs E1) HN HW Hgd HB1 HN1 HW1 Hgd1 Sx1 Ax1 He)
        as (y & y' & Ey & Ey' & Sy & Ay).
      exists x1, x1', (Some y), (Some y'), (advance g0 (graph_samples B N W gd)).
      rewrite (bind_ok _ _ _ _ _ Ey), (bind_ok _ _ _ _ _ Ey'). cbv beta.
      split; [reflexivity|]. split; [reflexivity|]. split; [exact Sx1|].
      split; [exact Ax1|].
      split; [now exists y|]. split; [|exact Ay].
      exists y'. split; [reflexivity|]. destruct Ay as [Hsy _]. congruence.
    - exists x, x', None, None, g0.
      split; [reflexivity|]. split; [reflexivity|]. split; [exact Hx|].
      split; [exact Ax|]. repeat split; reflexivity. }
  destruct H1 as (x1 & x1' & o1 & o1' & g1 & E1 & E1' & Sx1 & Ax1 & S1 & S1' & A1).
  (* the semantic branch *)
  assert (H2 : exists o2 o2' g2,
             (if c2 =? 1
              then x' <~ STCell.residual cell x1 ;;
                   dtw_output <- STCell.semantic cell x' de ;;
                   ret (STCell.setitem [o0; o1; None] 2 (Some dtw_output))
              else ret [o0; o1; None]) g1
             = (Ok [o0; o1; o2], g2)
             /\ (if c2 =? 1
                 then x' <~ STCell.residual cell x1' ;;
                      dtw_output <- STCell.semantic cell x' de ;;
                      ret (STCell.setitem [o0'; o1'; None] 2 (Some dtw_output))
                 else ret [o0'; o1'; None]) g1
                = (Ok [o0'; o1'; o2'], g2)
             /\ (if c2 =? 1 then exists t, o2 = Some t /\ shape t = [B; N; gd]
                 else o2 = None)
             /\ (if c2 =? 1 then exists t, o2' = Some t /\ shape t = [B; N; gd]
                 else o2' = None)
             /\ slot_share (blk b (N * gd)) o2 o2').
  { destruct (c2 =? 1) eqn:E2.
    - apply Nat.eqb_eq in E2.
      destruct (residual_samples cell sd _ W (B * N) N b x1 x1' Hsl Sx1 Ax1)
        as (x2 & x2' & Ex2 & Ex2' & Sx2 & Ax2).
      rewrite (bind_lift_ok _ _ _ _ Ex2), (bind_lift_ok _ _ _ _ Ex2'). cbv beta.
      destruct (semantic_samples cell sd _ _ _ _ _ _ _ _ _ _ _ N W gd B b x2 x2' de g1
                  (Hd E2) HN HW Hgd HB1 HN1 HW1 Hgd1 Sx2 Ax2 Hde)
        as (y & y' & Ey & Ey' & Sy & Ay).
      exists (Some y), (Some y'), (advance g1 (graph_samples B N W gd)).
      rewrite (bind_ok _ _ _ _ _ Ey), (bind_ok _ _ _ _ _ Ey'). cbv beta.
      split; [reflexivity|]. split; [reflexivity|].
      split; [now exists y|]. split; [|exact Ay].
      exists y'. split; [reflexivity|]. destruct Ay as [Hsy _]. congruence.
    - exists None, None, g1. repeat split; reflexivity. }
  destruct H2 as (o2 & o2' & g2 & E2 & E2' & S2 & S2' & A2).
  exists o0, o1, o2, o0', o1', o2', g2.
  split; [|split].
  - rewrite (bind_lift_ok _ _ _ _ eq_refl). cbv beta.
    rewrite (bind_ok _ _ _ _ _ E0). cbv beta.
    rewrite (bind_lift_ok _ _ _ _ eq_refl). cbv beta.
    rewrite (bind_ok _ _ _ _ _ E1). cbv beta. cbn [fst snd].
    rewrite (bind_lift_ok _ _ _ _ eq_refl). cbv beta.
    exact E2.
  - rewrite (bind_lift_ok _ _ _ _ eq_refl). cbv beta.
    rewrite (bind_ok _ _ _ _ _ E0'). cbv beta.
    rewrite (bind_lift_ok _ _ _ _ eq_refl). cbv beta.
    rewrite (bind_ok _ _ _ _ _ E1'). cbv beta. cbn [fst snd].
    rewrite (bind_lift_ok _ _ _ _ eq_refl). cbv beta.
    exact E2'.
  - repeat (split; [assumption|]). assumption.
Qed.

Lemma fold_cat_share (B N gd b : nat) (rest rest' : list tensor) :
  Forall2 (fun t t' => shape t = [B; N; gd] /\ agree_on (blk b (N * gd)) t t')
          rest rest' ->
  forall (acc acc' c c' : tensor) (k : nat),
    shape acc = [B; N; k * gd] -> agree_on (blk b (N * (k * gd))) acc acc' ->
    fold_left (fun acc v => a <-- acc ;; cat a v 2) rest (Ok acc) = Ok c ->
    fold_left (fun acc v => a <-- acc ;; cat a v 2) rest' (Ok acc') = Ok c' ->
    agree_on (blk b (N * ((k + length rest) * gd))) c c'.
Proof.
  induction 1 as [|t t' rest rest' [St At] _ IH]; intros acc acc' c c' k Sacc Aacc.
  - cbn [fold_left length]. intros Hc Hc'. inversion Hc. inversion Hc'. subst.
    now rewrite Nat.add_0_r.
  - cbn [fold_left length rbind].
    assert (Sacc' : shape acc' = [B; N; k * gd]) by (destruct Aacc; congruence).
    assert (St' : shape t' = [B; N; gd]) by (destruct At; congruence).
    destruct (cat2_ok acc t B N (k * gd) gd Sacc St) as (a & Ea & Sa).
    destruct (cat2_ok acc' t' B N (k * gd) gd Sacc' St') as (a' & Ea' & Sa').
    rewrite Ea, Ea'. intros Hc Hc'.
    replace (k + S (length rest)) with (S k + length rest) by lia.
    apply (IH a a' c c' (S k)); try assumption.
    + rewrite Sa. do 3 f_equal. cbn [Nat.mul]. lia.
    + apply (agree_on_blk_eq b (N * (k * gd + gd))); [cbn [Nat.mul]; lia|].
      exact (agree_on_cat acc acc' t t' a a' B N (k * gd) gd b Sacc St Aacc At
                          Ea Ea').
Qed.

Lemma cat_all_share (B N gd b c0 c1 c2 : nat) (o0 o1 o2 o0' o1' o2' : option tensor)
      (c c' : tensor) :
  c0 <= 1 -> c1 <= 1 -> c2 <= 1 ->
  slot [B; N; gd] c0 o0 -> slot [B; N; gd] c0 o0' ->
  slot [B; N; gd] c1 o1 -> slot [B; N; gd] c1 o1' ->
  slot [B; N; gd] c2 o2 -> slot [B; N; gd] c2 o2' ->
  slot_share (blk b (N * gd)) o0 o0' ->
  slot_share (blk b (N * gd)) o1 o1' ->
  slot_share (blk b (N * gd)) o2 o2' ->
  cat_all (enabled [c0; c1; c2] [o0; o1; o2]) = Ok c ->
  cat_all (enabled [c0; c1; c2] [o0'; o1'; o2']) = Ok c' ->
  agree_on (blk b (N * ((c0 + c1 + c2) * gd))) c c'.
Proof.
  intros H0 H1 H2 S0 S0' S1 S1' S2 S2' A0 A1 A2.
  assert (HF : Forall2 (fun t t' => shape t = [B; N; gd]
                                    /\ agree_on (blk b (N * gd)) t t')
                       (enabled [c0; c1; c2] [o0; o1; o2])
                       (enabled [c0; c1; c2] [o0'; o1'; o2'])
               /\ length (enabled [c0; c1; c2] [o0; o1; o2]) = c0 + c1 + c2).
  { unfold slot in *.
    destruct c0 as [|[|c0]]; [| |lia];
      destruct c1 as [|[|c1]]; try lia;
        destruct c2 as [|[|c2]]; try lia;
          cbn [Nat.eqb] in *;
          repeat match goal with
                 | H : exists t, _ = Some t /\ _ |- _ =>
                   let t := fresh "t" in
                   let St := fresh "St" in
                   destruct H as (t & -> & St)
                 | H : _ = None |- _ => subst
                 end;
          cbn [slot_share] in *; cbn [enabled Nat.eqb app length];
          (split; [|reflexivity]);
          repeat (constructor; try (split; [assumption|]); try assumption). }
  destruct HF as [HF Hlen].
  unfold cat_all.
  destruct HF as [|t t' rest rest' [St At] HF]; [discriminate|].
  cbn [length] in Hlen. intros Hc Hc'.
  apply (agree_on_blk_eq b (N * ((1 + length rest) * gd)));
    [f_equal; f_equal; lia|].
  apply (fold_cat_share B N gd b rest rest' HF t t' c c' 1); try assumption.
  - rewrite St. do 3 f_equal. lia.
  - apply (agree_on_blk_eq b (N * gd)); [f_equal; lia | exact At].
Qed.

(** The model on two inputs that share a sample. *)
Lemma model_samples (sd : state_dict) (name : string)
      (N W P gd : nat) (chs : list nat) (c0 c1 c2 h : nat) (training : bool)
      (m : STAGGCNModel.t) (B b : nat) (x x' : tensor) (e de : EdgeIndex)
      (g : Generator) :
  STAGGCNModel.init sd name N W P gd chs h [c0; c1; c2] training = Ok m ->
  c0 <= 1 -> c1 <= 1 -> c2 <= 1 -> 1 <= c0 + c1 + c2 ->
  1 <= B -> 1 <= N -> 1 <= W -> 1 <= gd ->
  shape x = [B * N; W] -> agree_on (blk b (N * W)) x x' ->
  edges_within N e -> edges_within N de ->
  exists out out' g',
    STAGGCNModel.forward m x e de g = (Ok out, g')
    /\ STAGGCNModel.forward m x' e de g = (Ok out', g')
    /\ shape out = [B * N; P]
    /\ agree_on (blk b (N * P)) out out'.
Proof.
  intros Hinit H0 H1 H2 Hsum HB1 HN1 HW1 Hgd1 Hx Ax He Hde.
  destruct (STAGGCNModel_init_inv sd name N W P gd chs h _ training m Hinit)
    as (Hcell & Hlin).
  destruct (STCell_init_inv sd _ N W gd chs c0 c1 c2 h training _ Hcell)
    as (_ & _ & _ & _ & Hod & Hch & _).
  destruct (branches_samples sd _ N W gd chs c0 c1 c2 h training _ B b x x' e de g
              Hcell HB1 HN1 HW1 Hgd1 Hx Ax He Hde)
    as (o0 & o1 & o2 & o0' & o1' & o2' & g' & Eb & Eb' & S0 & S0' & S1 & S1'
        & S2 & S2' & A0 & A1 & A2).
  destruct (concat_ok _ c0 c1 c2 gd B N o0 o1 o2 Hch Hod H0 H1 H2 Hsum Hgd1
                      S0 S1 S2) as (c & st & Ec & Sc & Er & Eo & So).
  destruct (concat_ok _ c0 c1 c2 gd B N o0' o1' o2' Hch Hod H0 H1 H2 Hsum Hgd1
                      S0' S1' S2') as (c' & st' & Ec' & Sc' & Er' & Eo' & So').
  pose proof (cat_all_share B N gd b c0 c1 c2 o0 o1 o2 o0' o1' o2' c c'
                H0 H1 H2 S0 S0' S1 S1' S2 S2' A0 A1 A2 Ec Ec') as Ac.
  pose proof (agree_on_reshape _ _ _ _ _ _ Ac Er Er') as Ast.
  destruct (Linear_forward_ok sd (sub name "output_linear")
              ((c0 + (c1 + (c2 + 0))) * gd) P st [B * N]) as (out & El & Sout).
  { rewrite So. cbn [app]. do 3 f_equal. lia. }
  destruct (Linear_forward_ok sd (sub name "output_linear")
              ((c0 + (c1 + (c2 + 0))) * gd) P st' [B * N]) as (out' & El' & Sout').
  { rewrite So'. cbn [app]. do 3 f_equal. lia. }
  assert (Aout : agree_on (blk b (N * P)) out out').
  { apply (agree_on_linear sd (sub name "output_linear")
             ((c0 + (c1 + (c2 + 0))) * gd) P N b st st' out out' [B * N]).
    - rewrite So. cbn [app]. do 3 f_equal. lia.
    - apply (agree_on_blk_eq b (N * ((c0 + c1 + c2) * gd)));
        [f_equal; f_equal; lia|].
      exact Ast.
    - exact El.
    - exact El'. }
  exists out, out', g'.
  unfold STAGGCNModel.forward, STCell.forward.
  split; [|split; [|split; [exact Sout | exact Aout]]].
  - unfold bind, lift. rewrite Eb, Eo, Hlin. cbn [list_sum fold_right].
    now rewrite El.
  - unfold bind, lift. rewrite Eb', Eo', Hlin. cbn [list_sum fold_right].
    now rewrite El'.
Qed.

(** [x[:, :, :, 0]] entry by entry. *)
Lemma select_last_get (t : tensor) (B W N F : nat) :
  shape t = [B; W; N; F] -> 1 <= F ->
  exists s, select t 3 0 = Ok s /\ shape s = [B; W; N]
            /\ forall j, j < B * W * N -> get s j = get t (j * F).
Proof.
  intros Ht HF. unfold select. rewrite Ht. cbn [nth_error].
  replace (0 <? F) with true by (symmetry; now apply Nat.ltb_lt).
  eexists. split; [reflexivity|]. split; [reflexivity|].
  intros j Hj. cbn [firstn skipn app numel fold_right].
  rewrite get_build by (cbn [numel fold_right]; lia).
  now rewrite Nat.div_1_r, Nat.mod_1_r, Nat.mul_1_r, !Nat.add_0_r.
Qed.

(** Row [b * N + n] of the matrix of lines 68-70, entry by entry. *)
Lemma input_of_rows (batch : STAGGCN.Batch) (B W N F : nat) :
  shape (STAGGCN.X batch) = [B; W; N; F] -> 1 <= W -> 1 <= F ->
  exists x,
    STAGGCN.input_of batch = Ok x /\ shape x = [B * N; W]
    /\ forall b n w, b < B -> n < N -> w < W ->
         get x ((b * N + n) * W + w)
         = get (STAGGCN.X batch) (((b * W + w) * N + n) * F).
Proof.
  intros HX HW HF. unfold STAGGCN.input_of.
  destruct (select_last_get _ B W N F HX HF) as (s & Es & Ss & Gs).
  destruct (permute_021_get s B W N Ss) as (p & Ep & Sp & Gp).
  destruct (reshape_infer p [None; Some W] (B * N)) as (x & Ex & Sx).
  1-3: rewrite ?Sp; shape_arith.
  rewrite Es. cbn [rbind]. rewrite Ep. cbn [rbind].
  unfold size. rewrite Sp. cbn [nth_error rbind].
  exists x. split; [exact Ex|]. split; [exact Sx|].
  intros b n w Hb Hn Hw.
  rewrite (reshape_get _ _ _ Ex).
  - rewrite (Gp b n w Hb Hn Hw). apply Gs. now apply row3_lt.
  - rewrite Sx. unfold fill. cbn [map numel fold_right].
    rewrite Nat.mul_1_r. now apply row3_lt.
Qed.

(** The rows of a sample in the matrix given to the model come from channel
    0 of that sample. *)
Lemma input_of_samples (batch batch' : STAGGCN.Batch) (B W N F b : nat) :
  shape (STAGGCN.X batch) = [B; W; N; F] ->
  shape (STAGGCN.X batch') = [B; W; N; F] ->
  1 <= W -> 1 <= F -> b < B ->
  (forall w n, w < W -> n < N ->
     get (STAGGCN.X batch) (((b * W + w) * N + n) * F)
     = get (STAGGCN.X batch') (((b * W + w) * N + n) * F)) ->
  exists x x',
    STAGGCN.input_of batch = Ok x /\ STAGGCN.input_of batch' = Ok x'
    /\ shape x = [B * N; W] /\ agree_on (blk b (N * W)) x x'.
Proof.
  intros HX HX' HW HF Hb Hsame.
  destruct (input_of_rows batch B W N F HX HW HF) as (x & Ex & Sx & Gx).
  destruct (input_of_rows batch' B W N F HX' HW HF) as (x' & Ex' & Sx' & Gx').
  exists x, x'. split; [exact Ex|]. split; [exact Ex'|]. split; [exact Sx|].
  split; [congruence|].
  intros i [Hi1 Hi2] _.
  assert (Hr1 : b * N <= i / W) by (apply Nat.div_le_lower_bound; nia).
  assert (Hr2 : i / W < (b + 1) * N) by (apply Nat.Div0.div_lt_upper_bound; nia).
  assert (Hw : i mod W < W) by (apply Nat.mod_upper_bound; lia).
  assert (Ei : i = (b * N + (i / W - b * N)) * W + i mod W).
  { replace (b * N + (i / W - b * N)) with (i / W) by lia.
    rewrite (Nat.div_mod_eq i W) at 1. ring. }
  rewrite Ei, Gx, Gx' by lia.
  apply Hsame; lia.
Qed.

(** X16: the samples of a batch do not interact.  Let two batches of the
    same shape have the same channel 0 in sample [b], whatever their other
    samples and channels.  Then [forward], started on each from the same
    state of the generator, leaves the generator in the same state and
    predicts the same values for sample [b], in training mode as in
    evaluation mode: the attention, the convolutions, the linear layers and
    the learned adjacency work sample by sample, the dropout masks depend on
    the shapes only, and the edges are those of the model. *)
Theorem samples_do_not_interact :
  forall (sd : state_dict) (training : bool) (config : STAGGCN.Config)
         (data_feature : STAGGCN.DataFeature) (self : STAGGCN.t)
         (batch batch' : STAGGCN.Batch) (feature_dim : nat) (g : Generator)
         (b : nat),
    STAGGCN.init sd training config data_feature = Ok self ->
    sensible self -> 1 <= feature_dim ->
    shape (STAGGCN.X batch)
    = [STAGGCN.batch_size self; STAGGCN.input_window self;
       STAGGCN.num_nodes self; feature_dim] ->
    shape (STAGGCN.X batch')
    = [STAGGCN.batch_size self; STAGGCN.input_window self;
       STAGGCN.num_nodes self; feature_dim] ->
    b < STAGGCN.batch_size self ->
    (forall w n,
       w < STAGGCN.input_window self -> n < STAGGCN.num_nodes self ->
       get (STAGGCN.X batch)
           (((b * STAGGCN.input_window self + w) * STAGGCN.num_nodes self + n)
            * feature_dim)
       = get (STAGGCN.X batch')
             (((b * STAGGCN.input_window self + w) * STAGGCN.num_nodes self + n)
              * feature_dim)) ->
    exists out out' self1 self2 g',
      STAGGCN.forward self batch g = (Ok out, self1, g')
      /\ STAGGCN.forward self batch' g = (Ok out', self2, g')
      /\ forall p n,
           p < STAGGCN.output_window self -> n < STAGGCN.num_nodes self ->
           get out ((b * STAGGCN.output_window self + p) * STAGGCN.num_nodes self + n)
           = get out' ((b * STAGGCN.output_window self + p)
                       * STAGGCN.num_nodes self + n).
Proof.
  intros sd training config data_feature self batch batch' F g b
         Hinit Hs HF HX HX' Hb Hsame.
  destruct Hs as (Hflags & HN1 & HW1 & Hgd1 & He & Hde).
  destruct Hflags as (c0 & c1 & c2 & Hch & H0 & H1 & H2 & Hsum).
  pose proof (STAGGCN_init_model sd training config data_feature self Hinit) as Hm.
  rewrite Hch in Hm.
  assert (HB : 1 <= STAGGCN.batch_size self) by lia.
  destruct (input_of_samples batch batch' _ _ _ F b HX HX' HW1 HF Hb Hsame)
    as (x & x' & Ex & Ex' & Sx & Ax).
  set (d := STAGGCN.device_ self).
  destruct (model_samples sd "model" _ _ _ _ _ c0 c1 c2 _ training _
              (STAGGCN.batch_size self) b x x'
              (to (STAGGCN.edge_index self) d) (to (STAGGCN.dtw_edge_index self) d)
              g Hm H0 H1 H2 Hsum HB HN1 HW1 Hgd1 Sx Ax
              (edges_within_mono _ _ _ d (le_n _) He)
              (edges_within_mono _ _ _ d (le_n _) Hde))
    as (outputs & outputs' & g' & Em & Em' & So & Ao).
  assert (So' : shape outputs'
                = [STAGGCN.batch_size self * STAGGCN.num_nodes self;
                   STAGGCN.output_window self])
    by (destruct Ao; congruence).
  destruct (reshape_known outputs
              [Some (STAGGCN.batch_size self); Some (STAGGCN.output_window self);
               Some (STAGGCN.num_nodes self); Some 1]) as (out & Eo & Sout).
  { reflexivity. }
  { rewrite So. cbn [known flat_map app numel fold_right]. ring. }
  destruct (reshape_known outputs'
              [Some (STAGGCN.batch_size self); Some (STAGGCN.output_window self);
               Some (STAGGCN.num_nodes self); Some 1]) as (out' & Eo' & Sout').
  { reflexivity. }
  { rewrite So'. cbn [known flat_map app numel fold_right]. ring. }
  pose proof (agree_on_reshape _ _ _ _ _ _ Ao Eo Eo') as [_ Aout].
  eexists out, out', _, _, g'.
  split; [|split].
  - unfold STAGGCN.forward. rewrite Ex.
    cbn [STAGGCN.set_edge_index STAGGCN.set_dtw_edge_index STAGGCN.model
         STAGGCN.edge_index STAGGCN.dtw_edge_index STAGGCN.device_
         STAGGCN.batch_size STAGGCN.output_window STAGGCN.num_nodes].
    fold d. rewrite Em, Eo. reflexivity.
  - unfold STAGGCN.forward. rewrite Ex'.
    cbn [STAGGCN.set_edge_index STAGGCN.set_dtw_edge_index STAGGCN.model
         STAGGCN.edge_index STAGGCN.dtw_edge_index STAGGCN.device_
         STAGGCN.batch_size STAGGCN.output_window STAGGCN.num_nodes].
    fold d. rewrite Em', Eo'. reflexivity.
  - intros p n Hp Hn.
    pose proof (row3_lt b p n _ _ _ Hb Hp Hn) as Hlt.
    apply Aout.
    + split; nia.
    + rewrite Sout. unfold fill. cbn [map numel fold_right].
      rewrite Nat.mul_1_r, !Nat.mul_assoc. exact Hlt.
Qed.

Lemma samples_do_not_interact_witness :
  exists self out out' self1 self2 g',
    STAGGCN.init example_sd true example_config_of_two example_data_feature
    = Ok self
    /\ STAGGCN.forward self example_batch_of_two example_generator
       = (Ok out, self1, g')
    /\ STAGGCN.forward self example_batch_of_two' example_generator
       = (Ok out', self2, g')
    /\ get out 2 = get out' 2 /\ get out 3 = get out' 3.
Proof.
  destruct example_model_of_two as (self & Hinit & Hs & HB & HW & HN & HP).
  destruct (samples_do_not_interact
              example_sd true example_config_of_two example_data_feature self
              example_batch_of_two example_batch_of_two' 2 example_generator 1
              Hinit Hs)
    as (out & out' & self1 & self2 & g' & Ef & Ef' & Hget).
  { apply le_S, le_n. }
  { rewrite HB, HW, HN. reflexivity. }
  { rewrite HB, HW, HN. reflexivity. }
  { rewrite HB. apply le_n. }
  { rewrite HW, HN. intros w n Hw Hn.
    destruct w as [|[|w]]; [| |lia]; (destruct n as [|[|n]]; [| |lia]);
      reflexivity. }
  rewrite HP, HN in Hget.
  exists self, out, out', self1, self2, g'.
  split; [exact Hinit|]. split; [exact Ef|]. split; [exact Ef'|].
  split.
  - exact (Hget 0 0 (le_n 1) (le_S 1 1 (le_n 1))).
  - exact (Hget 0 1 (le_n 1) (le_n 2)).
Defined.

(** ** The generator is the only source of randomness *)


























